(** * Customisable billiards: physics engine, 8-ball rules and message channel

    A shallow embedding of the parts of the repository that the
    specification's testable properties talk about:

    - [vectors.py]     : [Vector2D] (module [Vec]);
    - [simulation.py]  : [Circle], [LineSegment], [Ball], [Table] (module [Sim]);
    - [server.py]      : the rule checks of [Lobby] (module [Server]) and the
                         sender worker of [Connection] (module [ServerChannel]);
    - [client.py]      : the rule checks of [OfflineGame] (module [Client]) and
                         the sender worker of [Connection] (module [ClientChannel]).

    Numbers.  Python's [int]/[float] values of the physics engine are
    embedded as real numbers [R]: every arithmetic operator is the exact one
    and [math.sqrt], [math.cos], [math.sin], [math.pi] are [sqrt], [cos],
    [sin], [PI].  Comparisons are the decidable comparisons of [R] turned
    into [bool].

    Objects.  A [Ball] is a mutable object that is reachable from several
    lists at once ([Table.balls], [Table.pocketed], [Table.hit], the group
    lists of the lobby), so balls live in a store ([Sim.Heap]) and the lists
    hold references ([Sim.ref]).  Python's [is] on balls is equality of
    references. *)

From Stdlib Require Import Reals Lra Lia List String Ascii Bool Arith ZArith QArith.
From Stdlib Require Import Permutation.
Import ListNotations.

Set Implicit Arguments.

Close Scope Q_scope.
Close Scope R_scope.
Open Scope nat_scope.

(* ================================================================== *)
(** * Python results                                                   *)
(* ================================================================== *)

Module Py.

(** The exceptions the embedded code can raise. *)
Inductive Exn : Type :=
| TypeError (msg : string)
| ValueError (msg : string)
| AttributeError (attr : string)
| IndexError (msg : string)
| ZeroDivisionError (msg : string).

(** A Python computation either evaluates to a value or raises.  The
    [while] loops of the source are run with a bound on the number of
    iterations; [OutOfFuel] says that the bound was reached with the loop
    condition still true (the Python loop would still be running). *)
Inductive Result (A : Type) : Type :=
| Ok (a : A)
| Raise (e : Exn)
| OutOfFuel.

Arguments Ok {A} a.
Arguments Raise {A} e.
Arguments OutOfFuel {A}.

Definition bind {A B} (m : Result A) (k : A -> Result B) : Result B :=
  match m with
  | Ok a => k a
  | Raise e => Raise e
  | OutOfFuel => OutOfFuel
  end.

Definition completes {A} (m : Result A) : Prop :=
  exists a, m = Ok a.

Definition raises {A} (m : Result A) : Prop :=
  exists e, m = Raise e.

End Py.

Notation "x <- m ;; k" := (Py.bind m (fun x => k))
  (at level 61, m at next level, right associativity).
Notation "' pat <- m ;; k" := (Py.bind m (fun x => match x with pat => k end))
  (at level 61, pat pattern, m at next level, right associativity).

(* ================================================================== *)
(** * Boolean comparisons on the reals                                 *)
(* ================================================================== *)

Definition Reqb (x y : R) : bool := if Req_dec_T x y then true else false.
Definition Rleb (x y : R) : bool := if Rle_dec x y then true else false.
Definition Rltb (x y : R) : bool := if Rlt_dec x y then true else false.

(* ================================================================== *)
(** * vectors.py                                                       *)
(* ================================================================== *)

Module Vec.

Local Open Scope R_scope.
Local Open Scope string_scope.

(** [class Vector2D]: two numeric components. *)
Record Vector2D : Type := mkVec { x : R; y : R }.

(** The values that reach the [is_numeric] / [is_vector] wrappers and
    that attribute look-ups return. *)
Inductive PyObj : Type :=
| PVec (v : Vector2D)
| PNum (r : R)
| PBool (b : bool)
| PMethod (name : string)
| PNone.

Definition add (a b : Vector2D) : Vector2D := mkVec (x a + x b) (y a + y b).
Definition sub (a b : Vector2D) : Vector2D := mkVec (x a - x b) (y a - y b).
Definition mul (a : Vector2D) (amount : R) : Vector2D :=
  mkVec (x a * amount) (y a * amount).
(** [__rmul__] is [__mul__]. *)
Definition rmul (amount : R) (a : Vector2D) : Vector2D := mul a amount.

(** [__truediv__]: raises on a zero divisor. *)
Definition truediv (a : Vector2D) (amount : R) : Py.Result Vector2D :=
  if Reqb amount 0
  then Py.Raise (Py.ZeroDivisionError "Cannot divide a vector by zero.")
  else Py.Ok (mkVec (if negb (Reqb amount 0) then x a / amount else x a)
                    (if negb (Reqb amount 0) then y a / amount else y a)).

Definition neg (a : Vector2D) : Vector2D := mul a (-1).

Definition magnitude (a : Vector2D) : R := sqrt (x a ^ 2 + y a ^ 2).
Definition magnitude_squared (a : Vector2D) : R := x a ^ 2 + y a ^ 2.

(** [normalise] and [normalise_result] compute the same vector; the first
    writes it into the receiver, the second returns it. *)
Definition normalise_result (a : Vector2D) : Vector2D :=
  let m := magnitude a in
  if negb (Reqb m 0)
  then mkVec (if negb (Reqb m 0) then x a / m else x a)
             (if negb (Reqb m 0) then y a / m else y a)
  else mkVec 0 0.

Definition normalise (a : Vector2D) : Vector2D :=
  let m := magnitude a in
  if negb (Reqb m 0) then mkVec (x a / m) (y a / m) else a.

Definition dot_product (a b : Vector2D) : R := x a * x b + y a * y b.
Definition perpendicular (a : Vector2D) : Vector2D := mkVec (- y a) (x a).
Definition copy (a : Vector2D) : Vector2D := mkVec (x a) (y a).

(** [__eq__] / [__ne__] bodies: exact, component-wise. *)
Definition eqb (a b : Vector2D) : bool := Reqb (x a) (x b) && Reqb (y a) (y b).
Definition neb (a b : Vector2D) : bool :=
  negb (Reqb (x a) (x b)) || negb (Reqb (y a) (y b)).

Definition zero : Vector2D := mkVec 0 0.

(** ** Attribute look-up

    The names a [Vector2D] instance answers to: the two name-mangled
    instance attributes written by the setters, the properties and the
    methods of the class body. *)
Definition methods : list string :=
  [ "__init__"; "set"; "__str__"; "__iadd__"; "__add__"; "__radd__";
    "__isub__"; "__sub__"; "__imul__"; "__mul__"; "__rmul__";
    "__itruediv__"; "__truediv__"; "__neg__"; "__lt__"; "__le__";
    "__eq__"; "__ne__"; "__ge__"; "__gt__"; "normalise";
    "normalise_result"; "dot_product"; "round"; "round_result";
    "perpendicular"; "copy"; "__getitem__" ].

Definition getattr (v : Vector2D) (name : string) : Py.Result PyObj :=
  if String.eqb name "x" then Py.Ok (PNum (x v))
  else if String.eqb name "y" then Py.Ok (PNum (y v))
  else if String.eqb name "_Vector2D__x" then Py.Ok (PNum (x v))
  else if String.eqb name "_Vector2D__y" then Py.Ok (PNum (y v))
  else if String.eqb name "magnitude" then Py.Ok (PNum (magnitude v))
  else if String.eqb name "magnitude_squared"
       then Py.Ok (PNum (magnitude_squared v))
  else if existsb (String.eqb name) methods then Py.Ok (PMethod name)
  else Py.Raise (Py.AttributeError name).

(** The [is_vector] wrapper. *)
Definition is_vector {A} (func : Vector2D -> Vector2D -> Py.Result A)
           (self : Vector2D) (obj : PyObj) : Py.Result A :=
  match obj with
  | PVec v => func self v
  | _ => Py.Raise (Py.TypeError "Input must be a vector quantity.")
  end.

(** Python's ordering operators on two numbers. *)
Definition num_cmp (op : R -> R -> bool) (a b : PyObj) : Py.Result bool :=
  match a, b with
  | PNum r1, PNum r2 => Py.Ok (op r1 r2)
  | _, _ => Py.Raise (Py.TypeError "unorderable operands")
  end.

(** The four magnitude comparisons.  The left operand is evaluated first,
    then the right one. *)
Definition __lt__ : Vector2D -> PyObj -> Py.Result bool :=
  is_vector (fun self vector =>
    a <- getattr self "magnitude_squared" ;;
    b <- getattr vector "magnitude_sqared" ;;
    num_cmp Rltb a b).

Definition __le__ : Vector2D -> PyObj -> Py.Result bool :=
  is_vector (fun self vector =>
    a <- getattr self "magnitude_squared" ;;
    b <- getattr vector "magnitude_sqared" ;;
    num_cmp Rleb a b).

Definition __ge__ : Vector2D -> PyObj -> Py.Result bool :=
  is_vector (fun self vector =>
    a <- getattr self "magnitude_squared" ;;
    b <- getattr vector "magnitude_sqared" ;;
    num_cmp (fun r1 r2 => Rleb r2 r1) a b).

Definition __gt__ : Vector2D -> PyObj -> Py.Result bool :=
  is_vector (fun self vector =>
    a <- getattr self "magnitude_squared" ;;
    b <- getattr vector "magnitude_sqared" ;;
    num_cmp (fun r1 r2 => Rltb r2 r1) a b).

Definition __eq__ : Vector2D -> PyObj -> Py.Result bool :=
  is_vector (fun self vector => Py.Ok (eqb self vector)).

Definition __ne__ : Vector2D -> PyObj -> Py.Result bool :=
  is_vector (fun self vector => Py.Ok (neb self vector)).

End Vec.


(* ================================================================== *)
(** * simulation.py                                                    *)
(* ================================================================== *)

Module Sim.

Import Vec.
Local Open Scope R_scope.

(** The keys of the settings dictionary that the simulation reads. *)
Record Settings : Type := mkSettings {
  table_length : R;
  table_width : R;
  hole_factor : R;
  ball_radius : R;
  gravity : R;
  time_of_cue_impact : R;
  table_coeff_of_rest : R;
  coeff_of_static_friction : R;
  coeff_of_rolling_friction : R;
  ball_mass : R;
  air_density : R;
  ball_coeff_of_drag : R;
  ball_coeff_of_rest : R;
  limiting_vel : R
}.

(** ** Geometry *)

Record Circle : Type := mkCircle { centre : Vector2D; c_radius : R }.

Record LineSegment : Type := mkLine {
  coord1 : Vector2D;
  coord2 : Vector2D;
  vector : Vector2D
}.

Definition LineSegment_init (c1 c2 : Vector2D) : LineSegment :=
  mkLine c1 c2 (sub c2 c1).

Definition coord_within_bounds (self : LineSegment) (coord : Vector2D)
           (extra : R) : bool :=
  (Rltb (x (coord1 self) - extra) (x coord) && Rltb (x coord) (x (coord2 self) + extra))
  || (Rltb (x (coord2 self) - extra) (x coord) && Rltb (x coord) (x (coord1 self) + extra))
  || (Rltb (y (coord1 self) - extra) (y coord) && Rltb (y coord) (y (coord2 self) + extra))
  || (Rltb (y (coord2 self) - extra) (y coord) && Rltb (y coord) (y (coord1 self) + extra)).

Definition circle_line_collision_check (circle : Circle) (line : LineSegment)
  : bool :=
  let distance_vector := sub (centre circle) (coord1 line) in
  let normalised_line_vector := normalise_result (vector line) in
  let projected_magnitude := dot_product distance_vector normalised_line_vector in
  let projected_vector := mul normalised_line_vector projected_magnitude in
  let new_position := add (coord1 line) projected_vector in
  if coord_within_bounds line new_position 0 then
    let distance_vector := sub (centre circle) new_position in
    Rleb (magnitude_squared distance_vector) (c_radius circle ^ 2)
  else
    let coord_one_distance := magnitude_squared (sub (coord1 line) (centre circle)) in
    let coord_two_distance := magnitude_squared (sub (coord2 line) (centre circle)) in
    let closest_distance := Rmin coord_one_distance coord_two_distance in
    Rleb closest_distance (c_radius circle ^ 2).

Definition circle_circle_collision_check (circle1 circle2 : Circle) : bool :=
  let separation_vector := sub (centre circle2) (centre circle1) in
  let distance_between_squared := magnitude_squared separation_vector in
  if Rltb ((c_radius circle1 + c_radius circle2) ^ 2) distance_between_squared
  then false
  else if Rltb distance_between_squared ((c_radius circle1 - c_radius circle2) ^ 2)
  then false
  else true.

(** [Circle.contains(coordinate, extra=0)] on a [Vector2D]. *)
Definition contains (self : Circle) (coordinate : Vector2D) (extra : R) : bool :=
  let distance := sub coordinate (centre self) in
  Rleb (magnitude_squared distance) ((c_radius self + extra) ^ 2).

(** ** Ball

    [representation.centre] is the very [Vector2D] object that [pos]
    refers to: the constructor builds [Circle(self.pos, radius)] and
    [update_position] rebinds both together.  The record therefore has
    one field, [pos], for the two names; [self.centre.set(v)] writes it.
    [radius] is the ball's radius and the radius of its representation. *)
Record Ball : Type := mkBall {
  pos : Vector2D;
  settings : Settings;
  striped : bool;
  number : option Z;
  new_pos : Vector2D;
  old_pos : Vector2D;
  radius : R;
  mass : R;
  normal_contact : R;
  vel : Vector2D;
  applied_force : option (Vector2D * R);
  air_res_coeff : R;
  colliding : bool;
  hit_rail : bool;
  can_collide : bool;
  attempted_force_application : bool
}.

Definition set_pos (v : Vector2D) (b : Ball) : Ball :=
  mkBall v (settings b) (striped b) (number b) (new_pos b) (old_pos b)
         (radius b) (mass b) (normal_contact b) (vel b) (applied_force b)
         (air_res_coeff b) (colliding b) (hit_rail b) (can_collide b)
         (attempted_force_application b).
Definition set_new_pos (v : Vector2D) (b : Ball) : Ball :=
  mkBall (pos b) (settings b) (striped b) (number b) v (old_pos b)
         (radius b) (mass b) (normal_contact b) (vel b) (applied_force b)
         (air_res_coeff b) (colliding b) (hit_rail b) (can_collide b)
         (attempted_force_application b).
Definition set_old_pos (v : Vector2D) (b : Ball) : Ball :=
  mkBall (pos b) (settings b) (striped b) (number b) (new_pos b) v
         (radius b) (mass b) (normal_contact b) (vel b) (applied_force b)
         (air_res_coeff b) (colliding b) (hit_rail b) (can_collide b)
         (attempted_force_application b).
Definition set_vel (v : Vector2D) (b : Ball) : Ball :=
  mkBall (pos b) (settings b) (striped b) (number b) (new_pos b) (old_pos b)
         (radius b) (mass b) (normal_contact b) v (applied_force b)
         (air_res_coeff b) (colliding b) (hit_rail b) (can_collide b)
         (attempted_force_application b).
Definition set_applied_force (f : option (Vector2D * R)) (b : Ball) : Ball :=
  mkBall (pos b) (settings b) (striped b) (number b) (new_pos b) (old_pos b)
         (radius b) (mass b) (normal_contact b) (vel b) f
         (air_res_coeff b) (colliding b) (hit_rail b) (can_collide b)
         (attempted_force_application b).
Definition set_colliding (c : bool) (b : Ball) : Ball :=
  mkBall (pos b) (settings b) (striped b) (number b) (new_pos b) (old_pos b)
         (radius b) (mass b) (normal_contact b) (vel b) (applied_force b)
         (air_res_coeff b) c (hit_rail b) (can_collide b)
         (attempted_force_application b).
Definition set_hit_rail (c : bool) (b : Ball) : Ball :=
  mkBall (pos b) (settings b) (striped b) (number b) (new_pos b) (old_pos b)
         (radius b) (mass b) (normal_contact b) (vel b) (applied_force b)
         (air_res_coeff b) (colliding b) c (can_collide b)
         (attempted_force_application b).
Definition set_can_collide (c : bool) (b : Ball) : Ball :=
  mkBall (pos b) (settings b) (striped b) (number b) (new_pos b) (old_pos b)
         (radius b) (mass b) (normal_contact b) (vel b) (applied_force b)
         (air_res_coeff b) (colliding b) (hit_rail b) c
         (attempted_force_application b).
Definition set_attempted (c : bool) (b : Ball) : Ball :=
  mkBall (pos b) (settings b) (striped b) (number b) (new_pos b) (old_pos b)
         (radius b) (mass b) (normal_contact b) (vel b) (applied_force b)
         (air_res_coeff b) (colliding b) (hit_rail b) (can_collide b) c.

(** [Ball.__init__]. *)
Definition Ball_init (coords : Vector2D) (s : Settings) (is_striped : bool)
           (num : option Z) : Ball :=
  let area := 2 * PI * (ball_radius s ^ 2) in
  {| pos := coords;
     settings := s;
     striped := is_striped;
     number := num;
     new_pos := copy coords;
     old_pos := copy coords;
     radius := ball_radius s;
     mass := ball_mass s;
     normal_contact := - ball_mass s * gravity s;
     vel := mkVec 0 0;
     applied_force := None;
     air_res_coeff := (- air_density s * ball_coeff_of_drag s * area) / 2;
     colliding := false;
     hit_rail := false;
     can_collide := true;
     attempted_force_application := false |}.

Definition representation (b : Ball) : Circle := mkCircle (pos b) (radius b).

(** [vel.x != 0 or vel.y != 0]. *)
Definition moving (b : Ball) : bool :=
  negb (Reqb (x (vel b)) 0) || negb (Reqb (y (vel b)) 0).

(** [Ball.apply_force]. *)
Definition apply_force (self : Ball) (time_of_application force angle : R)
  : Ball :=
  let self := set_attempted true self in
  if Reqb (magnitude_squared (vel self)) 0
     && Rleb force (coeff_of_static_friction (settings self)
                    * normal_contact self * -1)
  then self
  else set_applied_force
         (Some (mkVec (cos angle * force) (sin angle * force),
                time_of_application)) self.

(** The part of [update_physics] after the bookkeeping of the impulse's
    remaining time. *)
Definition integrate (self : Ball) (time : R) : Py.Result Ball :=
  let friction :=
    rmul (coeff_of_rolling_friction (settings self) * normal_contact self)
         (normalise_result (vel self)) in
  let air_res := mul (rmul (air_res_coeff self) (vel self)) (magnitude (vel self)) in
  let '(resultant, self) :=
    match applied_force self with
    | Some (f, remaining) =>
        (add (add f friction) air_res,
         if Rleb remaining 0 then set_applied_force None self else self)
    | None => (add friction air_res, self)
    end in
  acceleration <- truediv resultant (mass self) ;;
  let previous_vel := copy (vel self) in
  let self := set_vel (add (vel self) (mul acceleration time)) self in
  let self := set_new_pos (add (new_pos self) (mul (vel self) time)) self in
  let zero_vector := mkVec 0 0 in
  let self :=
    if neb (vel self) zero_vector && neb previous_vel zero_vector
       && Rltb (dot_product previous_vel (vel self)) 0
    then set_vel zero_vector self else self in
  let self :=
    if Rltb (Rabs (x (vel self))) (limiting_vel (settings self))
    then set_vel (mkVec 0 (y (vel self))) self else self in
  let self :=
    if Rltb (Rabs (y (vel self))) (limiting_vel (settings self))
    then set_vel (mkVec (x (vel self)) 0) self else self in
  Py.Ok (set_pos (new_pos self) self).

(** [Ball.update_physics].  The method calls itself when the impulse ends
    inside the step; [depth] bounds the nesting of these calls. *)
Fixpoint update_physics_rec (depth : nat) (self : Ball) (time : R)
  : Py.Result Ball :=
  match depth with
  | O => Py.OutOfFuel
  | S depth' =>
      let self := set_hit_rail false (set_colliding false self) in
      match applied_force self with
      | Some (f, time_remaining) =>
          if Rltb time_remaining time then
            self <- update_physics_rec depth' self time_remaining ;;
            let self := set_applied_force None self in
            integrate self (time - time_remaining)
          else
            integrate (set_applied_force (Some (f, time_remaining - time)) self)
                      time
      | None => integrate self time
      end
  end.

(** Two levels are all the method can use: the inner call is made with
    [time = time_remaining], for which the test [time_remaining < time]
    fails (see [update_physics_depth]). *)
Definition update_physics (self : Ball) (time : R) : Py.Result Ball :=
  update_physics_rec 2 self time.

Definition check_collision_ball (self other : Ball) : bool :=
  circle_circle_collision_check (representation self) (representation other).

Definition check_collision_line (self : Ball) (line : LineSegment) : bool :=
  circle_line_collision_check (representation self) line.

(** [Ball.update_position]. *)
Definition update_position (self : Ball) : Ball :=
  let self := set_old_pos (pos self) self in
  set_pos (copy (new_pos self)) self.

(** [Ball.collide_with_line]. *)
Definition collide_with_line (self : Ball) (line : LineSegment) : Ball :=
  let line_vector := normalise_result (vector line) in
  let perpendicular_line := perpendicular line_vector in
  let dot := dot_product perpendicular_line (vel self) in
  let upper_point := add (new_pos self) (mul perpendicular_line (radius self)) in
  let distance_vector := sub upper_point (coord1 line) in
  let upper_position :=
    add (coord1 line) (mul line_vector (dot_product distance_vector line_vector)) in
  let overlap := sub upper_position upper_point in
  let overlap :=
    if Rleb 0 (dot_product overlap (vel self)) then
      let lower_point := sub (new_pos self) (mul perpendicular_line (radius self)) in
      let distance_vector := sub lower_point (coord1 line) in
      let lower_position :=
        add (coord1 line)
            (mul line_vector (dot_product distance_vector line_vector)) in
      sub lower_position lower_point
    else overlap in
  let self := set_new_pos (add (new_pos self) (rmul 2 overlap)) self in
  let self := set_pos (new_pos self) self in
  let change_in_velocity :=
    mul perpendicular_line (dot * (1 + table_coeff_of_rest (settings self))) in
  set_vel (sub (vel self) change_in_velocity) self.

(** [Ball.collide_with_ball]: the residual-overlap [while] loop. *)
Fixpoint residual_overlap_loop (fuel : nat) (old_self_vel old_ball_vel : Vector2D)
         (self ball : Ball) : Py.Result (Ball * Ball) :=
  if circle_circle_collision_check (representation self) (representation ball)
  then
    match fuel with
    | O => Py.OutOfFuel
    | S fuel' =>
        if eqb (vel self) zero || eqb (vel ball) zero then
          let self := set_new_pos (add (new_pos self) (mul old_self_vel (1 / 10000))) self in
          let self := update_position self in
          let ball := set_new_pos (add (new_pos ball) (mul old_ball_vel (1 / 10000))) ball in
          let ball := update_position ball in
          residual_overlap_loop fuel' old_self_vel old_ball_vel self ball
        else
          self <- update_physics self (1 / 10000) ;;
          let self := set_pos (new_pos self) self in
          ball <- update_physics ball (1 / 10000) ;;
          let ball := set_pos (new_pos ball) ball in
          residual_overlap_loop fuel' old_self_vel old_ball_vel self ball
    end
  else Py.Ok (self, ball).

(** [Ball.collide_with_ball]: everything before the loop.  Returns the
    two balls and the two velocities saved on entry. *)
Definition collide_response (self ball : Ball)
  : Ball * Ball * Vector2D * Vector2D :=
  let old_ball_vel := copy (vel ball) in
  let old_self_vel := copy (vel self) in
  let normal_vector := sub (new_pos self) (new_pos ball) in
  let old_movement := sub (old_pos self) (old_pos ball) in
  let angle_between := dot_product normal_vector old_movement in
  let factor := if Rltb 0 angle_between then 1 else -1 in
  let overlap := (radius self + radius ball) - factor * magnitude normal_vector in
  let self_vel_mag := magnitude (vel self) in
  let ball_vel_mag := magnitude (vel ball) in
  let total_vel_mag := self_vel_mag + ball_vel_mag in
  let '(self, ball) :=
    if negb (Reqb total_vel_mag 0) then
      (set_new_pos
         (sub (new_pos self)
              (mul (mul (mul (normalise_result (vel self)) overlap)
                        (self_vel_mag / total_vel_mag)) 2)) self,
       set_new_pos
         (sub (new_pos ball)
              (mul (mul (mul (normalise_result (vel ball)) overlap)
                        (ball_vel_mag / total_vel_mag)) 2)) ball)
    else
      (set_new_pos
         (sub (new_pos self)
              (mul (mul (normalise_result (sub (new_pos self) (old_pos self)))
                        overlap) (1 / 2))) self,
       set_new_pos
         (sub (new_pos ball)
              (mul (mul (normalise_result (sub (new_pos ball) (old_pos ball)))
                        overlap) (1 / 2))) ball) in
  let self := set_pos (new_pos self) self in
  let ball := set_pos (new_pos ball) ball in
  let normal_vector := normalise normal_vector in
  let self_normal_vel := dot_product (vel self) normal_vector in
  let ball_normal_vel := dot_product (vel ball) normal_vector in
  let perpendicular := perpendicular normal_vector in
  let self_perpendicular_vel :=
    rmul (dot_product (vel self) perpendicular) perpendicular in
  let ball_perpendicular_vel :=
    rmul (dot_product (vel ball) perpendicular) perpendicular in
  let coeff := ball_coeff_of_rest (settings self) in
  let self :=
    set_vel (rmul (1 / 2 * ((1 - coeff) * self_normal_vel
                            + (1 + coeff) * ball_normal_vel))
                  normal_vector) self in
  let ball :=
    set_vel (add (sub (rmul (self_normal_vel + ball_normal_vel) normal_vector)
                      (vel self))
                 ball_perpendicular_vel) ball in
  let self := set_vel (add (vel self) self_perpendicular_vel) self in
  (self, ball, old_self_vel, old_ball_vel).

Definition collide_with_ball (fuel : nat) (self ball : Ball)
  : Py.Result (Ball * Ball) :=
  let '(self, ball, old_self_vel, old_ball_vel) := collide_response self ball in
  residual_overlap_loop fuel old_self_vel old_ball_vel self ball.

(** [Ball.resolve_bounding_box_collision]. *)
Definition resolve_bounding_box_collision (self : Ball)
           (lower_pos upper_pos : Vector2D) : Ball * bool :=
  let '(self, outside_bounds) :=
    if negb (Rltb (x lower_pos) (x (new_pos self))
             && Rltb (x (new_pos self)) (x upper_pos)) then
      let overlap :=
        x (new_pos self)
        - (if Rleb (x (new_pos self)) (x lower_pos)
           then x lower_pos else x upper_pos) in
      let new_position := mkVec (x (new_pos self) - overlap * 2) (y (new_pos self)) in
      let line := LineSegment_init (mkVec 0 0) (mkVec 0 1) in
      let self := collide_with_line self line in
      let self := set_new_pos new_position self in
      (set_pos (new_pos self) self, true)
    else (self, false) in
  if negb (Rltb (y lower_pos) (y (new_pos self))
           && Rltb (y (new_pos self)) (y upper_pos)) then
    let overlap :=
      y (new_pos self)
      - (if Rleb (y (new_pos self)) (y lower_pos)
         then y lower_pos else y upper_pos) in
    let new_position := mkVec (x (new_pos self)) (y (new_pos self) - overlap * 2) in
    let line := LineSegment_init (mkVec 0 0) (mkVec 1 0) in
    let self := collide_with_line self line in
    let self := set_new_pos new_position self in
    (set_pos (new_pos self) self, true)
  else (self, outside_bounds).

(** ** The store of ball objects *)

Definition ref : Type := nat.
Definition Heap : Type := ref -> Ball.

Definition upd (h : Heap) (r : ref) (b : Ball) : Heap :=
  fun r' => if Nat.eqb r' r then b else h r'.

(** [ball in some_list] (balls compare by identity). *)
Definition mem (r : ref) (l : list ref) : bool := existsb (Nat.eqb r) l.

(** [ball is table.attribute] for an attribute that may be [None]. *)
Definition is_ref (r : ref) (o : option ref) : bool :=
  match o with
  | Some r' => Nat.eqb r r'
  | None => false
  end.

(** A [for] loop over a list that the body does not change. *)
Fixpoint for_each {A S : Type} (l : list A) (body : A -> S -> Py.Result S)
         (s : S) : Py.Result S :=
  match l with
  | [] => Py.Ok s
  | a :: l' => s' <- body a s ;; for_each l' body s'
  end.

(** [Ball.get_collisions]: the body of the loop over the balls. *)
Definition get_collisions_step (fuel : nat) (self ball : ref)
           (acc : Heap * list ref) : Py.Result (Heap * list ref) :=
  let '(h, hit) := acc in
  if negb (Nat.eqb ball self) && can_collide (h ball)
     && check_collision_ball (h self) (h ball)
  then
    let hit := hit ++ [ball] in
    '(s, b) <- collide_with_ball fuel (h self) (h ball) ;;
    let h := upd (upd h self (set_colliding true s))
                 ball (set_colliding true b) in
    Py.Ok (h, hit)
  else Py.Ok (h, hit).

(** [Ball.get_collisions]: the body of the loop over the rails. *)
Definition get_collisions_rail (self : ref) (h : Heap) (rail : LineSegment)
  : Heap :=
  if check_collision_line (h self) rail
  then upd h self (collide_with_line (set_hit_rail true (h self)) rail)
  else h.

(** [Ball.get_collisions]. *)
Definition get_collisions (fuel : nat) (self : ref) (balls : list ref)
           (rails : list LineSegment) (lower_pos upper_pos : Vector2D)
           (h : Heap) : Py.Result (Heap * list ref) :=
  '(h, hit) <- for_each balls (get_collisions_step fuel self) (h, []) ;;
  let h := fold_left (get_collisions_rail self) rails h in
  let h :=
    if negb (hit_rail (h self)) then
      let '(s, outside) :=
        resolve_bounding_box_collision (h self) lower_pos upper_pos in
      upd h self (set_hit_rail outside s)
    else h in
  Py.Ok (h, hit).

(** ** Table *)

Record Table : Type := mkTable {
  t_settings : Settings;
  t_pos : Vector2D;
  t_length : R;
  t_width : R;
  pocket_radius : R;
  upper_pos : Vector2D;
  balls : list ref;
  rails : list LineSegment;
  pockets : list Circle;
  in_motion : bool;
  previously_in_motion : bool;
  holding : option ref;
  eight_ball : option ref;
  cue_ball : option ref;
  hit : list ref;
  pocketed : list ref;
  rail_contacts : list ref
}.

Definition set_balls (l : list ref) (t : Table) : Table :=
  mkTable (t_settings t) (t_pos t) (t_length t) (t_width t) (pocket_radius t)
          (upper_pos t) l (rails t) (pockets t) (in_motion t)
          (previously_in_motion t) (holding t) (eight_ball t) (cue_ball t)
          (hit t) (pocketed t) (rail_contacts t).
Definition set_in_motion (m : bool) (t : Table) : Table :=
  mkTable (t_settings t) (t_pos t) (t_length t) (t_width t) (pocket_radius t)
          (upper_pos t) (balls t) (rails t) (pockets t) m
          (previously_in_motion t) (holding t) (eight_ball t) (cue_ball t)
          (hit t) (pocketed t) (rail_contacts t).
Definition set_previously_in_motion (m : bool) (t : Table) : Table :=
  mkTable (t_settings t) (t_pos t) (t_length t) (t_width t) (pocket_radius t)
          (upper_pos t) (balls t) (rails t) (pockets t) (in_motion t)
          m (holding t) (eight_ball t) (cue_ball t)
          (hit t) (pocketed t) (rail_contacts t).
Definition set_holding (o : option ref) (t : Table) : Table :=
  mkTable (t_settings t) (t_pos t) (t_length t) (t_width t) (pocket_radius t)
          (upper_pos t) (balls t) (rails t) (pockets t) (in_motion t)
          (previously_in_motion t) o (eight_ball t) (cue_ball t)
          (hit t) (pocketed t) (rail_contacts t).
Definition set_eight_ball (o : option ref) (t : Table) : Table :=
  mkTable (t_settings t) (t_pos t) (t_length t) (t_width t) (pocket_radius t)
          (upper_pos t) (balls t) (rails t) (pockets t) (in_motion t)
          (previously_in_motion t) (holding t) o (cue_ball t)
          (hit t) (pocketed t) (rail_contacts t).
Definition set_cue_ball (o : option ref) (t : Table) : Table :=
  mkTable (t_settings t) (t_pos t) (t_length t) (t_width t) (pocket_radius t)
          (upper_pos t) (balls t) (rails t) (pockets t) (in_motion t)
          (previously_in_motion t) (holding t) (eight_ball t) o
          (hit t) (pocketed t) (rail_contacts t).
Definition set_hit (l : list ref) (t : Table) : Table :=
  mkTable (t_settings t) (t_pos t) (t_length t) (t_width t) (pocket_radius t)
          (upper_pos t) (balls t) (rails t) (pockets t) (in_motion t)
          (previously_in_motion t) (holding t) (eight_ball t) (cue_ball t)
          l (pocketed t) (rail_contacts t).
Definition set_pocketed (l : list ref) (t : Table) : Table :=
  mkTable (t_settings t) (t_pos t) (t_length t) (t_width t) (pocket_radius t)
          (upper_pos t) (balls t) (rails t) (pockets t) (in_motion t)
          (previously_in_motion t) (holding t) (eight_ball t) (cue_ball t)
          (hit t) l (rail_contacts t).
Definition set_rail_contacts (l : list ref) (t : Table) : Table :=
  mkTable (t_settings t) (t_pos t) (t_length t) (t_width t) (pocket_radius t)
          (upper_pos t) (balls t) (rails t) (pockets t) (in_motion t)
          (previously_in_motion t) (holding t) (eight_ball t) (cue_ball t)
          (hit t) (pocketed t) l.

(** [Table.__init__]. *)
Definition Table_init (coords : Vector2D) (s : Settings) : Table :=
  let r := ball_radius s * hole_factor s in
  let L := table_length s in
  let w := table_width s in
  let line_coords :=
    [ (mkVec r 0, mkVec (L / 2 - r) 0);
      (mkVec (r + L / 2) 0, mkVec (0 - r + L) 0);
      (mkVec r w, mkVec (0 - r + L / 2) w);
      (mkVec (r + L / 2) w, mkVec (0 - r + L) w);
      (mkVec 0 r, mkVec 0 (w - r));
      (mkVec L r, mkVec (0 + L) (w - r)) ] in
  let circle_coords :=
    [ mkVec 0 0; mkVec (L / 2) 0; mkVec L 0;
      mkVec 0 w; mkVec (L / 2) w; mkVec L w ] in
  {| t_settings := s;
     t_pos := coords;
     t_length := L;
     t_width := w;
     pocket_radius := r;
     upper_pos := add coords (mkVec L w);
     balls := [];
     rails := map (fun coord => LineSegment_init (add (fst coord) coords)
                                                 (add (snd coord) coords))
                  line_coords;
     pockets := map (fun c => mkCircle (add c coords) r) circle_coords;
     in_motion := false;
     previously_in_motion := false;
     holding := None;
     eight_ball := None;
     cue_ball := None;
     hit := [];
     pocketed := [];
     rail_contacts := [] |}.

(** [Table.reset_counts]. *)
Definition reset_counts (t : Table) : Table :=
  set_rail_contacts [] (set_pocketed [] (set_hit [] t)).

Definition is_none {A} (o : option A) : bool :=
  match o with None => true | Some _ => false end.

(** [Table.add_ball]. *)
Definition add_ball (h : Heap) (t : Table) (ball : ref) : Table :=
  let t :=
    match number (h ball) with
    | Some 8%Z => set_eight_ball (Some ball) t
    | Some _ => t
    | None => if is_none (cue_ball t) then set_cue_ball (Some ball) t else t
    end in
  set_balls (balls t ++ [ball]) t.

(** [list.remove(x)]: drops the first occurrence, if there is one. *)
Fixpoint remove_first (r : ref) (l : list ref) : list ref :=
  match l with
  | [] => []
  | r' :: l' => if Nat.eqb r r' then l' else r' :: remove_first r l'
  end.

(** [Table.remove_ball]: the [ValueError] of a missing ball is caught. *)
Definition remove_ball (t : Table) (ball : ref) : Table :=
  set_balls (remove_first ball (balls t)) t.

(** [del some_list[k]] for a Python integer [k]: a negative index counts
    from the end, an index outside the list raises. *)
Fixpoint drop_nth {A} (n : nat) (l : list A) : list A :=
  match n, l with
  | _, [] => []
  | O, _ :: l' => l'
  | S n', a :: l' => a :: drop_nth n' l'
  end.

Definition del_at {A} (l : list A) (k : Z) : Py.Result (list A) :=
  let len := Z.of_nat (List.length l) in
  if ((0 <=? k) && (k <? len))%Z then Py.Ok (drop_nth (Z.to_nat k) l)
  else if ((- len <=? k) && (k <? 0))%Z then Py.Ok (drop_nth (Z.to_nat (len + k)) l)
  else Py.Raise (Py.IndexError "list assignment index out of range").

(** [Table.resolve_pockets]: a ball is handled when it is moving and some
    pocket contains its centre. *)
Definition enters_pocket (h : Heap) (t : Table) (ball : ref) : bool :=
  moving (h ball)
  && existsb (fun pocket => contains pocket (pos (h ball)) 0) (pockets t).

(** [Table.resolve_pockets].  The [for] loop runs over the list that its
    body shortens: the list iterator holds a position [index] (which
    [enumerate] also counts) and stops when the position is no longer
    inside the current list. *)
Fixpoint resolve_pockets_loop (fuel : nat) (index change_factor : nat)
         (h : Heap) (t : Table) : Py.Result (Heap * Table) :=
  match nth_error (balls t) index with
  | None => Py.Ok (h, t)
  | Some ball =>
      match fuel with
      | O => Py.OutOfFuel
      | S fuel' =>
          if enters_pocket h t ball then
            let t := set_pocketed (pocketed t ++ [ball]) t in
            if negb (is_ref ball (cue_ball t)) then
              l <- del_at (balls t) (Z.of_nat index - Z.of_nat change_factor) ;;
              resolve_pockets_loop fuel' (S index) (S change_factor) h
                                   (set_balls l t)
            else
              let t := set_holding (Some ball) t in
              let h := upd h ball (set_vel (mkVec 0 0) (h ball)) in
              let h := upd h ball (set_can_collide false (h ball)) in
              resolve_pockets_loop fuel' (S index) change_factor h t
          else resolve_pockets_loop fuel' (S index) change_factor h t
      end
  end.

Definition resolve_pockets (w : Heap * Table) : Py.Result (Heap * Table) :=
  let '(h, t) := w in
  resolve_pockets_loop (List.length (balls t)) 0 0 h t.

(** [Table.resolve_collisions]: the appends to [hit] and to
    [rail_contacts]. *)
Definition record_hit (t : Table) (ball : ref) : Table :=
  if negb (mem ball (hit t)) && negb (is_ref ball (cue_ball t))
  then set_hit (hit t ++ [ball]) t else t.

Definition record_rail_contact (h : Heap) (t : Table) (ball : ref) : Table :=
  if hit_rail (h ball) && negb (mem ball (rail_contacts t))
     && negb (is_ref ball (cue_ball t))
  then set_rail_contacts (rail_contacts t ++ [ball]) t else t.

(** [Table.resolve_collisions]: the body of the loop. *)
Definition resolve_collisions_step (fuel : nat) (ball : ref)
           (w : Heap * Table) : Py.Result (Heap * Table) :=
  let '(h, t) := w in
  if negb (colliding (h ball)) && can_collide (h ball) && moving (h ball)
  then
    '(h, collided_with) <-
      get_collisions fuel ball (balls t) (rails t) (t_pos t) (upper_pos t) h ;;
    let t :=
      if colliding (h ball)
      then fold_left record_hit collided_with (record_hit t ball)
      else t in
    Py.Ok (h, record_rail_contact h t ball)
  else Py.Ok (h, t).

(** [Table.resolve_collisions]. *)
Definition resolve_collisions (fuel : nat) (w : Heap * Table)
  : Py.Result (Heap * Table) :=
  for_each (balls (snd w)) (resolve_collisions_step fuel) w.

Definition is_some {A} (o : option A) : bool :=
  match o with None => false | Some _ => true end.

(** [Table.update]: the body of the first loop. *)
Definition update_motion_step (time : R) (ball : ref) (w : Heap * Table)
  : Py.Result (Heap * Table) :=
  let '(h, t) := w in
  if moving (h ball) || is_some (applied_force (h ball)) then
    b <- update_physics (h ball) time ;;
    Py.Ok (upd h ball b, set_in_motion true t)
  else if attempted_force_application (h ball) then
    Py.Ok (upd h ball (set_attempted false (h ball)), set_in_motion true t)
  else Py.Ok (h, t).

(** [Table.update]: the statements up to the end of the first loop. *)
Definition update_motion (time : R) (w : Heap * Table)
  : Py.Result (Heap * Table) :=
  let '(h0, t0) := w in
  let t0 := set_previously_in_motion (in_motion t0) t0 in
  let t0 := set_in_motion false t0 in
  for_each (balls t0) (update_motion_step time) (h0, t0).

(** [for ball in self.balls: ball.update_position()]. *)
Definition commit_positions (h : Heap) (t : Table) : Heap :=
  fold_left (fun h ball => upd h ball (update_position (h ball))) (balls t) h.

(** [Table.update]. *)
Definition update (fuel : nat) (time : R) (w : Heap * Table)
  : Py.Result (Heap * Table) :=
  '(h, t) <- update_motion time w ;;
  '(h, t) <- resolve_collisions fuel (h, t) ;;
  resolve_pockets (commit_positions h t, t).

End Sim.

(* ================================================================== *)
(** * server.py: the rules of [Lobby]                                  *)
(* ================================================================== *)

(** The two group lists [__striped_balls] / [__spotted_balls] are list
    objects that [__close_table] binds to [__p1_balls] / [__p2_balls]
    without copying, so a later [remove] through one name is seen through
    the other.  [ListRef] names the list object a variable is bound to;
    [FreshList] is the empty list that [__reset_state] creates (nothing is
    ever added to it). *)
Inductive ListRef : Type := FreshList | StripedList | SpottedList.

Record Stats : Type := mkStats {
  ShotsMade : nat;
  BallPockets : nat;
  OpponentBallPockets : nat;
  Fouls : nat
}.

(** The result of [__construct_objects] / [_place_balls]: a new table with
    the sixteen balls racked.  The order of the rack comes from
    [random.choice], so the outcome is an input of the model. *)
Record Rack : Type := mkRack {
  rack_heap : Sim.Heap;
  rack_table : Sim.Table;
  rack_striped : list Sim.ref;
  rack_spotted : list Sim.ref
}.

(** The reasons that [__foul_check] / [_foul_check] report. *)
Module FoulReason.
Local Open Scope string_scope.
Definition no_hit : string := "Fouled by failure to hit any ball.".
Definition eight_first : string :=
  "Fouled by hitting the 8-ball first when you still have balls left to pocket.".
Definition opponent_first : string :=
  "Fouled by hitting one of your opponent's balls first instead of your own.".
Definition no_pocket_no_rail : string :=
  "Fouled by failure to either pocket a ball or hit a numbered ball into a rail.".
Definition cue_pocketed : string := "Fouled by pocketing the cue ball.".
End FoulReason.

Module Server.

Import Sim.
Local Open Scope nat_scope.

(** The commands the lobby sends to its players. *)
Inductive Message : Type :=
| cmd_load_settings
| cmd_create_game (player : nat)
| cmd_force_redo_message
| cmd_redo_choice
| cmd_victory (winner : nat)
| cmd_foul (reasons : option (list string))
| cmd_close_table (first_group_is_striped : option bool)
| cmd_start_next_turn (continued is_break is_open may_shoot : bool)
| cmd_pass_turn
| cmd_keep.

Record Lobby : Type := mkLobby {
  heap : Heap;
  table : Table;
  striped_balls : list ref;
  spotted_balls : list ref;
  p1_balls : ListRef;
  p2_balls : ListRef;
  is_break : bool;             (* __break *)
  is_open : bool;              (* __open *)
  player_turn : nat;
  p1_is_striped : option bool;
  check_state : bool;
  can_shoot : bool;
  can_pass_turn : bool;
  checked : bool;
  starting_player : nat;       (* settings["starting_player"] *)
  victor : option nat;
  to_delete : bool;
  p1_stats : Stats;
  p2_stats : Stats;
  queue1 : list Message;       (* players[0].send_queue *)
  queue2 : list Message        (* players[1].send_queue *)
}.

(** Field updates, by position. *)
Definition with_table (h : Heap) (t : Table) (l : Lobby) : Lobby :=
  mkLobby h t (striped_balls l) (spotted_balls l) (p1_balls l) (p2_balls l)
          (is_break l) (is_open l) (player_turn l) (p1_is_striped l)
          (check_state l) (can_shoot l) (can_pass_turn l) (checked l)
          (starting_player l) (victor l) (to_delete l) (p1_stats l)
          (p2_stats l) (queue1 l) (queue2 l).
Definition with_lists (st sp : list ref) (l : Lobby) : Lobby :=
  mkLobby (heap l) (table l) st sp (p1_balls l) (p2_balls l)
          (is_break l) (is_open l) (player_turn l) (p1_is_striped l)
          (check_state l) (can_shoot l) (can_pass_turn l) (checked l)
          (starting_player l) (victor l) (to_delete l) (p1_stats l)
          (p2_stats l) (queue1 l) (queue2 l).
Definition with_groups (g1 g2 : ListRef) (s : option bool) (l : Lobby) : Lobby :=
  mkLobby (heap l) (table l) (striped_balls l) (spotted_balls l) g1 g2
          (is_break l) (is_open l) (player_turn l) s
          (check_state l) (can_shoot l) (can_pass_turn l) (checked l)
          (starting_player l) (victor l) (to_delete l) (p1_stats l)
          (p2_stats l) (queue1 l) (queue2 l).
Definition with_break (b : bool) (l : Lobby) : Lobby :=
  mkLobby (heap l) (table l) (striped_balls l) (spotted_balls l)
          (p1_balls l) (p2_balls l) b (is_open l) (player_turn l)
          (p1_is_striped l) (check_state l) (can_shoot l) (can_pass_turn l)
          (checked l) (starting_player l) (victor l) (to_delete l)
          (p1_stats l) (p2_stats l) (queue1 l) (queue2 l).
Definition with_open (b : bool) (l : Lobby) : Lobby :=
  mkLobby (heap l) (table l) (striped_balls l) (spotted_balls l)
          (p1_balls l) (p2_balls l) (is_break l) b (player_turn l)
          (p1_is_striped l) (check_state l) (can_shoot l) (can_pass_turn l)
          (checked l) (starting_player l) (victor l) (to_delete l)
          (p1_stats l) (p2_stats l) (queue1 l) (queue2 l).
Definition with_turn (n : nat) (l : Lobby) : Lobby :=
  mkLobby (heap l) (table l) (striped_balls l) (spotted_balls l)
          (p1_balls l) (p2_balls l) (is_break l) (is_open l) n
          (p1_is_striped l) (check_state l) (can_shoot l) (can_pass_turn l)
          (checked l) (starting_player l) (victor l) (to_delete l)
          (p1_stats l) (p2_stats l) (queue1 l) (queue2 l).
Definition with_check_state (b : bool) (l : Lobby) : Lobby :=
  mkLobby (heap l) (table l) (striped_balls l) (spotted_balls l)
          (p1_balls l) (p2_balls l) (is_break l) (is_open l) (player_turn l)
          (p1_is_striped l) b (can_shoot l) (can_pass_turn l)
          (checked l) (starting_player l) (victor l) (to_delete l)
          (p1_stats l) (p2_stats l) (queue1 l) (queue2 l).
Definition with_can_shoot (b : bool) (l : Lobby) : Lobby :=
  mkLobby (heap l) (table l) (striped_balls l) (spotted_balls l)
          (p1_balls l) (p2_balls l) (is_break l) (is_open l) (player_turn l)
          (p1_is_striped l) (check_state l) b (can_pass_turn l)
          (checked l) (starting_player l) (victor l) (to_delete l)
          (p1_stats l) (p2_stats l) (queue1 l) (queue2 l).
Definition with_can_pass_turn (b : bool) (l : Lobby) : Lobby :=
  mkLobby (heap l) (table l) (striped_balls l) (spotted_balls l)
          (p1_balls l) (p2_balls l) (is_break l) (is_open l) (player_turn l)
          (p1_is_striped l) (check_state l) (can_shoot l) b
          (checked l) (starting_player l) (victor l) (to_delete l)
          (p1_stats l) (p2_stats l) (queue1 l) (queue2 l).
Definition with_checked (b : bool) (l : Lobby) : Lobby :=
  mkLobby (heap l) (table l) (striped_balls l) (spotted_balls l)
          (p1_balls l) (p2_balls l) (is_break l) (is_open l) (player_turn l)
          (p1_is_striped l) (check_state l) (can_shoot l) (can_pass_turn l)
          b (starting_player l) (victor l) (to_delete l)
          (p1_stats l) (p2_stats l) (queue1 l) (queue2 l).
Definition with_starting_player (n : nat) (l : Lobby) : Lobby :=
  mkLobby (heap l) (table l) (striped_balls l) (spotted_balls l)
          (p1_balls l) (p2_balls l) (is_break l) (is_open l) (player_turn l)
          (p1_is_striped l) (check_state l) (can_shoot l) (can_pass_turn l)
          (checked l) n (victor l) (to_delete l)
          (p1_stats l) (p2_stats l) (queue1 l) (queue2 l).
Definition with_victor (v : option nat) (d : bool) (l : Lobby) : Lobby :=
  mkLobby (heap l) (table l) (striped_balls l) (spotted_balls l)
          (p1_balls l) (p2_balls l) (is_break l) (is_open l) (player_turn l)
          (p1_is_striped l) (check_state l) (can_shoot l) (can_pass_turn l)
          (checked l) (starting_player l) v d
          (p1_stats l) (p2_stats l) (queue1 l) (queue2 l).
Definition with_stats (s1 s2 : Stats) (l : Lobby) : Lobby :=
  mkLobby (heap l) (table l) (striped_balls l) (spotted_balls l)
          (p1_balls l) (p2_balls l) (is_break l) (is_open l) (player_turn l)
          (p1_is_striped l) (check_state l) (can_shoot l) (can_pass_turn l)
          (checked l) (starting_player l) (victor l) (to_delete l)
          s1 s2 (queue1 l) (queue2 l).
Definition with_queues (q1 q2 : list Message) (l : Lobby) : Lobby :=
  mkLobby (heap l) (table l) (striped_balls l) (spotted_balls l)
          (p1_balls l) (p2_balls l) (is_break l) (is_open l) (player_turn l)
          (p1_is_striped l) (check_state l) (can_shoot l) (can_pass_turn l)
          (checked l) (starting_player l) (victor l) (to_delete l)
          (p1_stats l) (p2_stats l) q1 q2.

(** The list a [ListRef] is bound to. *)
Definition deref (l : Lobby) (g : ListRef) : list ref :=
  match g with
  | FreshList => []
  | StripedList => striped_balls l
  | SpottedList => spotted_balls l
  end.

(** [send_players(message)] with no exclusions. *)
Definition send_players (m : Message) (l : Lobby) : Lobby :=
  with_queues (queue1 l ++ [m]) (queue2 l ++ [m]) l.

(** [__other_turn]. *)
Definition other_turn (l : Lobby) : nat :=
  if player_turn l =? 1 then 2 else 1.

(** [player_balls = p1_balls if player_turn == 1 else p2_balls]. *)
Definition player_balls (l : Lobby) : list ref :=
  if player_turn l =? 1 then deref l (p1_balls l) else deref l (p2_balls l).

(** [__close_table]. *)
Definition close_table (p1_striped : bool) (l : Lobby) : Lobby :=
  if p1_striped
  then with_groups StripedList SpottedList (Some p1_striped) l
  else with_groups SpottedList StripedList (Some p1_striped) l.

(** [__open_table_check]. *)
Definition hit_first_is_eight (t : Table) : bool :=
  match hit t with
  | first :: _ => is_ref first (eight_ball t)
  | [] => false
  end.

Fixpoint open_table_scan (l : Lobby) (pocketed_balls : list ref)
  : bool * Lobby :=
  match pocketed_balls with
  | [] => (false, l)
  | ball :: rest =>
      if negb (is_ref ball (eight_ball (table l)) || is_ref ball (cue_ball (table l)))
      then
        let s := striped (heap l ball) in
        (true,
         close_table ((s && (player_turn l =? 1))
                       || (negb s && (player_turn l =? 2))) l)
      else open_table_scan l rest
  end.

Definition open_table_check (l : Lobby) : bool * Lobby :=
  if hit_first_is_eight (table l) then (false, l)
  else open_table_scan l (pocketed (table l)).

(** The body of the loop of the break check. *)
Definition break_check_step (t : Table) (acc : bool * bool) (ball : ref)
  : bool * bool :=
  let '(foul_, force_redo) := acc in
  if is_ref ball (eight_ball t) then (true, true)
  else if is_ref ball (cue_ball t) then (true, force_redo)
  else (foul_, force_redo).

(** [__break_check]: returns [(foul, force_redo)]. *)
Definition break_check (l : Lobby) : bool * bool :=
  let t := table l in
  if (List.length (pocketed t) =? 0) && (List.length (rail_contacts t) <? 4)
  then (true, false)
  else
    fold_left (break_check_step t) (pocketed t) (false, false).

(** [__victory_check]: [None] when the loop ends without a [return]. *)
Fixpoint victory_scan (l : Lobby) (index : nat) (pocketed_balls : list ref)
  : option nat :=
  match pocketed_balls with
  | [] => None
  | ball :: rest =>
      if is_ref ball (eight_ball (table l)) then
        if negb (index =? 0) || is_open l
           || negb (List.length (player_balls l) =? 0)
        then Some (other_turn l)
        else Some (player_turn l)
      else victory_scan l (S index) rest
  end.

Definition victory_check (l : Lobby) : option nat :=
  victory_scan l 0 (pocketed (table l)).

(** [__foul_check]: returns [(len(fouls) > 0, fouls)]. *)
Definition foul_check (l : Lobby) : bool * list string :=
  let t := table l in
  let fouls : list string := [] in
  let fouls :=
    if List.length (hit t) =? 0
    then fouls ++ [FoulReason.no_hit] else fouls in
  let fouls :=
    match hit t with
    | first :: _ =>
        if negb (is_open l) && (0 <? List.length (hit t))
           && negb (mem first (player_balls l))
        then
          if is_ref first (eight_ball t) then
            if negb (List.length (player_balls l) =? 0)
            then fouls ++ [FoulReason.eight_first]
            else fouls
          else fouls ++ [FoulReason.opponent_first]
        else fouls
    | [] => fouls
    end in
  let fouls :=
    if (List.length (pocketed t) =? 0) && (List.length (rail_contacts t) =? 0)
    then fouls ++ [FoulReason.no_pocket_no_rail]
    else
      match pocketed t with
      | first :: _ =>
          if (List.length (pocketed t) =? 1) && is_ref first (cue_ball t)
          then fouls ++ [FoulReason.no_pocket_no_rail]
          else fouls
      | [] => fouls
      end in
  let fouls :=
    if existsb (fun ball => is_ref ball (cue_ball t)) (pocketed t)
    then fouls ++ [FoulReason.cue_pocketed] else fouls in
  (0 <? List.length fouls, fouls).

(** [some_list.remove(ball)] through the name bound to the list. *)
Definition list_remove (g : ListRef) (ball : ref) (l : Lobby) : Lobby :=
  match g with
  | FreshList => l
  | StripedList =>
      with_lists (remove_first ball (striped_balls l)) (spotted_balls l) l
  | SpottedList =>
      with_lists (striped_balls l) (remove_first ball (spotted_balls l)) l
  end.

Definition add_ball_pocket (s : Stats) : Stats :=
  mkStats (ShotsMade s) (S (BallPockets s)) (OpponentBallPockets s) (Fouls s).
Definition add_opponent_ball_pocket (s : Stats) : Stats :=
  mkStats (ShotsMade s) (BallPockets s) (S (OpponentBallPockets s)) (Fouls s).
Definition add_foul (s : Stats) : Stats :=
  mkStats (ShotsMade s) (BallPockets s) (OpponentBallPockets s) (S (Fouls s)).

(** [__remove_pocketed_balls]: the body of the loop over the pocketed
    balls. *)
Definition remove_pocketed_step (acc : bool * Lobby) (ball : ref)
  : bool * Lobby :=
  let '(can_continue, l) := acc in
  if mem ball (deref l (p1_balls l)) then
    let can_continue :=
      if negb can_continue && (player_turn l =? 1) then true
      else can_continue in
    let l :=
      if player_turn l =? 1
      then with_stats (add_ball_pocket (p1_stats l)) (p2_stats l) l
      else with_stats (p1_stats l) (add_opponent_ball_pocket (p2_stats l)) l in
    (can_continue, list_remove (p1_balls l) ball l)
  else if mem ball (deref l (p2_balls l)) then
    let can_continue :=
      if negb can_continue && (player_turn l =? 2) then true
      else can_continue in
    let l :=
      if player_turn l =? 2
      then with_stats (p1_stats l) (add_ball_pocket (p2_stats l)) l
      else with_stats (add_opponent_ball_pocket (p1_stats l)) (p2_stats l) l in
    (can_continue, list_remove (p2_balls l) ball l)
  else (can_continue, l).

(** [__remove_pocketed_balls]: returns [can_continue]. *)
Definition remove_pocketed_balls (l : Lobby) : bool * Lobby :=
  let '(can_continue, l) :=
    fold_left remove_pocketed_step (pocketed (table l)) (false, l) in
  if is_open l && (0 <? List.length (hit (table l)))
     && hit_first_is_eight (table l)
  then (false, l)
  else (can_continue, l).

(** [__reset_state]. *)
Definition reset_state (l : Lobby) : Lobby :=
  let l := with_break true l in
  let l := with_open true l in
  let l := with_groups FreshList FreshList None l in
  let l := with_turn (starting_player l) l in
  let l := with_check_state false l in
  let l := with_can_shoot true l in
  let l := with_can_pass_turn false l in
  with_checked true l.

(** [__create_game]; [rack] is what [__construct_objects] builds. *)
Definition create_game (rack : Rack) (l : Lobby) : Lobby :=
  let l := send_players cmd_load_settings l in
  let l := with_table (rack_heap rack) (rack_table rack) l in
  let l := with_lists (rack_striped rack) (rack_spotted rack) l in
  let l := reset_state l in
  with_queues (queue1 l ++ [cmd_create_game 1]) (queue2 l ++ [cmd_create_game 2]) l.

(** [__redo]. *)
Definition redo (forced : bool) (rack : Rack) (l : Lobby) : Lobby :=
  let l :=
    if forced then with_starting_player (other_turn l) l
    else with_starting_player (player_turn l) l in
  create_game rack l.

(** [__keep]. *)
Definition keep (l : Lobby) : Lobby :=
  let l := with_break false l in
  let l := with_can_shoot true l in
  let l := with_check_state true l in
  send_players cmd_keep l.

(** [__pass_turn]. *)
Definition pass_turn (l : Lobby) : Lobby :=
  let l := send_players cmd_pass_turn l in
  let l := send_players (cmd_start_next_turn false (is_break l) (is_open l) true) l in
  with_turn (other_turn l) l.

(** [__apply_foul_penalty]: reading an attribute of a missing cue ball
    raises. *)
Definition apply_foul_penalty (l : Lobby) : Py.Result Lobby :=
  let l :=
    if player_turn l =? 1
    then with_stats (add_foul (p1_stats l)) (p2_stats l) l
    else with_stats (p1_stats l) (add_foul (p2_stats l)) l in
  match cue_ball (table l) with
  | None => Py.Raise (Py.AttributeError "can_collide")
  | Some cue =>
      let t := set_holding (Some cue) (table l) in
      let h := upd (heap l) cue (set_can_collide false (heap l cue)) in
      let h := upd h cue (set_vel (Vec.mkVec 0 0) (h cue)) in
      let l := with_table h t l in
      Py.Ok (with_turn (other_turn l) l)
  end.

(** [end_game] with a victor. *)
Definition end_game (v : option nat) (l : Lobby) : Lobby :=
  match v with
  | Some _ => with_victor v true l
  | None => with_victor (victor l) true l
  end.

(** [__apply_rules]: the statements after the branches. *)
Definition finish_turn (stop_open foul_ force_redo may_shoot : bool)
           (l : Lobby) : Lobby :=
  let l := if is_break l && negb foul_ then with_break false l else l in
  let l :=
    if stop_open then
      let l :=
        if negb force_redo
        then send_players (cmd_close_table (p1_is_striped l)) l else l in
      with_open false l
    else l in
  let l := with_can_shoot may_shoot l in
  let l := with_table (heap l) (reset_counts (table l)) l in
  send_players
    (cmd_start_next_turn (can_pass_turn l) (is_break l) (is_open l) (can_shoot l))
    l.

(** [__apply_rules]. *)
Definition apply_rules (rack : Rack) (stop_open foul_ : bool)
           (foul_reasons : option (list string)) (force_redo : bool)
           (victor_ : option nat) (can_continue : bool) (l : Lobby)
  : Py.Result Lobby :=
  if is_break l && foul_ then
    if force_redo then
      Py.Ok (redo true rack (send_players cmd_force_redo_message l))
    else
      let l :=
        if player_turn l =? 2
        then with_queues (queue1 l ++ [cmd_redo_choice]) (queue2 l) l
        else if player_turn l =? 1
        then with_queues (queue1 l) (queue2 l ++ [cmd_redo_choice]) l
        else l in
      let l := with_check_state false l in
      let l := with_turn (other_turn l) l in
      let l := with_can_pass_turn false l in
      Py.Ok (finish_turn stop_open foul_ force_redo false l)
  else
    match victor_ with
    | Some v => Py.Ok (end_game (Some v) (send_players (cmd_victory v) l))
    | None =>
        if foul_ then
          let l := with_can_pass_turn false l in
          let l := send_players (cmd_foul foul_reasons) l in
          l <- apply_foul_penalty l ;;
          Py.Ok (finish_turn stop_open foul_ force_redo true l)
        else if can_continue then
          Py.Ok (finish_turn stop_open foul_ force_redo true
                             (with_can_pass_turn true l))
        else
          let l := with_turn (other_turn l) l in
          let l := with_can_pass_turn false l in
          Py.Ok (finish_turn stop_open foul_ force_redo true l)
    end.

(** [__check_game_state]. *)
Definition check_game_state (rack : Rack) (l : Lobby) : Py.Result Lobby :=
  let '(stop_open, l) :=
    if is_open l then open_table_check l else (false, l) in
  let '(foul_, foul_reasons, force_redo, victor_) :=
    if is_break l then
      let '(foul_, force_redo) := break_check l in
      (foul_, None, force_redo, None)
    else
      let victor_ := victory_check l in
      let '(foul_, foul_reasons) := foul_check l in
      (foul_, Some foul_reasons, false, victor_) in
  let '(can_continue, l) := remove_pocketed_balls l in
  let l := with_checked true l in
  apply_rules rack stop_open foul_ foul_reasons force_redo victor_ can_continue l.

End Server.

(* ================================================================== *)
(** * client.py: the rules of [OfflineGame]                            *)
(* ================================================================== *)

Module Client.

Import Sim.
Local Open Scope nat_scope.

(** The events the game puts on [events.event_queue].  (The replay log
    [saved_moves], written only when the [save_replay] setting is on, and
    the widgets are left out.) *)
Inductive Event : Type :=
| ev_table_closed (p1_striped : bool)
| ev_force_redo (offender next : nat)
| ev_redo_choice (offender chooser : nat)
| ev_foul (offender next : nat)
| ev_turn_ended (player next : nat)
| ev_continue (player : nat)
| ev_victory (winner : nat).

Record Game : Type := mkGame {
  heap : Heap;
  table : Table;
  striped_balls : list ref;
  spotted_balls : list ref;
  p1_balls : ListRef;
  p2_balls : ListRef;
  is_break : bool;             (* _break *)
  is_open : bool;              (* _open *)
  player_turn : nat;
  p1_is_striped : bool;
  check_state : bool;
  can_shoot : bool;
  can_pass_turn : bool;
  event_queue : list Event
}.

Definition with_table (h : Heap) (t : Table) (g : Game) : Game :=
  mkGame h t (striped_balls g) (spotted_balls g) (p1_balls g) (p2_balls g)
         (is_break g) (is_open g) (player_turn g) (p1_is_striped g)
         (check_state g) (can_shoot g) (can_pass_turn g) (event_queue g).
Definition with_lists (st sp : list ref) (g : Game) : Game :=
  mkGame (heap g) (table g) st sp (p1_balls g) (p2_balls g)
         (is_break g) (is_open g) (player_turn g) (p1_is_striped g)
         (check_state g) (can_shoot g) (can_pass_turn g) (event_queue g).
Definition with_groups (g1 g2 : ListRef) (s : bool) (g : Game) : Game :=
  mkGame (heap g) (table g) (striped_balls g) (spotted_balls g) g1 g2
         (is_break g) (is_open g) (player_turn g) s
         (check_state g) (can_shoot g) (can_pass_turn g) (event_queue g).
Definition with_break (b : bool) (g : Game) : Game :=
  mkGame (heap g) (table g) (striped_balls g) (spotted_balls g)
         (p1_balls g) (p2_balls g) b (is_open g) (player_turn g)
         (p1_is_striped g) (check_state g) (can_shoot g) (can_pass_turn g)
         (event_queue g).
Definition with_open (b : bool) (g : Game) : Game :=
  mkGame (heap g) (table g) (striped_balls g) (spotted_balls g)
         (p1_balls g) (p2_balls g) (is_break g) b (player_turn g)
         (p1_is_striped g) (check_state g) (can_shoot g) (can_pass_turn g)
         (event_queue g).
Definition with_turn (n : nat) (g : Game) : Game :=
  mkGame (heap g) (table g) (striped_balls g) (spotted_balls g)
         (p1_balls g) (p2_balls g) (is_break g) (is_open g) n
         (p1_is_striped g) (check_state g) (can_shoot g) (can_pass_turn g)
         (event_queue g).
Definition with_check_state (b : bool) (g : Game) : Game :=
  mkGame (heap g) (table g) (striped_balls g) (spotted_balls g)
         (p1_balls g) (p2_balls g) (is_break g) (is_open g) (player_turn g)
         (p1_is_striped g) b (can_shoot g) (can_pass_turn g) (event_queue g).
Definition with_can_shoot (b : bool) (g : Game) : Game :=
  mkGame (heap g) (table g) (striped_balls g) (spotted_balls g)
         (p1_balls g) (p2_balls g) (is_break g) (is_open g) (player_turn g)
         (p1_is_striped g) (check_state g) b (can_pass_turn g) (event_queue g).
Definition with_can_pass_turn (b : bool) (g : Game) : Game :=
  mkGame (heap g) (table g) (striped_balls g) (spotted_balls g)
         (p1_balls g) (p2_balls g) (is_break g) (is_open g) (player_turn g)
         (p1_is_striped g) (check_state g) (can_shoot g) b (event_queue g).
Definition with_events (q : list Event) (g : Game) : Game :=
  mkGame (heap g) (table g) (striped_balls g) (spotted_balls g)
         (p1_balls g) (p2_balls g) (is_break g) (is_open g) (player_turn g)
         (p1_is_striped g) (check_state g) (can_shoot g) (can_pass_turn g) q.

Definition deref (g : Game) (r : ListRef) : list ref :=
  match r with
  | FreshList => []
  | StripedList => striped_balls g
  | SpottedList => spotted_balls g
  end.

Definition enqueue (e : Event) (g : Game) : Game :=
  with_events (event_queue g ++ [e]) g.

(** [_other_turn]. *)
Definition other_turn (g : Game) : nat :=
  if player_turn g =? 1 then 2 else 1.

Definition player_balls (g : Game) : list ref :=
  if player_turn g =? 1 then deref g (p1_balls g) else deref g (p2_balls g).

(** [_close_table]. *)
Definition close_table (p1_striped : bool) (g : Game) : Game :=
  let g :=
    if p1_striped
    then with_groups StripedList SpottedList p1_striped g
    else with_groups SpottedList StripedList p1_striped g in
  enqueue (ev_table_closed (p1_is_striped g)) g.

Definition hit_first_is_eight (t : Table) : bool :=
  match hit t with
  | first :: _ => is_ref first (eight_ball t)
  | [] => false
  end.

(** [_open_table_check]. *)
Fixpoint open_table_scan (g : Game) (pocketed_balls : list ref)
  : bool * Game :=
  match pocketed_balls with
  | [] => (false, g)
  | ball :: rest =>
      if negb (is_ref ball (eight_ball (table g)))
         && negb (is_ref ball (cue_ball (table g)))
      then
        let s := striped (heap g ball) in
        (true,
         close_table ((s && (player_turn g =? 1))
                      || (negb s && (player_turn g =? 2))) g)
      else open_table_scan g rest
  end.

Definition open_table_check (g : Game) : bool * Game :=
  if hit_first_is_eight (table g) then (false, g)
  else open_table_scan g (pocketed (table g)).

(** The body of the loop of the break check. *)
Definition break_check_step (t : Table) (acc : bool * bool) (ball : ref)
  : bool * bool :=
  let '(foul_, force_redo) := acc in
  if is_ref ball (eight_ball t) then (true, true)
  else if is_ref ball (cue_ball t) then (true, force_redo)
  else (foul_, force_redo).

(** [_break_check]. *)
Definition break_check (g : Game) : bool * bool :=
  let t := table g in
  if (List.length (pocketed t) =? 0) && (List.length (rail_contacts t) <? 4)
  then (true, false)
  else
    fold_left (break_check_step t) (pocketed t) (false, false).

(** [_victory_check]. *)
Fixpoint victory_scan (g : Game) (index : nat) (pocketed_balls : list ref)
  : option nat :=
  match pocketed_balls with
  | [] => None
  | ball :: rest =>
      if is_ref ball (eight_ball (table g)) then
        if negb (index =? 0) || is_open g
           || negb (List.length (player_balls g) =? 0)
        then Some (other_turn g)
        else Some (player_turn g)
      else victory_scan g (S index) rest
  end.

Definition victory_check (g : Game) : option nat :=
  victory_scan g 0 (pocketed (table g)).

(** [_foul_check]: returns whether a foul was recorded; the list of
    reasons is what the method prints. *)
Definition foul_reasons (g : Game) : list string :=
  let t := table g in
  let fouls : list string := [] in
  let fouls :=
    if List.length (hit t) =? 0 then fouls ++ [FoulReason.no_hit] else fouls in
  let fouls :=
    match hit t with
    | first :: _ =>
        if negb (is_open g) && (0 <? List.length (hit t))
           && negb (mem first (player_balls g))
        then
          if is_ref first (eight_ball t) then
            if negb (List.length (player_balls g) =? 0)
            then fouls ++ [FoulReason.eight_first] else fouls
          else fouls ++ [FoulReason.opponent_first]
        else fouls
    | [] => fouls
    end in
  let fouls :=
    if (List.length (pocketed t) =? 0) && (List.length (rail_contacts t) =? 0)
    then fouls ++ [FoulReason.no_pocket_no_rail]
    else
      match pocketed t with
      | first :: _ =>
          if (List.length (pocketed t) =? 1) && is_ref first (cue_ball t)
          then fouls ++ [FoulReason.no_pocket_no_rail] else fouls
      | [] => fouls
      end in
  if existsb (fun ball => negb (mem ball (player_balls g))
                          && is_ref ball (cue_ball t))
             (pocketed t)
  then fouls ++ [FoulReason.cue_pocketed] else fouls.

Definition foul_check (g : Game) : bool :=
  if 0 <? List.length (foul_reasons g) then true else false.

Definition list_remove (r : ListRef) (ball : ref) (g : Game) : Game :=
  match r with
  | FreshList => g
  | StripedList =>
      with_lists (remove_first ball (striped_balls g)) (spotted_balls g) g
  | SpottedList =>
      with_lists (striped_balls g) (remove_first ball (spotted_balls g)) g
  end.

(** [_remove_pocketed_balls]: the body of the loop over the pocketed
    balls. *)
Definition remove_pocketed_step (acc : bool * Game) (ball : ref)
  : bool * Game :=
  let '(can_continue, g) := acc in
  if mem ball (deref g (p1_balls g)) then
    let can_continue :=
      if negb can_continue && (player_turn g =? 1) then true
      else can_continue in
    (can_continue, list_remove (p1_balls g) ball g)
  else if mem ball (deref g (p2_balls g)) then
    let can_continue :=
      if negb can_continue && (player_turn g =? 2) then true
      else can_continue in
    (can_continue, list_remove (p2_balls g) ball g)
  else (can_continue, g).

(** [_remove_pocketed_balls]. *)
Definition remove_pocketed_balls (g : Game) : bool * Game :=
  let '(can_continue, g) :=
    fold_left remove_pocketed_step (pocketed (table g)) (false, g) in
  if is_open g && (0 <? List.length (hit (table g)))
     && hit_first_is_eight (table g)
  then (false, g)
  else (can_continue, g).

(** [_reset_state]. *)
Definition reset_state (g : Game) : Game :=
  let g := with_break true g in
  let g := with_open true g in
  let g := with_groups FreshList FreshList false g in
  let g := with_can_shoot true g in
  with_can_pass_turn false g.

(** [_redo]; [rack] is what [_construct_table] and [_place_balls] build. *)
Definition redo (rack : Rack) (g : Game) : Game :=
  let g := with_table (rack_heap rack) (rack_table rack) g in
  let g := with_lists (rack_striped rack) (rack_spotted rack) g in
  reset_state g.

(** [_force_redo_message]. *)
Definition force_redo_message (g : Game) : Game :=
  let g := with_events [] g in
  let g := enqueue (ev_force_redo (player_turn g) (other_turn g)) g in
  with_turn (other_turn g) g.

(** [_keep]. *)
Definition keep (g : Game) : Game :=
  with_check_state true (with_can_shoot true (with_break false g)).

(** [_redo_choice]. *)
Definition redo_choice (g : Game) : Game :=
  enqueue (ev_redo_choice (player_turn g) (other_turn g)) g.

(** [_apply_foul_penalty]. *)
Definition apply_foul_penalty (g : Game) : Py.Result Game :=
  let g := enqueue (ev_foul (player_turn g) (other_turn g)) g in
  match cue_ball (table g) with
  | None => Py.Raise (Py.AttributeError "can_show")
  | Some cue =>
      let t := set_holding (Some cue) (table g) in
      let h := upd (heap g) cue (set_can_collide false (heap g cue)) in
      let h := upd h cue (set_vel (Vec.mkVec 0 0) (h cue)) in
      Py.Ok (with_table h t g)
  end.

(** [_victory]. *)
Definition victory (v : nat) (g : Game) : Game :=
  let g := with_can_shoot false g in
  enqueue (ev_victory v) (with_events [] g).

(** [_continue_turn]. *)
Definition continue_turn (g : Game) : Game :=
  enqueue (ev_continue (player_turn g)) (with_can_pass_turn true g).

(** [_apply_rules]: the statements after the branches. *)
Definition finish_turn (stop_open foul_ may_shoot : bool) (g : Game) : Game :=
  let g := if is_break g && negb foul_ then with_break false g else g in
  let g := if stop_open then with_open false g else g in
  let g := with_can_shoot may_shoot g in
  with_table (heap g) (reset_counts (table g)) g.

(** [_apply_rules]: returns the game and whether it has ended. *)
Definition apply_rules (rack : Rack) (stop_open foul_ force_redo : bool)
           (victor_ : option nat) (can_continue : bool) (g : Game)
  : Py.Result (Game * bool) :=
  if is_break g && foul_ then
    if force_redo then Py.Ok (redo rack (force_redo_message g), false)
    else
      let g := redo_choice g in
      let g := with_check_state false g in
      let g := with_turn (other_turn g) g in
      Py.Ok (finish_turn stop_open foul_ false g, false)
  else
    match victor_ with
    | Some v => Py.Ok (victory v g, true)
    | None =>
        if foul_ then
          g <- apply_foul_penalty g ;;
          let g := with_turn (other_turn g) g in
          Py.Ok (finish_turn stop_open foul_ true g, false)
        else if can_continue then
          Py.Ok (finish_turn stop_open foul_ true (continue_turn g), false)
        else
          let g := enqueue (ev_turn_ended (player_turn g) (other_turn g)) g in
          let g := with_turn (other_turn g) g in
          Py.Ok (finish_turn stop_open foul_ true g, false)
    end.

(** [_check_game_state]. *)
Definition check_game_state (rack : Rack) (g : Game) : Py.Result (Game * bool) :=
  let '(stop_open, g) :=
    if is_open g then open_table_check g else (false, g) in
  let '(foul_, force_redo, victor_) :=
    if is_break g then
      let '(foul_, force_redo) := break_check g in (foul_, force_redo, None)
    else (foul_check g, false, victory_check g) in
  let '(can_continue, g) := remove_pocketed_balls g in
  apply_rules rack stop_open foul_ force_redo victor_ can_continue g.

End Client.

(* ================================================================== *)
(** * data.py, server.py, client.py: the message channel               *)
(* ================================================================== *)

(** The sender worker of [Connection] is embedded as a function of the
    connection's state and of what the other workers do meanwhile: [acks]
    has one entry per pass through the waiting loop and says whether the
    receiver worker handled a ["received"] frame (and so cleared
    [waiting]) during that pass's [time.sleep(0.05)].  Elapsed time is
    counted exactly, in seconds, as a rational number.  Writes to the
    socket are logged in [wire] and do not fail. *)
Module Channel.

Local Open Scope string_scope.

Inductive Json : Type :=
| JNull
| JBool (b : bool)
| JNum (n : Z)
| JStr (s : string).

(** [{"command": ..., "args": ...}]; [args] may be absent. *)
Record Message : Type := mkMessage {
  command : string;
  args : option (list Json)
}.

(** [data.BlockedQueue]: the items and the counter of the semaphore
    [length]. *)
Record BlockedQueue : Type := mkQueue {
  items : list Message;
  length_sem : nat
}.

Definition enqueue (m : Message) (q : BlockedQueue) : BlockedQueue :=
  mkQueue (items q ++ [m]) (S (length_sem q)).

(** [Queue.clear]: the semaphore is not touched. *)
Definition clear (q : BlockedQueue) : BlockedQueue :=
  mkQueue [] (length_sem q).

(** [BlockedQueue.dequeue]: [None] when the caller blocks on the
    semaphore; otherwise the new queue and the item, if there is one. *)
Definition dequeue (q : BlockedQueue) : option (BlockedQueue * option Message) :=
  match length_sem q with
  | O => None
  | S n =>
      match items q with
      | [] => Some (mkQueue [] n, None)
      | m :: rest => Some (mkQueue rest n, Some m)
      end
  end.

(** [for i in range(0, len(s) - 1, 1024): send(s[i:i+1024])]. *)
Fixpoint chunks_from (fuel i : nat) (s : string) : list string :=
  match fuel with
  | O => []
  | S fuel' =>
      if (i <? String.length s - 1)%nat
      then substring i 1024 s :: chunks_from fuel' (i + 1024) s
      else []
  end.

Definition chunks (s : string) : list string :=
  chunks_from (String.length s) 0 s.

Definition in_list (s : string) (l : list string) : bool :=
  existsb (String.eqb s) l.

(** How one turn of the sender's outer loop ends. *)
Inductive Control : Type :=
| Continue     (* back to [while self.in_use] *)
| Returned.    (* the worker has returned *)

End Channel.

Module ServerChannel.

Import Channel.
Local Open Scope string_scope.

Record Connection : Type := mkConnection {
  in_use : bool;
  can_delete : bool;
  waiting : bool;
  in_lobby : bool;
  send_queue : BlockedQueue;
  receive_queue : BlockedQueue;
  wire : list string
}.

Definition ignore_received : list string :=
  ["received"; "update_cue_position"; "update_server_cue_position";
   "disconnect"].

Definition set_waiting (b : bool) (c : Connection) : Connection :=
  mkConnection (in_use c) (can_delete c) b (in_lobby c) (send_queue c)
               (receive_queue c) (wire c).
Definition set_send_queue (q : BlockedQueue) (c : Connection) : Connection :=
  mkConnection (in_use c) (can_delete c) (waiting c) (in_lobby c) q
               (receive_queue c) (wire c).
Definition send_all (l : list string) (c : Connection) : Connection :=
  mkConnection (in_use c) (can_delete c) (waiting c) (in_lobby c)
               (send_queue c) (receive_queue c) (wire c ++ l).

(** [Connection.__apply_error]. *)
Definition apply_error (c : Connection) : Connection :=
  {| in_use := false;
     can_delete := negb (in_lobby c);
     waiting := false;
     in_lobby := in_lobby c;
     send_queue := clear (send_queue c);
     receive_queue := receive_queue c;
     wire := wire c |}.

(** [__send_data]: the loop [while self.waiting]. *)
Fixpoint wait_for_ack (acks : list bool) (prev_data : option string)
         (time_elapsed : Q) (times_resent : nat) (c : Connection)
  : Py.Result (Connection * Control) :=
  if waiting c then
    match acks with
    | [] => Py.OutOfFuel
    | ack :: acks' =>
        let c := if ack then set_waiting false c else c in
        let time_elapsed := (time_elapsed + (5 # 100))%Q in
        if Qlt_le_dec 5 time_elapsed then
          if (times_resent =? 3)%nat then Py.Ok (apply_error c, Returned)
          else
            let time_elapsed := (time_elapsed - 5)%Q in
            let times_resent := S times_resent in
            match prev_data with
            | None => Py.Raise (Py.TypeError "object of type 'NoneType' has no len()")
            | Some s =>
                wait_for_ack acks' prev_data time_elapsed times_resent
                             (send_all (chunks s) c)
            end
        else wait_for_ack acks' prev_data time_elapsed times_resent c
    end
  else Py.Ok (c, Continue).

(** [__send_data]: the body of [if data is not None], for the message
    [data] just taken from the queue.  Returns the connection, the new
    [prev_data] and how the turn ended. *)
Definition send_message (dumps : Message -> string) (acks : list bool)
           (prev_data : option string) (data : Message) (c : Connection)
  : Py.Result (Connection * option string * Control) :=
  '(c, ctl) <- wait_for_ack acks prev_data 0 0 c ;;
  match ctl with
  | Returned => Py.Ok (c, prev_data, Returned)
  | Continue =>
      let jsondata := dumps data ++ "#" in
      let '(prev_data, c) :=
        if negb (in_list (command data) ignore_received)
        then (Some jsondata, set_waiting true c)
        else (prev_data, c) in
      Py.Ok (send_all (chunks jsondata) c, prev_data, Continue)
  end.

(** One turn of [while self.in_use]: [None] when the worker blocks in
    [dequeue]. *)
Definition send_data_turn (dumps : Message -> string) (acks : list bool)
           (prev_data : option string) (c : Connection)
  : option (Py.Result (Connection * option string * Control)) :=
  match dequeue (send_queue c) with
  | None => None
  | Some (q, None) => Some (Py.Ok (set_send_queue q c, prev_data, Continue))
  | Some (q, Some data) =>
      Some (send_message dumps acks prev_data data (set_send_queue q c))
  end.

End ServerChannel.

Module ClientChannel.

Import Channel.
Local Open Scope string_scope.

Record Connection : Type := mkConnection {
  in_use : bool;
  waiting : bool;
  error : option string;
  send_queue : BlockedQueue;
  receive_queue : BlockedQueue;
  wire : list string
}.

Definition ignore_received : list string :=
  ["received"; "update_server_cue_position"; "update_cue_position"].

Definition set_waiting (b : bool) (c : Connection) : Connection :=
  mkConnection (in_use c) b (error c) (send_queue c) (receive_queue c) (wire c).
Definition set_send_queue (q : BlockedQueue) (c : Connection) : Connection :=
  mkConnection (in_use c) (waiting c) (error c) q (receive_queue c) (wire c).
Definition send_all (l : list string) (c : Connection) : Connection :=
  mkConnection (in_use c) (waiting c) (error c) (send_queue c)
               (receive_queue c) (wire c ++ l).

(** [Connection.__apply_error]. *)
Definition apply_error (err : string) (c : Connection) : Connection :=
  {| in_use := false;
     waiting := false;
     error := Some err;
     send_queue := clear (send_queue c);
     receive_queue := clear (receive_queue c);
     wire := wire c |}.

Definition no_longer_receiving : string :=
  "No longer receiving communication from server. The connection may have been lost. Please try again later.".

(** [__send_data]: the loop [while self.waiting]; it is left with
    [break] after [__apply_error]. *)
Fixpoint wait_for_ack (acks : list bool) (prev_data : option string)
         (time_elapsed : Q) (times_resent : nat) (c : Connection)
  : Py.Result Connection :=
  if waiting c then
    match acks with
    | [] => Py.OutOfFuel
    | ack :: acks' =>
        let c := if ack then set_waiting false c else c in
        let time_elapsed := (time_elapsed + (5 # 100))%Q in
        if Qlt_le_dec 3 time_elapsed then
          if (times_resent =? 3)%nat
          then Py.Ok (apply_error no_longer_receiving c)
          else
            let time_elapsed := (time_elapsed - 5)%Q in
            let times_resent := S times_resent in
            match prev_data with
            | None => Py.Raise (Py.TypeError "object of type 'NoneType' has no len()")
            | Some s =>
                wait_for_ack acks' prev_data time_elapsed times_resent
                             (send_all (chunks s) c)
            end
        else wait_for_ack acks' prev_data time_elapsed times_resent c
    end
  else Py.Ok c.

(** [__send_data]: the body of [if data is not None]. *)
Definition send_message (dumps : Message -> string) (acks : list bool)
           (prev_data : option string) (data : Message) (c : Connection)
  : Py.Result (Connection * option string) :=
  c <- wait_for_ack acks prev_data 0 0 c ;;
  let jsondata := dumps data ++ "#" in
  let '(prev_data, c) :=
    if negb (in_list (command data) ignore_received)
    then (Some jsondata, set_waiting true c)
    else (prev_data, c) in
  Py.Ok (send_all (chunks jsondata) c, prev_data).

(** One turn of [while self.in_use]. *)
Definition send_data_turn (dumps : Message -> string) (acks : list bool)
           (prev_data : option string) (c : Connection)
  : option (Py.Result (Connection * option string)) :=
  match dequeue (send_queue c) with
  | None => None
  | Some (q, None) => Some (Py.Ok (set_send_queue q c, prev_data))
  | Some (q, Some data) =>
      Some (send_message dumps acks prev_data data (set_send_queue q c))
  end.

End ClientChannel.


(* ================================================================== *)
(** * Concrete tables, lobbies and games                               *)
(* ================================================================== *)

(** Inputs on which the properties below are exercised.  Ball [n] of the
    rack is stored at reference [n]; the cue ball is at reference [0]. *)
Module Sample.

Import Sim.
Local Open Scope R_scope.

(** The generic settings of [retrieve_competitive_settings]. *)
Definition settings : Settings :=
  {| table_length := 261 / 100;
     table_width := 131 / 100;
     hole_factor := 192 / 100;
     ball_radius := 286 / 10000;
     gravity := 980665 / 100000;
     time_of_cue_impact := 1 / 1000;
     table_coeff_of_rest := 6 / 10;
     coeff_of_static_friction := 4 / 10;
     coeff_of_rolling_friction := 4 / 100;
     ball_mass := 17 / 100;
     air_density := 1225 / 1000;
     ball_coeff_of_drag := 45 / 100;
     ball_coeff_of_rest := 96 / 100;
     limiting_vel := 5 / 1000 |}.

(** Sixteen balls at rest, ball [n] at [(1 + n / 10, 1/2)]. *)
Definition racked_heap : Heap :=
  fun r =>
    Ball_init (Vec.mkVec (1 + INR r / 10) (1 / 2)) settings
              (Nat.leb 9 r)
              (match r with O => None | _ => Some (Z.of_nat r) end).

Definition racked_table : Table :=
  fold_left (add_ball racked_heap)
            [1; 2; 3; 4; 5; 6; 7; 8; 9; 10; 11; 12; 13; 14; 15; 0]%nat
            (Table_init (Vec.mkVec 0 0) settings).

Definition rack : Rack :=
  mkRack racked_heap racked_table
         [9; 10; 11; 12; 13; 14; 15]%nat [1; 2; 3; 4; 5; 6; 7]%nat.

(** A table after a shot: the three per-turn records are given. *)
Definition shot_table (hit_ pocketed_ rail_ : list ref) : Table :=
  set_rail_contacts rail_ (set_pocketed pocketed_ (set_hit hit_ racked_table)).

Definition no_stats : Stats := mkStats 0 0 0 0.

(** A lobby in the middle of a match. *)
Definition lobby (t : Table) (break_ open_ : bool) (turn : nat)
           (g1 g2 : ListRef) (striped_left spotted_left : list ref)
  : Server.Lobby :=
  {| Server.heap := racked_heap;
     Server.table := t;
     Server.striped_balls := striped_left;
     Server.spotted_balls := spotted_left;
     Server.p1_balls := g1;
     Server.p2_balls := g2;
     Server.is_break := break_;
     Server.is_open := open_;
     Server.player_turn := turn;
     Server.p1_is_striped :=
       match g1 with
       | FreshList => None
       | StripedList => Some true
       | SpottedList => Some false
       end;
     Server.check_state := true;
     Server.can_shoot := false;
     Server.can_pass_turn := false;
     Server.checked := false;
     Server.starting_player := 1;
     Server.victor := None;
     Server.to_delete := false;
     Server.p1_stats := no_stats;
     Server.p2_stats := no_stats;
     Server.queue1 := [];
     Server.queue2 := [] |}.

(** The same position in an offline game. *)
Definition game (t : Table) (break_ open_ : bool) (turn : nat)
           (g1 g2 : ListRef) (striped_left spotted_left : list ref)
  : Client.Game :=
  {| Client.heap := racked_heap;
     Client.table := t;
     Client.striped_balls := striped_left;
     Client.spotted_balls := spotted_left;
     Client.p1_balls := g1;
     Client.p2_balls := g2;
     Client.is_break := break_;
     Client.is_open := open_;
     Client.player_turn := turn;
     Client.p1_is_striped :=
       match g1 with
       | StripedList => true
       | _ => false
       end;
     Client.check_state := true;
     Client.can_shoot := false;
     Client.can_pass_turn := false;
     Client.event_queue := [] |}.

(** A ball that rolls with its centre on the centre of the top-left pocket. *)
Definition roll_into_pocket (b : Ball) : Ball :=
  set_vel (Vec.mkVec 1 0)
          (set_new_pos (Vec.mkVec 0 0) (set_pos (Vec.mkVec 0 0) b)).

Definition pocketing_heap (rolling : list ref) : Heap :=
  fun r => if mem r rolling then roll_into_pocket (racked_heap r)
           else racked_heap r.

Definition table_with (l : list ref) : Table := set_balls l racked_table.

(** A connection whose last significant message has not been
    acknowledged, with one more message to send and one received message
    not yet processed. *)
Definition hit_msg : Channel.Message :=
  Channel.mkMessage "hit_ball"
    (Some [Channel.JNull; Channel.JNum 600; Channel.JNum 3]).

Definition turn_msg : Channel.Message :=
  Channel.mkMessage "start_next_turn"
    (Some [Channel.JBool false; Channel.JBool false; Channel.JBool true;
           Channel.JBool true]).

Definition unacknowledged : string := "{command: victory}#".

(** A stand-in for [json.dumps]. *)
Definition dumps (m : Channel.Message) : string := Channel.command m.

Definition server_connection : ServerChannel.Connection :=
  {| ServerChannel.in_use := true;
     ServerChannel.can_delete := false;
     ServerChannel.waiting := true;
     ServerChannel.in_lobby := true;
     ServerChannel.send_queue := Channel.mkQueue [turn_msg] 1;
     ServerChannel.receive_queue := Channel.mkQueue [hit_msg] 1;
     ServerChannel.wire := [] |}.

Definition client_connection : ClientChannel.Connection :=
  {| ClientChannel.in_use := true;
     ClientChannel.waiting := true;
     ClientChannel.error := None;
     ClientChannel.send_queue := Channel.mkQueue [hit_msg] 1;
     ClientChannel.receive_queue := Channel.mkQueue [turn_msg] 1;
     ClientChannel.wire := [] |}.

(** No acknowledgment for 401 passes of the waiting loop (20.05 s). *)
Definition silence : list bool := repeat false 401.

End Sample.


(* ================================================================== *)
(** * Vocabulary of the statements                                     *)
(* ================================================================== *)

(** The 8-ball, respectively the cue ball, is in this turn's pocketed
    list. *)
Definition eight_pocketed (t : Sim.Table) : Prop :=
  exists b, In b (Sim.pocketed t) /\ Sim.eight_ball t = Some b.

Definition cue_pocketed (t : Sim.Table) : Prop :=
  exists b, In b (Sim.pocketed t) /\ Sim.cue_ball t = Some b.

(** What the later steps of the lobby read from its state. *)
Definition server_rules_view (l : Server.Lobby) :=
  (Server.is_break l, Server.is_open l, Server.player_turn l,
   Server.table l, Server.heap l, Server.queue1 l, Server.queue2 l,
   Server.p1_is_striped l, Server.can_pass_turn l, Server.victor l,
   Server.starting_player l).

Definition client_rules_view (g : Client.Game) :=
  (Client.is_break g, Client.is_open g, Client.player_turn g,
   Client.table g, Client.heap g, Client.event_queue g,
   Client.p1_is_striped g, Client.can_pass_turn g).

(** The first struck ball is not one of the shooter's group balls, and it
    is not the 8-ball struck with the shooter's group empty: as a test and
    as a proposition. *)
Definition wrong_first_ball (t : Sim.Table) (own : list Sim.ref) : bool :=
  match Sim.hit t with
  | first :: _ =>
      negb (Sim.mem first own)
      && negb (Sim.is_ref first (Sim.eight_ball t) && (List.length own =? 0))
  | [] => false
  end.

Definition first_ball_not_allowed (t : Sim.Table) (own : list Sim.ref) : Prop :=
  exists first,
    hd_error (Sim.hit t) = Some first
    /\ ~ In first own
    /\ ~ (Sim.eight_ball t = Some first /\ own = []).

(** The first ball struck this turn is the 8-ball. *)
Definition first_hit_is_eight (t : Sim.Table) : Prop :=
  exists e, Sim.eight_ball t = Some e /\ hd_error (Sim.hit t) = Some e.

(** [b] is the first ball of this turn's pocketed list that is neither
    the cue ball nor the 8-ball. *)
Definition first_group_ball (t : Sim.Table) (b : Sim.ref) : Prop :=
  exists pre post,
    Sim.pocketed t = pre ++ b :: post
    /\ (forall x, In x pre -> Sim.eight_ball t = Some x \/ Sim.cue_ball t = Some x)
    /\ Sim.eight_ball t <> Some b
    /\ Sim.cue_ball t <> Some b.

(** No acknowledgment arrives during any of the passes of the waiting
    loop. *)
Definition no_ack (acks : list bool) : Prop := Forall (fun a => a = false) acks.

(** What [resolve_pockets] never writes. *)
Definition same_fixtures (t t' : Sim.Table) : Prop :=
  Sim.cue_ball t' = Sim.cue_ball t
  /\ Sim.eight_ball t' = Sim.eight_ball t
  /\ Sim.pockets t' = Sim.pockets t
  /\ Sim.rails t' = Sim.rails t
  /\ Sim.in_motion t' = Sim.in_motion t
  /\ Sim.previously_in_motion t' = Sim.previously_in_motion t
  /\ Sim.hit t' = Sim.hit t
  /\ Sim.rail_contacts t' = Sim.rail_contacts t.

(** The balls of a list other than the cue ball. *)
Definition non_cue (t : Sim.Table) (l : list Sim.ref) : list Sim.ref :=
  filter (fun b => negb (Sim.is_ref b (Sim.cue_ball t))) l.

(** The calls that touch the live list or the pocketed list between two
    racks. *)
Inductive TableOp : Type := PocketPass | ResetCounts.

(** A session: the calls in order, with the number of pocket events so
    far and the number of them that were the cue ball's. *)
Fixpoint session (ops : list TableOp) (w : Sim.Heap * Sim.Table)
         (events cue_events : nat)
  : Py.Result (Sim.Heap * Sim.Table * nat * nat) :=
  match ops with
  | [] => Py.Ok (w, events, cue_events)
  | PocketPass :: ops' =>
      w' <- Sim.resolve_pockets w ;;
      let new := skipn (List.length (Sim.pocketed (snd w)))
                       (Sim.pocketed (snd w')) in
      session ops' w' (events + List.length new)
              (cue_events
               + List.length
                   (filter (fun b => Sim.is_ref b (Sim.cue_ball (snd w))) new))
  | ResetCounts :: ops' =>
      session ops' (fst w, Sim.reset_counts (snd w)) events cue_events
  end.

Definition struck_at_rest (h : Sim.Heap) (r : Sim.ref) : Prop :=
  Sim.moving (h r) = false
  /\ Sim.applied_force (h r) = None
  /\ Sim.attempted_force_application (h r) = true.

Definition all_at_rest (h : Sim.Heap) (t : Sim.Table) : Prop :=
  forall r, In r (Sim.balls t) ->
            Sim.moving (h r) = false /\ Sim.applied_force (h r) = None.

Definition weak_strike_heap : Sim.Heap :=
  Sim.upd Sample.racked_heap 0
          (Sim.apply_force (Sample.racked_heap 0) (1 / 1000) (1 / 2) 0).

Definition static_threshold (b : Sim.Ball) : R :=
  (Sim.coeff_of_static_friction (Sim.settings b) * Sim.mass b
   * Sim.gravity (Sim.settings b))%R.

(** The direction of the collision: [normal_vector] after
    [normal_vector.normalise()]. *)
Definition collision_normal (self ball : Sim.Ball) : Vec.Vector2D :=
  Vec.normalise (Vec.sub (Sim.new_pos self) (Sim.new_pos ball)).

(** The component along [n] of the velocity of one ball relative to the
    other. *)
Definition relative_speed_along (n v_self v_ball : Vec.Vector2D) : R :=
  Vec.dot_product (Vec.sub v_self v_ball) n.

(** The positional correction of [collide_with_ball] leaves the two
    circles apart, so that the loop that ends the method is not entered. *)
Definition separated_by_correction (self ball : Sim.Ball) : Prop :=
  let '(self', ball', _, _) := Sim.collide_response self ball in
  Sim.circle_circle_collision_check (Sim.representation self')
                                    (Sim.representation ball') = false.

(** The velocities written by [collide_with_ball], as functions of the
    velocities on entry, the unit normal and the coefficient. *)
Definition self_vel_after (e : R) (n u w : Vec.Vector2D) : Vec.Vector2D :=
  let p := Vec.perpendicular n in
  let a := Vec.dot_product u n in
  let b := Vec.dot_product w n in
  let s := (1 / 2 * ((1 - e) * a + (1 + e) * b))%R in
  Vec.add (Vec.rmul s n) (Vec.rmul (Vec.dot_product u p) p).

Definition ball_vel_after (e : R) (n u w : Vec.Vector2D) : Vec.Vector2D :=
  let p := Vec.perpendicular n in
  let a := Vec.dot_product u n in
  let b := Vec.dot_product w n in
  let s := (1 / 2 * ((1 - e) * a + (1 + e) * b))%R in
  Vec.add (Vec.sub (Vec.rmul (a + b) n) (Vec.rmul s n))
          (Vec.rmul (Vec.dot_product w p) p).

(** Settings with perfectly elastic balls of radius 3 cm. *)
Definition elastic_settings : Sim.Settings :=
  {| Sim.table_length := 261 / 100;
     Sim.table_width := 131 / 100;
     Sim.hole_factor := 192 / 100;
     Sim.ball_radius := 3 / 100;
     Sim.gravity := 980665 / 100000;
     Sim.time_of_cue_impact := 1 / 1000;
     Sim.table_coeff_of_rest := 6 / 10;
     Sim.coeff_of_static_friction := 4 / 10;
     Sim.coeff_of_rolling_friction := 4 / 100;
     Sim.ball_mass := 17 / 100;
     Sim.air_density := 1225 / 1000;
     Sim.ball_coeff_of_drag := 45 / 100;
     Sim.ball_coeff_of_rest := 1;
     Sim.limiting_vel := 5 / 1000 |}.

(** A ball created at [coords] that has moved to [next] with velocity [v]. *)
Definition incoming (coords next v : Vec.Vector2D) : Sim.Ball :=
  Sim.set_new_pos next
    (Sim.set_vel v (Sim.Ball_init coords elastic_settings false None)).

(** Two balls that meet head-on along the horizontal axis. *)
Definition head_on_self : Sim.Ball :=
  incoming (Vec.mkVec (7 / 100) 0) (Vec.mkVec (5 / 100) 0) (Vec.mkVec (-1) 0).
Definition head_on_ball : Sim.Ball :=
  incoming (Vec.mkVec (-2 / 100) 0) (Vec.mkVec 0 0) (Vec.mkVec 1 0).

(** Two balls with the same velocities whose line of centres is not
    horizontal. *)
Definition oblique_self : Sim.Ball :=
  incoming (Vec.mkVec (5 / 100) (4 / 100)) (Vec.mkVec (3 / 100) (4 / 100))
           (Vec.mkVec (-1) 0).
Definition oblique_ball : Sim.Ball :=
  incoming (Vec.mkVec (-2 / 100) 0) (Vec.mkVec 0 0) (Vec.mkVec 1 0).

(** The rail-contact record lists distinct balls, none of them the cue
    ball. *)
Definition distinct_numbered (t : Sim.Table) : Prop :=
  NoDup (Sim.rail_contacts t)
  /\ forall b, In b (Sim.rail_contacts t) -> Sim.cue_ball t <> Some b.

(** The squared distance from the centre of a circle to the nearer end of a
    line segment. *)
Definition nearest_end_squared (circle : Sim.Circle) (line : Sim.LineSegment)
  : R :=
  Rmin (Vec.magnitude_squared (Vec.sub (Sim.coord1 line) (Sim.centre circle)))
       (Vec.magnitude_squared (Vec.sub (Sim.coord2 line) (Sim.centre circle))).

(** [lower < v < upper]. *)
Definition strictly_between (lower v upper : R) : bool :=
  Rltb lower v && Rltb v upper.

(** The coordinate [v] mirrored in the bound it has crossed. *)
Definition mirrored (lower v upper : R) : R :=
  if strictly_between lower v upper then v
  else (2 * (if Rleb v lower then lower else upper) - v)%R.

(** The velocity component after the rebound, if there is one. *)
Definition rebound (e lower v upper speed : R) : R :=
  if strictly_between lower v upper then speed else (- e * speed)%R.

(** What one call of [update_physics] leaves of the impulse [(force,
    time_remaining)] after [time] seconds. *)
Definition impulse_after (time : R) (applied : option (Vec.Vector2D * R))
  : option (Vec.Vector2D * R) :=
  match applied with
  | Some (f, remaining) =>
      if Rleb remaining time then None else Some (f, (remaining - time)%R)
  | None => None
  end.

(** A velocity component is zero or at least the limiting velocity. *)
Definition not_creeping (limit speed : R) : Prop :=
  speed = 0%R \/ (limit <= Rabs speed)%R.

(** The two records of a turn hold distinct balls, none of them the cue
    ball. *)
Definition records_distinct (t : Sim.Table) : Prop :=
  NoDup (Sim.hit t)
  /\ NoDup (Sim.rail_contacts t)
  /\ forall b, In b (Sim.hit t ++ Sim.rail_contacts t) ->
               Sim.cue_ball t <> Some b.

(** From [t] to [t'] the two records have only been appended to. *)
Definition records_grow (t t' : Sim.Table) : Prop :=
  Sim.cue_ball t' = Sim.cue_ball t
  /\ (exists new_hits, Sim.hit t' = Sim.hit t ++ new_hits)
  /\ (exists new_contacts,
        Sim.rail_contacts t' = Sim.rail_contacts t ++ new_contacts)
  /\ (records_distinct t -> records_distinct t').

(** Nothing is moving, no impulse is in flight and no strike is pending. *)
Definition table_idle (h : Sim.Heap) (t : Sim.Table) : Prop :=
  forall r, In r (Sim.balls t) ->
            Sim.moving (h r) = false
            /\ Sim.applied_force (h r) = None
            /\ Sim.attempted_force_application (h r) = false.

(** data.py: [Queue].  The items are kept in a Python list whose first
    item is the front of the queue.  A method that returns an item returns
    [None] on an empty queue. *)
Module Data.

Section Queue.

Variable A : Type.

Definition Queue : Type := list A.

(** [items[-1]] on a list that is not empty. *)
Definition last_item (items : list A) : option A :=
  match items with
  | [] => None
  | a :: rest => Some (last rest a)
  end.

Definition enqueue (item : A) (q : Queue) : Queue := q ++ [item].

(** [Queue.dequeue]: the queue that is left and the item returned
    ([self.items.pop(0)]). *)
Definition dequeue (q : Queue) : Queue * option A :=
  if List.length q =? 0 then (q, None)
  else match q with
       | a :: rest => (rest, Some a)
       | [] => (q, None)
       end.

Definition is_empty (q : Queue) : bool := List.length q =? 0.

Definition clear (q : Queue) : Queue := [].

(** [Queue.remove]: [self.items = self.items[1:]]. *)
Definition remove (q : Queue) : Queue := skipn 1 q.

(** [Queue.peek]: [self.items[-1]]. *)
Definition peek (q : Queue) : option A :=
  if List.length q =? 0 then None else last_item q.

End Queue.

End Data.

(** What the workers of a connection do to one of its queues. *)
Inductive QueueOp : Type :=
| DoEnqueue (m : Channel.Message)
| DoDequeue
| DoClear.

(** A [dequeue] that would block leaves the queue as it is. *)
Definition queue_step (q : Channel.BlockedQueue) (op : QueueOp)
  : Channel.BlockedQueue :=
  match op with
  | DoEnqueue m => Channel.enqueue m q
  | DoDequeue =>
      match Channel.dequeue q with
      | Some (q', _) => q'
      | None => q
      end
  | DoClear => Channel.clear q
  end.

(** The queue after [ops], starting from [BlockedQueue()]. *)
Definition queue_run (ops : list QueueOp) : Channel.BlockedQueue :=
  fold_left queue_step ops (Channel.mkQueue [] 0).

(** server.py, client.py: the receiver worker of [Connection].  What has
    been read from the socket, [full_data], ends with ["#"]; it is cut at
    every ["#"] and each piece but the last is parsed and handled.
    [loads] stands for [json.loads] followed by the look-up of the
    ["command"] key.  Any exception ends the worker through
    [__apply_error]. *)
Module Receiver.

Import Channel.
Local Open Scope string_scope.

Definition is_hash (c : ascii) : bool := Ascii.eqb c "#"%char.

(** [full_data.split("#")]. *)
Fixpoint split_hash (s : string) : list string :=
  match s with
  | EmptyString => [EmptyString]
  | String c rest =>
      if is_hash c then EmptyString :: split_hash rest
      else
        match split_hash rest with
        | piece :: pieces => String c piece :: pieces
        | [] => [String c EmptyString]
        end
  end.

(** [data[:-1]]. *)
Definition received_items (full_data : string) : list string :=
  removelast (split_hash full_data).

Definition server_enqueue_received (m : Message) (c : ServerChannel.Connection)
  : ServerChannel.Connection :=
  ServerChannel.mkConnection
    (ServerChannel.in_use c) (ServerChannel.can_delete c)
    (ServerChannel.waiting c) (ServerChannel.in_lobby c)
    (ServerChannel.send_queue c) (enqueue m (ServerChannel.receive_queue c))
    (ServerChannel.wire c).

(** The [for item in data[:-1]] loop of the server's [__receive_data]. *)
Fixpoint server_receive (loads : string -> Py.Result Message)
         (items : list string) (c : ServerChannel.Connection)
  : ServerChannel.Connection * Control :=
  match items with
  | [] => (c, Continue)
  | item :: rest =>
      match loads item with
      | Py.Ok request =>
          if String.eqb (command request) "received"
          then server_receive loads rest (ServerChannel.set_waiting false c)
          else server_receive loads rest (server_enqueue_received request c)
      | _ => (ServerChannel.apply_error c, Returned)
      end
  end.

Definition client_enqueue_received (m : Message) (c : ClientChannel.Connection)
  : ClientChannel.Connection :=
  ClientChannel.mkConnection
    (ClientChannel.in_use c) (ClientChannel.waiting c) (ClientChannel.error c)
    (ClientChannel.send_queue c) (enqueue m (ClientChannel.receive_queue c))
    (ClientChannel.wire c).

Definition unable_to_connect : string :=
  "Unable to connect with server - it may be offline or may not exist. Please try again later.".

(** The same loop of the client's [__receive_data]. *)
Fixpoint client_receive (loads : string -> Py.Result Message)
         (items : list string) (c : ClientChannel.Connection)
  : ClientChannel.Connection * Control :=
  match items with
  | [] => (c, Continue)
  | item :: rest =>
      match loads item with
      | Py.Ok request =>
          if String.eqb (command request) "received"
          then client_receive loads rest (ClientChannel.set_waiting false c)
          else client_receive loads rest (client_enqueue_received request c)
      | _ => (ClientChannel.apply_error unable_to_connect c, Returned)
      end
  end.

(** The frames of the messages [ms] one after the other, as the sender
    writes them: [json.dumps(data) + "#"]. *)
Definition frames_of (dumps : Message -> string) (ms : list Message) : string :=
  fold_right (fun m rest => dumps m ++ "#" ++ rest) "" ms.

Fixpoint no_hash (s : string) : bool :=
  match s with
  | EmptyString => true
  | String c rest => negb (is_hash c) && no_hash rest
  end.

Fixpoint count_hash (s : string) : nat :=
  match s with
  | EmptyString => 0
  | String c rest => (if is_hash c then 1 else 0) + count_hash rest
  end.

End Receiver.

(** What the sender and the receiver are assumed to agree on for one
    message: its text parses back to it, holds no ["#"], and it is not an
    acknowledgement. *)
Definition transmissible (dumps : Channel.Message -> string)
           (loads : string -> Py.Result Channel.Message)
           (m : Channel.Message) : Prop :=
  loads (dumps m) = Py.Ok m
  /\ Receiver.no_hash (dumps m) = true
  /\ Channel.command m <> "received"%string.

(** encryption.py: the two cipher functions.  A Python string is the list
    of its code points. *)
Module Encryption.

Definition Str : Type := list Z.

(** [chr(n)]. *)
Definition chr (n : Z) : Py.Result Z :=
  if ((0 <=? n) && (n <=? 1114111))%Z then Py.Ok n
  else Py.Raise (Py.ValueError "chr() arg not in range(0x110000)").

(** [ord(key[char % len(key)]) % 256]. *)
Definition key_shift (key : Str) (char : nat) : Py.Result Z :=
  if List.length key =? 0
  then Py.Raise (Py.ZeroDivisionError "integer modulo by zero")
  else Py.Ok (nth (char mod List.length key) key 0%Z mod 256)%Z.

(** The loop of [encrypt] from index [char] on; [rest] is what is left of
    the plaintext. *)
Fixpoint encrypt_from (key : Str) (char : nat) (rest ciphertext : Str)
  : Py.Result Str :=
  match rest with
  | [] => Py.Ok ciphertext
  | p :: rest' =>
      shift <- key_shift key char ;;
      c <- chr (p + shift) ;;
      encrypt_from key (S char) rest' (ciphertext ++ [c])
  end.

Definition encrypt (key plaintext : Str) : Py.Result Str :=
  encrypt_from key 0 plaintext [].

Fixpoint decrypt_from (key : Str) (char : nat) (rest plaintext : Str)
  : Py.Result Str :=
  match rest with
  | [] => Py.Ok plaintext
  | c :: rest' =>
      shift <- key_shift key char ;;
      p <- chr (c - shift) ;;
      decrypt_from key (S char) rest' (plaintext ++ [p])
  end.

Definition decrypt (key ciphertext : Str) : Py.Result Str :=
  decrypt_from key 0 ciphertext [].

End Encryption.

(** Code points that [encrypt] can shift without leaving the range of
    [chr]. *)
Definition shiftable (text : Encryption.Str) : Prop :=
  Forall (fun p => 0 <= p <= 1114111 - 255)%Z text.

(** The list of the player who is not at the table. *)
Definition opponent_balls (l : Server.Lobby) : list Sim.ref :=
  if Server.player_turn l =? 1 then Server.deref l (Server.p2_balls l)
  else Server.deref l (Server.p1_balls l).

(** The statistics of the player at the table and of the other player. *)
Definition shooter_stats (l : Server.Lobby) : Stats :=
  if Server.player_turn l =? 1 then Server.p1_stats l else Server.p2_stats l.

Definition waiting_stats (l : Server.Lobby) : Stats :=
  if Server.player_turn l =? 1 then Server.p2_stats l else Server.p1_stats l.

(** The table has been closed: one player has the striped balls, the other
    the spotted ones; the two lists share no ball; the turn is 1 or 2. *)
Definition groups_assigned (l : Server.Lobby) : Prop :=
  ((Server.p1_balls l = StripedList /\ Server.p2_balls l = SpottedList)
   \/ (Server.p1_balls l = SpottedList /\ Server.p2_balls l = StripedList))
  /\ (Server.player_turn l = 1 \/ Server.player_turn l = 2)
  /\ NoDup (Server.striped_balls l ++ Server.spotted_balls l).

(** What handling the pocketed balls [pk] has done between [(c, l)] and
    [(c', l')]. *)
Definition pocket_tally (pk : list Sim.ref) (c : bool) (l : Server.Lobby)
           (c' : bool) (l' : Server.Lobby) : Prop :=
  groups_assigned l'
  /\ Server.p1_balls l' = Server.p1_balls l
  /\ Server.p2_balls l' = Server.p2_balls l
  /\ Server.player_turn l' = Server.player_turn l
  /\ (forall x, In x (Server.striped_balls l')
                <-> In x (Server.striped_balls l) /\ ~ In x pk)
  /\ (forall x, In x (Server.spotted_balls l')
                <-> In x (Server.spotted_balls l) /\ ~ In x pk)
  /\ BallPockets (shooter_stats l') + List.length (Server.player_balls l')
     = BallPockets (shooter_stats l) + List.length (Server.player_balls l)
  /\ OpponentBallPockets (shooter_stats l') + List.length (opponent_balls l')
     = OpponentBallPockets (shooter_stats l) + List.length (opponent_balls l)
  /\ ShotsMade (shooter_stats l') = ShotsMade (shooter_stats l)
  /\ Fouls (shooter_stats l') = Fouls (shooter_stats l)
  /\ waiting_stats l' = waiting_stats l
  /\ (c' = true <-> c = true \/ exists b, In b pk /\ In b (Server.player_balls l)).

(** The messages that [__apply_rules] sends to each player after an
    ordinary shot on a closed table: the foul (if any), then the next
    turn. *)
Definition shot_messages (foul_ : bool) (reasons : list string)
           (continues : bool) : list Server.Message :=
  (if foul_ then [Server.cmd_foul (Some reasons)] else [])
  ++ [Server.cmd_start_next_turn continues false false true].

(** One more foul for the player whose turn it was. *)
Definition fouls_after (foul_ : bool) (turn player : nat) (before : nat) : nat :=
  if foul_ && (if player =? 1 then turn =? 1 else negb (turn =? 1))
  then S before else before.

Module VecArgs.

Import Vec.
Local Open Scope R_scope.
Local Open Scope string_scope.

(** The Python values that callers pass to [Vector2D(...)], [Vector2D.set]
    and [Vector2D.__getitem__].  [VSeq] is a tuple or a list. *)
#[warnings="-register-all"]
Inductive Value : Type :=
| VNone
| VBool (b : bool)
| VInt (n : Z)
| VFloat (r : R)
| VStr (s : string)
| VSeq (items : list Value)
| VVector (v : Vector2D).

(** [isinstance(v, (int, float))], with the number ([bool] is a subclass of
    [int]). *)
Definition numeric (v : Value) : option R :=
  match v with
  | VBool b => Some (if b then 1 else 0)
  | VInt n => Some (IZR n)
  | VFloat r => Some r
  | _ => None
  end.

(** The [x] and [y] setters behind the [is_numeric] wrapper. *)
Definition set_x (self : Vector2D) (v : Value) : Py.Result Vector2D :=
  match numeric v with
  | Some r => Py.Ok (mkVec r (y self))
  | None => Py.Raise (Py.TypeError "Value must be numeric.")
  end.

Definition set_y (self : Vector2D) (v : Value) : Py.Result Vector2D :=
  match numeric v with
  | Some r => Py.Ok (mkVec (x self) r)
  | None => Py.Raise (Py.TypeError "Value must be numeric.")
  end.

(** [sequence[k]] for a tuple or list and an [int] [k]. *)
Definition item {A} (l : list A) (k : Z) : Py.Result A :=
  let n := Z.of_nat (List.length l) in
  let k' := if (k <? 0)%Z then (k + n)%Z else k in
  if (k' <? 0)%Z || (n <=? k')%Z
  then Py.Raise (Py.IndexError "index out of range")
  else match nth_error l (Z.to_nat k') with
       | Some a => Py.Ok a
       | None => Py.Raise (Py.IndexError "index out of range")
       end.

(** [Vector2D.__init__(self, *args)].  The object has no components before
    the two assignments, so the model starts from any [self] and returns
    the constructed vector. *)
Definition init (args : list Value) : Py.Result Vector2D :=
  first <- item args 0 ;;
  match first with
  | VSeq items =>
      if (2 <=? List.length items)%nat then
        a <- item items 0 ;;
        self <- set_x zero a ;;
        b <- item items 1 ;;
        set_y self b
      else Py.Raise (Py.ValueError
             "Unable to create 2D Vector object based upon the input data.")
  | VVector v =>
      self <- set_x zero (VFloat (x v)) ;;
      set_y self (VFloat (y v))
  | _ =>
      match args with
      | a :: b :: _ =>
          match numeric a, numeric b with
          | Some _, Some _ =>
              self <- set_x zero a ;;
              set_y self b
          | _, _ => Py.Raise (Py.ValueError
             "Unable to create 2D Vector object based upon the input data.")
          end
      | _ => Py.Raise (Py.ValueError
             "Unable to create 2D Vector object based upon the input data.")
      end
  end.

(** [Vector2D.set]: the receiver after the call, and the exception if the
    call raised. *)
Definition set (self : Vector2D) (vector : Value)
  : Vector2D * option Py.Exn :=
  match vector with
  | VSeq items =>
      if negb (List.length items =? 2)%nat
      then (self, Some (Py.ValueError "Must be a tuple/list containing 2 items."))
      else
        match a <- item items 0 ;; set_x self a with
        | Py.Ok self1 =>
            match b <- item items 1 ;; set_y self1 b with
            | Py.Ok self2 => (self2, None)
            | Py.Raise e => (self1, Some e)
            | Py.OutOfFuel => (self1, None)
            end
        | Py.Raise e => (self, Some e)
        | Py.OutOfFuel => (self, None)
        end
  | VVector v =>
      match (self1 <- set_x self (VFloat (x v)) ;; set_y self1 (VFloat (y v))) with
      | Py.Ok self2 => (self2, None)
      | Py.Raise e => (self, Some e)
      | Py.OutOfFuel => (self, None)
      end
  | _ => (self, Some (Py.TypeError "Must input a valid vector to be set."))
  end.

(** [Vector2D.__getitem__]: [[self.x, self.y][key]]. *)
Definition getitem (self : Vector2D) (key : Value) : Py.Result R :=
  match key with
  | VBool b => item [x self; y self] (if b then 1 else 0)%Z
  | VInt k => item [x self; y self] k
  | _ => Py.Raise (Py.TypeError "list indices must be integers or slices")
  end.

(** [tuple(vector)]: the class has no [__iter__], so Python calls
    [__getitem__] with 0, 1, 2, ... until it raises [IndexError]. *)
Fixpoint iterate (fuel : nat) (self : Vector2D) (k : Z) : Py.Result (list R) :=
  match fuel with
  | O => Py.OutOfFuel
  | S fuel' =>
      match getitem self (VInt k) with
      | Py.Ok r => rest <- iterate fuel' self (k + 1)%Z ;; Py.Ok (r :: rest)
      | Py.Raise (Py.IndexError _) => Py.Ok []
      | Py.Raise e => Py.Raise e
      | Py.OutOfFuel => Py.OutOfFuel
      end
  end.

Definition to_tuple (fuel : nat) (self : Vector2D) : Py.Result Value :=
  items <- iterate fuel self 0%Z ;; Py.Ok (VSeq (map VFloat items)).

End VecArgs.

(** The two exceptions of [Vector2D.__init__] and [Vector2D.set]. *)
Definition not_numeric : Py.Exn := Py.TypeError "Value must be numeric.".
Definition not_a_vector : Py.Exn :=
  Py.ValueError "Unable to create 2D Vector object based upon the input data.".
Definition not_a_pair : Py.Exn :=
  Py.ValueError "Must be a tuple/list containing 2 items.".
Definition out_of_range : Py.Exn := Py.IndexError "index out of range".

Module ServerPlay.

Import Sim.
Local Open Scope string_scope.

(** The play commands that the lobby forwards to its players. *)
Inductive Command : Type :=
| cmd_place_ball (ball_pos : VecArgs.Value)
| cmd_hit_ball (number : option Z) (force angle : R).

(** The lobby of module [Server] with the attributes that the command
    handlers of a running game use: [do_check], [pending] (player 1 is
    [players[0]] and [__p1], player 2 is [players[1]] and [__p2]) and the
    play commands enqueued on each player's [send_queue]. *)
Record Play : Type := mkPlay {
  lobby : Server.Lobby;
  do_check : bool;
  pending : list nat;
  sent1 : list Command;
  sent2 : list Command
}.

(** [send_players(message, exclude)] for a play command. *)
Definition send_players (m : Command) (exclude : list (option nat)) (p : Play)
  : Play :=
  let included (n : nat) :=
    negb (existsb (fun e => match e with
                            | Some k => Nat.eqb k n
                            | None => false
                            end) exclude) in
  mkPlay (lobby p) (do_check p) (pending p)
         (if included 1 then sent1 p ++ [m] else sent1 p)
         (if included 2 then sent2 p ++ [m] else sent2 p).

Definition with_lobby (l : Server.Lobby) (p : Play) : Play :=
  mkPlay l (do_check p) (pending p) (sent1 p) (sent2 p).


(** [ball.number == number] for numbers that are an [int] or [None]. *)
Definition number_eqb (a b : option Z) : bool :=
  match a, b with
  | Some m, Some n => Z.eqb m n
  | None, None => true
  | _, _ => false
  end.

(** [Lobby.__hit_ball]: the loop over [table.balls], left at the first ball
    with the given number. *)
Fixpoint strike (h : Heap) (bs : list ref) (num : option Z)
         (time_of_application force angle : R) : Heap :=
  match bs with
  | [] => h
  | ball :: rest =>
      if number_eqb (number (h ball)) num
      then upd h ball (apply_force (h ball) time_of_application force
                                   (angle - PI)%R)
      else strike h rest num time_of_application force angle
  end.

Definition add_shot (s : Stats) : Stats :=
  mkStats (S (ShotsMade s)) (BallPockets s) (OpponentBallPockets s) (Fouls s).

(** [Lobby.__hit_ball].  [player] is the connection the command came from,
    or [None]; the lobby's settings are the dictionary its table was built
    with. *)
Definition hit_ball (player : option nat) (num : option Z) (force angle : R)
           (p : Play) : Play :=
  let l := lobby p in
  let l :=
    match player with
    | Some 1 => Server.with_stats (add_shot (Server.p1_stats l))
                                  (Server.p2_stats l) l
    | _ => Server.with_stats (Server.p1_stats l)
                             (add_shot (Server.p2_stats l)) l
    end in
  let h := strike (Server.heap l) (balls (Server.table l)) num
                  (time_of_cue_impact (t_settings (Server.table l)))
                  force angle in
  let l := Server.with_table h (Server.table l) l in
  let p := send_players (cmd_hit_ball num force angle) [player]
                        (with_lobby l p) in
  let p := with_lobby (Server.with_checked false (lobby p)) p in
  mkPlay (lobby p) true [1; 2] (sent1 p) (sent2 p).

(** [Lobby.__finished_drawing]: [list.remove] raises when the player is not
    in the list. *)
Definition finished_drawing (player : nat) (p : Play) : Py.Result Play :=
  if mem player (pending p)
  then Py.Ok (mkPlay (lobby p) (do_check p) (remove_first player (pending p))
                     (sent1 p) (sent2 p))
  else Py.Raise (Py.ValueError "list.remove(x): x not in list").

End ServerPlay.


(** What an offline game and a lobby both keep of a match. *)
Definition client_position (g : Client.Game) :=
  (Client.heap g, Client.table g, Client.striped_balls g,
   Client.spotted_balls g, Client.p1_balls g, Client.p2_balls g,
   Client.is_break g, Client.is_open g, Client.player_turn g).

Definition server_position (l : Server.Lobby) :=
  (Server.heap l, Server.table l, Server.striped_balls l,
   Server.spotted_balls l, Server.p1_balls l, Server.p2_balls l,
   Server.is_break l, Server.is_open l, Server.player_turn l).

Definition same_position (g : Client.Game) (l : Server.Lobby) : Prop :=
  client_position g = server_position l.

(** A ball that takes no part in the play: it does not collide, does not
    move and has no impulse in flight (the cue ball in hand). *)
Definition out_of_play (b : Sim.Ball) : Prop :=
  Sim.can_collide b = false
  /\ Sim.moving b = false
  /\ Sim.applied_force b = None.

(** A ball with its position, its previous position and the
    strike-attempt flag blanked: two balls with the same image differ at
    most in these three. *)
Definition at_origin (b : Sim.Ball) : Sim.Ball :=
  Sim.set_attempted false
    (Sim.set_old_pos Vec.zero (Sim.set_pos Vec.zero b)).

(** The lists of the table that a ball can be entered in. *)
Definition not_entered (b : Sim.ref) (t t' : Sim.Table) : Prop :=
  (In b (Sim.hit t') -> In b (Sim.hit t))
  /\ (In b (Sim.rail_contacts t') -> In b (Sim.rail_contacts t))
  /\ (In b (Sim.pocketed t') -> In b (Sim.pocketed t)).

(** [Lobby.__construct_objects]: the rack.
    Every [Ball(...)] is a new object: the balls get the references 0, 1,
    2, ... in the order of their creation, over a store [h0].  The results
    of [random.choice] are an input: [picks k] decides the choice made for
    the ball created as number [k]. *)
Module Racking.

Import Sim Vec.
Local Open Scope R_scope.

Definition Colour : Type := (Z * Z * Z)%type.
(** An entry of [balls_info]: [(number, colour)]. *)
Definition Info : Type := (Z * Colour)%type.
(** An entry of [to_send]: [(number, colour, tuple(ball_pos))]. *)
Definition Sent : Type := (Z * Colour * VecArgs.Value)%type.

Definition base_info : list Info :=
  [ (1, (240, 240, 0)); (2, (0, 0, 255)); (3, (255, 0, 0));
    (4, (128, 0, 128)); (5, (255, 165, 0)); (6, (0, 255, 0));
    (7, (128, 0, 0)) ]%Z.

Definition balls_info : list Info :=
  base_info ++ map (fun num => (fst num + 8, snd num)%Z) base_info.

Definition eight_info : Info := (8, (0, 0, 0))%Z.

(** [__calculate_racking_position]. *)
Definition calculate_racking_position (s : Settings) (t : Table) : Vector2D :=
  let racked_length := 94 / 10 * ball_radius s in
  let starting_width := t_width t / 2 in
  let starting_length := t_length t / 4 * 3 in
  let cutoff_length := t_length t / 20 * 19 in
  let starting_length :=
    if Rltb cutoff_length (racked_length + starting_length)
    then cutoff_length - racked_length
    else starting_length in
  mkVec starting_length starting_width.

(** The local variables of [__construct_objects] and the objects built so
    far. *)
Record State : Type := mkState {
  heap : Heap;
  table : Table;
  striped_balls : list ref;
  spotted_balls : list ref;
  to_send : list Sent;
  infos : list Info;            (* balls_info *)
  x_offset : R;
  y_offset : R;
  next : ref                    (* the reference of the next new ball *)
}.

(** [random.choice(seq)]: an item of a non-empty sequence. *)
Definition choice {A} (pick : nat) (l : list A) : Py.Result A :=
  match nth_error l (pick mod List.length l) with
  | Some a => Py.Ok a
  | None => Py.Raise (Py.IndexError "Cannot choose from an empty sequence"%string)
  end.

Definition info_eqb (a b : Info) : bool :=
  let '(n, (r, g, bl)) := a in
  let '(n', (r', g', bl')) := b in
  ((n =? n') && (r =? r') && (g =? g') && (bl =? bl'))%Z.

(** [list.remove(x)]: without the first item equal to [x]. *)
Fixpoint remove (x : Info) (l : list Info) : Py.Result (list Info) :=
  match l with
  | [] => Py.Raise (Py.ValueError "list.remove(x): x not in list"%string)
  | y :: l' =>
      if info_eqb x y then Py.Ok l'
      else l'' <- remove x l' ;; Py.Ok (y :: l'')
  end.

(** The body of the inner loop, for row [i] and place [j]. *)
Definition place (s : Settings) (picks : nat -> nat)
           (racking_position : Vector2D) (i j : nat) (st : State)
  : Py.Result State :=
  ' (ball_info, remaining) <-
      (if ((i =? 3) && (j =? 1))%nat then Py.Ok (eight_info, infos st)
       else
         ball_info <- choice (picks (next st)) (infos st) ;;
         remaining <- remove ball_info (infos st) ;;
         Py.Ok (ball_info, remaining)) ;;
  let shift_vector :=
    mkVec (x_offset st) (y_offset st + ball_radius s * (22 / 10) * INR j) in
  let ball_pos := add racking_position shift_vector in
  let is_striped := (8 <? fst ball_info)%Z in
  let ball := Ball_init ball_pos s is_striped (Some (fst ball_info)) in
  let r := next st in
  let h := upd (heap st) r ball in
  pos_tuple <- VecArgs.to_tuple 3 ball_pos ;;
  let sent := to_send st ++ [(fst ball_info, snd ball_info, pos_tuple)] in
  let striped_list :=
    if is_striped then striped_balls st ++ [r] else striped_balls st in
  let spotted_list :=
    if is_striped then spotted_balls st
    else if negb (fst ball_info =? 8)%Z then spotted_balls st ++ [r]
         else spotted_balls st in
  let t := add_ball h (table st) r in
  Py.Ok (mkState h t striped_list spotted_list sent remaining
                 (x_offset st) (y_offset st) (S r)).

(** The end of a row. *)
Definition next_row (s : Settings) (st : State) : State :=
  let y := y_offset st - ball_radius s * (11 / 10) in
  let x := x_offset st + ball_radius s * 2 in
  mkState (heap st) (table st) (striped_balls st) (spotted_balls st)
          (to_send st) (infos st) x y (next st).

(** [__construct_objects]: the new table with its balls, the two group
    lists, and the list that is sent to the players. *)
Definition construct_objects (s : Settings) (picks : nat -> nat) (h0 : Heap)
  : Py.Result (Rack * list Sent) :=
  let t := Table_init (mkVec 0 0) s in
  let st := mkState h0 t [] [] [] balls_info 0 0 0%nat in
  let racking_position := calculate_racking_position s t in
  st <- for_each [1; 2; 3; 4; 5]%nat
          (fun i st =>
             st <- for_each (seq 0 i) (place s picks racking_position i) st ;;
             Py.Ok (next_row s st))
          st ;;
  let ball_pos := mkVec (t_length (table st) / 3) (t_width (table st) / 2) in
  let cue_ball := Ball_init ball_pos s false None in
  let r := next st in
  let h := upd (heap st) r cue_ball in
  let t := add_ball h (table st) r in
  Py.Ok (mkRack h t (striped_balls st) (spotted_balls st), to_send st).

End Racking.

(** The ball built for an entry of [balls_info] at a position. *)
Definition ball_of (s : Sim.Settings) (p : Racking.Info * Vec.Vector2D)
  : Sim.Ball :=
  Sim.Ball_init (snd p) s (8 <? fst (fst p))%Z (Some (fst (fst p))).

(** The references, counted from [start], of the entries that satisfy
    [f]. *)
Fixpoint refs_where (f : Z -> bool) (start : nat)
         (l : list (Racking.Info * Vec.Vector2D)) : list Sim.ref :=
  match l with
  | [] => []
  | p :: l' =>
      (if f (fst (fst p)) then [start] else []) ++ refs_where f (S start) l'
  end.

Definition is_striped_number (n : Z) : bool := (8 <? n)%Z.
Definition is_spotted_number (n : Z) : bool :=
  negb (8 <? n)%Z && negb (n =? 8)%Z.

Definition sent_of (p : Racking.Info * Vec.Vector2D) : Racking.Sent :=
  (fst (fst p), snd (fst p),
   VecArgs.VSeq [VecArgs.VFloat (Vec.x (snd p)); VecArgs.VFloat (Vec.y (snd p))]).

(** What holds between two passes of the inner loop: [placed] are the
    entries used so far with the positions of their balls, [drawn] the
    entries taken out of [balls_info], [eight] the 8-ball if it has been
    placed. *)
Definition rack_inv (s : Sim.Settings) (h0 : Sim.Heap) (st : Racking.State)
           (placed : list (Racking.Info * Vec.Vector2D))
           (drawn : list Racking.Info) (eight : option Sim.ref) : Prop :=
  Racking.next st = List.length placed
  /\ (forall r, Racking.heap st r
                = match nth_error placed r with
                  | Some p => ball_of s p
                  | None => h0 r
                  end)
  /\ Racking.table st
     = Sim.set_balls (seq 0 (List.length placed))
         (Sim.set_eight_ball eight (Sim.Table_init (Vec.mkVec 0 0) s))
  /\ Racking.striped_balls st = refs_where is_striped_number 0 placed
  /\ Racking.spotted_balls st = refs_where is_spotted_number 0 placed
  /\ Racking.to_send st = map sent_of placed
  /\ Permutation (Racking.infos st ++ drawn) Racking.balls_info.

(** The offsets at the start of a row (rows counted from 0), as the loop
    computes them, and the position of place [j] of the row. *)
Fixpoint row_x (s : Sim.Settings) (row : nat) : R :=
  match row with
  | O => 0%R
  | S k => (row_x s k + Sim.ball_radius s * 2)%R
  end.

Fixpoint row_y (s : Sim.Settings) (row : nat) : R :=
  match row with
  | O => 0%R
  | S k => (row_y s k - Sim.ball_radius s * (11 / 10))%R
  end.

Definition slot (s : Sim.Settings) (rp : Vec.Vector2D) (row j : nat)
  : Vec.Vector2D :=
  Vec.add rp (Vec.mkVec (row_x s row)
                        (row_y s row + Sim.ball_radius s * (22 / 10) * INR j)%R).

(** The invariant together with the two offsets. *)
Definition at_slot (s : Sim.Settings) (h0 : Sim.Heap) (st : Racking.State)
           placed drawn eight (xo yo : R) : Prop :=
  rack_inv s h0 st placed drawn eight
  /\ Racking.x_offset st = xo /\ Racking.y_offset st = yo.

(** The fifteen places of the rack, in the order in which the balls are
    created. *)
Definition rack_slots (s : Sim.Settings) (rp : Vec.Vector2D)
  : list Vec.Vector2D :=
  [ slot s rp 0 0;
    slot s rp 1 0; slot s rp 1 1;
    slot s rp 2 0; slot s rp 2 1; slot s rp 2 2;
    slot s rp 3 0; slot s rp 3 1; slot s rp 3 2; slot s rp 3 3;
    slot s rp 4 0; slot s rp 4 1; slot s rp 4 2; slot s rp 4 3;
    slot s rp 4 4 ].

(** The speed of a ball that rolls along the horizontal axis with speed
    [v], after a physics step of length [t]: rolling friction and air
    resistance slow it down. *)
Definition rolled_speed (b : Sim.Ball) (v t : R) : R :=
  (v + (Sim.coeff_of_rolling_friction (Sim.settings b) * Sim.normal_contact b
        + Sim.air_res_coeff b * v * v) / Sim.mass b * t)%R.

(** The velocity components that [update_physics] sets to zero. *)
Definition clamped (limit v : R) : R :=
  if Rltb (Rabs v) limit then 0%R else v.

(** A ball of the elastic settings that has rolled from [coords] to [next]
    and has velocity [v]: its circle is at [next] as [update_physics]
    leaves it. *)
Definition rolling (coords next v : Vec.Vector2D) : Sim.Ball :=
  Sim.set_pos next (incoming coords next v).



(** The spot, 3 cm from the right-hand rail and half-way up the table,
    where the two balls of the example are. *)
Definition rail_spot : Vec.Vector2D := Vec.mkVec (258 / 100) (655 / 1000).

(** Ball 1 rolls towards the right-hand rail at 1 m/s. *)
Definition rail_ball : Sim.Ball :=
  Sim.set_vel (Vec.mkVec 1 0)
    (Sim.Ball_init rail_spot Sample.settings false (Some 1%Z)).

(** The cue ball is in hand, at the same spot. *)
Definition held_cue : Sim.Ball :=
  Sim.set_can_collide false
    (Sim.Ball_init rail_spot Sample.settings false None).

Definition rail_heap : Sim.Heap :=
  fun r => match r with O => held_cue | S _ => rail_ball end.

Definition rail_table : Sim.Table :=
  Sim.set_holding (Some 0)
    (Sim.set_in_motion true
       (fold_left (Sim.add_ball rail_heap) [0; 1]
                  (Sim.Table_init (Vec.mkVec 0 0) Sample.settings))).

(** The speed of ball 1 after the step of 1/240 s. *)
Definition rail_speed : R := rolled_speed rail_ball 1 (1 / 240).

Definition right_rail : Sim.LineSegment :=
  Sim.LineSegment_init (Vec.mkVec (261 / 100) (54912 / 1000000))
                       (Vec.mkVec (261 / 100) (1255088 / 1000000)).

(** The table after the first loop of [Table.update]. *)
Definition rail_table_moving : Sim.Table :=
  Sim.set_in_motion true
    (Sim.set_in_motion false (Sim.set_previously_in_motion true rail_table)).

(** Ball 1 after the first loop of [Table.update]. *)
Definition rail_ball_rolled (B1 : Sim.Ball) : Prop :=
  Sim.vel B1 = Vec.mkVec rail_speed 0
  /\ Sim.new_pos B1
     = Vec.mkVec (258 / 100 + rail_speed * (1 / 240)) (655 / 1000 + 0)
  /\ Sim.pos B1 = Sim.new_pos B1
  /\ Sim.radius B1 = (286 / 10000)%R
  /\ Sim.settings B1 = Sample.settings
  /\ Sim.applied_force B1 = None
  /\ Sim.colliding B1 = false
  /\ Sim.hit_rail B1 = false
  /\ Sim.can_collide B1 = true
  /\ Sim.number B1 = Some 1%Z.


(* ================================================================== *)
(** * Properties                                                       *)
(* ================================================================== *)

(** ** Vector2D: the magnitude comparisons *)

(** C10.  For every pair of vectors, each of [<], [<=], [>=], [>] raises
    [AttributeError] on the misspelt attribute [magnitude_sqared] instead of
    returning a Boolean, so none of them completes normally, while [==] and
    [!=] return the exact component-wise comparison. *)
Theorem vector_order_comparisons_raise (u v : Vec.Vector2D) :
  Vec.__lt__ u (Vec.PVec v) = Py.Raise (Py.AttributeError "magnitude_sqared")
  /\ Vec.__le__ u (Vec.PVec v) = Py.Raise (Py.AttributeError "magnitude_sqared")
  /\ Vec.__ge__ u (Vec.PVec v) = Py.Raise (Py.AttributeError "magnitude_sqared")
  /\ Vec.__gt__ u (Vec.PVec v) = Py.Raise (Py.AttributeError "magnitude_sqared")
  /\ ~ Py.completes (Vec.__lt__ u (Vec.PVec v))
  /\ ~ Py.completes (Vec.__le__ u (Vec.PVec v))
  /\ ~ Py.completes (Vec.__ge__ u (Vec.PVec v))
  /\ ~ Py.completes (Vec.__gt__ u (Vec.PVec v))
  /\ Vec.__eq__ u (Vec.PVec v) = Py.Ok (Vec.eqb u v)
  /\ Vec.__ne__ u (Vec.PVec v) = Py.Ok (Vec.neb u v).
Proof.
  repeat split; try reflexivity;
    intros [b Hb]; discriminate Hb.
Qed.

(** ** The rule checks of the lobby and of the offline game *)

(** What the later steps read from a lobby is not changed by the
    bookkeeping of pocketed balls. *)
Lemma server_remove_pocketed_step_view acc ball :
  server_rules_view (snd (Server.remove_pocketed_step acc ball))
  = server_rules_view (snd acc).
Proof.
  destruct acc as [cc l]. unfold Server.remove_pocketed_step.
  destruct l as [h t st sp g1 g2 br op turn s chk sh ps cd sp0 v td s1 s2 q1 q2].
  cbn.
  destruct (Sim.mem ball _).
  - destruct (turn =? 1), g1; reflexivity.
  - destruct (Sim.mem ball _).
    + destruct (turn =? 2), g2; reflexivity.
    + reflexivity.
Qed.

Lemma server_remove_pocketed_fold_view pk : forall acc,
  server_rules_view (snd (fold_left Server.remove_pocketed_step pk acc))
  = server_rules_view (snd acc).
Proof.
  induction pk as [|b pk IH]; intros acc; cbn [fold_left].
  - reflexivity.
  - rewrite IH. apply server_remove_pocketed_step_view.
Qed.

Lemma server_remove_pocketed_view (l : Server.Lobby) :
  server_rules_view (snd (Server.remove_pocketed_balls l)) = server_rules_view l.
Proof.
  unfold Server.remove_pocketed_balls.
  pose proof (server_remove_pocketed_fold_view
                (Sim.pocketed (Server.table l)) (false, l)) as H.
  destruct (fold_left _ _ _) as [cc l1]. cbn [snd] in H.
  destruct (_ && _); cbn [snd]; exact H.
Qed.

(** The open-table check leaves the table, the turn and the flags as they
    are: it only binds the group lists. *)
Lemma server_open_table_scan_view (l : Server.Lobby) pk :
  let l' := snd (Server.open_table_scan l pk) in
  Server.table l' = Server.table l
  /\ Server.heap l' = Server.heap l
  /\ Server.is_open l' = Server.is_open l
  /\ Server.is_break l' = Server.is_break l
  /\ Server.player_turn l' = Server.player_turn l
  /\ Server.queue1 l' = Server.queue1 l
  /\ Server.queue2 l' = Server.queue2 l
  /\ Server.striped_balls l' = Server.striped_balls l
  /\ Server.spotted_balls l' = Server.spotted_balls l.
Proof.
  induction pk as [|b pk IH]; cbn [Server.open_table_scan].
  - cbn. repeat split.
  - destruct (negb _).
    + unfold Server.close_table. destruct (_ || _); cbn; repeat split.
    + exact IH.
Qed.

Lemma server_open_table_check_view (l : Server.Lobby) :
  let l' := snd (Server.open_table_check l) in
  Server.table l' = Server.table l
  /\ Server.heap l' = Server.heap l
  /\ Server.is_open l' = Server.is_open l
  /\ Server.is_break l' = Server.is_break l
  /\ Server.player_turn l' = Server.player_turn l
  /\ Server.queue1 l' = Server.queue1 l
  /\ Server.queue2 l' = Server.queue2 l
  /\ Server.striped_balls l' = Server.striped_balls l
  /\ Server.spotted_balls l' = Server.spotted_balls l.
Proof.
  unfold Server.open_table_check.
  destruct (Server.hit_first_is_eight _).
  - cbn. repeat split.
  - apply server_open_table_scan_view.
Qed.

(** The victory scan, once it is past the first position, names the other
    player whenever the 8-ball is still to come. *)
Lemma server_victory_scan_later (l : Server.Lobby) (e : Sim.ref) pk :
  forall index,
    Sim.eight_ball (Server.table l) = Some e ->
    In e pk ->
    (index <> 0 \/ Server.is_open l = true)%nat ->
    Server.victory_scan l index pk = Some (Server.other_turn l).
Proof.
  induction pk as [|b pk IH]; intros index He Hin Hc; [destruct Hin|].
  cbn [Server.victory_scan]. rewrite He. cbn [Sim.is_ref].
  destruct (Nat.eqb_spec b e) as [->|Hne].
  - destruct Hc as [Hc|Hc].
    + apply Nat.eqb_neq in Hc. rewrite Hc. reflexivity.
    + rewrite Hc, orb_true_r. reflexivity.
  - destruct Hin as [Hin|Hin]; [congruence|].
    apply IH; auto.
Qed.

Lemma server_victory_check_value (l : Server.Lobby) (e : Sim.ref) :
  Sim.eight_ball (Server.table l) = Some e ->
  In e (Sim.pocketed (Server.table l)) ->
  Server.victory_check l
  = Some (if negb (match Sim.pocketed (Server.table l) with
                   | first :: _ => Nat.eqb first e
                   | [] => false
                   end)
             || Server.is_open l
             || negb (List.length (Server.player_balls l) =? 0)
          then Server.other_turn l else Server.player_turn l).
Proof.
  intros He Hin. unfold Server.victory_check.
  destruct (Sim.pocketed (Server.table l)) as [|b pk]; [destruct Hin|].
  cbn [Server.victory_scan]. rewrite He. cbn [Sim.is_ref].
  destruct (Nat.eqb_spec b e) as [->|Hne].
  - cbn. destruct (_ || _); reflexivity.
  - destruct Hin as [Hin|Hin]; [congruence|].
    cbn [negb orb]. apply server_victory_scan_later with (e := e); auto.
Qed.

Lemma client_victory_scan_later (g : Client.Game) (e : Sim.ref) pk :
  forall index,
    Sim.eight_ball (Client.table g) = Some e ->
    In e pk ->
    (index <> 0)%nat ->
    Client.victory_scan g index pk = Some (Client.other_turn g).
Proof.
  induction pk as [|b pk IH]; intros index He Hin Hc; [destruct Hin|].
  cbn [Client.victory_scan]. rewrite He. cbn [Sim.is_ref].
  destruct (Nat.eqb_spec b e) as [->|Hne].
  - apply Nat.eqb_neq in Hc. rewrite Hc. reflexivity.
  - destruct Hin as [Hin|Hin]; [congruence|].
    apply IH; auto.
Qed.

Lemma client_victory_check_value (g : Client.Game) (e : Sim.ref) :
  Sim.eight_ball (Client.table g) = Some e ->
  In e (Sim.pocketed (Client.table g)) ->
  Client.victory_check g
  = Some (if negb (match Sim.pocketed (Client.table g) with
                   | first :: _ => Nat.eqb first e
                   | [] => false
                   end)
             || Client.is_open g
             || negb (List.length (Client.player_balls g) =? 0)
          then Client.other_turn g else Client.player_turn g).
Proof.
  intros He Hin. unfold Client.victory_check.
  destruct (Sim.pocketed (Client.table g)) as [|b pk]; [destruct Hin|].
  cbn [Client.victory_scan]. rewrite He. cbn [Sim.is_ref].
  destruct (Nat.eqb_spec b e) as [->|Hne].
  - cbn. destruct (_ || _); reflexivity.
  - destruct Hin as [Hin|Hin]; [congruence|].
    cbn [negb orb]. apply client_victory_scan_later with (e := e); auto.
Qed.

Lemma sample_table_refs :
  Sim.eight_ball Sample.racked_table = Some 8
  /\ Sim.cue_ball Sample.racked_table = Some 0
  /\ Sim.balls Sample.racked_table
     = [1; 2; 3; 4; 5; 6; 7; 8; 9; 10; 11; 12; 13; 14; 15; 0].
Proof. repeat split. Qed.

Lemma server_check_game_state_victor (rack : Rack) (l : Server.Lobby) (e : Sim.ref) :
  Server.is_break l = false ->
  Sim.eight_ball (Server.table l) = Some e ->
  In e (Sim.pocketed (Server.table l)) ->
  exists w l',
    Server.victory_check l = Some w
    /\ Server.check_game_state rack l = Py.Ok l'
    /\ Server.victor l' = Some w
    /\ Server.to_delete l' = true
    /\ In (Server.cmd_victory w) (Server.queue1 l')
    /\ In (Server.cmd_victory w) (Server.queue2 l').
Proof.
  intros Hb He Hin.
  pose proof (server_victory_check_value l He Hin) as Hv.
  eexists. 
  assert (Hl1 : exists so l1,
             (if Server.is_open l then Server.open_table_check l else (false, l))
             = (so, l1)
             /\ Server.is_break l1 = false
             /\ Server.victory_check l1 = Server.victory_check l).
  { destruct (Server.is_open l) eqn:Ho.
    - destruct (Server.open_table_check l) as [so l1] eqn:Hc.
      exists so, l1. split; [reflexivity|].
      pose proof (server_open_table_check_view l) as Hview.
      rewrite Hc in Hview. cbn [snd] in Hview.
      destruct Hview as (Ht & _ & Hop & Hbr & Hturn & _).
      split; [congruence|].
      unfold Server.victory_check. rewrite Ht.
      rewrite (@server_victory_scan_later l1 e _ 0); try congruence; auto.
      2:{ right. congruence. }
      rewrite (@server_victory_scan_later l e _ 0); auto.
      unfold Server.other_turn. rewrite Hturn. reflexivity.
    - exists false, l. auto. }
  destruct Hl1 as (so & l1 & Hstep & Hb1 & Hv1).
  unfold Server.check_game_state. rewrite Hstep, Hb1.
  destruct (Server.foul_check l1) as [fl reasons].
  pose proof (server_remove_pocketed_view l1) as Hview.
  destruct (Server.remove_pocketed_balls l1) as [cc l2]. cbn [snd] in Hview.
  unfold server_rules_view in Hview.
  injection Hview as Hbr _ _ _ _ Hq1 Hq2 _ _ _ _.
  unfold Server.apply_rules.
  cbn [Server.is_break Server.with_checked].
  rewrite Hbr, Hb1. cbn [andb].
  rewrite Hv1, Hv.
  eexists. split; [reflexivity|]. split; [reflexivity|].
  cbn. repeat split; apply in_or_app; right; left; reflexivity.
Qed.

(** C1, as amended.  When the 8-ball is in this turn's pocketed list, the
    victory check of the lobby and of the offline game names the opponent
    if the 8-ball is not the first item of the list, or the table is open,
    or the shooter's group list is not empty, and names the shooter
    otherwise; in a non-break state the lobby records that player as the
    victor and sends the victory command to both players. *)
Theorem victory_check_eight_pocketed
        (rack : Rack) (l : Server.Lobby) (g : Client.Game) (e : Sim.ref) :
  (Sim.eight_ball (Server.table l) = Some e ->
   In e (Sim.pocketed (Server.table l)) ->
   ((hd_error (Sim.pocketed (Server.table l)) <> Some e
     \/ Server.is_open l = true
     \/ Server.player_balls l <> []) ->
    Server.victory_check l = Some (Server.other_turn l))
   /\ (hd_error (Sim.pocketed (Server.table l)) = Some e ->
       Server.is_open l = false ->
       Server.player_balls l = [] ->
       Server.victory_check l = Some (Server.player_turn l))
   /\ (Server.is_break l = false ->
       exists w l',
         Server.victory_check l = Some w
         /\ Server.check_game_state rack l = Py.Ok l'
         /\ Server.victor l' = Some w
         /\ In (Server.cmd_victory w) (Server.queue1 l')
         /\ In (Server.cmd_victory w) (Server.queue2 l')))
  /\ (Sim.eight_ball (Client.table g) = Some e ->
      In e (Sim.pocketed (Client.table g)) ->
      ((hd_error (Sim.pocketed (Client.table g)) <> Some e
        \/ Client.is_open g = true
        \/ Client.player_balls g <> []) ->
       Client.victory_check g = Some (Client.other_turn g))
      /\ (hd_error (Sim.pocketed (Client.table g)) = Some e ->
          Client.is_open g = false ->
          Client.player_balls g = [] ->
          Client.victory_check g = Some (Client.player_turn g))).
Proof.
  split.
  - intros He Hin.
    pose proof (server_victory_check_value l He Hin) as Hv.
    split; [|split].
    + intros Hc. rewrite Hv.
      destruct (Sim.pocketed (Server.table l)) as [|b pk]; [destruct Hin|].
      cbn [hd_error] in Hc.
      destruct (Nat.eqb_spec b e) as [->|Hne]; [|reflexivity].
      destruct Hc as [Hc|[Hc|Hc]]; [congruence| |].
      * rewrite Hc. reflexivity.
      * destruct (Server.player_balls l); [congruence|].
        cbn. rewrite orb_true_r. reflexivity.
    + intros Hhd Ho Hpb. rewrite Hv, Ho, Hpb.
      destruct (Sim.pocketed (Server.table l)) as [|b pk]; [destruct Hin|].
      cbn [hd_error] in Hhd. injection Hhd as ->.
      rewrite Nat.eqb_refl. reflexivity.
    + intros Hb.
      destruct (server_check_game_state_victor rack l Hb He Hin)
        as (w & l' & H1 & H2 & H3 & _ & H5 & H6).
      exists w, l'. auto.
  - intros He Hin.
    pose proof (client_victory_check_value g He Hin) as Hv.
    split.
    + intros Hc. rewrite Hv.
      destruct (Sim.pocketed (Client.table g)) as [|b pk]; [destruct Hin|].
      cbn [hd_error] in Hc.
      destruct (Nat.eqb_spec b e) as [->|Hne]; [|reflexivity].
      destruct Hc as [Hc|[Hc|Hc]]; [congruence| |].
      * rewrite Hc. reflexivity.
      * destruct (Client.player_balls g); [congruence|].
        cbn. rewrite orb_true_r. reflexivity.
    + intros Hhd Ho Hpb. rewrite Hv, Ho, Hpb.
      destruct (Sim.pocketed (Client.table g)) as [|b pk]; [destruct Hin|].
      cbn [hd_error] in Hhd. injection Hhd as ->.
      rewrite Nat.eqb_refl. reflexivity.
Qed.

(** Player 1 (striped, one striped ball left) pockets ball 9 and then the
    8-ball on a closed table: player 2 is the victor.  Player 1 of the
    offline game, with no group ball left, pockets only the 8-ball and
    wins. *)
Lemma victory_check_eight_pocketed_witness :
  Server.victory_check
    (Sample.lobby (Sample.shot_table [9] [9; 8] []) false false 1
                  StripedList SpottedList [9] [1; 2])
  = Some 2
  /\ Client.victory_check
       (Sample.game (Sample.shot_table [8] [8] []) false false 1
                    StripedList SpottedList [] [1; 2])
     = Some 1.
Proof.
  pose proof
    (@victory_check_eight_pocketed
       Sample.rack
       (Sample.lobby (Sample.shot_table [9] [9; 8] []) false false 1
                     StripedList SpottedList [9] [1; 2])
       (Sample.game (Sample.shot_table [8] [8] []) false false 1
                    StripedList SpottedList [] [1; 2])
       8) as [Hs Hc].
  split.
  - destruct (Hs eq_refl (or_intror (or_introl eq_refl))) as [H _].
    apply H. left. discriminate.
  - destruct (Hc eq_refl (or_introl eq_refl)) as [_ H].
    apply H; reflexivity.
Defined.

(** C1 as written fails: on a closed table, in a non-break state, player 1
    has no group ball left and pockets the 8-ball as the first (and only)
    item of the pocketed list.  The claim makes player 1 lose; the code
    declares player 1 the winner, in the lobby and in the offline game. *)
Lemma victory_first_item_counterexample :
  let t := Sample.shot_table [8] [8] [] in
  let l := Sample.lobby t false false 1 StripedList SpottedList [] [1; 2] in
  let g := Sample.game t false false 1 StripedList SpottedList [] [1; 2] in
  Server.is_break l = false
  /\ Sim.eight_ball t = Some 8
  /\ hd_error (Sim.pocketed t) = Some 8
  /\ Server.victory_check l = Some (Server.player_turn l)
  /\ Server.victory_check l <> Some (Server.other_turn l)
  /\ Client.victory_check g = Some (Client.player_turn g)
  /\ Client.victory_check g <> Some (Client.other_turn g)
  /\ exists l', Server.check_game_state Sample.rack l = Py.Ok l'
                /\ Server.victor l' = Some 1.
Proof.
  cbv zeta. repeat split; try discriminate.
  eexists. split; reflexivity.
Qed.

(** ** The break check *)

Lemma is_ref_existsb (o : option Sim.ref) (pk : list Sim.ref) :
  existsb (fun b => Sim.is_ref b o) pk = true
  <-> exists b, In b pk /\ o = Some b.
Proof.
  rewrite existsb_exists. split.
  - intros (b & Hin & Hr). exists b. split; [assumption|].
    destruct o as [r|]; [|discriminate]. cbn in Hr.
    apply Nat.eqb_eq in Hr. congruence.
  - intros (b & Hin & ->). exists b. split; [assumption|].
    cbn. apply Nat.eqb_refl.
Qed.

Lemma break_scan_server (t : Sim.Table) (pk : list Sim.ref) :
  forall f r,
    fold_left (Server.break_check_step t) pk (f, r)
    = (f || existsb (fun b => Sim.is_ref b (Sim.eight_ball t)) pk
         || existsb (fun b => Sim.is_ref b (Sim.cue_ball t)) pk,
       r || existsb (fun b => Sim.is_ref b (Sim.eight_ball t)) pk).
Proof.
  induction pk as [|b pk IH]; intros f r; cbn [fold_left existsb].
  - rewrite !orb_false_r. reflexivity.
  - unfold Server.break_check_step at 2.
    destruct (Sim.is_ref b (Sim.eight_ball t));
      [|destruct (Sim.is_ref b (Sim.cue_ball t))];
      rewrite IH; cbn;
      repeat rewrite ?orb_true_r, ?orb_true_l, ?orb_false_r; reflexivity.
Qed.

Lemma break_scan_client (t : Sim.Table) (pk : list Sim.ref) :
  forall acc,
    fold_left (Client.break_check_step t) pk acc
    = fold_left (Server.break_check_step t) pk acc.
Proof.
  induction pk as [|b pk IH]; intros acc; cbn [fold_left]; [reflexivity|].
  rewrite IH. reflexivity.
Qed.

Lemma break_outcome_spec (t : Sim.Table) :
  let r :=
    if (List.length (Sim.pocketed t) =? 0)
       && (List.length (Sim.rail_contacts t) <? 4)
    then (true, false)
    else fold_left (Server.break_check_step t) (Sim.pocketed t) (false, false) in
  (fst r = true
   <-> (Sim.pocketed t = [] /\ List.length (Sim.rail_contacts t) < 4)
       \/ eight_pocketed t \/ cue_pocketed t)
  /\ (snd r = true <-> eight_pocketed t).
Proof.
  cbv zeta. unfold eight_pocketed, cue_pocketed.
  rewrite <- !is_ref_existsb.
  destruct (Sim.pocketed t) as [|b pk] eqn:Hpk.
  - cbn [List.length Nat.eqb andb existsb].
    destruct (Nat.ltb_spec (List.length (Sim.rail_contacts t)) 4) as [Hlt|Hge];
      cbn; intuition (discriminate || lia || auto).
  - cbn [List.length Nat.eqb andb].
    rewrite break_scan_server. cbn [fst snd orb].
    rewrite orb_true_iff.
    intuition (discriminate || auto).
Qed.

Lemma server_break_check_spec (l : Server.Lobby) :
  let t := Server.table l in
  (fst (Server.break_check l) = true
   <-> (Sim.pocketed t = [] /\ List.length (Sim.rail_contacts t) < 4)
       \/ eight_pocketed t \/ cue_pocketed t)
  /\ (snd (Server.break_check l) = true <-> eight_pocketed t).
Proof. exact (break_outcome_spec (Server.table l)). Qed.

Lemma client_break_check_spec (g : Client.Game) :
  let t := Client.table g in
  (fst (Client.break_check g) = true
   <-> (Sim.pocketed t = [] /\ List.length (Sim.rail_contacts t) < 4)
       \/ eight_pocketed t \/ cue_pocketed t)
  /\ (snd (Client.break_check g) = true <-> eight_pocketed t).
Proof.
  pose proof (break_outcome_spec (Client.table g)) as H.
  unfold Client.break_check. rewrite break_scan_client. exact H.
Qed.

Lemma client_break_check_eq (g : Client.Game) (l : Server.Lobby) :
  Client.table g = Server.table l ->
  Client.break_check g = Server.break_check l.
Proof.
  intros Ht. unfold Client.break_check, Server.break_check.
  rewrite Ht. rewrite break_scan_client. reflexivity.
Qed.

Lemma server_break_check_table (l1 l2 : Server.Lobby) :
  Server.table l1 = Server.table l2 ->
  Server.break_check l1 = Server.break_check l2.
Proof. intros H. unfold Server.break_check. rewrite H. reflexivity. Qed.

(** The state in which [__apply_rules] is entered on a break. *)
Lemma server_check_game_state_break (rack : Rack) (l : Server.Lobby) :
  Server.is_break l = true ->
  exists stop_open l3,
    Server.check_game_state rack l
    = Server.apply_rules rack stop_open (fst (Server.break_check l)) None
                         (snd (Server.break_check l)) None
                         (fst (Server.remove_pocketed_balls
                                 (snd (if Server.is_open l
                                       then Server.open_table_check l
                                       else (false, l)))))
                         l3
    /\ Server.is_break l3 = true
    /\ Server.player_turn l3 = Server.player_turn l
    /\ Server.table l3 = Server.table l
    /\ Server.queue1 l3 = Server.queue1 l
    /\ Server.queue2 l3 = Server.queue2 l.
Proof.
  intros Hb. unfold Server.check_game_state.
  assert (Hl1 : exists so l1,
             (if Server.is_open l then Server.open_table_check l else (false, l))
             = (so, l1)
             /\ Server.is_break l1 = true
             /\ Server.table l1 = Server.table l
             /\ Server.player_turn l1 = Server.player_turn l
             /\ Server.queue1 l1 = Server.queue1 l
             /\ Server.queue2 l1 = Server.queue2 l).
  { destruct (Server.is_open l).
    - destruct (Server.open_table_check l) as [so l1] eqn:Hc.
      exists so, l1. split; [reflexivity|].
      pose proof (server_open_table_check_view l) as Hview.
      rewrite Hc in Hview. cbn [snd] in Hview.
      destruct Hview as (Ht & _ & Hop & Hbr & Hturn & Hq1 & Hq2 & _).
      repeat split; congruence.
    - exists false, l. repeat split; auto. }
  destruct Hl1 as (so & l1 & -> & Hb1 & Ht1 & Hturn1 & Hq1 & Hq2).
  rewrite Hb1. cbn [snd].
  rewrite (server_break_check_table l1 l Ht1).
  destruct (Server.break_check l) as [fl fr]. cbn [fst snd].
  pose proof (server_remove_pocketed_view l1) as Hview.
  destruct (Server.remove_pocketed_balls l1) as [cc l2]. cbn [fst snd] in *.
  unfold server_rules_view in Hview.
  injection Hview as Hbr _ Hturn Ht _ Hq1' Hq2' _ _ _ _.
  exists so, (Server.with_checked true l2).
  split; [reflexivity|]. cbn. repeat split; congruence.
Qed.

Lemma server_forced_redo (rack : Rack) (l : Server.Lobby) :
  Server.is_break l = true ->
  eight_pocketed (Server.table l) ->
  exists l',
    Server.check_game_state rack l = Py.Ok l'
    /\ Server.table l' = rack_table rack
    /\ Server.heap l' = rack_heap rack
    /\ Server.is_break l' = true
    /\ Server.is_open l' = true
    /\ Server.player_turn l' = Server.other_turn l
    /\ Server.queue1 l'
       = Server.queue1 l ++ [Server.cmd_force_redo_message;
                             Server.cmd_load_settings; Server.cmd_create_game 1]
    /\ Server.queue2 l'
       = Server.queue2 l ++ [Server.cmd_force_redo_message;
                             Server.cmd_load_settings; Server.cmd_create_game 2].
Proof.
  intros Hb H8.
  destruct (server_check_game_state_break rack l Hb)
    as (so & l3 & -> & Hb3 & Hturn & Ht & Hq1 & Hq2).
  destruct (server_break_check_spec l) as [Hfoul Hforce]. cbv zeta in *.
  assert (Hf : fst (Server.break_check l) = true) by (apply Hfoul; auto).
  assert (Hr : snd (Server.break_check l) = true) by (apply Hforce; auto).
  rewrite Hf, Hr. unfold Server.apply_rules. rewrite Hb3. cbn [andb].
  eexists. split; [reflexivity|].
  cbn. unfold Server.other_turn, Server.send_players. cbn.
  rewrite Hturn, Hq1, Hq2.
  rewrite <- !app_assoc. cbn [app]. repeat split.
Qed.

Lemma server_offered_redo (rack : Rack) (l : Server.Lobby) :
  Server.is_break l = true ->
  fst (Server.break_check l) = true ->
  ~ eight_pocketed (Server.table l) ->
  exists l',
    Server.check_game_state rack l = Py.Ok l'
    /\ Server.is_break l' = true
    /\ Server.can_shoot l' = false
    /\ Server.player_turn l' = Server.other_turn l
    /\ Server.table l' = Sim.reset_counts (Server.table l)
    /\ (Server.player_turn l = 1 ->
        In Server.cmd_redo_choice (Server.queue2 l'))
    /\ (Server.player_turn l = 2 ->
        In Server.cmd_redo_choice (Server.queue1 l')).
Proof.
  intros Hb Hf H8.
  destruct (server_check_game_state_break rack l Hb)
    as (so & l3 & -> & Hb3 & Hturn & Ht & Hq1 & Hq2).
  destruct (server_break_check_spec l) as [_ Hforce]. cbv zeta in *.
  assert (Hr : snd (Server.break_check l) = false).
  { destruct (snd (Server.break_check l)); [|reflexivity].
    exfalso. apply H8, Hforce. reflexivity. }
  rewrite Hf, Hr. unfold Server.apply_rules. rewrite Hb3. cbn [andb].
  eexists. split; [reflexivity|].
  unfold Server.other_turn. rewrite <- Hturn, <- Ht.
  clear Hturn Ht Hq1 Hq2 Hforce H8 Hf Hr Hb.
  destruct l3 as [h t st sp g1 g2 br op turn s chk sh ps cd sp0 v td s1 s2 q1 q2].
  cbn in Hb3. subst br.
  unfold Server.finish_turn. cbn -[Nat.eqb].
  destruct so; destruct (Nat.eqb_spec turn 2) as [->|H2];
    try destruct (Nat.eqb_spec turn 1) as [->|H1];
    cbn; repeat split; intros; try discriminate; try congruence;
    repeat (apply in_or_app; first [right; left; reflexivity | left]).
  all: destruct (Nat.eqb_spec turn 1); congruence.
Qed.

Lemma client_remove_pocketed_step_view acc ball :
  client_rules_view (snd (Client.remove_pocketed_step acc ball))
  = client_rules_view (snd acc).
Proof.
  destruct acc as [cc g]. unfold Client.remove_pocketed_step.
  destruct g as [h t st sp g1 g2 br op turn s chk sh ps q].
  cbn.
  destruct (Sim.mem ball _).
  - destruct g1; reflexivity.
  - destruct (Sim.mem ball _).
    + destruct g2; reflexivity.
    + reflexivity.
Qed.

Lemma client_remove_pocketed_fold_view pk : forall acc,
  client_rules_view (snd (fold_left Client.remove_pocketed_step pk acc))
  = client_rules_view (snd acc).
Proof.
  induction pk as [|b pk IH]; intros acc; cbn [fold_left].
  - reflexivity.
  - rewrite IH. apply client_remove_pocketed_step_view.
Qed.

Lemma client_remove_pocketed_view (g : Client.Game) :
  client_rules_view (snd (Client.remove_pocketed_balls g)) = client_rules_view g.
Proof.
  unfold Client.remove_pocketed_balls.
  pose proof (client_remove_pocketed_fold_view
                (Sim.pocketed (Client.table g)) (false, g)) as H.
  destruct (fold_left _ _ _) as [cc g1]. cbn [snd] in H.
  destruct (_ && _); cbn [snd]; exact H.
Qed.

Lemma client_open_table_scan_view (g : Client.Game) pk :
  let g' := snd (Client.open_table_scan g pk) in
  Client.table g' = Client.table g
  /\ Client.heap g' = Client.heap g
  /\ Client.is_open g' = Client.is_open g
  /\ Client.is_break g' = Client.is_break g
  /\ Client.player_turn g' = Client.player_turn g
  /\ Client.striped_balls g' = Client.striped_balls g
  /\ Client.spotted_balls g' = Client.spotted_balls g.
Proof.
  induction pk as [|b pk IH]; cbn [Client.open_table_scan].
  - cbn. repeat split.
  - destruct (_ && _).
    + unfold Client.close_table. destruct (_ || _); cbn; repeat split.
    + exact IH.
Qed.

Lemma client_open_table_check_view (g : Client.Game) :
  let g' := snd (Client.open_table_check g) in
  Client.table g' = Client.table g
  /\ Client.heap g' = Client.heap g
  /\ Client.is_open g' = Client.is_open g
  /\ Client.is_break g' = Client.is_break g
  /\ Client.player_turn g' = Client.player_turn g
  /\ Client.striped_balls g' = Client.striped_balls g
  /\ Client.spotted_balls g' = Client.spotted_balls g.
Proof.
  unfold Client.open_table_check.
  destruct (Client.hit_first_is_eight _).
  - cbn. repeat split.
  - apply client_open_table_scan_view.
Qed.

Lemma client_break_check_table (g1 g2 : Client.Game) :
  Client.table g1 = Client.table g2 ->
  Client.break_check g1 = Client.break_check g2.
Proof. intros H. unfold Client.break_check. rewrite H. reflexivity. Qed.

(** The state in which [_apply_rules] is entered on a break. *)
Lemma client_check_game_state_break (rack : Rack) (g : Client.Game) :
  Client.is_break g = true ->
  exists stop_open cc g3,
    Client.check_game_state rack g
    = Client.apply_rules rack stop_open (fst (Client.break_check g))
                         (snd (Client.break_check g)) None cc g3
    /\ Client.is_break g3 = true
    /\ Client.player_turn g3 = Client.player_turn g
    /\ Client.table g3 = Client.table g.
Proof.
  intros Hb. unfold Client.check_game_state.
  assert (Hg1 : exists so g1,
             (if Client.is_open g then Client.open_table_check g else (false, g))
             = (so, g1)
             /\ Client.is_break g1 = true
             /\ Client.table g1 = Client.table g
             /\ Client.player_turn g1 = Client.player_turn g).
  { destruct (Client.is_open g).
    - destruct (Client.open_table_check g) as [so g1] eqn:Hc.
      exists so, g1. split; [reflexivity|].
      pose proof (client_open_table_check_view g) as Hview.
      rewrite Hc in Hview. cbn [snd] in Hview.
      destruct Hview as (Ht & _ & Hop & Hbr & Hturn & _).
      repeat split; congruence.
    - exists false, g. repeat split; auto. }
  destruct Hg1 as (so & g1 & -> & Hb1 & Ht1 & Hturn1).
  rewrite Hb1.
  rewrite (client_break_check_table g1 g Ht1).
  destruct (Client.break_check g) as [fl fr]. cbn [fst snd].
  pose proof (client_remove_pocketed_view g1) as Hview.
  destruct (Client.remove_pocketed_balls g1) as [cc g2]. cbn [fst snd] in *.
  unfold client_rules_view in Hview.
  injection Hview as Hbr _ Hturn Ht _ _ _ _.
  exists so, cc, g2.
  split; [reflexivity|]. repeat split; congruence.
Qed.

Lemma client_forced_redo (rack : Rack) (g : Client.Game) :
  Client.is_break g = true ->
  eight_pocketed (Client.table g) ->
  exists g',
    Client.check_game_state rack g = Py.Ok (g', false)
    /\ Client.table g' = rack_table rack
    /\ Client.heap g' = rack_heap rack
    /\ Client.is_break g' = true
    /\ Client.is_open g' = true
    /\ Client.player_turn g' = Client.other_turn g
    /\ Client.event_queue g'
       = [Client.ev_force_redo (Client.player_turn g) (Client.other_turn g)].
Proof.
  intros Hb H8.
  destruct (client_check_game_state_break rack g Hb)
    as (so & cc & g3 & -> & Hb3 & Hturn & Ht).
  destruct (client_break_check_spec g) as [Hfoul Hforce]. cbv zeta in *.
  assert (Hf : fst (Client.break_check g) = true) by (apply Hfoul; auto).
  assert (Hr : snd (Client.break_check g) = true) by (apply Hforce; auto).
  rewrite Hf, Hr. unfold Client.apply_rules. rewrite Hb3. cbn [andb].
  eexists. split; [reflexivity|].
  cbn. unfold Client.other_turn, Client.enqueue. cbn.
  rewrite Hturn. repeat split.
Qed.

Lemma client_offered_redo (rack : Rack) (g : Client.Game) :
  Client.is_break g = true ->
  fst (Client.break_check g) = true ->
  ~ eight_pocketed (Client.table g) ->
  exists g',
    Client.check_game_state rack g = Py.Ok (g', false)
    /\ Client.is_break g' = true
    /\ Client.can_shoot g' = false
    /\ Client.player_turn g' = Client.other_turn g
    /\ Client.table g' = Sim.reset_counts (Client.table g)
    /\ In (Client.ev_redo_choice (Client.player_turn g) (Client.other_turn g))
          (Client.event_queue g').
Proof.
  intros Hb Hf H8.
  destruct (client_check_game_state_break rack g Hb)
    as (so & cc & g3 & -> & Hb3 & Hturn & Ht).
  destruct (client_break_check_spec g) as [_ Hforce]. cbv zeta in *.
  assert (Hr : snd (Client.break_check g) = false).
  { destruct (snd (Client.break_check g)); [|reflexivity].
    exfalso. apply H8, Hforce. reflexivity. }
  rewrite Hf, Hr. unfold Client.apply_rules. rewrite Hb3. cbn [andb].
  eexists. split; [reflexivity|].
  unfold Client.other_turn. rewrite <- Hturn, <- Ht.
  clear Hturn Ht Hforce H8 Hf Hr Hb.
  destruct g3 as [h t st sp g1 g2 br op turn s chk sh ps q].
  cbn in Hb3. subst br.
  unfold Client.finish_turn, Client.redo_choice, Client.enqueue. cbn -[Nat.eqb].
  destruct so; cbn; repeat split;
    apply in_or_app; right; left; reflexivity.
Qed.

(** C2.  On a break shot the check reports a foul exactly when nothing was
    pocketed and fewer than four balls are in the rail-contact record, or
    the 8-ball was pocketed, or the cue ball was pocketed; it forces the
    redo exactly when the 8-ball was pocketed.  A forced redo re-racks at
    once, offers no choice and gives the break to the other player; a
    break foul without the 8-ball sends the keep-or-redo choice to the
    other player.  The same holds in the offline game. *)
Theorem break_check_foul_and_forced_redo
        (rack : Rack) (l : Server.Lobby) (g : Client.Game) :
  ((fst (Server.break_check l) = true
    <-> (Sim.pocketed (Server.table l) = []
         /\ List.length (Sim.rail_contacts (Server.table l)) < 4)
        \/ eight_pocketed (Server.table l) \/ cue_pocketed (Server.table l))
   /\ (snd (Server.break_check l) = true <-> eight_pocketed (Server.table l))
   /\ (Server.is_break l = true ->
       eight_pocketed (Server.table l) ->
       exists l',
         Server.check_game_state rack l = Py.Ok l'
         /\ Server.table l' = rack_table rack
         /\ Server.is_break l' = true
         /\ Server.player_turn l' = Server.other_turn l
         /\ Server.queue1 l'
            = Server.queue1 l ++ [Server.cmd_force_redo_message;
                                  Server.cmd_load_settings;
                                  Server.cmd_create_game 1]
         /\ Server.queue2 l'
            = Server.queue2 l ++ [Server.cmd_force_redo_message;
                                  Server.cmd_load_settings;
                                  Server.cmd_create_game 2])
   /\ (Server.is_break l = true ->
       fst (Server.break_check l) = true ->
       ~ eight_pocketed (Server.table l) ->
       exists l',
         Server.check_game_state rack l = Py.Ok l'
         /\ Server.is_break l' = true
         /\ Server.can_shoot l' = false
         /\ Server.player_turn l' = Server.other_turn l
         /\ (Server.player_turn l = 1 ->
             In Server.cmd_redo_choice (Server.queue2 l'))
         /\ (Server.player_turn l = 2 ->
             In Server.cmd_redo_choice (Server.queue1 l'))))
  /\ ((fst (Client.break_check g) = true
       <-> (Sim.pocketed (Client.table g) = []
            /\ List.length (Sim.rail_contacts (Client.table g)) < 4)
           \/ eight_pocketed (Client.table g) \/ cue_pocketed (Client.table g))
      /\ (snd (Client.break_check g) = true <-> eight_pocketed (Client.table g))
      /\ (Client.is_break g = true ->
          eight_pocketed (Client.table g) ->
          exists g',
            Client.check_game_state rack g = Py.Ok (g', false)
            /\ Client.table g' = rack_table rack
            /\ Client.is_break g' = true
            /\ Client.player_turn g' = Client.other_turn g
            /\ Client.event_queue g'
               = [Client.ev_force_redo (Client.player_turn g)
                                       (Client.other_turn g)])
      /\ (Client.is_break g = true ->
          fst (Client.break_check g) = true ->
          ~ eight_pocketed (Client.table g) ->
          exists g',
            Client.check_game_state rack g = Py.Ok (g', false)
            /\ Client.is_break g' = true
            /\ Client.can_shoot g' = false
            /\ Client.player_turn g' = Client.other_turn g
            /\ In (Client.ev_redo_choice (Client.player_turn g)
                                         (Client.other_turn g))
                  (Client.event_queue g'))).
Proof.
  split.
  - destruct (server_break_check_spec l) as [Hf Hr]. cbv zeta in *.
    split; [exact Hf|]. split; [exact Hr|]. split.
    + intros Hb H8.
      destruct (server_forced_redo rack l Hb H8)
        as (l' & H1 & H2 & _ & H4 & _ & H6 & H7 & H8').
      exists l'. repeat split; assumption.
    + intros Hb Hfoul H8.
      destruct (server_offered_redo rack l Hb Hfoul H8)
        as (l' & H1 & H2 & H3 & H4 & _ & H6 & H7).
      exists l'. repeat split; assumption.
  - destruct (client_break_check_spec g) as [Hf Hr]. cbv zeta in *.
    split; [exact Hf|]. split; [exact Hr|]. split.
    + intros Hb H8.
      destruct (client_forced_redo rack g Hb H8)
        as (g' & H1 & H2 & _ & H4 & _ & H6 & H7).
      exists g'. repeat split; assumption.
    + intros Hb Hfoul H8.
      destruct (client_offered_redo rack g Hb Hfoul H8)
        as (g' & H1 & H2 & H3 & H4 & _ & H6).
      exists g'. repeat split; assumption.
Qed.

(** Player 1 breaks and pockets ball 3 and the 8-ball: the lobby re-racks
    and player 2 breaks.  Player 1 of the offline game breaks, pockets
    nothing and drives two balls to a rail: player 2 gets the choice. *)
Lemma break_check_foul_and_forced_redo_witness :
  (exists l',
      Server.check_game_state
        Sample.rack
        (Sample.lobby (Sample.shot_table [1] [3; 8] [1; 3; 8; 11]) true true 1
                      FreshList FreshList
                      [9; 10; 11; 12; 13; 14; 15] [1; 2; 3; 4; 5; 6; 7])
      = Py.Ok l'
      /\ Server.player_turn l' = 2)
  /\ (exists g',
         Client.check_game_state
           Sample.rack
           (Sample.game (Sample.shot_table [1] [] [1; 3]) true true 1
                        FreshList FreshList
                        [9; 10; 11; 12; 13; 14; 15] [1; 2; 3; 4; 5; 6; 7])
         = Py.Ok (g', false)
         /\ In (Client.ev_redo_choice 1 2) (Client.event_queue g')).
Proof.
  pose proof
    (@break_check_foul_and_forced_redo
       Sample.rack
       (Sample.lobby (Sample.shot_table [1] [3; 8] [1; 3; 8; 11]) true true 1
                     FreshList FreshList
                     [9; 10; 11; 12; 13; 14; 15] [1; 2; 3; 4; 5; 6; 7])
       (Sample.game (Sample.shot_table [1] [] [1; 3]) true true 1
                    FreshList FreshList
                    [9; 10; 11; 12; 13; 14; 15] [1; 2; 3; 4; 5; 6; 7]))
    as [(_ & _ & Hforced & _) (_ & _ & _ & Hoffered)].
  split.
  - assert (H8 : eight_pocketed (Sample.shot_table [1] [3; 8] [1; 3; 8; 11])).
    { exists 8. split; [right; left; reflexivity | reflexivity]. }
    destruct (Hforced eq_refl H8) as (l' & H1 & _ & _ & H4 & _).
    exists l'. split; [exact H1 | exact H4].
  - assert (H8 : ~ eight_pocketed (Sample.shot_table [1] [] [1; 3])).
    { intros (b & Hin & _). destruct Hin. }
    destruct (Hoffered eq_refl eq_refl H8) as (g' & H1 & _ & _ & _ & H5).
    exists g'. split; [exact H1 | exact H5].
Defined.

(** ** The foul check *)

Lemma mem_In (r : Sim.ref) (l : list Sim.ref) :
  Sim.mem r l = true <-> In r l.
Proof.
  unfold Sim.mem. rewrite existsb_exists. split.
  - intros (x & Hin & Hx). apply Nat.eqb_eq in Hx. subst x. exact Hin.
  - intros Hin. exists r. split; [assumption | apply Nat.eqb_refl].
Qed.

Lemma mem_not_In (r : Sim.ref) (l : list Sim.ref) :
  Sim.mem r l = false <-> ~ In r l.
Proof.
  rewrite <- mem_In. destruct (Sim.mem r l); intuition congruence.
Qed.

Lemma server_foul_check_bool (l : Server.Lobby) :
  let t := Server.table l in
  fst (Server.foul_check l)
  = (List.length (Sim.hit t) =? 0)
    || (negb (Server.is_open l) && wrong_first_ball t (Server.player_balls l))
    || ((List.length (Sim.pocketed t) =? 0)
        && (List.length (Sim.rail_contacts t) =? 0))
    || existsb (fun b => Sim.is_ref b (Sim.cue_ball t)) (Sim.pocketed t).
Proof.
  cbv zeta. unfold Server.foul_check, wrong_first_ball.
  destruct (Sim.hit (Server.table l)) as [|first ht];
    destruct (Sim.pocketed (Server.table l)) as [|p pk];
    destruct (Sim.rail_contacts (Server.table l)) as [|r rc];
    destruct (Server.is_open l);
    cbn [List.length Nat.eqb Nat.ltb Nat.leb negb andb orb existsb fst app];
    try reflexivity;
    try (destruct (Sim.mem first (Server.player_balls l));
         destruct (Sim.is_ref first (Sim.eight_ball (Server.table l)));
         destruct (List.length (Server.player_balls l) =? 0));
    try (destruct pk as [|p2 pk]);
    try (destruct (Sim.is_ref p (Sim.cue_ball (Server.table l))));
    cbn [List.length Nat.eqb Nat.ltb Nat.leb negb andb orb existsb fst app];
    try reflexivity;
    try (destruct (Sim.is_ref p2 (Sim.cue_ball (Server.table l))));
    try (destruct (existsb _ pk));
    cbn [List.length Nat.eqb Nat.ltb Nat.leb negb andb orb existsb fst app];
    reflexivity.
Qed.

Lemma wrong_first_ball_spec (t : Sim.Table) (own : list Sim.ref) :
  wrong_first_ball t own = true <-> first_ball_not_allowed t own.
Proof.
  unfold wrong_first_ball, first_ball_not_allowed.
  destruct (Sim.hit t) as [|first ht]; cbn [hd_error].
  - split; [discriminate | intros (f & Hf & _); discriminate].
  - rewrite andb_true_iff, !negb_true_iff, mem_not_In, andb_false_iff.
    split.
    + intros [Hown H8]. exists first. split; [reflexivity|]. split; [assumption|].
      intros [He Hnil]. destruct H8 as [H8|H8].
      * rewrite He in H8. cbn in H8. rewrite Nat.eqb_refl in H8. discriminate.
      * rewrite Hnil in H8. discriminate.
    + intros (f & Hf & Hown & H8). injection Hf as <-.
      split; [assumption|].
      destruct (Sim.is_ref first (Sim.eight_ball t)) eqn:Hr; [|left; reflexivity].
      right. destruct own as [|o own]; [|reflexivity].
      exfalso. apply H8. split; [|reflexivity].
      destruct (Sim.eight_ball t) as [e|]; [|discriminate].
      cbn in Hr. apply Nat.eqb_eq in Hr. congruence.
Qed.

Lemma client_foul_check_bool (g : Client.Game) :
  let t := Client.table g in
  Client.foul_check g
  = (List.length (Sim.hit t) =? 0)
    || (negb (Client.is_open g) && wrong_first_ball t (Client.player_balls g))
    || ((List.length (Sim.pocketed t) =? 0)
        && (List.length (Sim.rail_contacts t) =? 0))
    || match Sim.pocketed t with
       | [c] => Sim.is_ref c (Sim.cue_ball t)
       | _ => false
       end
    || existsb (fun b => negb (Sim.mem b (Client.player_balls g))
                         && Sim.is_ref b (Sim.cue_ball t))
               (Sim.pocketed t).
Proof.
  cbv zeta. unfold Client.foul_check, Client.foul_reasons, wrong_first_ball.
  generalize (existsb (fun b => negb (Sim.mem b (Client.player_balls g))
                                && Sim.is_ref b (Sim.cue_ball (Client.table g)))
                      (Sim.pocketed (Client.table g))).
  intros ex.
  destruct (Sim.hit (Client.table g)) as [|first ht];
    destruct (Sim.pocketed (Client.table g)) as [|p pk];
    destruct (Sim.rail_contacts (Client.table g)) as [|r rc];
    destruct (Client.is_open g);
    destruct ex;
    cbn [List.length Nat.eqb Nat.ltb Nat.leb negb andb orb fst app];
    try reflexivity;
    try (destruct (Sim.mem first (Client.player_balls g));
         destruct (Sim.is_ref first (Sim.eight_ball (Client.table g)));
         destruct (List.length (Client.player_balls g) =? 0));
    try (destruct pk as [|p2 pk]);
    try (destruct (Sim.is_ref p (Sim.cue_ball (Client.table g))));
    cbn [List.length Nat.eqb Nat.ltb Nat.leb negb andb orb fst app];
    reflexivity.
Qed.

Lemma length_eqb_0 {A} (l : list A) : (List.length l =? 0) = true <-> l = [].
Proof. destruct l; cbn; split; congruence. Qed.

(** C6, as amended.  On a settled non-break shot the foul check reports a
    foul exactly when no ball was struck; or the table is closed and the
    first struck ball is not one of the shooter's group balls (striking the
    8-ball first with the shooter's group empty is legal); or nothing was
    pocketed and there was no rail contact; or the cue ball is among the
    pocketed balls.  (The offline game tests the last condition on the
    pocketed balls outside the shooter's group list, and also fouls when
    the cue ball is the only pocketed ball.) *)
Theorem foul_check_conditions (l : Server.Lobby) (g : Client.Game) :
  (fst (Server.foul_check l) = true
   <-> Sim.hit (Server.table l) = []
       \/ (Server.is_open l = false
           /\ first_ball_not_allowed (Server.table l) (Server.player_balls l))
       \/ (Sim.pocketed (Server.table l) = []
           /\ Sim.rail_contacts (Server.table l) = [])
       \/ cue_pocketed (Server.table l))
  /\ (Client.foul_check g = true
      <-> Sim.hit (Client.table g) = []
          \/ (Client.is_open g = false
              /\ first_ball_not_allowed (Client.table g) (Client.player_balls g))
          \/ (Sim.pocketed (Client.table g) = []
              /\ Sim.rail_contacts (Client.table g) = [])
          \/ (exists c, Sim.pocketed (Client.table g) = [c]
                        /\ Sim.cue_ball (Client.table g) = Some c)
          \/ (exists b, In b (Sim.pocketed (Client.table g))
                        /\ Sim.cue_ball (Client.table g) = Some b
                        /\ ~ In b (Client.player_balls g))).
Proof.
  split.
  - rewrite server_foul_check_bool. cbv zeta.
    rewrite !orb_true_iff, !andb_true_iff, negb_true_iff, !length_eqb_0.
    rewrite wrong_first_ball_spec. unfold cue_pocketed.
    rewrite is_ref_existsb. tauto.
  - rewrite client_foul_check_bool. cbv zeta.
    rewrite !orb_true_iff, !andb_true_iff, negb_true_iff, !length_eqb_0.
    rewrite wrong_first_ball_spec.
    assert (H1 : match Sim.pocketed (Client.table g) with
                 | [c] => Sim.is_ref c (Sim.cue_ball (Client.table g))
                 | _ => false
                 end = true
                 <-> exists c, Sim.pocketed (Client.table g) = [c]
                               /\ Sim.cue_ball (Client.table g) = Some c).
    { destruct (Sim.pocketed (Client.table g)) as [|c [|c2 pk]].
      - split; [discriminate | intros (c & H & _); discriminate].
      - split.
        + intros Hr. exists c. split; [reflexivity|].
          destruct (Sim.cue_ball (Client.table g)) as [q|]; [|discriminate].
          cbn in Hr. apply Nat.eqb_eq in Hr. congruence.
        + intros (c' & H & Hq). injection H as <-. rewrite Hq. cbn.
          apply Nat.eqb_refl.
      - split; [discriminate | intros (c' & H & _); discriminate]. }
    assert (H2 : existsb (fun b => negb (Sim.mem b (Client.player_balls g))
                                   && Sim.is_ref b (Sim.cue_ball (Client.table g)))
                         (Sim.pocketed (Client.table g)) = true
                 <-> exists b, In b (Sim.pocketed (Client.table g))
                               /\ Sim.cue_ball (Client.table g) = Some b
                               /\ ~ In b (Client.player_balls g)).
    { rewrite existsb_exists. split.
      - intros (b & Hin & Hb). apply andb_true_iff in Hb. destruct Hb as [Hm Hr].
        apply negb_true_iff, mem_not_In in Hm.
        exists b. split; [assumption|]. split; [|assumption].
        destruct (Sim.cue_ball (Client.table g)) as [q|]; [|discriminate].
        cbn in Hr. apply Nat.eqb_eq in Hr. congruence.
      - intros (b & Hin & Hq & Hm). exists b. split; [assumption|].
        apply andb_true_iff. split.
        + apply negb_true_iff, mem_not_In. assumption.
        + rewrite Hq. cbn. apply Nat.eqb_refl. }
    rewrite H1, H2. tauto.
Qed.

(** C6 as written fails: on a closed table player 1 (striped) strikes
    ball 9 first and pockets ball 9 and then the cue ball.  A ball was
    struck, the first struck ball is the shooter's own, a ball was
    pocketed, and the cue ball is not the only pocketed ball; the code
    still reports a foul. *)
Lemma foul_only_cue_counterexample :
  let t := Sample.shot_table [9] [9; 0] [] in
  let l := Sample.lobby t false false 1 StripedList SpottedList [9; 10] [1; 2] in
  let g := Sample.game t false false 1 StripedList SpottedList [9; 10] [1; 2] in
  fst (Server.foul_check l) = true
  /\ Client.foul_check g = true
  /\ Sim.hit t <> []
  /\ hd_error (Sim.hit t) = Some 9
  /\ In 9 (Server.player_balls l)
  /\ In 9 (Client.player_balls g)
  /\ Sim.pocketed t <> []
  /\ ~ (exists c, Sim.pocketed t = [c] /\ Sim.cue_ball t = Some c).
Proof.
  cbv zeta. repeat split; try discriminate.
  - left. reflexivity.
  - left. reflexivity.
  - intros (c & H & _). discriminate H.
Qed.

(** ** The open-table check *)

Lemma is_ref_true (r : Sim.ref) (o : option Sim.ref) :
  Sim.is_ref r o = true <-> o = Some r.
Proof.
  destruct o as [q|]; cbn.
  - rewrite Nat.eqb_eq. split; congruence.
  - split; discriminate.
Qed.

Lemma is_ref_false (r : Sim.ref) (o : option Sim.ref) :
  Sim.is_ref r o = false <-> o <> Some r.
Proof.
  rewrite <- is_ref_true. destruct (Sim.is_ref r o); intuition congruence.
Qed.

Lemma server_hit_first_is_eight_spec (t : Sim.Table) :
  Server.hit_first_is_eight t = true <-> first_hit_is_eight t.
Proof.
  unfold Server.hit_first_is_eight, first_hit_is_eight.
  destruct (Sim.hit t) as [|f ht]; cbn [hd_error].
  - split; [discriminate | intros (e & _ & H); discriminate].
  - rewrite is_ref_true. split.
    + intros H. exists f. auto.
    + intros (e & H1 & H2). congruence.
Qed.

Lemma server_open_table_scan_first (l : Server.Lobby) (b : Sim.ref) pre post :
  (forall x, In x pre ->
             Sim.eight_ball (Server.table l) = Some x
             \/ Sim.cue_ball (Server.table l) = Some x) ->
  Sim.eight_ball (Server.table l) <> Some b ->
  Sim.cue_ball (Server.table l) <> Some b ->
  Server.open_table_scan l (pre ++ b :: post)
  = (true,
     Server.close_table
       ((Sim.striped (Server.heap l b) && (Server.player_turn l =? 1))
        || (negb (Sim.striped (Server.heap l b)) && (Server.player_turn l =? 2)))
       l).
Proof.
  intros Hpre H8 Hc.
  induction pre as [|x pre IH]; cbn [app Server.open_table_scan].
  - apply is_ref_false in H8, Hc. rewrite H8, Hc. reflexivity.
  - assert (Hx : Sim.is_ref x (Sim.eight_ball (Server.table l))
                 || Sim.is_ref x (Sim.cue_ball (Server.table l)) = true).
    { apply orb_true_iff. rewrite !is_ref_true. apply Hpre. left. reflexivity. }
    rewrite Hx. cbn [negb]. apply IH.
    intros y Hy. apply Hpre. right. exact Hy.
Qed.

Lemma client_open_table_scan_first (g : Client.Game) (b : Sim.ref) pre post :
  (forall x, In x pre ->
             Sim.eight_ball (Client.table g) = Some x
             \/ Sim.cue_ball (Client.table g) = Some x) ->
  Sim.eight_ball (Client.table g) <> Some b ->
  Sim.cue_ball (Client.table g) <> Some b ->
  Client.open_table_scan g (pre ++ b :: post)
  = (true,
     Client.close_table
       ((Sim.striped (Client.heap g b) && (Client.player_turn g =? 1))
        || (negb (Sim.striped (Client.heap g b)) && (Client.player_turn g =? 2)))
       g).
Proof.
  intros Hpre H8 Hc.
  induction pre as [|x pre IH]; cbn [app Client.open_table_scan].
  - apply is_ref_false in H8, Hc. rewrite H8, Hc. reflexivity.
  - assert (Hx : negb (Sim.is_ref x (Sim.eight_ball (Client.table g)))
                 && negb (Sim.is_ref x (Sim.cue_ball (Client.table g))) = false).
    { destruct (Hpre x (or_introl eq_refl)) as [H|H];
        apply is_ref_true in H; rewrite H; cbn; auto using andb_false_r. }
    rewrite Hx. apply IH.
    intros y Hy. apply Hpre. right. exact Hy.
Qed.

Lemma server_victory_scan_none (l : Server.Lobby) pk :
  forall index,
    (forall b, In b pk -> Sim.eight_ball (Server.table l) <> Some b) ->
    Server.victory_scan l index pk = None.
Proof.
  induction pk as [|b pk IH]; intros index H; cbn [Server.victory_scan].
  - reflexivity.
  - assert (Hb : Sim.is_ref b (Sim.eight_ball (Server.table l)) = false).
    { apply is_ref_false, H. left. reflexivity. }
    rewrite Hb. apply IH. intros x Hx. apply H. right. exact Hx.
Qed.

Lemma server_victory_check_none (l : Server.Lobby) :
  ~ eight_pocketed (Server.table l) -> Server.victory_check l = None.
Proof.
  intros H. apply server_victory_scan_none.
  intros b Hin He. apply H. exists b. auto.
Qed.

(** Closing the table at the end of [__apply_rules]. *)
Lemma server_finish_turn_closes (foul_ may_shoot : bool) (l : Server.Lobby) :
  let l' := Server.finish_turn true foul_ false may_shoot l in
  Server.is_open l' = false
  /\ Server.p1_is_striped l' = Server.p1_is_striped l
  /\ In (Server.cmd_close_table (Server.p1_is_striped l)) (Server.queue1 l')
  /\ In (Server.cmd_close_table (Server.p1_is_striped l)) (Server.queue2 l').
Proof.
  destruct l as [h t st sp g1 g2 br op turn s chk sh ps cd sp0 v td s1 s2 q1 q2].
  unfold Server.finish_turn. cbn.
  destruct (br && negb foul_); cbn; repeat split;
    apply in_or_app; left; apply in_or_app; right; left; reflexivity.
Qed.

Lemma server_apply_foul_penalty_ok (l : Server.Lobby) (c : Sim.ref) :
  Sim.cue_ball (Server.table l) = Some c ->
  exists l',
    Server.apply_foul_penalty l = Py.Ok l'
    /\ Server.p1_is_striped l' = Server.p1_is_striped l
    /\ Server.is_break l' = Server.is_break l
    /\ Server.is_open l' = Server.is_open l
    /\ Server.queue1 l' = Server.queue1 l
    /\ Server.queue2 l' = Server.queue2 l
    /\ Server.player_turn l' = Server.other_turn l
    /\ Sim.holding (Server.table l') = Some c
    /\ Sim.can_collide (Server.heap l' c) = false.
Proof.
  intros Hc.
  destruct l as [h t st sp g1 g2 br op turn s chk sh ps cd sp0 v td s1 s2 q1 q2].
  cbn in Hc. unfold Server.apply_foul_penalty. cbn -[Nat.eqb].
  destruct (turn =? 1) eqn:Ht; cbn -[Nat.eqb]; rewrite Hc;
    (eexists; split; [reflexivity|]);
    cbn -[Nat.eqb]; unfold Server.other_turn, Sim.upd; cbn -[Nat.eqb];
    rewrite ?Ht, ?Nat.eqb_refl; repeat split.
Qed.

Lemma server_check_game_state_closes (rack : Rack) (l : Server.Lobby)
      (b c : Sim.ref) :
  Server.is_open l = true ->
  Server.is_break l = false ->
  ~ first_hit_is_eight (Server.table l) ->
  first_group_ball (Server.table l) b ->
  ~ eight_pocketed (Server.table l) ->
  Sim.cue_ball (Server.table l) = Some c ->
  exists l',
    Server.check_game_state rack l = Py.Ok l'
    /\ Server.is_open l' = false
    /\ Server.p1_is_striped l'
       = Some ((Sim.striped (Server.heap l b) && (Server.player_turn l =? 1))
               || (negb (Sim.striped (Server.heap l b))
                   && (Server.player_turn l =? 2)))
    /\ In (Server.cmd_close_table (Server.p1_is_striped l')) (Server.queue1 l')
    /\ In (Server.cmd_close_table (Server.p1_is_striped l')) (Server.queue2 l').
Proof.
  intros Ho Hb Hhit (pre & post & Hpk & Hpre & H8 & Hcue) Hno8 Hc.
  unfold Server.check_game_state. rewrite Ho.
  unfold Server.open_table_check.
  apply server_hit_first_is_eight_spec in Hhit || 
    (rewrite <- server_hit_first_is_eight_spec in Hhit).
  destruct (Server.hit_first_is_eight (Server.table l)); [exfalso; auto|].
  rewrite Hpk, (@server_open_table_scan_first l b pre post Hpre H8 Hcue).
  set (p1s := _ || _).
  set (l1 := Server.close_table p1s l).
  assert (Hl1 : Server.table l1 = Server.table l
                /\ Server.is_break l1 = false
                /\ Server.p1_is_striped l1 = Some p1s).
  { unfold l1, Server.close_table. destruct p1s; cbn; auto. }
  destruct Hl1 as (Ht1 & Hb1 & Hs1).
  rewrite Hb1.
  assert (Hv : Server.victory_check l1 = None).
  { apply server_victory_check_none. rewrite Ht1. exact Hno8. }
  rewrite Hv.
  destruct (Server.foul_check l1) as [fl reasons].
  pose proof (server_remove_pocketed_view l1) as Hview.
  destruct (Server.remove_pocketed_balls l1) as [cc l2]. cbn [snd] in Hview.
  unfold server_rules_view in Hview.
  injection Hview as Hbr _ _ Ht _ _ _ Hs _ _ _.
  unfold Server.apply_rules. cbn [Server.is_break Server.with_checked].
  rewrite Hbr, Hb1. cbn [andb].
  destruct fl.
  - match goal with |- context [Server.apply_foul_penalty ?x] =>
      destruct (@server_apply_foul_penalty_ok x c)
        as (l4 & -> & Hp4 & _ & _ & _ & _ & _);
      [change (Sim.cue_ball (Server.table l2) = Some c);
       rewrite Ht, Ht1; exact Hc|];
      change (Server.p1_is_striped l4 = Server.p1_is_striped l2) in Hp4
    end.
    cbn [Py.bind].
    eexists. split; [reflexivity|].
    pose proof (server_finish_turn_closes true true l4) as (H1 & H2 & H3 & H4).
    assert (Hp : Server.p1_is_striped l4 = Some p1s) by congruence.
    cbv zeta in *. rewrite H2, H1, Hp. rewrite Hp in H3, H4. auto.
  - destruct cc.
    + eexists. split; [reflexivity|].
      match goal with |- context [Server.finish_turn true false false true ?x] =>
        pose proof (server_finish_turn_closes false true x) as (H1 & H2 & H3 & H4);
        assert (Hp : Server.p1_is_striped x = Some p1s)
          by exact (eq_trans Hs Hs1)
      end.
      cbv zeta in *. rewrite H2, H1, Hp. rewrite Hp in H3, H4. auto.
    + eexists. split; [reflexivity|].
      match goal with |- context [Server.finish_turn true false false true ?x] =>
        pose proof (server_finish_turn_closes false true x) as (H1 & H2 & H3 & H4);
        assert (Hp : Server.p1_is_striped x = Some p1s)
          by exact (eq_trans Hs Hs1)
      end.
      cbv zeta in *. rewrite H2, H1, Hp. rewrite Hp in H3, H4. auto.
Qed.

Lemma client_hit_first_is_eight_spec (t : Sim.Table) :
  Client.hit_first_is_eight t = true <-> first_hit_is_eight t.
Proof. exact (server_hit_first_is_eight_spec t). Qed.

Lemma server_close_table_group (l : Server.Lobby) (s : bool) :
  Server.player_turn l = 1 \/ Server.player_turn l = 2 ->
  Server.player_balls
    (Server.close_table ((s && (Server.player_turn l =? 1))
                         || (negb s && (Server.player_turn l =? 2))) l)
  = if s then Server.striped_balls l else Server.spotted_balls l.
Proof.
  destruct l as [h t st sp g1 g2 br op turn s0 chk sh ps cd sp0 v td s1 s2 q1 q2].
  cbn. intros [-> | ->]; destruct s; reflexivity.
Qed.

Lemma client_close_table_group (g : Client.Game) (s : bool) :
  Client.player_turn g = 1 \/ Client.player_turn g = 2 ->
  Client.player_balls
    (Client.close_table ((s && (Client.player_turn g =? 1))
                         || (negb s && (Client.player_turn g =? 2))) g)
  = if s then Client.striped_balls g else Client.spotted_balls g.
Proof.
  destruct g as [h t st sp g1 g2 br op turn s0 chk sh ps q].
  cbn. intros [-> | ->]; destruct s; reflexivity.
Qed.

(** C7.  The open-table check leaves the table open and binds no group
    when the first ball struck this turn is the 8-ball, whatever was
    pocketed.  Otherwise the first pocketed ball that is neither the cue
    ball nor the 8-ball gives its group (striped or spotted) to the
    shooter, the check asks for the table to be closed, and the end of the
    rule application closes it; on a settled non-break shot of the lobby
    with no 8-ball pocketed the whole evaluation ends with the table
    closed and the assignment sent to both players. *)
Theorem open_table_check_assigns_group
        (rack : Rack) (l : Server.Lobby) (g : Client.Game) (b : Sim.ref) :
  ((first_hit_is_eight (Server.table l) ->
    Server.open_table_check l = (false, l))
   /\ (~ first_hit_is_eight (Server.table l) ->
       first_group_ball (Server.table l) b ->
       Server.player_turn l = 1 \/ Server.player_turn l = 2 ->
       exists l',
         Server.open_table_check l = (true, l')
         /\ Server.player_balls l'
            = (if Sim.striped (Server.heap l b)
               then Server.striped_balls l else Server.spotted_balls l)
         /\ forall foul_ may_shoot,
             Server.is_open (Server.finish_turn true foul_ false may_shoot l')
             = false)
   /\ (~ first_hit_is_eight (Server.table l) ->
       first_group_ball (Server.table l) b ->
       Server.is_open l = true ->
       Server.is_break l = false ->
       ~ eight_pocketed (Server.table l) ->
       Sim.cue_ball (Server.table l) <> None ->
       exists l',
         Server.check_game_state rack l = Py.Ok l'
         /\ Server.is_open l' = false
         /\ Server.p1_is_striped l'
            = Some ((Sim.striped (Server.heap l b) && (Server.player_turn l =? 1))
                    || (negb (Sim.striped (Server.heap l b))
                        && (Server.player_turn l =? 2)))
         /\ In (Server.cmd_close_table (Server.p1_is_striped l'))
               (Server.queue1 l')
         /\ In (Server.cmd_close_table (Server.p1_is_striped l'))
               (Server.queue2 l')))
  /\ ((first_hit_is_eight (Client.table g) ->
       Client.open_table_check g = (false, g))
      /\ (~ first_hit_is_eight (Client.table g) ->
          first_group_ball (Client.table g) b ->
          Client.player_turn g = 1 \/ Client.player_turn g = 2 ->
          exists g',
            Client.open_table_check g = (true, g')
            /\ Client.player_balls g'
               = (if Sim.striped (Client.heap g b)
                  then Client.striped_balls g else Client.spotted_balls g)
            /\ forall foul_ may_shoot,
                Client.is_open (Client.finish_turn true foul_ may_shoot g')
                = false)).
Proof.
  split; [split; [|split]|split].
  - intros H. apply server_hit_first_is_eight_spec in H.
    unfold Server.open_table_check. rewrite H. reflexivity.
  - intros Hhit (pre & post & Hpk & Hpre & H8 & Hcue) Hturn.
    rewrite <- server_hit_first_is_eight_spec in Hhit.
    unfold Server.open_table_check.
    destruct (Server.hit_first_is_eight (Server.table l)); [exfalso; auto|].
    rewrite Hpk, (@server_open_table_scan_first l b pre post Hpre H8 Hcue).
    eexists. split; [reflexivity|]. split.
    + apply server_close_table_group. exact Hturn.
    + intros foul_ may_shoot.
      apply (server_finish_turn_closes foul_ may_shoot).
  - intros Hhit Hfirst Ho Hb Hno8 Hc.
    destruct (Sim.cue_ball (Server.table l)) as [c|] eqn:Hcue; [|congruence].
    apply (server_check_game_state_closes rack l (b := b) (c := c)); assumption.
  - intros H. apply client_hit_first_is_eight_spec in H.
    unfold Client.open_table_check. rewrite H. reflexivity.
  - intros Hhit (pre & post & Hpk & Hpre & H8 & Hcue) Hturn.
    rewrite <- client_hit_first_is_eight_spec in Hhit.
    unfold Client.open_table_check.
    destruct (Client.hit_first_is_eight (Client.table g)); [exfalso; auto|].
    rewrite Hpk, (@client_open_table_scan_first g b pre post Hpre H8 Hcue).
    eexists. split; [reflexivity|]. split.
    + apply client_close_table_group. exact Hturn.
    + intros foul_ may_shoot. unfold Client.finish_turn.
      destruct (_ && _); reflexivity.
Qed.

(** Player 2 pockets the cue ball and then ball 11 on an open table after
    striking ball 3 first: player 2 gets the striped balls.  With the
    8-ball struck first the offline game is left as it was. *)
Lemma open_table_check_assigns_group_witness :
  (exists l',
      Server.open_table_check
        (Sample.lobby (Sample.shot_table [3] [0; 11] []) false true 2
                      FreshList FreshList
                      [9; 10; 11; 12; 13; 14; 15] [1; 2; 3; 4; 5; 6; 7])
      = (true, l')
      /\ Server.player_balls l' = [9; 10; 11; 12; 13; 14; 15])
  /\ Client.open_table_check
       (Sample.game (Sample.shot_table [8; 3] [0; 11] []) false true 2
                    FreshList FreshList
                    [9; 10; 11; 12; 13; 14; 15] [1; 2; 3; 4; 5; 6; 7])
     = (false,
        Sample.game (Sample.shot_table [8; 3] [0; 11] []) false true 2
                    FreshList FreshList
                    [9; 10; 11; 12; 13; 14; 15] [1; 2; 3; 4; 5; 6; 7]).
Proof.
  pose proof
    (@open_table_check_assigns_group
       Sample.rack
       (Sample.lobby (Sample.shot_table [3] [0; 11] []) false true 2
                     FreshList FreshList
                     [9; 10; 11; 12; 13; 14; 15] [1; 2; 3; 4; 5; 6; 7])
       (Sample.game (Sample.shot_table [8; 3] [0; 11] []) false true 2
                    FreshList FreshList
                    [9; 10; 11; 12; 13; 14; 15] [1; 2; 3; 4; 5; 6; 7])
       11)
    as [(_ & Hs & _) (Hc & _)].
  split.
  - assert (H1 : ~ first_hit_is_eight (Sample.shot_table [3] [0; 11] [])).
    { intros (e & He & Hh). cbn in He, Hh. congruence. }
    assert (H2 : first_group_ball (Sample.shot_table [3] [0; 11] []) 11).
    { exists [0], []. split; [reflexivity|]. split; [|split].
      - intros x [<-|[]]. right. reflexivity.
      - cbn. discriminate.
      - cbn. discriminate. }
    destruct (Hs H1 H2 (or_intror eq_refl)) as (l' & Hl & Hg & _).
    exists l'. split; [exact Hl | exact Hg].
  - apply Hc. exists 8. split; reflexivity.
Defined.

(** ** The message channel *)

Lemma tick_lt (te : Q) (m bound : Z) :
  (te == (5 * m) # 100)%Q ->
  (Qlt (inject_Z bound) (te + (5 # 100)) <-> (20 * bound < m + 1)%Z).
Proof.
  intros H. rewrite H. unfold Qlt, Qplus, inject_Z. cbn [Qnum Qden].
  rewrite ?Pos2Z.inj_mul. lia.
Qed.
Lemma tick_next (te : Q) (m : Z) :
  (te == (5 * m) # 100)%Q ->
  (te + (5 # 100) == (5 * (m + 1)) # 100)%Q.
Proof.
  intros H. rewrite H. unfold Qeq, Qplus. cbn [Qnum Qden].
  rewrite ?Pos2Z.inj_mul. lia.
Qed.

Lemma tick_back (te : Q) (m : Z) :
  (te == (5 * m) # 100)%Q ->
  (te + (5 # 100) - 5 == (5 * (m + 1 - 100)) # 100)%Q.
Proof.
  intros H. rewrite H. unfold Qeq, Qminus, Qplus, Qopp. cbn [Qnum Qden].
  rewrite ?Pos2Z.inj_mul. lia.
Qed.

Lemma server_wait_exhausts_gen (s : string) (acks : list bool) :
  forall (te : Q) (m : Z) (tr : nat) (c : ServerChannel.Connection),
    no_ack acks ->
    ServerChannel.waiting c = true ->
    (te == (5 * m) # 100)%Q ->
    (m <= 100)%Z ->
    tr <= 3 ->
    (Z.of_nat (List.length acks) >= Z.of_nat (3 - tr) * 100 + (101 - m))%Z ->
    exists c',
      ServerChannel.wait_for_ack acks (Some s) te tr c
      = Py.Ok (ServerChannel.apply_error c', Channel.Returned)
      /\ ServerChannel.receive_queue c' = ServerChannel.receive_queue c
      /\ ServerChannel.send_queue c' = ServerChannel.send_queue c
      /\ ServerChannel.in_lobby c' = ServerChannel.in_lobby c
      /\ ServerChannel.wire c'
         = ServerChannel.wire c ++ List.concat (repeat (Channel.chunks s) (3 - tr)).
Proof.
  induction acks as [|a acks IH]; intros te m tr c Hno Hw Hte Hm Htr Hlen.
  - cbn [List.length] in Hlen. lia.
  - inversion Hno as [|? ? Ha Hno']; subst.
    cbn [ServerChannel.wait_for_ack]. rewrite Hw.
    destruct (Qlt_le_dec 5 (te + (5 # 100))) as [Hlt|Hle].
    + apply (@tick_lt te m 5%Z Hte) in Hlt.
      destruct (Nat.eqb_spec tr 3) as [->|Hne].
      * exists c. cbn. rewrite app_nil_r. repeat split.
      * destruct (IH (te + (5 # 100) - 5)%Q (m + 1 - 100)%Z (S tr)
                     (ServerChannel.send_all (Channel.chunks s) c))
          as (c' & Hc' & Hr & Hs & Hl & Hwire); auto.
        -- apply tick_back. exact Hte.
        -- lia.
        -- lia.
        -- cbn [List.length] in Hlen. lia.
        -- exists c'. repeat split; try assumption.
           rewrite Hwire. cbn [ServerChannel.wire ServerChannel.send_all].
           replace (3 - tr) with (S (3 - S tr)) by lia.
           cbn [repeat List.concat]. rewrite <- app_assoc. reflexivity.
    + assert (Hm' : (m + 1 <= 100)%Z).
      { destruct (Z_lt_le_dec 100 (m + 1)) as [H|H]; [|exact H].
        exfalso. apply (Qle_not_lt _ _ Hle). apply (@tick_lt te m 5%Z Hte). lia. }
      destruct (IH (te + (5 # 100))%Q (m + 1)%Z tr c)
        as (c' & Hc' & Hr & Hs & Hl & Hwire); auto.
      * apply tick_next. exact Hte.
      * cbn [List.length] in Hlen. lia.
      * exists c'. repeat split; assumption.
Qed.

Lemma client_wait_exhausts_gen (s : string) (acks : list bool) :
  forall (te : Q) (m : Z) (tr : nat) (c : ClientChannel.Connection),
    no_ack acks ->
    ClientChannel.waiting c = true ->
    (te == (5 * m) # 100)%Q ->
    (m <= 60)%Z ->
    tr <= 3 ->
    (Z.of_nat (List.length acks) >= Z.of_nat (3 - tr) * 100 + (61 - m))%Z ->
    exists c',
      ClientChannel.wait_for_ack acks (Some s) te tr c
      = Py.Ok (ClientChannel.apply_error ClientChannel.no_longer_receiving c')
      /\ ClientChannel.receive_queue c' = ClientChannel.receive_queue c
      /\ ClientChannel.send_queue c' = ClientChannel.send_queue c
      /\ ClientChannel.wire c'
         = ClientChannel.wire c ++ List.concat (repeat (Channel.chunks s) (3 - tr)).
Proof.
  induction acks as [|a acks IH]; intros te m tr c Hno Hw Hte Hm Htr Hlen.
  - cbn [List.length] in Hlen. lia.
  - inversion Hno as [|? ? Ha Hno']; subst.
    cbn [ClientChannel.wait_for_ack]. rewrite Hw.
    destruct (Qlt_le_dec 3 (te + (5 # 100))) as [Hlt|Hle].
    + apply (@tick_lt te m 3%Z Hte) in Hlt.
      destruct (Nat.eqb_spec tr 3) as [->|Hne].
      * exists c. cbn. rewrite app_nil_r. repeat split.
      * destruct (IH (te + (5 # 100) - 5)%Q (m + 1 - 100)%Z (S tr)
                     (ClientChannel.send_all (Channel.chunks s) c))
          as (c' & Hc' & Hr & Hs & Hwire); auto.
        -- apply tick_back. exact Hte.
        -- lia.
        -- lia.
        -- cbn [List.length] in Hlen. lia.
        -- exists c'. repeat split; try assumption.
           rewrite Hwire. cbn [ClientChannel.wire ClientChannel.send_all].
           replace (3 - tr) with (S (3 - S tr)) by lia.
           cbn [repeat List.concat]. rewrite <- app_assoc. reflexivity.
    + assert (Hm' : (m + 1 <= 60)%Z).
      { destruct (Z_lt_le_dec 60 (m + 1)) as [H|H]; [|exact H].
        exfalso. apply (Qle_not_lt _ _ Hle). apply (@tick_lt te m 3%Z Hte). lia. }
      destruct (IH (te + (5 # 100))%Q (m + 1)%Z tr c)
        as (c' & Hc' & Hr & Hs & Hwire); auto.
      * apply tick_next. exact Hte.
      * cbn [List.length] in Hlen. lia.
      * exists c'. repeat split; assumption.
Qed.

(** After three resends with no acknowledgment the next timeout breaks
    the channel.  The client's [__apply_error] clears both queues; the
    server's clears the outbound queue only and leaves the inbound queue
    as it is. *)
Lemma resend_exhaustion_breaks_channel
      (dumps : Channel.Message -> string) (acks : list bool) (s : string)
      (data : Channel.Message)
      (cc : ClientChannel.Connection) (sc : ServerChannel.Connection) :
  no_ack acks ->
  (ClientChannel.waiting cc = true ->
   361 <= List.length acks ->
   exists cc' prev',
     ClientChannel.send_message dumps acks (Some s) data cc = Py.Ok (cc', prev')
     /\ ClientChannel.in_use cc' = false
     /\ Channel.items (ClientChannel.send_queue cc') = []
     /\ Channel.items (ClientChannel.receive_queue cc') = []
     /\ ClientChannel.error cc' = Some ClientChannel.no_longer_receiving
     /\ exists rest,
         ClientChannel.wire cc'
         = ClientChannel.wire cc
             ++ Channel.chunks s ++ Channel.chunks s ++ Channel.chunks s ++ rest)
  /\ (ServerChannel.waiting sc = true ->
      401 <= List.length acks ->
      exists sc',
        ServerChannel.send_message dumps acks (Some s) data sc
        = Py.Ok (sc', Some s, Channel.Returned)
        /\ ServerChannel.in_use sc' = false
        /\ Channel.items (ServerChannel.send_queue sc') = []
        /\ ServerChannel.receive_queue sc' = ServerChannel.receive_queue sc
        /\ ServerChannel.wire sc'
           = ServerChannel.wire sc
               ++ Channel.chunks s ++ Channel.chunks s ++ Channel.chunks s).
Proof.
  intros Hno. split.
  - intros Hw Hlen.
    destruct (@client_wait_exhausts_gen s acks 0%Q 0%Z 0 cc)
      as (c' & Hc' & Hr & Hs & Hwire); auto; try lia; try reflexivity.
    unfold ClientChannel.send_message. rewrite Hc'. cbn [Py.bind].
    destruct (negb _).
    + eexists _, _. split; [reflexivity|]. cbn.
      repeat split. eexists. rewrite Hwire. cbn [repeat List.concat Nat.sub].
      rewrite app_nil_r, <- !app_assoc. reflexivity.
    + eexists _, _. split; [reflexivity|]. cbn.
      repeat split. eexists. rewrite Hwire. cbn [repeat List.concat Nat.sub].
      rewrite app_nil_r, <- !app_assoc. reflexivity.
  - intros Hw Hlen.
    destruct (@server_wait_exhausts_gen s acks 0%Q 0%Z 0 sc)
      as (c' & Hc' & Hr & Hs & Hl & Hwire); auto; try lia; try reflexivity.
    unfold ServerChannel.send_message. rewrite Hc'. cbn [Py.bind].
    eexists. split; [reflexivity|]. cbn.
    repeat split; try assumption.
    rewrite Hwire. cbn [repeat List.concat Nat.sub].
    rewrite app_nil_r. reflexivity.
Qed.

Lemma silence_no_ack : no_ack Sample.silence /\ List.length Sample.silence = 401.
Proof.
  split.
  - apply Forall_forall. intros a Ha. apply repeat_spec in Ha. exact Ha.
  - apply repeat_length.
Qed.

(** C5, the code at an input where it departs from the claim.  A server
    connection and a client connection each wait for an acknowledgment
    that never comes.  After three resends both are broken ([in_use] is
    false) and their outbound queues are empty; the client's inbound
    queue is empty too, but the server's inbound queue still holds the
    message it held before. *)
Theorem server_break_keeps_inbound_queue :
  (exists cc' prev',
      ClientChannel.send_data_turn Sample.dumps Sample.silence
        (Some Sample.unacknowledged) Sample.client_connection
      = Some (Py.Ok (cc', prev'))
      /\ ClientChannel.in_use cc' = false
      /\ Channel.items (ClientChannel.send_queue cc') = []
      /\ Channel.items (ClientChannel.receive_queue cc') = [])
  /\ (exists sc',
         ServerChannel.send_data_turn Sample.dumps Sample.silence
           (Some Sample.unacknowledged) Sample.server_connection
         = Some (Py.Ok (sc', Some Sample.unacknowledged, Channel.Returned))
         /\ ServerChannel.in_use sc' = false
         /\ Channel.items (ServerChannel.send_queue sc') = []
         /\ Channel.items (ServerChannel.receive_queue sc') = [Sample.hit_msg]
         /\ Channel.items (ServerChannel.receive_queue sc') <> []).
Proof.
  destruct silence_no_ack as [Hno Hlen].
  split.
  - destruct (@resend_exhaustion_breaks_channel
                Sample.dumps Sample.silence Sample.unacknowledged Sample.hit_msg
                (ClientChannel.set_send_queue (Channel.mkQueue [] 0)
                                              Sample.client_connection)
                Sample.server_connection Hno)
      as [Hc _].
    destruct Hc as (cc' & prev' & Hrun & H1 & H2 & H3 & _);
      [reflexivity | rewrite Hlen; lia |].
    exists cc', prev'. split; [exact (f_equal Some Hrun)|].
    repeat split; assumption.
  - destruct (@resend_exhaustion_breaks_channel
                Sample.dumps Sample.silence Sample.unacknowledged Sample.turn_msg
                Sample.client_connection
                (ServerChannel.set_send_queue (Channel.mkQueue [] 0)
                                              Sample.server_connection)
                Hno)
      as [_ Hs].
    destruct Hs as (sc' & Hrun & H1 & H2 & H3 & _);
      [reflexivity | rewrite Hlen; lia |].
    exists sc'. split; [exact (f_equal Some Hrun)|].
    split; [exact H1|]. split; [exact H2|].
    rewrite H3. split; [reflexivity | discriminate].
Qed.

(** ** Pockets *)

Lemma same_fixtures_refl t : same_fixtures t t.
Proof. repeat split. Qed.

Lemma same_fixtures_trans t1 t2 t3 :
  same_fixtures t1 t2 -> same_fixtures t2 t3 -> same_fixtures t1 t3.
Proof.
  unfold same_fixtures. intros H1 H2.
  repeat match goal with H : _ /\ _ |- _ => destruct H end.
  repeat split; congruence.
Qed.

Lemma drop_nth_length {A} (l : list A) : forall n,
  n < List.length l -> List.length (Sim.drop_nth n l) = List.length l - 1.
Proof.
  induction l as [|a l IH]; intros n Hn; cbn [List.length] in *; [lia|].
  destruct n as [|n]; cbn [Sim.drop_nth List.length]; [lia|].
  rewrite IH by lia. lia.
Qed.

Lemma del_at_in_range {A} (l : list A) (index cf : nat) :
  cf <= index -> index < List.length l ->
  Sim.del_at l (Z.of_nat index - Z.of_nat cf)
  = Py.Ok (Sim.drop_nth (index - cf) l).
Proof.
  intros Hc Hi. unfold Sim.del_at.
  assert (H1 : (0 <=? Z.of_nat index - Z.of_nat cf)%Z = true)
    by (apply Z.leb_le; lia).
  assert (H2 : (Z.of_nat index - Z.of_nat cf <? Z.of_nat (List.length l))%Z = true)
    by (apply Z.ltb_lt; lia).
  rewrite H1, H2. cbn [andb].
  replace (Z.to_nat (Z.of_nat index - Z.of_nat cf)) with (index - cf) by lia.
  reflexivity.
Qed.

Lemma enters_pocket_upd_other (h : Sim.Heap) (t t' : Sim.Table) (r b : Sim.ref)
      (x : Sim.Ball) :
  Sim.pockets t' = Sim.pockets t ->
  b <> r ->
  Sim.enters_pocket (Sim.upd h r x) t' b = Sim.enters_pocket h t b.
Proof.
  intros Hp Hne. unfold Sim.enters_pocket, Sim.upd.
  apply Nat.eqb_neq in Hne. rewrite Hne, Hp. reflexivity.
Qed.

Lemma resolve_pockets_loop_spec (fuel : nat) :
  forall (index cf : nat) (h : Sim.Heap) (t : Sim.Table),
    cf <= index ->
    List.length (Sim.balls t) + cf <= fuel + index ->
    exists h' t' new,
      Sim.resolve_pockets_loop fuel index cf h t = Py.Ok (h', t')
      /\ Sim.pocketed t' = Sim.pocketed t ++ new
      /\ List.length (Sim.balls t') + List.length (non_cue t new)
         = List.length (Sim.balls t)
      /\ same_fixtures t t'
      /\ (forall b, In b new -> Sim.enters_pocket h t b = true)
      /\ (forall r, h' r = h r
                    \/ (Sim.cue_ball t = Some r /\ In r new
                        /\ h' r = Sim.set_can_collide false
                                    (Sim.set_vel (Vec.mkVec 0 0) (h r))))
      /\ ((forall r, In r new -> Sim.cue_ball t <> Some r) ->
          Sim.holding t' = Sim.holding t)
      /\ (forall r, In r new -> Sim.cue_ball t = Some r ->
                    Sim.holding t' = Some r).
Proof.
  induction fuel as [|fuel IH]; intros index cf h t Hcf Hlen.
  - cbn [Sim.resolve_pockets_loop].
    destruct (nth_error (Sim.balls t) index) as [ball|] eqn:Hn.
    + apply nth_error_Some_lt in Hn || (assert (index < List.length (Sim.balls t)) by (apply nth_error_Some; congruence)). lia.
    + exists h, t, []. rewrite app_nil_r. cbn.
      repeat split; auto; try contradiction.
  - cbn [Sim.resolve_pockets_loop].
    destruct (nth_error (Sim.balls t) index) as [ball|] eqn:Hn.
    2:{ exists h, t, []. rewrite app_nil_r. cbn.
        repeat split; auto; try contradiction. }
    assert (Hidx : index < List.length (Sim.balls t))
      by (apply nth_error_Some; congruence).
    destruct (Sim.enters_pocket h t ball) eqn:Hin.
    2:{ apply IH; lia. }
    cbn [Sim.cue_ball Sim.set_pocketed].
    destruct (Sim.is_ref ball (Sim.cue_ball t)) eqn:Hcue; cbn [negb].
    + (* the cue ball *)
      apply is_ref_true in Hcue.
      match goal with |- context [Sim.resolve_pockets_loop fuel (S index) cf ?h1 ?t1] =>
        destruct (IH (S index) cf h1 t1) as
          (h' & t' & new & Hrun & Hpk & Hcount & Hfix & Hent & Hheap & Hhold & Hheld);
        [lia | cbn; lia |]
      end.
      exists h', t', (ball :: new). split; [exact Hrun|].
      cbn in Hpk, Hcount.
      split; [rewrite Hpk, <- app_assoc; reflexivity|].
      split.
      { unfold non_cue in *. cbn [filter].
        rewrite Hcue. cbn [Sim.is_ref]. rewrite Nat.eqb_refl. cbn [negb].
        cbn in Hcount. rewrite Hcue in Hcount. exact Hcount. }
      split.
      { eapply same_fixtures_trans; [|exact Hfix]. repeat split. }
      split.
      { intros b [<-|Hb]; [exact Hin|].
        specialize (Hent b Hb).
        destruct (Nat.eq_dec b ball) as [->|Hne].
        - unfold Sim.enters_pocket, Sim.moving, Sim.upd in Hent.
          rewrite Nat.eqb_refl in Hent. cbn in Hent.
          unfold Reqb in Hent.
          destruct (Req_dec_T 0 0); [discriminate | congruence].
        - unfold Sim.enters_pocket, Sim.upd in Hent |- *.
          apply Nat.eqb_neq in Hne. rewrite Hne in Hent. exact Hent. }
      split.
      { intros r. destruct (Hheap r) as [Hr|(Hc & Hr & Hv)].
        - destruct (Nat.eq_dec r ball) as [->|Hne].
          + right. split; [exact Hcue|]. split; [left; reflexivity|].
            rewrite Hr. unfold Sim.upd. rewrite Nat.eqb_refl. reflexivity.
          + left. rewrite Hr. unfold Sim.upd.
            apply Nat.eqb_neq in Hne. rewrite Hne. reflexivity.
        - cbn in Hc. right. split; [exact Hc|]. split; [right; exact Hr|].
          assert (r = ball) by congruence. subst r.
          rewrite Hv. unfold Sim.upd. rewrite Nat.eqb_refl. reflexivity. }
      split.
      { intros Hnone. exfalso. apply (Hnone ball); [left; reflexivity | exact Hcue]. }
      { intros r Hr Hc. assert (r = ball) by congruence. subst r.
        destruct (in_dec Nat.eq_dec ball new) as [Hy|Hno].
        - apply (Hheld ball Hy). exact Hcue.
        - rewrite Hhold; [reflexivity|].
          intros r Hr' Hc'. cbn in Hc'. assert (r = ball) by congruence.
          subst r. contradiction. }
    + (* an object ball *)
      apply is_ref_false in Hcue.
      cbn [Sim.balls Sim.set_pocketed].
      rewrite (del_at_in_range (Sim.balls t) Hcf Hidx). cbn [Py.bind].
      match goal with |- context [Sim.resolve_pockets_loop fuel (S index) (S cf) h ?t1] =>
        destruct (IH (S index) (S cf) h t1) as
          (h' & t' & new & Hrun & Hpk & Hcount & Hfix & Hent & Hheap & Hhold & Hheld);
        [lia | cbn; rewrite drop_nth_length by lia; lia |]
      end.
      exists h', t', (ball :: new). split; [exact Hrun|].
      cbn in Hpk, Hcount. rewrite drop_nth_length in Hcount by lia.
      split; [rewrite Hpk, <- app_assoc; reflexivity|].
      split.
      { unfold non_cue in *. cbn [filter].
        apply is_ref_false in Hcue. rewrite Hcue. cbn [negb List.length].
        cbn in Hcount. lia. }
      split.
      { eapply same_fixtures_trans; [|exact Hfix]. repeat split. }
      split.
      { intros b [<-|Hb]; [exact Hin|]. apply (Hent b Hb). }
      split.
      { intros r. destruct (Hheap r) as [Hr|(Hc & Hr & Hv)].
        - left. exact Hr.
        - right. cbn in Hc. split; [exact Hc|]. split; [right; exact Hr|exact Hv]. }
      split.
      { intros Hnone. rewrite Hhold; [reflexivity|].
        intros r Hr. apply Hnone. right. exact Hr. }
      { intros r [<-|Hr] Hc; [congruence|].
        exact (Hheld r Hr Hc). }
Qed.

Lemma Reqb_true (a b : R) : Reqb a b = true <-> a = b.
Proof. unfold Reqb. destruct (Req_dec_T a b); split; congruence. Qed.

Lemma Reqb_false (a b : R) : Reqb a b = false <-> a <> b.
Proof. unfold Reqb. destruct (Req_dec_T a b); split; congruence. Qed.

Lemma Rleb_true (a b : R) : Rleb a b = true <-> (a <= b)%R.
Proof. unfold Rleb. destruct (Rle_dec a b); split; congruence. Qed.

Lemma Rleb_false (a b : R) : Rleb a b = false <-> (b < a)%R.
Proof.
  unfold Rleb. destruct (Rle_dec a b); split; try congruence; intros; lra.
Qed.

Lemma Rltb_true (a b : R) : Rltb a b = true <-> (a < b)%R.
Proof. unfold Rltb. destruct (Rlt_dec a b); split; congruence. Qed.

Lemma Rltb_false (a b : R) : Rltb a b = false <-> (b <= a)%R.
Proof.
  unfold Rltb. destruct (Rlt_dec a b); split; try congruence; intros; lra.
Qed.

Lemma Reqb_refl (a : R) : Reqb a a = true.
Proof. apply Reqb_true. reflexivity. Qed.

(** [resolve_pockets] as a whole. *)
Lemma resolve_pockets_spec (h : Sim.Heap) (t : Sim.Table) :
  exists h' t' new,
    Sim.resolve_pockets (h, t) = Py.Ok (h', t')
    /\ Sim.pocketed t' = Sim.pocketed t ++ new
    /\ List.length (Sim.balls t') + List.length (non_cue t new)
       = List.length (Sim.balls t)
    /\ same_fixtures t t'
    /\ (forall b, In b new -> Sim.enters_pocket h t b = true)
    /\ (forall r, h' r = h r
                  \/ (Sim.cue_ball t = Some r /\ In r new
                      /\ h' r = Sim.set_can_collide false
                                  (Sim.set_vel (Vec.mkVec 0 0) (h r))))
    /\ ((forall r, In r new -> Sim.cue_ball t <> Some r) ->
        Sim.holding t' = Sim.holding t)
    /\ (forall r, In r new -> Sim.cue_ball t = Some r ->
                  Sim.holding t' = Some r).
Proof.
  unfold Sim.resolve_pockets. apply resolve_pockets_loop_spec; lia.
Qed.

(** One pass of the loop of [resolve_pockets], case by case. *)
Lemma resolve_pockets_loop_end fuel index cf h t :
  nth_error (Sim.balls t) index = None ->
  Sim.resolve_pockets_loop fuel index cf h t = Py.Ok (h, t).
Proof. intros H. destruct fuel; cbn; rewrite H; reflexivity. Qed.

Lemma resolve_pockets_loop_skip fuel index cf h t ball :
  nth_error (Sim.balls t) index = Some ball ->
  Sim.enters_pocket h t ball = false ->
  Sim.resolve_pockets_loop (S fuel) index cf h t
  = Sim.resolve_pockets_loop fuel (S index) cf h t.
Proof. intros H1 H2. cbn. rewrite H1, H2. reflexivity. Qed.

Lemma resolve_pockets_loop_cue fuel index cf h t ball :
  nth_error (Sim.balls t) index = Some ball ->
  Sim.enters_pocket h t ball = true ->
  Sim.cue_ball t = Some ball ->
  Sim.resolve_pockets_loop (S fuel) index cf h t
  = Sim.resolve_pockets_loop
      fuel (S index) cf
      (Sim.upd (Sim.upd h ball (Sim.set_vel (Vec.mkVec 0 0) (h ball))) ball
               (Sim.set_can_collide
                  false
                  (Sim.upd h ball (Sim.set_vel (Vec.mkVec 0 0) (h ball)) ball)))
      (Sim.set_holding (Some ball)
                       (Sim.set_pocketed (Sim.pocketed t ++ [ball]) t)).
Proof.
  intros H1 H2 H3. cbn. rewrite H1, H2, H3. cbn. rewrite Nat.eqb_refl.
  reflexivity.
Qed.

Lemma resolve_pockets_loop_ball fuel index cf h t ball :
  nth_error (Sim.balls t) index = Some ball ->
  Sim.enters_pocket h t ball = true ->
  Sim.cue_ball t <> Some ball ->
  cf <= index ->
  Sim.resolve_pockets_loop (S fuel) index cf h t
  = Sim.resolve_pockets_loop
      fuel (S index) (S cf) h
      (Sim.set_balls (Sim.drop_nth (index - cf) (Sim.balls t))
                     (Sim.set_pocketed (Sim.pocketed t ++ [ball]) t)).
Proof.
  intros H1 H2 H3 H4.
  assert (Hidx : index < List.length (Sim.balls t))
    by (apply nth_error_Some; congruence).
  apply is_ref_false in H3.
  cbn [Sim.resolve_pockets_loop]. rewrite H1, H2.
  cbn [Sim.cue_ball Sim.set_pocketed Sim.balls]. rewrite H3. cbn [negb].
  rewrite (del_at_in_range (Sim.balls t) H4 Hidx). reflexivity.
Qed.

Lemma filter_split_length {A} (f : A -> bool) (l : list A) :
  List.length l
  = List.length (filter (fun a => negb (f a)) l) + List.length (filter f l).
Proof.
  induction l as [|a l IH]; cbn; [reflexivity|].
  destruct (f a); cbn; lia.
Qed.

Lemma session_balance (ops : list TableOp) :
  forall w events cue_events,
  exists h' t' events' cue_events',
    session ops w events cue_events = Py.Ok (h', t', events', cue_events')
    /\ List.length (Sim.balls t') + events' + cue_events
       = List.length (Sim.balls (snd w)) + events + cue_events'.
Proof.
  induction ops as [|op ops IH]; intros [h t] events cue_events.
  - exists h, t, events, cue_events. split; [reflexivity | cbn; lia].
  - destruct op; cbn [session].
    + destruct (resolve_pockets_spec h t)
        as (h1 & t1 & new & Hrun & Hpk & Hcount & Hfix & _).
      rewrite Hrun. cbn [Py.bind snd].
      rewrite Hpk, skipn_app, Nat.sub_diag, skipn_all, skipn_O, app_nil_l.
      destruct (IH (h1, t1) (events + List.length new)
                   (cue_events
                    + List.length
                        (filter (fun b => Sim.is_ref b (Sim.cue_ball t)) new)))
        as (h' & t' & e' & c' & Hs & Hbal).
      exists h', t', e', c'. split; [exact Hs|].
      cbn [snd] in *. unfold non_cue in Hcount.
      pose proof (filter_split_length
                    (fun b => Sim.is_ref b (Sim.cue_ball t)) new) as Hsplit.
      lia.
    + destruct (IH (h, Sim.reset_counts t) events cue_events)
        as (h' & t' & e' & c' & Hs & Hbal).
      exists h', t', e', c'. split; [exact Hs|]. exact Hbal.
Qed.

Lemma racked_not_moving r : Sim.moving (Sample.racked_heap r) = false.
Proof.
  unfold Sim.moving. cbn [Sample.racked_heap Sim.Ball_init Sim.vel Vec.x Vec.y].
  rewrite Reqb_refl. reflexivity.
Qed.

(** On a table with the pockets of the sample table, the balls that enter
    a pocket are the rolling ones. *)
Lemma rolling_enters_pocket (rolling : list Sim.ref) (t : Sim.Table)
      (r : Sim.ref) :
  Sim.pockets t = Sim.pockets (Sim.Table_init (Vec.mkVec 0 0) Sample.settings) ->
  Sim.enters_pocket (Sample.pocketing_heap rolling) t r = Sim.mem r rolling.
Proof.
  intros Hp.
  unfold Sim.enters_pocket, Sample.pocketing_heap. rewrite Hp.
  destruct (Sim.mem r rolling).
  - unfold Sim.moving.
    cbn [Sim.vel Sample.roll_into_pocket Sim.set_vel Vec.x Vec.y].
    assert (H1 : Reqb 1 0 = false) by (apply Reqb_false; lra).
    rewrite H1. cbn [negb orb andb].
    cbn [Sim.Table_init Sim.pockets map existsb].
    apply orb_true_iff. left.
    unfold Sim.contains. apply Rleb_true.
    unfold Vec.magnitude_squared, Vec.sub, Vec.add, Sample.roll_into_pocket.
    cbn [Sim.pos Sim.set_pos Sim.set_vel Sim.set_new_pos Sim.centre
         Sim.c_radius Vec.x Vec.y].
    generalize (Sim.ball_radius Sample.settings * Sim.hole_factor Sample.settings)%R.
    intros c. nra.
  - rewrite racked_not_moving. reflexivity.
Qed.

Lemma sample_pockets (l : list Sim.ref) :
  Sim.pockets (Sample.table_with l)
  = Sim.pockets (Sim.Table_init (Vec.mkVec 0 0) Sample.settings).
Proof. reflexivity. Qed.

(** C3, the code at an input where it departs from the claim.  Balls 1
    and 3 roll into a pocket during the same call while ball 2 is at rest
    elsewhere.  Both rolling balls are appended to the pocketed list, but
    the second deletion uses the position [index - change_factor] in the
    list that the first deletion has already shortened: ball 2, which
    never moved, leaves the live list and ball 3, which was pocketed,
    stays in it. *)
Theorem two_pockets_remove_wrong_ball :
  let h := Sample.pocketing_heap [1; 3] in
  let t := Sample.table_with [1; 2; 3] in
  Sim.enters_pocket h t 1 = true
  /\ Sim.enters_pocket h t 2 = false
  /\ Sim.enters_pocket h t 3 = true
  /\ Sim.cue_ball t = Some 0
  /\ exists t',
      Sim.resolve_pockets (h, t) = Py.Ok (h, t')
      /\ Sim.pocketed t' = [1; 3]
      /\ Sim.balls t' = [3].
Proof.
  cbv zeta.
  rewrite !(fun r => @rolling_enters_pocket [1; 3] _ r (sample_pockets [1; 2; 3])).
  repeat split.
  unfold Sim.resolve_pockets.
  change (List.length (Sim.balls (Sample.table_with [1; 2; 3]))) with 3.
  rewrite (@resolve_pockets_loop_ball
             2 0 0 (Sample.pocketing_heap [1; 3]) (Sample.table_with [1; 2; 3]) 1);
    [ | reflexivity
      | exact (@rolling_enters_pocket [1; 3] _ 1 (sample_pockets [1; 2; 3]))
      | discriminate | lia ].
  set (t1 := Sim.set_balls _ _).
  assert (Hp1 : Sim.pockets t1
                = Sim.pockets (Sim.Table_init (Vec.mkVec 0 0) Sample.settings))
    by reflexivity.
  rewrite (@resolve_pockets_loop_ball 1 1 1 (Sample.pocketing_heap [1; 3]) t1 3);
    [ | reflexivity
      | exact (@rolling_enters_pocket [1; 3] t1 3 Hp1)
      | discriminate | lia ].
  rewrite resolve_pockets_loop_end by reflexivity.
  eexists. split; [reflexivity|]. split; reflexivity.
Qed.

(** C4 as written fails: the cue ball rolls into a pocket.  It is appended
    to the pocketed list and stays in the live list, so the sum of the two
    lengths grows from 2 to 3. *)
Lemma cue_pocket_unbalanced_counterexample :
  let h := Sample.pocketing_heap [0] in
  let t := Sample.table_with [1; 0] in
  exists h' t',
    Sim.resolve_pockets (h, t) = Py.Ok (h', t')
    /\ Sim.balls t' = [1; 0]
    /\ Sim.pocketed t' = [0]
    /\ List.length (Sim.balls t) + List.length (Sim.pocketed t) = 2
    /\ List.length (Sim.balls t') + List.length (Sim.pocketed t') = 3.
Proof.
  cbv zeta. unfold Sim.resolve_pockets.
  change (List.length (Sim.balls (Sample.table_with [1; 0]))) with 2.
  rewrite (@resolve_pockets_loop_skip
             1 0 0 (Sample.pocketing_heap [0]) (Sample.table_with [1; 0]) 1);
    [ | reflexivity
      | exact (@rolling_enters_pocket [0] _ 1 (sample_pockets [1; 0])) ].
  rewrite (@resolve_pockets_loop_cue
             0 1 0 (Sample.pocketing_heap [0]) (Sample.table_with [1; 0]) 0);
    [ | reflexivity
      | exact (@rolling_enters_pocket [0] _ 0 (sample_pockets [1; 0]))
      | reflexivity ].
  rewrite resolve_pockets_loop_end by reflexivity.
  eexists _, _. split; [reflexivity|]. repeat split.
Qed.

(** C4, as amended.  [resolve_pockets] always returns; every pocket event
    appends one ball to the pocketed list, and the live list loses exactly
    one ball for each event of a ball other than the cue ball and none for
    an event of the cue ball.  [reset_counts] empties the pocketed list
    and leaves the live list alone.  So over any sequence of these calls
    the number of live balls plus the number of pocket events so far stays
    equal to the initial number of live balls plus the number of cue-ball
    events. *)
Theorem pocket_events_balance
        (h : Sim.Heap) (t : Sim.Table) (ops : list TableOp) :
  (exists h' t' new,
      Sim.resolve_pockets (h, t) = Py.Ok (h', t')
      /\ Sim.pocketed t' = Sim.pocketed t ++ new
      /\ List.length (Sim.balls t') + List.length (non_cue t new)
         = List.length (Sim.balls t)
      /\ List.length (Sim.balls t') + List.length (Sim.pocketed t')
         = List.length (Sim.balls t) + List.length (Sim.pocketed t)
           + List.length (filter (fun b => Sim.is_ref b (Sim.cue_ball t)) new))
  /\ (Sim.balls (Sim.reset_counts t) = Sim.balls t
      /\ Sim.pocketed (Sim.reset_counts t) = [])
  /\ (exists h' t' events cue_events,
         session ops (h, t) 0 0 = Py.Ok (h', t', events, cue_events)
         /\ List.length (Sim.balls t') + events
            = List.length (Sim.balls t) + cue_events).
Proof.
  split; [|split].
  - destruct (resolve_pockets_spec h t)
      as (h' & t' & new & Hrun & Hpk & Hcount & _).
    exists h', t', new. split; [exact Hrun|]. split; [exact Hpk|].
    split; [exact Hcount|].
    rewrite Hpk, length_app.
    pose proof (filter_split_length
                  (fun b => Sim.is_ref b (Sim.cue_ball t)) new) as Hsplit.
    unfold non_cue in Hcount. lia.
  - split; reflexivity.
  - destruct (session_balance ops (h, t) 0 0)
      as (h' & t' & e' & c' & Hs & Hbal).
    exists h', t', e', c'. split; [exact Hs|]. cbn [snd] in Hbal. lia.
Qed.

(** ** Strikes and the motion report *)

Lemma magnitude_squared_zero (v : Vec.Vector2D) :
  Vec.magnitude_squared v = 0%R <-> v = Vec.zero.
Proof.
  destruct v as [a b]. unfold Vec.magnitude_squared, Vec.zero. cbn [Vec.x Vec.y].
  split.
  - intros H. assert (a = 0 /\ b = 0)%R as [-> ->] by (split; nra). reflexivity.
  - intros H. injection H as -> ->. lra.
Qed.

Lemma moving_false_iff (b : Sim.Ball) :
  Sim.moving b = false <-> Sim.vel b = Vec.zero.
Proof.
  unfold Sim.moving. rewrite orb_false_iff, !negb_false_iff, !Reqb_true.
  destruct (Sim.vel b) as [a c]. unfold Vec.zero. cbn [Vec.x Vec.y].
  split.
  - intros [-> ->]. reflexivity.
  - intros H. injection H as -> ->. split; reflexivity.
Qed.

Lemma apply_force_sets_flag (b : Sim.Ball) (toa force angle : R) :
  Sim.attempted_force_application (Sim.apply_force b toa force angle) = true.
Proof.
  unfold Sim.apply_force. destruct (_ && _); reflexivity.
Qed.

Lemma apply_force_accepted (b : Sim.Ball) (toa force angle : R) :
  Sim.normal_contact b = (- Sim.mass b * Sim.gravity (Sim.settings b))%R ->
  Sim.vel b <> Vec.zero
  \/ (Sim.coeff_of_static_friction (Sim.settings b) * Sim.mass b
      * Sim.gravity (Sim.settings b) < force)%R ->
  Sim.applied_force (Sim.apply_force b toa force angle)
  = Some (Vec.mkVec (cos angle * force) (sin angle * force), toa).
Proof.
  intros Hn Hc. unfold Sim.apply_force.
  cbn [Sim.vel Sim.settings Sim.normal_contact Sim.set_attempted].
  destruct (Reqb (Vec.magnitude_squared (Sim.vel b)) 0) eqn:Hm; cbn [andb].
  - apply Reqb_true, magnitude_squared_zero in Hm.
    destruct Hc as [Hc|Hc]; [contradiction|].
    assert (Hle : Rleb force (Sim.coeff_of_static_friction (Sim.settings b)
                              * Sim.normal_contact b * -1) = false).
    { apply Rleb_false. rewrite Hn. lra. }
    rewrite Hle. reflexivity.
  - reflexivity.
Qed.

Lemma apply_force_rejected (b : Sim.Ball) (toa force angle : R) :
  Sim.normal_contact b = (- Sim.mass b * Sim.gravity (Sim.settings b))%R ->
  Sim.vel b = Vec.zero ->
  (force <= Sim.coeff_of_static_friction (Sim.settings b) * Sim.mass b
            * Sim.gravity (Sim.settings b))%R ->
  Sim.apply_force b toa force angle = Sim.set_attempted true b.
Proof.
  intros Hn Hv Hf. unfold Sim.apply_force.
  cbn [Sim.vel Sim.settings Sim.normal_contact Sim.set_attempted].
  assert (Hm : Reqb (Vec.magnitude_squared (Sim.vel b)) 0 = true)
    by (apply Reqb_true, magnitude_squared_zero; exact Hv).
  assert (Hle : Rleb force (Sim.coeff_of_static_friction (Sim.settings b)
                            * Sim.normal_contact b * -1) = true).
  { apply Rleb_true. rewrite Hn. lra. }
  rewrite Hm, Hle. reflexivity.
Qed.

(** The first loop of [update] reports motion once it has met a ball on
    which a strike was attempted. *)
Lemma motion_loop_reports (time : R) (r : Sim.ref) (l : list Sim.ref) :
  forall h t h' t',
    Sim.for_each l (Sim.update_motion_step time) (h, t) = Py.Ok (h', t') ->
    Sim.in_motion t = true
    \/ (In r l /\ Sim.moving (h r) = false
        /\ Sim.applied_force (h r) = None
        /\ Sim.attempted_force_application (h r) = true) ->
    Sim.in_motion t' = true.
Proof.
  induction l as [|a l IH]; intros h t h' t' Hrun Hinv; cbn [Sim.for_each] in Hrun.
  - injection Hrun as <- <-. destruct Hinv as [H|[[] _]]. exact H.
  - unfold Sim.update_motion_step at 1 in Hrun.
    destruct (Sim.moving (h a) || Sim.is_some (Sim.applied_force (h a))) eqn:Hm.
    + destruct (Sim.update_physics (h a) time) as [b| |]; cbn [Py.bind] in Hrun;
        try discriminate.
      eapply IH; [exact Hrun|]. left. reflexivity.
    + destruct (Sim.attempted_force_application (h a)) eqn:Ha.
      * cbn [Py.bind] in Hrun. eapply IH; [exact Hrun|]. left. reflexivity.
      * cbn [Py.bind] in Hrun. eapply IH; [exact Hrun|].
        destruct Hinv as [H|(Hin & H1 & H2 & H3)]; [left; exact H|].
        right. destruct Hin as [->|Hin]; [congruence|]. auto.
Qed.

Lemma record_hit_in_motion t b : Sim.in_motion (Sim.record_hit t b) = Sim.in_motion t.
Proof. unfold Sim.record_hit. destruct (_ && _); reflexivity. Qed.

Lemma record_hits_in_motion l : forall t,
  Sim.in_motion (fold_left Sim.record_hit l t) = Sim.in_motion t.
Proof.
  induction l as [|a l IH]; intros t; cbn [fold_left]; [reflexivity|].
  rewrite IH. apply record_hit_in_motion.
Qed.

Lemma record_rail_contact_in_motion h t b :
  Sim.in_motion (Sim.record_rail_contact h t b) = Sim.in_motion t.
Proof. unfold Sim.record_rail_contact. destruct (_ && _); reflexivity. Qed.

Lemma resolve_collisions_step_in_motion fuel ball h t h' t' :
  Sim.resolve_collisions_step fuel ball (h, t) = Py.Ok (h', t') ->
  Sim.in_motion t' = Sim.in_motion t.
Proof.
  unfold Sim.resolve_collisions_step.
  destruct (_ && _).
  - destruct (Sim.get_collisions _ _ _ _ _ _ _) as [[h1 cw]| |];
      cbn [Py.bind]; try discriminate.
    intros H. injection H as <- <-.
    rewrite record_rail_contact_in_motion.
    destruct (Sim.colliding (h1 ball)); [|reflexivity].
    rewrite record_hits_in_motion. apply record_hit_in_motion.
  - intros H. injection H as <- <-. reflexivity.
Qed.

Lemma resolve_collisions_in_motion fuel (l : list Sim.ref) :
  forall h t h' t',
    Sim.for_each l (Sim.resolve_collisions_step fuel) (h, t) = Py.Ok (h', t') ->
    Sim.in_motion t' = Sim.in_motion t.
Proof.
  induction l as [|a l IH]; intros h t h' t' Hrun; cbn [Sim.for_each] in Hrun.
  - injection Hrun as <- <-. reflexivity.
  - destruct (Sim.resolve_collisions_step fuel a (h, t)) as [[h1 t1]| |] eqn:Hs;
      cbn [Py.bind] in Hrun; try discriminate.
    rewrite (IH _ _ _ _ Hrun). eapply resolve_collisions_step_in_motion; exact Hs.
Qed.

(** With every ball at rest the collision pass changes nothing. *)
Lemma resolve_collisions_at_rest fuel (l : list Sim.ref) h t :
  (forall r, In r l -> Sim.moving (h r) = false) ->
  Sim.for_each l (Sim.resolve_collisions_step fuel) (h, t) = Py.Ok (h, t).
Proof.
  induction l as [|a l IH]; intros Hrest; cbn [Sim.for_each]; [reflexivity|].
  unfold Sim.resolve_collisions_step at 1.
  rewrite (Hrest a (or_introl eq_refl)), andb_false_r. cbn [Py.bind].
  apply IH. intros r Hr. apply Hrest. right. exact Hr.
Qed.

(** With every ball at rest and no strike in flight the first loop of
    [update] only clears strike flags. *)
Lemma update_motion_at_rest (time : R) (all : list Sim.ref) (l : list Sim.ref) :
  forall h t,
    (forall r, In r all ->
               Sim.moving (h r) = false /\ Sim.applied_force (h r) = None) ->
    incl l all ->
    exists h' t',
      Sim.for_each l (Sim.update_motion_step time) (h, t) = Py.Ok (h', t')
      /\ Sim.balls t' = Sim.balls t
      /\ (forall r, In r all -> Sim.moving (h' r) = false).
Proof.
  induction l as [|a l IH]; intros h t Hrest Hincl; cbn [Sim.for_each].
  - exists h, t. split; [reflexivity|]. split; [reflexivity|].
    intros r Hr. apply Hrest, Hr.
  - unfold Sim.update_motion_step at 1.
    assert (Ha : In a all) by (apply Hincl; left; reflexivity).
    assert (Hl : incl l all) by (intros r Hr; apply Hincl; right; exact Hr).
    destruct (Hrest a Ha) as [Hm Hf]. rewrite Hm, Hf. cbn [Sim.is_some orb].
    destruct (Sim.attempted_force_application (h a)); cbn [Py.bind].
    + destruct (IH (Sim.upd h a (Sim.set_attempted false (h a)))
                   (Sim.set_in_motion true t)) as (h' & t' & Hrun & Hb & Hr).
      { intros r Hr. unfold Sim.upd. destruct (Nat.eqb r a); [|apply Hrest, Hr].
        split; [exact Hm | exact Hf]. }
      { exact Hl. }
      exists h', t'. repeat split; assumption.
    + apply IH; assumption.
Qed.

Lemma update_motion_unfold time h t :
  Sim.update_motion time (h, t)
  = Sim.for_each (Sim.balls t) (Sim.update_motion_step time)
      (h, Sim.set_in_motion false
            (Sim.set_previously_in_motion (Sim.in_motion t) t)).
Proof. reflexivity. Qed.

Lemma update_reports_attempt fuel time h t r h' t' :
  In r (Sim.balls t) -> struck_at_rest h r ->
  Sim.update fuel time (h, t) = Py.Ok (h', t') ->
  Sim.in_motion t' = true.
Proof.
  intros Hin (Hm & Hf & Ha) Hrun. unfold Sim.update in Hrun.
  destruct (Sim.update_motion time (h, t)) as [[h1 t1]| |] eqn:H1;
    cbn [Py.bind] in Hrun; try discriminate.
  destruct (Sim.resolve_collisions fuel (h1, t1)) as [[h2 t2]| |] eqn:H2;
    cbn [Py.bind] in Hrun; try discriminate.
  destruct (resolve_pockets_spec (Sim.commit_positions h2 t2) t2)
    as (h3 & t3 & new & Hp & _ & _ & Hfix & _).
  rewrite Hp in Hrun. injection Hrun as <- <-.
  destruct Hfix as (_ & _ & _ & _ & -> & _).
  unfold Sim.resolve_collisions in H2. cbn [snd] in H2.
  rewrite (resolve_collisions_in_motion _ _ _ _ H2).
  rewrite update_motion_unfold in H1.
  eapply motion_loop_reports with (r := r); [exact H1|].
  right. auto.
Qed.

Lemma update_at_rest_completes fuel time h t :
  all_at_rest h t ->
  exists h' t', Sim.update fuel time (h, t) = Py.Ok (h', t').
Proof.
  intros Hrest.
  assert (Hum : exists h1 t1,
             Sim.update_motion time (h, t) = Py.Ok (h1, t1)
             /\ Sim.balls t1 = Sim.balls t
             /\ (forall r, In r (Sim.balls t) -> Sim.moving (h1 r) = false)).
  { rewrite update_motion_unfold.
    destruct (@update_motion_at_rest time (Sim.balls t) (Sim.balls t) h
                (Sim.set_in_motion false
                   (Sim.set_previously_in_motion (Sim.in_motion t) t))
                Hrest (incl_refl _)) as (h1 & t1 & H1 & Hb & Hr).
    exists h1, t1. split; [exact H1|]. split; [exact Hb | exact Hr]. }
  destruct Hum as (h1 & t1 & H1 & Hb & Hr).
  unfold Sim.update. rewrite H1. cbn [Py.bind].
  unfold Sim.resolve_collisions. cbn [snd].
  rewrite resolve_collisions_at_rest.
  2:{ intros r Hin. apply Hr. rewrite Hb in Hin. exact Hin. }
  cbn [Py.bind].
  destruct (resolve_pockets_spec (Sim.commit_positions h1 t1) t1)
    as (h3 & t3 & new & Hp & _).
  exists h3, t3. exact Hp.
Qed.

Lemma Ball_init_normal_contact coords s striped num :
  Sim.normal_contact (Sim.Ball_init coords s striped num)
  = (- Sim.mass (Sim.Ball_init coords s striped num)
     * Sim.gravity (Sim.settings (Sim.Ball_init coords s striped num)))%R.
Proof. reflexivity. Qed.

Lemma weak_strike_rejected :
  Sim.apply_force (Sample.racked_heap 0) (1 / 1000) (1 / 2) 0
  = Sim.set_attempted true (Sample.racked_heap 0).
Proof.
  apply apply_force_rejected.
  - apply Ball_init_normal_contact.
  - reflexivity.
  - cbn [Sample.racked_heap Sim.Ball_init Sim.settings Sim.mass Sample.settings
         Sim.coeff_of_static_friction Sim.gravity Sim.ball_mass]. lra.
Qed.

Lemma weak_strike_heap_at_rest r :
  Sim.moving (weak_strike_heap r) = false
  /\ Sim.applied_force (weak_strike_heap r) = None.
Proof.
  unfold weak_strike_heap, Sim.upd. destruct (Nat.eqb r 0).
  - rewrite weak_strike_rejected. split; [apply (racked_not_moving 0) | reflexivity].
  - split; [apply racked_not_moving | reflexivity].
Qed.

Lemma weak_strike_heap_struck : struck_at_rest weak_strike_heap 0.
Proof.
  destruct (weak_strike_heap_at_rest 0) as [Hm Hf].
  split; [exact Hm|]. split; [exact Hf|].
  unfold weak_strike_heap, Sim.upd. cbn [Nat.eqb].
  apply apply_force_sets_flag.
Qed.

(** C9.  [Ball.apply_force] always sets the flag that records an attempted
    strike.  For a ball whose normal contact force is minus its weight, it
    records an impulse (the force resolved along the angle, with the time
    of application) when the ball is moving or the force exceeds the
    coefficient of static friction times mass times gravity, and changes
    nothing but the flag when the ball is at rest and the force is at most
    that threshold.  When a ball of the table is at rest, has no impulse in
    flight and carries the flag, every [Table.update] that returns reports
    [in_motion = True]; and when every ball of the table is at rest with no
    impulse in flight the update does return, so the table is reported in
    motion for that one step. *)
Theorem apply_force_and_motion_report
        (b : Sim.Ball) (time_of_application force angle : R)
        (fuel : nat) (time : R) (h : Sim.Heap) (t : Sim.Table) (r : Sim.ref) :
  Sim.normal_contact b = (- Sim.mass b * Sim.gravity (Sim.settings b))%R ->
  In r (Sim.balls t) ->
  struck_at_rest h r ->
  Sim.attempted_force_application
    (Sim.apply_force b time_of_application force angle) = true
  /\ (Sim.moving b = true \/ (static_threshold b < force)%R ->
      Sim.applied_force (Sim.apply_force b time_of_application force angle)
      = Some (Vec.mkVec (cos angle * force) (sin angle * force),
              time_of_application))
  /\ (Sim.moving b = false -> (force <= static_threshold b)%R ->
      Sim.apply_force b time_of_application force angle
      = Sim.set_attempted true b)
  /\ (forall h' t', Sim.update fuel time (h, t) = Py.Ok (h', t') ->
                    Sim.in_motion t' = true)
  /\ (all_at_rest h t ->
      exists h' t', Sim.update fuel time (h, t) = Py.Ok (h', t')
                    /\ Sim.in_motion t' = true).
Proof.
  intros Hn Hin Hstruck.
  split; [apply apply_force_sets_flag|].
  split.
  { intros Hc. apply apply_force_accepted; [exact Hn|].
    destruct Hc as [Hc|Hc]; [left|right; exact Hc].
    intros Hz. apply moving_false_iff in Hz. congruence. }
  split.
  { intros Hm Hf. apply apply_force_rejected; [exact Hn| |exact Hf].
    apply moving_false_iff. exact Hm. }
  split.
  { intros h' t' Hrun.
    exact (@update_reports_attempt fuel time h t r h' t' Hin Hstruck Hrun). }
  intros Hrest.
  destruct (@update_at_rest_completes fuel time h t Hrest) as (h' & t' & Hrun).
  exists h', t'. split; [exact Hrun|].
  exact (@update_reports_attempt fuel time h t r h' t' Hin Hstruck Hrun).
Qed.

Lemma apply_force_and_motion_report_witness :
  Sim.attempted_force_application
    (Sim.apply_force (Sample.racked_heap 0) (1 / 1000) 600 0) = true
  /\ Sim.applied_force (Sim.apply_force (Sample.racked_heap 0) (1 / 1000) 600 0)
     = Some (Vec.mkVec (cos 0 * 600) (sin 0 * 600), (1 / 1000)%R)
  /\ exists h' t',
      Sim.update 0 (1 / 240) (weak_strike_heap, Sample.racked_table)
      = Py.Ok (h', t')
      /\ Sim.in_motion t' = true.
Proof.
  destruct (@apply_force_and_motion_report
              (Sample.racked_heap 0) (1 / 1000) 600 0 0 (1 / 240)
              weak_strike_heap Sample.racked_table 0)
    as (H1 & H2 & _ & _ & H5).
  - apply Ball_init_normal_contact.
  - cbn. tauto.
  - exact weak_strike_heap_struck.
  - split; [exact H1|]. split.
    + apply H2. right. unfold static_threshold.
      cbn [Sample.racked_heap Sim.Ball_init Sim.settings Sim.mass Sample.settings
         Sim.coeff_of_static_friction Sim.gravity Sim.ball_mass]. lra.
    + apply H5. intros r _. apply weak_strike_heap_at_rest.
Defined.

(** ** Collisions between balls *)

Lemma collide_response_vel (self ball : Sim.Ball) :
  let n := collision_normal self ball in
  let e := Sim.ball_coeff_of_rest (Sim.settings self) in
  let '(self', ball', old_self_vel, old_ball_vel) :=
    Sim.collide_response self ball in
  Sim.vel self' = self_vel_after e n (Sim.vel self) (Sim.vel ball)
  /\ Sim.vel ball' = ball_vel_after e n (Sim.vel self) (Sim.vel ball).
Proof.
  unfold Sim.collide_response, collision_normal.
  destruct (negb (Reqb _ 0)); split; reflexivity.
Qed.

Lemma normalise_unit (v : Vec.Vector2D) :
  v <> Vec.zero ->
  (Vec.x (Vec.normalise v) * Vec.x (Vec.normalise v)
   + Vec.y (Vec.normalise v) * Vec.y (Vec.normalise v) = 1)%R.
Proof.
  intros Hv. destruct v as [a b]. unfold Vec.normalise, Vec.magnitude.
  cbn [Vec.x Vec.y].
  assert (Hpos : (0 < a ^ 2 + b ^ 2)%R).
  { destruct (Req_dec_T a 0) as [->|Ha].
    - destruct (Req_dec_T b 0) as [->|Hb]; [exfalso; apply Hv; reflexivity|].
      nra.
    - nra. }
  pose proof (sqrt_lt_R0 _ Hpos) as Hm.
  pose proof (sqrt_sqrt (a ^ 2 + b ^ 2) (Rlt_le _ _ Hpos)) as Hsq.
  set (m := sqrt (a ^ 2 + b ^ 2)) in *.
  assert (Hne : Reqb m 0 = false) by (apply Reqb_false; lra).
  rewrite Hne. cbn [negb Vec.x Vec.y].
  field_simplify; [|lra]. rewrite <- Hsq at 1. field. lra.
Qed.

Ltac vec_unfold :=
  unfold self_vel_after, ball_vel_after, relative_speed_along,
    Vec.dot_product, Vec.perpendicular, Vec.add, Vec.sub, Vec.rmul, Vec.neg,
    Vec.mul in *;
  cbn [Vec.x Vec.y] in *.



(** A vector of the plane from its components along [n] and across it. *)
Lemma decompose_along (n v : Vec.Vector2D) :
  (Vec.x n * Vec.x n + Vec.y n * Vec.y n = 1)%R ->
  v = Vec.add (Vec.rmul (Vec.dot_product v n) n)
              (Vec.rmul (Vec.dot_product v (Vec.perpendicular n))
                        (Vec.perpendicular n)).
Proof.
  destruct n as [nx ny], v as [vx vy]. vec_unfold. intros Hn.
  f_equal.
  - transitivity (vx * (nx * nx + ny * ny))%R; [rewrite Hn; ring | field].
  - transitivity (vy * (nx * nx + ny * ny))%R; [rewrite Hn; ring | field].
Qed.


Lemma collide_response_pos (self ball : Sim.Ball) :
  (Vec.magnitude (Sim.vel self) + Vec.magnitude (Sim.vel ball) <> 0)%R ->
  let normal_vector := Vec.sub (Sim.new_pos self) (Sim.new_pos ball) in
  let old_movement := Vec.sub (Sim.old_pos self) (Sim.old_pos ball) in
  let factor :=
    (if Rltb 0 (Vec.dot_product normal_vector old_movement) then 1 else -1)%R in
  let overlap :=
    (Sim.radius self + Sim.radius ball
     - factor * Vec.magnitude normal_vector)%R in
  let total := (Vec.magnitude (Sim.vel self) + Vec.magnitude (Sim.vel ball))%R in
  let '(self', ball', old_self_vel, old_ball_vel) :=
    Sim.collide_response self ball in
  Sim.representation self'
  = Sim.mkCircle
      (Vec.sub (Sim.new_pos self)
         (Vec.mul (Vec.mul (Vec.mul (Vec.normalise_result (Sim.vel self)) overlap)
                           (Vec.magnitude (Sim.vel self) / total)) 2))
      (Sim.radius self)
  /\ Sim.representation ball'
     = Sim.mkCircle
         (Vec.sub (Sim.new_pos ball)
            (Vec.mul (Vec.mul (Vec.mul (Vec.normalise_result (Sim.vel ball)) overlap)
                              (Vec.magnitude (Sim.vel ball) / total)) 2))
         (Sim.radius ball).
Proof.
  intros Htot. unfold Sim.collide_response.
  apply Reqb_false in Htot. rewrite Htot. cbn [negb].
  split; reflexivity.
Qed.

Lemma magnitude_eq (v : Vec.Vector2D) (m : R) :
  (0 <= m)%R -> (Vec.x v ^ 2 + Vec.y v ^ 2 = m * m)%R -> Vec.magnitude v = m.
Proof.
  intros Hm Hsq. unfold Vec.magnitude. rewrite Hsq. apply sqrt_square. exact Hm.
Qed.

Lemma normalise_result_eq (v : Vec.Vector2D) (m : R) :
  (0 < m)%R -> Vec.magnitude v = m ->
  Vec.normalise_result v = Vec.mkVec (Vec.x v / m) (Vec.y v / m).
Proof.
  intros Hm Hv. unfold Vec.normalise_result. rewrite Hv.
  assert (Hne : Reqb m 0 = false) by (apply Reqb_false; lra).
  rewrite Hne. reflexivity.
Qed.

Lemma normalise_eq (v : Vec.Vector2D) (m : R) :
  (0 < m)%R -> Vec.magnitude v = m ->
  Vec.normalise v = Vec.mkVec (Vec.x v / m) (Vec.y v / m).
Proof.
  intros Hm Hv. unfold Vec.normalise. rewrite Hv.
  assert (Hne : Reqb m 0 = false) by (apply Reqb_false; lra).
  rewrite Hne. reflexivity.
Qed.


Lemma residual_loop_not_entered fuel ou ov self ball :
  Sim.circle_circle_collision_check (Sim.representation self)
                                    (Sim.representation ball) = false ->
  Sim.residual_overlap_loop fuel ou ov self ball = Py.Ok (self, ball).
Proof.
  intros H. destruct fuel; cbn [Sim.residual_overlap_loop]; rewrite H; reflexivity.
Qed.




Lemma incoming_separated (c1 n1 c2 n2 : Vec.Vector2D) (d : R) :
  (0 < d < 6 / 100)%R ->
  Vec.magnitude (Vec.sub n1 n2) = d ->
  (0 < Vec.dot_product (Vec.sub n1 n2) (Vec.sub c1 c2))%R ->
  ((6 / 100) ^ 2
   < Vec.magnitude_squared
       (Vec.sub (Vec.add n2 (Vec.mkVec (- (6 / 100 - d)) 0))
                (Vec.add n1 (Vec.mkVec (6 / 100 - d) 0))))%R ->
  separated_by_correction (incoming c1 n1 (Vec.mkVec (-1) 0))
                          (incoming c2 n2 (Vec.mkVec 1 0)).
Proof.
  intros Hd Hmag Hdot Hfar. unfold separated_by_correction.
  assert (Hm1 : Vec.magnitude (Vec.mkVec (-1) 0) = 1%R)
    by (apply magnitude_eq; cbn [Vec.x Vec.y]; lra).
  assert (Hm2 : Vec.magnitude (Vec.mkVec 1 0) = 1%R)
    by (apply magnitude_eq; cbn [Vec.x Vec.y]; lra).
  pose proof (collide_response_pos (incoming c1 n1 (Vec.mkVec (-1) 0))
                                   (incoming c2 n2 (Vec.mkVec 1 0))) as Hp.
  destruct (Sim.collide_response _ _) as [[[self' ball'] ou] ov].
  cbv zeta in Hp.
  unfold incoming in Hp.
  cbn [Sim.vel Sim.new_pos Sim.old_pos Sim.radius Sim.set_new_pos Sim.set_vel
       Sim.Ball_init Vec.copy Sim.ball_radius elastic_settings] in Hp.
  rewrite Hm1, Hm2, Hmag in Hp.
  rewrite (@normalise_result_eq (Vec.mkVec (-1) 0) 1 Rlt_0_1 Hm1) in Hp.
  rewrite (@normalise_result_eq (Vec.mkVec 1 0) 1 Rlt_0_1 Hm2) in Hp.
  destruct c1 as [c1x c1y], c2 as [c2x c2y].
  unfold Vec.copy in Hp. cbn [Vec.x Vec.y] in Hp.
  apply Rltb_true in Hdot. rewrite Hdot in Hp.
  destruct Hp as [Hs Hb]; [lra|].
  rewrite Hs, Hb. unfold Sim.circle_circle_collision_check.
  cbn [Sim.centre Sim.c_radius].
  match goal with
  | |- (if Rltb ?a ?b then _ else _) = _ =>
      assert (Hlt : Rltb a b = true); [|rewrite Hlt; reflexivity]
  end.
  apply Rltb_true.
  destruct n1 as [n1x n1y], n2 as [n2x n2y].
  unfold Vec.magnitude_squared, Vec.sub, Vec.add, Vec.mul in *.
  cbn [Vec.x Vec.y] in *.
  eapply Rle_lt_trans; [|eapply Rlt_le_trans; [exact Hfar|]]; right; field.
Qed.

Ltac sample_eval :=
  unfold head_on_self, head_on_ball, oblique_self, oblique_ball, incoming,
    Vec.magnitude_squared;
  cbn [Sim.vel Sim.new_pos Sim.old_pos Sim.radius Sim.set_new_pos Sim.set_vel
       Sim.Ball_init Vec.copy Sim.ball_radius Sim.settings
       Sim.ball_coeff_of_rest elastic_settings];
  vec_unfold; cbn [pow].

Lemma head_on_normal :
  collision_normal head_on_self head_on_ball
  = Vec.mkVec ((5 / 100 - 0) / (5 / 100)) ((0 - 0) / (5 / 100)).
Proof.
  unfold collision_normal.
  apply (@normalise_eq (Vec.sub (Sim.new_pos head_on_self)
                                (Sim.new_pos head_on_ball)) (5 / 100)); [lra|].
  apply magnitude_eq; [lra|]. sample_eval; lra.
Qed.

Lemma oblique_normal :
  collision_normal oblique_self oblique_ball
  = Vec.mkVec ((3 / 100 - 0) / (5 / 100)) ((4 / 100 - 0) / (5 / 100)).
Proof.
  unfold collision_normal.
  apply (@normalise_eq (Vec.sub (Sim.new_pos oblique_self)
                                (Sim.new_pos oblique_ball)) (5 / 100)); [lra|].
  apply magnitude_eq; [lra|]. sample_eval; lra.
Qed.

Lemma head_on_separated : separated_by_correction head_on_self head_on_ball.
Proof.
  apply incoming_separated with (d := (5 / 100)%R).
  - lra.
  - apply magnitude_eq; [lra|]. sample_eval; lra.
  - sample_eval; lra.
  - sample_eval; lra.
Qed.

Lemma oblique_separated : separated_by_correction oblique_self oblique_ball.
Proof.
  apply incoming_separated with (d := (5 / 100)%R).
  - lra.
  - apply magnitude_eq; [lra|]. sample_eval; lra.
  - sample_eval; lra.
  - sample_eval; lra.
Qed.



(** Opposite velocities and a coefficient of 1 do not suffice for an
    exchange when the collision is not head-on.  The two balls overlap,
    approach each other with velocities [(-1, 0)] and [(1, 0)] and a line
    of centres along [(3, 4)]; the first leaves with velocity
    [(-7/25, 24/25)]. *)
Lemma oblique_not_exchanged :
  Sim.ball_coeff_of_rest (Sim.settings oblique_self) = 1%R
  /\ Sim.mass oblique_self = Sim.mass oblique_ball
  /\ Sim.vel oblique_ball = Vec.neg (Sim.vel oblique_self)
  /\ Sim.circle_circle_collision_check
       (Sim.mkCircle (Sim.new_pos oblique_self) (Sim.radius oblique_self))
       (Sim.mkCircle (Sim.new_pos oblique_ball) (Sim.radius oblique_ball))
     = true
  /\ exists self' ball',
      Sim.collide_with_ball 0 oblique_self oblique_ball = Py.Ok (self', ball')
      /\ Sim.vel self' = Vec.mkVec (-7 / 25) (24 / 25)
      /\ Sim.vel self' <> Sim.vel oblique_ball.
Proof.
  split; [reflexivity|]. split; [reflexivity|].
  split; [sample_eval; f_equal; lra|].
  split.
  { unfold Sim.circle_circle_collision_check.
    cbn [Sim.centre Sim.c_radius]. sample_eval.
    match goal with
    | |- (if Rltb ?a ?b then _ else _) = _ =>
        assert (H1 : Rltb a b = false) by (apply Rltb_false; lra); rewrite H1
    end.
    match goal with
    | |- (if Rltb ?a ?b then _ else _) = _ =>
        assert (H2 : Rltb a b = false) by (apply Rltb_false; lra); rewrite H2
    end.
    reflexivity. }
  pose proof (collide_response_vel oblique_self oblique_ball) as Hvel.
  pose proof oblique_separated as Hsep.
  unfold separated_by_correction in Hsep. unfold Sim.collide_with_ball.
  destruct (Sim.collide_response oblique_self oblique_ball)
    as [[[self' ball'] ou] ov].
  cbv zeta in Hvel. destruct Hvel as [Hs _].
  rewrite oblique_normal in Hs.
  assert (Hv : Sim.vel self' = Vec.mkVec (-7 / 25) (24 / 25)).
  { rewrite Hs. sample_eval; f_equal; field. }
  exists self', ball'.
  split; [apply residual_loop_not_entered; exact Hsep|].
  split; [exact Hv|].
  rewrite Hv. sample_eval. intros H. injection H as H _. lra.
Qed.

(** ** The depth of [update_physics] *)

Lemma truediv_in_fuel (v : Vec.Vector2D) (amount : R) :
  Vec.truediv v amount <> Py.OutOfFuel.
Proof. unfold Vec.truediv. destruct (Reqb amount 0); discriminate. Qed.

Lemma integrate_in_fuel (self : Sim.Ball) (time : R) :
  Sim.integrate self time <> Py.OutOfFuel.
Proof.
  unfold Sim.integrate.
  destruct (Sim.applied_force self) as [[f remaining]|].
  - destruct (Vec.truediv _ _) as [a| |] eqn:Hd; cbn [Py.bind];
      try discriminate.
    exfalso. exact (@truediv_in_fuel _ _ Hd).
  - destruct (Vec.truediv _ _) as [a| |] eqn:Hd; cbn [Py.bind];
      try discriminate.
    exfalso. exact (@truediv_in_fuel _ _ Hd).
Qed.

Lemma Rltb_irrefl (a : R) : Rltb a a = false.
Proof. apply Rltb_false. apply Rle_refl. Qed.

(** The nested call of [update_physics] does not nest further. *)
Lemma update_physics_depth (self : Sim.Ball) (time : R) :
  Sim.update_physics self time <> Py.OutOfFuel.
Proof.
  unfold Sim.update_physics. cbn [Sim.update_physics_rec].
  cbn [Sim.applied_force Sim.set_hit_rail Sim.set_colliding].
  destruct (Sim.applied_force self) as [[f remaining]|].
  - destruct (Rltb remaining time).
    + rewrite Rltb_irrefl.
      destruct (Sim.integrate _ remaining) as [b| |] eqn:Hi; cbn [Py.bind].
      * apply integrate_in_fuel.
      * discriminate.
      * exfalso. exact (@integrate_in_fuel _ _ Hi).
    + apply integrate_in_fuel.
  - apply integrate_in_fuel.
Qed.

(** ** The rail-contact record *)

Lemma record_hit_rail_record t b :
  Sim.rail_contacts (Sim.record_hit t b) = Sim.rail_contacts t
  /\ Sim.cue_ball (Sim.record_hit t b) = Sim.cue_ball t.
Proof. unfold Sim.record_hit. destruct (_ && _); split; reflexivity. Qed.

Lemma record_hits_rail_record l : forall t,
  Sim.rail_contacts (fold_left Sim.record_hit l t) = Sim.rail_contacts t
  /\ Sim.cue_ball (fold_left Sim.record_hit l t) = Sim.cue_ball t.
Proof.
  induction l as [|a l IH]; intros t; cbn [fold_left]; [split; reflexivity|].
  destruct (IH (Sim.record_hit t a)) as [-> ->]. apply record_hit_rail_record.
Qed.

Lemma record_rail_contact_distinct h t b :
  distinct_numbered t -> distinct_numbered (Sim.record_rail_contact h t b).
Proof.
  intros [Hnd Hcue]. unfold Sim.record_rail_contact.
  destruct (Sim.hit_rail (h b)); cbn [andb]; [|split; assumption].
  destruct (Sim.mem b (Sim.rail_contacts t)) eqn:Hm; cbn [negb andb];
    [split; assumption|].
  destruct (Sim.is_ref b (Sim.cue_ball t)) eqn:Hc; cbn [negb];
    [split; assumption|].
  split; cbn [Sim.rail_contacts Sim.cue_ball Sim.set_rail_contacts].
  - apply NoDup_app; [exact Hnd | repeat constructor; intros [] |].
    intros x Hx [<-|[]]. apply mem_not_In in Hm. contradiction.
  - intros x Hx. apply in_app_or in Hx. destruct Hx as [Hx|[<-|[]]].
    + apply Hcue, Hx.
    + intros Heq. rewrite Heq in Hc. cbn [Sim.is_ref] in Hc.
      rewrite Nat.eqb_refl in Hc. discriminate.
Qed.

Lemma distinct_numbered_ext t t' :
  Sim.rail_contacts t' = Sim.rail_contacts t ->
  Sim.cue_ball t' = Sim.cue_ball t ->
  distinct_numbered t -> distinct_numbered t'.
Proof. unfold distinct_numbered. intros -> ->. exact (fun H => H). Qed.

Lemma resolve_collisions_step_distinct fuel ball h t h' t' :
  Sim.resolve_collisions_step fuel ball (h, t) = Py.Ok (h', t') ->
  distinct_numbered t -> distinct_numbered t'.
Proof.
  unfold Sim.resolve_collisions_step.
  destruct (_ && _).
  - destruct (Sim.get_collisions _ _ _ _ _ _ _) as [[h1 cw]| |];
      cbn [Py.bind]; try discriminate.
    intros H Hd. injection H as <- <-.
    apply record_rail_contact_distinct.
    destruct (Sim.colliding (h1 ball)); [|exact Hd].
    destruct (record_hits_rail_record cw (Sim.record_hit t ball)) as [Hr Hc].
    destruct (record_hit_rail_record t ball) as [Hr' Hc'].
    eapply distinct_numbered_ext; [| |exact Hd]; congruence.
  - intros H Hd. injection H as <- <-. exact Hd.
Qed.

Lemma resolve_collisions_distinct fuel h t h' t' :
  Sim.resolve_collisions fuel (h, t) = Py.Ok (h', t') ->
  distinct_numbered t -> distinct_numbered t'.
Proof.
  unfold Sim.resolve_collisions. cbn [snd].
  generalize (Sim.balls t) as l. intros l. revert h t.
  induction l as [|a l IH]; intros h t Hrun Hd; cbn [Sim.for_each] in Hrun.
  - injection Hrun as <- <-. exact Hd.
  - destruct (Sim.resolve_collisions_step fuel a (h, t)) as [[h1 t1]| |] eqn:Hs;
      cbn [Py.bind] in Hrun; try discriminate.
    eapply IH; [exact Hrun|].
    eapply resolve_collisions_step_distinct; [exact Hs | exact Hd].
Qed.

Lemma update_motion_rail_record time (l : list Sim.ref) :
  forall h t h' t',
    Sim.for_each l (Sim.update_motion_step time) (h, t) = Py.Ok (h', t') ->
    Sim.rail_contacts t' = Sim.rail_contacts t
    /\ Sim.cue_ball t' = Sim.cue_ball t.
Proof.
  induction l as [|a l IH]; intros h t h' t' Hrun; cbn [Sim.for_each] in Hrun.
  - injection Hrun as <- <-. split; reflexivity.
  - unfold Sim.update_motion_step at 1 in Hrun.
    destruct (_ || _).
    + destruct (Sim.update_physics (h a) time) as [b| |]; cbn [Py.bind] in Hrun;
        try discriminate.
      destruct (IH _ _ _ _ Hrun) as [-> ->]. split; reflexivity.
    + destruct (Sim.attempted_force_application (h a)); cbn [Py.bind] in Hrun.
      * destruct (IH _ _ _ _ Hrun) as [-> ->]. split; reflexivity.
      * exact (IH _ _ _ _ Hrun).
Qed.

(** Between two resets the rail-contact record of a table holds distinct
    balls other than the cue ball, so that its length counts the distinct
    numbered balls that have touched a rail. *)
Lemma reset_counts_distinct t : distinct_numbered (Sim.reset_counts t).
Proof. split; [constructor | intros b []]. Qed.

Lemma update_distinct fuel time h t h' t' :
  Sim.update fuel time (h, t) = Py.Ok (h', t') ->
  distinct_numbered t -> distinct_numbered t'.
Proof.
  intros Hrun Hd. unfold Sim.update in Hrun.
  destruct (Sim.update_motion time (h, t)) as [[h1 t1]| |] eqn:H1;
    cbn [Py.bind] in Hrun; try discriminate.
  destruct (Sim.resolve_collisions fuel (h1, t1)) as [[h2 t2]| |] eqn:H2;
    cbn [Py.bind] in Hrun; try discriminate.
  destruct (resolve_pockets_spec (Sim.commit_positions h2 t2) t2)
    as (h3 & t3 & new & Hp & _ & _ & Hfix & _).
  rewrite Hp in Hrun. injection Hrun as <- <-.
  destruct Hfix as (Hc & _ & _ & _ & _ & _ & _ & Hr).
  apply (@distinct_numbered_ext t2 t3 Hr Hc).
  apply (@resolve_collisions_distinct fuel h1 t1 h2 t2 H2).
  rewrite update_motion_unfold in H1.
  destruct (@update_motion_rail_record time _ _ _ _ _ H1) as [Hr1 Hc1].
  apply (@distinct_numbered_ext _ t1 Hr1 Hc1).
  eapply distinct_numbered_ext; [| |exact Hd]; reflexivity.
Qed.

(** ** Vector arithmetic *)

Lemma magnitude_nonneg (v : Vec.Vector2D) : (0 <= Vec.magnitude v)%R.
Proof. unfold Vec.magnitude. apply sqrt_pos. Qed.

Lemma magnitude_zero_iff (v : Vec.Vector2D) :
  Vec.magnitude v = 0%R <-> v = Vec.zero.
Proof.
  rewrite <- magnitude_squared_zero. unfold Vec.magnitude, Vec.magnitude_squared.
  split.
  - intros H. apply sqrt_eq_0 in H; [exact H|].
    destruct v as [a b]. cbn [Vec.x Vec.y]. nra.
  - intros ->. apply sqrt_0.
Qed.

Lemma magnitude_sqr (v : Vec.Vector2D) :
  (Vec.magnitude v * Vec.magnitude v = Vec.magnitude_squared v)%R.
Proof.
  unfold Vec.magnitude, Vec.magnitude_squared. apply sqrt_sqrt.
  destruct v as [a b]. cbn [Vec.x Vec.y]. nra.
Qed.

(** X2.  [perpendicular] returns a vector at right angles to its receiver
    and of the same magnitude; it keeps the dot product of two vectors, and
    taking it twice negates the vector. *)
Theorem perpendicular_is_quarter_turn (v w : Vec.Vector2D) :
  Vec.dot_product v (Vec.perpendicular v) = 0%R
  /\ Vec.magnitude (Vec.perpendicular v) = Vec.magnitude v
  /\ Vec.dot_product (Vec.perpendicular v) (Vec.perpendicular w)
     = Vec.dot_product v w
  /\ Vec.perpendicular (Vec.perpendicular v) = Vec.neg v.
Proof.
  destruct v as [a b], w as [c d].
  unfold Vec.dot_product, Vec.perpendicular, Vec.magnitude, Vec.neg, Vec.mul.
  cbn [Vec.x Vec.y]. split; [ring|]. split; [f_equal; ring|].
  split; [ring | f_equal; ring].
Qed.

(** ** Collision tests *)

Lemma Rltb_ext (a b c d : R) : a = c -> b = d -> Rltb a b = Rltb c d.
Proof. intros -> ->. reflexivity. Qed.

Lemma Rleb_ext (a b c d : R) : a = c -> b = d -> Rleb a b = Rleb c d.
Proof. intros -> ->. reflexivity. Qed.

Lemma magnitude_squared_sub_sym (a b : Vec.Vector2D) :
  Vec.magnitude_squared (Vec.sub a b) = Vec.magnitude_squared (Vec.sub b a).
Proof.
  destruct a as [ax ay], b as [bx by_].
  unfold Vec.magnitude_squared, Vec.sub. cbn [Vec.x Vec.y]. ring.
Qed.

(** X4.  The test of two circles does not depend on their order.  For two
    circles of the same radius it holds exactly when the squared distance
    of the centres is at most the squared sum of the radii (touching
    counts); a circle tests positive against itself. *)
Theorem circle_circle_check_symmetric (c1 c2 : Sim.Circle) :
  Sim.circle_circle_collision_check c1 c2
  = Sim.circle_circle_collision_check c2 c1
  /\ (Sim.c_radius c1 = Sim.c_radius c2 ->
      (Sim.circle_circle_collision_check c1 c2 = true
       <-> (Vec.magnitude_squared (Vec.sub (Sim.centre c1) (Sim.centre c2))
            <= (2 * Sim.c_radius c1) ^ 2)%R))
  /\ Sim.circle_circle_collision_check c1 c1 = true.
Proof.
  unfold Sim.circle_circle_collision_check. split; [|split].
  - rewrite (magnitude_squared_sub_sym (Sim.centre c2) (Sim.centre c1)).
    rewrite (@Rltb_ext ((Sim.c_radius c1 + Sim.c_radius c2) ^ 2) _
                       ((Sim.c_radius c2 + Sim.c_radius c1) ^ 2) _)
      by (reflexivity || ring).
    rewrite (@Rltb_ext _ ((Sim.c_radius c1 - Sim.c_radius c2) ^ 2) _
                       ((Sim.c_radius c2 - Sim.c_radius c1) ^ 2))
      by (reflexivity || ring).
    reflexivity.
  - intros Hr. rewrite (magnitude_squared_sub_sym (Sim.centre c2) (Sim.centre c1)).
    set (d := Vec.magnitude_squared _).
    assert (Hd : (0 <= d)%R).
    { unfold d, Vec.magnitude_squared. nra. }
    rewrite <- Hr.
    destruct (Rltb _ d) eqn:H1.
    + apply Rltb_true in H1. split; [discriminate|]. intros H. exfalso.
      assert ((Sim.c_radius c1 + Sim.c_radius c1) ^ 2
              = (2 * Sim.c_radius c1) ^ 2)%R by ring. lra.
    + apply Rltb_false in H1.
      destruct (Rltb d _) eqn:H2.
      * apply Rltb_true in H2. exfalso.
        assert ((Sim.c_radius c1 - Sim.c_radius c1) ^ 2 = 0)%R by ring. lra.
      * split; [intros _|reflexivity].
        assert ((Sim.c_radius c1 + Sim.c_radius c1) ^ 2
                = (2 * Sim.c_radius c1) ^ 2)%R by ring. lra.
  - set (d := Vec.magnitude_squared _).
    assert (Hd : d = 0%R).
    { unfold d, Vec.magnitude_squared, Vec.sub. cbn [Vec.x Vec.y]. ring. }
    assert (H1 : Rltb ((Sim.c_radius c1 + Sim.c_radius c1) ^ 2) d = false).
    { apply Rltb_false. rewrite Hd. nra. }
    assert (H2 : Rltb d ((Sim.c_radius c1 - Sim.c_radius c1) ^ 2) = false).
    { apply Rltb_false. rewrite Hd. nra. }
    rewrite H1, H2. reflexivity.
Qed.

(** The foot of the perpendicular from a point to a horizontal or a
    vertical line, as [circle_line_collision_check] computes it. *)
Lemma unit_of_axis (d m : R) :
  (m * m = d * d)%R -> (0 < m)%R -> (d / m * (d / m) = 1)%R.
Proof.
  intros Hm Hpos. unfold Rdiv.
  replace (d * / m * (d * / m))%R with (d * d * (/ m * / m))%R by ring.
  rewrite <- Hm. field. lra.
Qed.

Lemma Rabs_mul_self (d : R) : (Rabs d * Rabs d = d * d)%R.
Proof. unfold Rabs. destruct (Rcase_abs d); ring. Qed.

Lemma foot_on_horizontal (a b c px py : R) :
  a <> b ->
  let line := Sim.LineSegment_init (Vec.mkVec a c) (Vec.mkVec b c) in
  let n := Vec.normalise_result (Sim.vector line) in
  Vec.add (Sim.coord1 line)
          (Vec.mul n (Vec.dot_product
                        (Vec.sub (Vec.mkVec px py) (Sim.coord1 line)) n))
  = Vec.mkVec px c.
Proof.
  intros Hab line n.
  assert (Hm : Vec.magnitude (Sim.vector line) = Rabs (b - a)).
  { apply magnitude_eq; [apply Rabs_pos|].
    unfold line, Sim.LineSegment_init, Vec.sub. cbn [Sim.vector Vec.x Vec.y].
    rewrite Rabs_mul_self. ring. }
  assert (Hpos : (0 < Rabs (b - a))%R) by (apply Rabs_pos_lt; lra).
  unfold n. rewrite (@normalise_result_eq _ _ Hpos Hm).
  unfold line, Sim.LineSegment_init, Vec.sub, Vec.add, Vec.mul, Vec.dot_product.
  cbn [Sim.vector Sim.coord1 Vec.x Vec.y].
  pose proof (@unit_of_axis (b - a) (Rabs (b - a))) as Hu.
  specialize (Hu (Rabs_mul_self (b - a)) Hpos).
  set (u := ((b - a) / Rabs (b - a))%R) in *.
  replace ((c - c) / Rabs (b - a))%R with 0%R by (field; lra).
  f_equal.
  - replace (a + u * ((px - a) * u + (py - c) * 0))%R
      with (a + (px - a) * (u * u))%R by ring.
    rewrite Hu. ring.
  - ring.
Qed.

Lemma foot_on_vertical (a b c px py : R) :
  a <> b ->
  let line := Sim.LineSegment_init (Vec.mkVec c a) (Vec.mkVec c b) in
  let n := Vec.normalise_result (Sim.vector line) in
  Vec.add (Sim.coord1 line)
          (Vec.mul n (Vec.dot_product
                        (Vec.sub (Vec.mkVec px py) (Sim.coord1 line)) n))
  = Vec.mkVec c py.
Proof.
  intros Hab line n.
  assert (Hm : Vec.magnitude (Sim.vector line) = Rabs (b - a)).
  { apply magnitude_eq; [apply Rabs_pos|].
    unfold line, Sim.LineSegment_init, Vec.sub. cbn [Sim.vector Vec.x Vec.y].
    rewrite Rabs_mul_self. ring. }
  assert (Hpos : (0 < Rabs (b - a))%R) by (apply Rabs_pos_lt; lra).
  unfold n. rewrite (@normalise_result_eq _ _ Hpos Hm).
  unfold line, Sim.LineSegment_init, Vec.sub, Vec.add, Vec.mul, Vec.dot_product.
  cbn [Sim.vector Sim.coord1 Vec.x Vec.y].
  pose proof (@unit_of_axis (b - a) (Rabs (b - a))) as Hu.
  specialize (Hu (Rabs_mul_self (b - a)) Hpos).
  set (u := ((b - a) / Rabs (b - a))%R) in *.
  replace ((c - c) / Rabs (b - a))%R with 0%R by (field; lra).
  f_equal.
  - ring.
  - replace (a + u * ((px - c) * 0 + (py - a) * u))%R
      with (a + (py - a) * (u * u))%R by ring.
    rewrite Hu. ring.
Qed.

Lemma within_bounds_horizontal (a b c px : R) :
  Sim.coord_within_bounds
    (Sim.LineSegment_init (Vec.mkVec a c) (Vec.mkVec b c)) (Vec.mkVec px c) 0
  = true <-> (Rmin a b < px < Rmax a b)%R.
Proof.
  unfold Sim.coord_within_bounds, Sim.LineSegment_init.
  cbn [Sim.coord1 Sim.coord2 Vec.x Vec.y].
  rewrite !orb_true_iff, !andb_true_iff, !Rltb_true.
  unfold Rmin, Rmax. destruct (Rle_dec a b); lra.
Qed.

Lemma within_bounds_vertical (a b c py : R) :
  Sim.coord_within_bounds
    (Sim.LineSegment_init (Vec.mkVec c a) (Vec.mkVec c b)) (Vec.mkVec c py) 0
  = true <-> (Rmin a b < py < Rmax a b)%R.
Proof.
  unfold Sim.coord_within_bounds, Sim.LineSegment_init.
  cbn [Sim.coord1 Sim.coord2 Vec.x Vec.y].
  rewrite !orb_true_iff, !andb_true_iff, !Rltb_true.
  unfold Rmin, Rmax. destruct (Rle_dec a b); lra.
Qed.

(** X5.  Against a horizontal segment from [(a, c)] to [(b, c)] with
    [a <> b], a circle whose centre lies strictly between the two ends (in
    x) tests positive exactly when its vertical distance from the segment
    is at most its radius; a circle whose centre lies beyond an end, or
    level with one, tests positive exactly when the nearer end is within its
    radius.  The same holds for a vertical segment with x and y
    exchanged.  (The rails of a table are such segments.) *)
Theorem rail_check_axis_aligned (a b c r px py : R) :
  a <> b ->
  let circle := Sim.mkCircle (Vec.mkVec px py) r in
  let horizontal := Sim.LineSegment_init (Vec.mkVec a c) (Vec.mkVec b c) in
  let vertical := Sim.LineSegment_init (Vec.mkVec c a) (Vec.mkVec c b) in
  ((Rmin a b < px < Rmax a b)%R ->
   (Sim.circle_line_collision_check circle horizontal = true
    <-> ((py - c) ^ 2 <= r ^ 2)%R))
  /\ (~ (Rmin a b < px < Rmax a b)%R ->
      (Sim.circle_line_collision_check circle horizontal = true
       <-> (nearest_end_squared circle horizontal <= r ^ 2)%R))
  /\ ((Rmin a b < py < Rmax a b)%R ->
      (Sim.circle_line_collision_check circle vertical = true
       <-> ((px - c) ^ 2 <= r ^ 2)%R))
  /\ (~ (Rmin a b < py < Rmax a b)%R ->
      (Sim.circle_line_collision_check circle vertical = true
       <-> (nearest_end_squared circle vertical <= r ^ 2)%R)).
Proof.
  intros Hab circle horizontal vertical.
  pose proof (@foot_on_horizontal a b c px py Hab) as Hh.
  pose proof (@foot_on_vertical a b c px py Hab) as Hv.
  cbv zeta in Hh, Hv.
  unfold Sim.circle_line_collision_check, nearest_end_squared.
  unfold circle, horizontal, vertical. cbn [Sim.centre Sim.c_radius].
  rewrite Hh, Hv.
  split; [|split; [|split]]; intros Hin.
  - rewrite (proj2 (@within_bounds_horizontal a b c px) Hin). rewrite Rleb_true.
    unfold Vec.magnitude_squared, Vec.sub. cbn [Vec.x Vec.y].
    split; intros Hc; nra.
  - destruct (Sim.coord_within_bounds _ _ 0) eqn:Hw.
    + apply within_bounds_horizontal in Hw. contradiction.
    + apply Rleb_true.
  - rewrite (proj2 (@within_bounds_vertical a b c py) Hin). rewrite Rleb_true.
    unfold Vec.magnitude_squared, Vec.sub. cbn [Vec.x Vec.y].
    split; intros Hc; nra.
  - destruct (Sim.coord_within_bounds _ _ 0) eqn:Hw.
    + apply within_bounds_vertical in Hw. contradiction.
    + apply Rleb_true.
Qed.

Lemma rail_check_axis_aligned_witness :
  Sim.circle_line_collision_check
    (Sim.mkCircle (Vec.mkVec (1 / 2) (1 / 4)) (1 / 2))
    (Sim.LineSegment_init (Vec.mkVec 0 0) (Vec.mkVec 1 0)) = true.
Proof.
  destruct (@rail_check_axis_aligned 0 1 0 (1 / 2) (1 / 2) (1 / 4))
    as (H & _); [lra|].
  apply H.
  - unfold Rmin, Rmax. destruct (Rle_dec 0 1); lra.
  - lra.
Defined.

(** ** Collisions with rails and with the bounding box *)

Lemma collide_with_line_vel (self : Sim.Ball) (line : Sim.LineSegment) :
  let n := Vec.perpendicular (Vec.normalise_result (Sim.vector line)) in
  Sim.vel (Sim.collide_with_line self line)
  = Vec.sub (Sim.vel self)
            (Vec.mul n (Vec.dot_product n (Sim.vel self)
                        * (1 + Sim.table_coeff_of_rest (Sim.settings self)))).
Proof. reflexivity. Qed.

Lemma normalise_result_unit (v : Vec.Vector2D) :
  v <> Vec.zero ->
  (Vec.x (Vec.normalise_result v) * Vec.x (Vec.normalise_result v)
   + Vec.y (Vec.normalise_result v) * Vec.y (Vec.normalise_result v) = 1)%R.
Proof.
  intros Hv.
  assert (Hs : Vec.normalise v = Vec.normalise_result v).
  { unfold Vec.normalise, Vec.normalise_result.
    destruct (Reqb (Vec.magnitude v) 0) eqn:Hm; cbn [negb]; [|reflexivity].
    apply Reqb_true in Hm. exfalso. apply Hv.
    apply magnitude_squared_zero. unfold Vec.magnitude in Hm.
    apply sqrt_eq_0 in Hm; [exact Hm|].
    destruct v as [a b]. cbn [Vec.x Vec.y]. nra. }
  rewrite <- Hs. apply normalise_unit. exact Hv.
Qed.

(** X6.  [collide_with_line] reverses the component of the velocity across
    the line and scales it by the table's coefficient of restitution; the
    component along the line is kept.  The speed does not grow when the
    coefficient is between -1 and 1.  Against a segment of length zero the
    velocity is unchanged.  The circle of the ball is moved with its new
    position. *)
Theorem collide_with_line_reflects (self : Sim.Ball) (line : Sim.LineSegment) :
  let along := Vec.normalise_result (Sim.vector line) in
  let across := Vec.perpendicular along in
  let e := Sim.table_coeff_of_rest (Sim.settings self) in
  let self' := Sim.collide_with_line self line in
  (Sim.vector line = Vec.zero -> Sim.vel self' = Sim.vel self)
  /\ (Sim.vector line <> Vec.zero ->
      Vec.dot_product (Sim.vel self') across
      = (- e * Vec.dot_product (Sim.vel self) across)%R
      /\ Vec.dot_product (Sim.vel self') along
         = Vec.dot_product (Sim.vel self) along
      /\ ((-1 <= e <= 1)%R ->
          (Vec.magnitude_squared (Sim.vel self')
           <= Vec.magnitude_squared (Sim.vel self))%R))
  /\ Sim.pos self' = Sim.new_pos self'.
Proof.
  intros along across e self'.
  pose proof (collide_with_line_vel self line) as Hvel. cbv zeta in Hvel.
  fold along in Hvel. fold across in Hvel. fold e in Hvel. fold self' in Hvel.
  split; [|split; [|reflexivity]].
  - intros Hz. rewrite Hvel. unfold across, along. rewrite Hz.
    unfold Vec.normalise_result.
    assert (Hm : Reqb (Vec.magnitude Vec.zero) 0 = true).
    { apply Reqb_true. unfold Vec.magnitude, Vec.zero. cbn [Vec.x Vec.y].
      replace (0 ^ 2 + 0 ^ 2)%R with 0%R by ring. apply sqrt_0. }
    rewrite Hm. cbn [negb].
    destruct (Sim.vel self) as [vx vy].
    unfold Vec.sub, Vec.mul, Vec.perpendicular, Vec.dot_product.
    cbn [Vec.x Vec.y]. f_equal; ring.
  - intros Hnz. pose proof (normalise_result_unit Hnz) as Hu.
    fold along in Hu. rewrite Hvel. unfold across.
    destruct along as [tx ty], (Sim.vel self) as [vx vy].
    unfold Vec.sub, Vec.mul, Vec.perpendicular, Vec.dot_product,
      Vec.magnitude_squared.
    cbn [Vec.x Vec.y] in *.
    set (d := (- ty * vx + tx * vy)%R).
    split; [|split].
    + transitivity (- e * (vx * - ty + vy * tx)
                    + (1 + e) * d * (1 - (tx * tx + ty * ty)))%R;
        [unfold d; ring | rewrite Hu; ring].
    + ring.
    + intros He.
      assert (Hsq : ((vx - - ty * (d * (1 + e))) ^ 2
                     + (vy - tx * (d * (1 + e))) ^ 2
                     = vx ^ 2 + vy ^ 2 + d * d * (e * e - 1)
                       + d * d * (1 + e) * (1 + e) * (tx * tx + ty * ty - 1))%R)
        by (unfold d; ring).
      rewrite Hsq, Hu.
      assert (Hd : (0 <= d * d)%R) by nra.
      assert (Hee : (e * e - 1 <= 0)%R) by nra.
      generalize dependent (d * d)%R. intros dd _ Hd. nra.
Qed.

Lemma axis_line_y :
  Vec.normalise_result
    (Sim.vector (Sim.LineSegment_init (Vec.mkVec 0 0) (Vec.mkVec 0 1)))
  = Vec.mkVec ((0 - 0) / 1) ((1 - 0) / 1).
Proof.
  apply (@normalise_result_eq
           (Sim.vector (Sim.LineSegment_init (Vec.mkVec 0 0) (Vec.mkVec 0 1)))
           1 Rlt_0_1).
  apply magnitude_eq; [lra|].
  unfold Sim.LineSegment_init, Vec.sub. cbn [Sim.vector Vec.x Vec.y]. lra.
Qed.

Lemma axis_line_x :
  Vec.normalise_result
    (Sim.vector (Sim.LineSegment_init (Vec.mkVec 0 0) (Vec.mkVec 1 0)))
  = Vec.mkVec ((1 - 0) / 1) ((0 - 0) / 1).
Proof.
  apply (@normalise_result_eq
           (Sim.vector (Sim.LineSegment_init (Vec.mkVec 0 0) (Vec.mkVec 1 0)))
           1 Rlt_0_1).
  apply magnitude_eq; [lra|].
  unfold Sim.LineSegment_init, Vec.sub. cbn [Sim.vector Vec.x Vec.y]. lra.
Qed.

Lemma collide_with_line_y_axis (self : Sim.Ball) :
  Sim.vel (Sim.collide_with_line self
             (Sim.LineSegment_init (Vec.mkVec 0 0) (Vec.mkVec 0 1)))
  = Vec.mkVec (- Sim.table_coeff_of_rest (Sim.settings self)
               * Vec.x (Sim.vel self))
              (Vec.y (Sim.vel self)).
Proof.
  rewrite collide_with_line_vel. cbv zeta. rewrite axis_line_y.
  destruct (Sim.vel self) as [vx vy].
  unfold Vec.sub, Vec.mul, Vec.perpendicular, Vec.dot_product.
  cbn [Vec.x Vec.y]. f_equal; field.
Qed.

Lemma collide_with_line_x_axis (self : Sim.Ball) :
  Sim.vel (Sim.collide_with_line self
             (Sim.LineSegment_init (Vec.mkVec 0 0) (Vec.mkVec 1 0)))
  = Vec.mkVec (Vec.x (Sim.vel self))
              (- Sim.table_coeff_of_rest (Sim.settings self)
               * Vec.y (Sim.vel self)).
Proof.
  rewrite collide_with_line_vel. cbv zeta. rewrite axis_line_x.
  destruct (Sim.vel self) as [vx vy].
  unfold Vec.sub, Vec.mul, Vec.perpendicular, Vec.dot_product.
  cbn [Vec.x Vec.y]. f_equal; field.
Qed.

Lemma collide_with_line_settings (self : Sim.Ball) (line : Sim.LineSegment) :
  Sim.settings (Sim.collide_with_line self line) = Sim.settings self.
Proof. reflexivity. Qed.

(** X7.  [resolve_bounding_box_collision] leaves a ball strictly inside the
    box untouched and returns [False].  Otherwise it returns [True]; each
    coordinate that is not strictly between the bounds is mirrored in the
    bound it has crossed (the lower one when the coordinate is at or below
    it, else the upper one), the matching component of the velocity is
    reversed and scaled by the table's coefficient of restitution, and the
    circle of the ball is moved with its new position. *)
Theorem bounding_box_mirrors (self : Sim.Ball) (lower upper : Vec.Vector2D) :
  let e := Sim.table_coeff_of_rest (Sim.settings self) in
  let px := Vec.x (Sim.new_pos self) in
  let py := Vec.y (Sim.new_pos self) in
  let inside :=
    strictly_between (Vec.x lower) px (Vec.x upper)
    && strictly_between (Vec.y lower) py (Vec.y upper) in
  let self' := fst (Sim.resolve_bounding_box_collision self lower upper) in
  snd (Sim.resolve_bounding_box_collision self lower upper) = negb inside
  /\ Sim.new_pos self'
     = Vec.mkVec (mirrored (Vec.x lower) px (Vec.x upper))
                 (mirrored (Vec.y lower) py (Vec.y upper))
  /\ Sim.vel self'
     = Vec.mkVec (rebound e (Vec.x lower) px (Vec.x upper) (Vec.x (Sim.vel self)))
                 (rebound e (Vec.y lower) py (Vec.y upper) (Vec.y (Sim.vel self)))
  /\ (inside = true -> self' = self)
  /\ (inside = false -> Sim.pos self' = Sim.new_pos self').
Proof.
  intros e px py inside self'.
  unfold self', inside, mirrored, rebound, strictly_between,
    Sim.resolve_bounding_box_collision.
  fold px. fold py.
  destruct (Rltb (Vec.x lower) px && Rltb px (Vec.x upper)) eqn:Hx;
    cbn [negb andb fst snd].
  - fold py.
    destruct (Rltb (Vec.y lower) py && Rltb py (Vec.y upper)) eqn:Hy;
      cbn [negb andb fst snd Sim.new_pos Sim.vel Sim.pos Sim.set_pos
           Sim.set_new_pos].
    + repeat split; try discriminate.
      * unfold px, py. destruct (Sim.new_pos self); reflexivity.
      * destruct (Sim.vel self); reflexivity.
    + rewrite collide_with_line_x_axis. fold e. fold px.
      repeat split; try discriminate.
      f_equal. ring.
  - cbn [Sim.new_pos Sim.set_pos Sim.set_new_pos Vec.x Vec.y]. fold px. fold py.
    destruct (Rltb (Vec.y lower) py && Rltb py (Vec.y upper)) eqn:Hy;
      cbn [negb andb fst snd Sim.new_pos Sim.vel Sim.pos Sim.set_pos
           Sim.set_new_pos Vec.x Vec.y].
    + rewrite collide_with_line_y_axis. fold e.
      repeat split; try discriminate.
      f_equal. ring.
    + rewrite collide_with_line_x_axis.
      cbn [Sim.vel Sim.settings Sim.set_pos Sim.set_new_pos Vec.x Vec.y].
      rewrite collide_with_line_y_axis, collide_with_line_settings. fold e.
      cbn [Vec.x Vec.y].
      repeat split; try discriminate.
      f_equal; ring.
Qed.

(** ** The physics step of a ball *)

Lemma integrate_zero_mass (self : Sim.Ball) (time : R) :
  Sim.mass self = 0%R ->
  Sim.integrate self time
  = Py.Raise (Py.ZeroDivisionError "Cannot divide a vector by zero.").
Proof.
  intros Hm. unfold Sim.integrate.
  destruct (Sim.applied_force self) as [[f remaining]|].
  - destruct (Rleb remaining 0); unfold Vec.truediv;
      cbn [Sim.mass Sim.set_applied_force]; rewrite Hm, Reqb_refl; reflexivity.
  - unfold Vec.truediv. rewrite Hm, Reqb_refl. reflexivity.
Qed.

Lemma clamp_not_creeping (limit a b : R) :
  let v1 := if Rltb (Rabs a) limit then Vec.mkVec 0 b else Vec.mkVec a b in
  let v2 := if Rltb (Rabs (Vec.y v1)) limit
            then Vec.mkVec (Vec.x v1) 0 else v1 in
  not_creeping limit (Vec.x v2) /\ not_creeping limit (Vec.y v2).
Proof.
  cbv zeta. unfold not_creeping.
  destruct (Rltb (Rabs a) limit) eqn:Ha; cbn [Vec.x Vec.y];
    destruct (Rltb (Rabs b) limit) eqn:Hb; cbn [Vec.x Vec.y];
    try apply Rltb_false in Ha; try apply Rltb_false in Hb; auto.
Qed.

Ltac split_ifs :=
  repeat match goal with
         | |- context [if ?c then _ else _] => destruct c eqn:?
         end.

Ltac ball_fields :=
  cbn [Sim.pos Sim.settings Sim.striped Sim.number Sim.new_pos Sim.old_pos
       Sim.radius Sim.mass Sim.normal_contact Sim.vel Sim.applied_force
       Sim.air_res_coeff Sim.colliding Sim.hit_rail Sim.can_collide
       Sim.attempted_force_application
       Sim.set_pos Sim.set_new_pos Sim.set_old_pos Sim.set_vel
       Sim.set_applied_force Sim.set_colliding Sim.set_hit_rail
       Sim.set_can_collide Sim.set_attempted Vec.x Vec.y] in *.

Lemma integrate_outcome (self : Sim.Ball) (time : R) :
  Sim.mass self <> 0%R ->
  exists b,
    Sim.integrate self time = Py.Ok b
    /\ Sim.mass b = Sim.mass self
    /\ Sim.settings b = Sim.settings self
    /\ Sim.colliding b = Sim.colliding self
    /\ Sim.hit_rail b = Sim.hit_rail self
    /\ Sim.pos b = Sim.new_pos b
    /\ Sim.applied_force b = impulse_after 0 (Sim.applied_force self)
    /\ not_creeping (Sim.limiting_vel (Sim.settings self)) (Vec.x (Sim.vel b))
    /\ not_creeping (Sim.limiting_vel (Sim.settings self)) (Vec.y (Sim.vel b)).
Proof.
  intros Hm. apply Reqb_false in Hm. unfold Sim.integrate, impulse_after.
  destruct (Sim.applied_force self) as [[f remaining]|] eqn:Hf.
  - destruct (Rleb remaining 0) eqn:Hr; unfold Vec.truediv;
      cbn [Sim.mass Sim.set_applied_force]; rewrite Hm; cbn [negb Py.bind].
    all: eexists; split; [reflexivity|].
    all: ball_fields; split_ifs; ball_fields.
    all: rewrite ?Hf, ?Rminus_0_r.
    all: repeat split; try reflexivity; unfold not_creeping.
    all: try (left; reflexivity).
    all: try (right; apply Rltb_false; assumption).
    all: try (apply Rleb_true in Hr; apply Rleb_false in Hr1; lra).
  - unfold Vec.truediv. rewrite Hm. cbn [negb Py.bind].
    eexists; split; [reflexivity|].
    ball_fields; split_ifs; ball_fields.
    all: rewrite ?Hf.
    all: repeat split; try reflexivity; unfold not_creeping.
    all: try (left; reflexivity).
    all: try (right; apply Rltb_false; assumption).
Qed.

(** X8.  [update_physics] raises [ZeroDivisionError] for a ball of mass 0.
    For any other ball it returns; the two collision flags are then
    cleared, the circle of the ball is at its new position, an impulse
    [(force, remaining)] has become [(force, remaining - time)] or, when
    [remaining <= time], has ended, and no component of the velocity is
    left between 0 and the limiting velocity. *)
Theorem update_physics_outcome (self : Sim.Ball) (time : R) :
  (Sim.mass self = 0%R ->
   Sim.update_physics self time
   = Py.Raise (Py.ZeroDivisionError "Cannot divide a vector by zero."))
  /\ (Sim.mass self <> 0%R ->
      exists b,
        Sim.update_physics self time = Py.Ok b
        /\ Sim.colliding b = false
        /\ Sim.hit_rail b = false
        /\ Sim.pos b = Sim.new_pos b
        /\ Sim.applied_force b = impulse_after time (Sim.applied_force self)
        /\ not_creeping (Sim.limiting_vel (Sim.settings self))
                        (Vec.x (Sim.vel b))
        /\ not_creeping (Sim.limiting_vel (Sim.settings self))
                        (Vec.y (Sim.vel b))).
Proof.
  unfold Sim.update_physics. cbn [Sim.update_physics_rec].
  cbn [Sim.applied_force Sim.set_hit_rail Sim.set_colliding].
  split.
  - intros Hm.
    destruct (Sim.applied_force self) as [[f remaining]|].
    + destruct (Rltb remaining time).
      * rewrite Rltb_irrefl. rewrite integrate_zero_mass by exact Hm.
        reflexivity.
      * apply integrate_zero_mass. exact Hm.
    + apply integrate_zero_mass. exact Hm.
  - intros Hm. unfold impulse_after.
    destruct (Sim.applied_force self) as [[f remaining]|] eqn:Hf.
    + destruct (Rltb remaining time) eqn:Hlt.
      * rewrite Rltb_irrefl.
        match goal with
        | |- context [Sim.integrate ?s remaining] =>
            destruct (@integrate_outcome s remaining Hm)
              as (b1 & Hb1 & Hm1 & Hs1 & Hc1 & Hr1 & _)
        end.
        rewrite Hb1. cbn [Py.bind].
        destruct (@integrate_outcome (Sim.set_applied_force None b1)
                                     (time - remaining)%R)
          as (b2 & Hb2 & _ & Hs2 & Hc2 & Hr2 & Hp2 & Ha2 & Hx2 & Hy2).
        { cbn [Sim.mass Sim.set_applied_force]. rewrite Hm1. exact Hm. }
        exists b2. split; [exact Hb2|].
        cbn [Sim.settings Sim.colliding Sim.hit_rail Sim.applied_force
             Sim.set_applied_force Sim.set_hit_rail Sim.set_colliding] in *.
        rewrite Hs1 in Hx2, Hy2.
        apply Rltb_true in Hlt.
        assert (Hle : Rleb remaining time = true) by (apply Rleb_true; lra).
        rewrite Hle. repeat split; try assumption; congruence.
      * destruct (@integrate_outcome
                    (Sim.set_applied_force
                       (Some (f, (remaining - time)%R))
                       (Sim.set_hit_rail false (Sim.set_colliding false self)))
                    time Hm)
          as (b & Hb & _ & Hs & Hc & Hr & Hp & Ha & Hx & Hy).
        exists b. split; [exact Hb|].
        cbn [Sim.settings Sim.colliding Sim.hit_rail Sim.applied_force
             Sim.set_applied_force Sim.set_hit_rail Sim.set_colliding
             impulse_after] in *.
        repeat split; try assumption.
        rewrite Ha. apply Rltb_false in Hlt.
        destruct (Rleb (remaining - time) 0) eqn:H0;
          destruct (Rleb remaining time) eqn:H1; try reflexivity.
        -- apply Rleb_true in H0. apply Rleb_false in H1. lra.
        -- apply Rleb_false in H0. apply Rleb_true in H1. lra.
        -- rewrite Rminus_0_r. reflexivity.
    + destruct (@integrate_outcome
                  (Sim.set_hit_rail false (Sim.set_colliding false self))
                  time Hm)
        as (b & Hb & _ & Hs & Hc & Hr & Hp & Ha & Hx & Hy).
      exists b. split; [exact Hb|].
      cbn [Sim.settings Sim.colliding Sim.hit_rail Sim.applied_force
           Sim.set_applied_force Sim.set_hit_rail Sim.set_colliding
           impulse_after] in *.
      rewrite Hf in Ha. repeat split; assumption.
Qed.

(** ** The records of a turn *)

Lemma records_grow_same t t' :
  Sim.cue_ball t' = Sim.cue_ball t ->
  Sim.hit t' = Sim.hit t ->
  Sim.rail_contacts t' = Sim.rail_contacts t ->
  records_grow t t'.
Proof.
  intros Hc Hh Hr. unfold records_grow, records_distinct.
  rewrite Hc, Hh, Hr. split; [reflexivity|].
  split; [exists []; symmetry; apply app_nil_r|].
  split; [exists []; symmetry; apply app_nil_r|]. exact (fun H => H).
Qed.

Lemma records_grow_trans t1 t2 t3 :
  records_grow t1 t2 -> records_grow t2 t3 -> records_grow t1 t3.
Proof.
  intros (Hc1 & [a1 Ha1] & [b1 Hb1] & Hd1) (Hc2 & [a2 Ha2] & [b2 Hb2] & Hd2).
  split; [congruence|].
  split; [exists (a1 ++ a2); rewrite Ha2, Ha1, app_assoc; reflexivity|].
  split; [exists (b1 ++ b2); rewrite Hb2, Hb1, app_assoc; reflexivity|].
  auto.
Qed.

Lemma NoDup_snoc (l : list Sim.ref) (b : Sim.ref) :
  NoDup l -> ~ In b l -> NoDup (l ++ [b]).
Proof.
  intros Hnd Hin. apply NoDup_app; [exact Hnd | repeat constructor; intros [] |].
  intros x Hx [<-|[]]. contradiction.
Qed.

Lemma record_hit_grows t b : records_grow t (Sim.record_hit t b).
Proof.
  unfold Sim.record_hit.
  destruct (Sim.mem b (Sim.hit t)) eqn:Hm; cbn [negb andb];
    [apply records_grow_same; reflexivity|].
  destruct (Sim.is_ref b (Sim.cue_ball t)) eqn:Hc; cbn [negb];
    [apply records_grow_same; reflexivity|].
  apply mem_not_In in Hm. apply is_ref_false in Hc.
  split; [reflexivity|]. split; [exists [b]; reflexivity|].
  split; [exists []; symmetry; apply app_nil_r|].
  intros (Hh & Hr & Hq). unfold records_distinct.
  cbn [Sim.hit Sim.rail_contacts Sim.cue_ball Sim.set_hit].
  split; [apply NoDup_snoc; assumption|]. split; [exact Hr|].
  intros x Hx. rewrite <- app_assoc in Hx. apply in_app_or in Hx.
  destruct Hx as [Hx|Hx].
  - apply Hq. apply in_or_app. left. exact Hx.
  - destruct Hx as [<-|Hx]; [exact Hc|].
    apply Hq. apply in_or_app. right. exact Hx.
Qed.

Lemma record_hits_grow l : forall t, records_grow t (fold_left Sim.record_hit l t).
Proof.
  induction l as [|a l IH]; intros t; cbn [fold_left].
  - apply records_grow_same; reflexivity.
  - eapply records_grow_trans; [apply record_hit_grows | apply IH].
Qed.

Lemma record_rail_contact_grows h t b :
  records_grow t (Sim.record_rail_contact h t b).
Proof.
  unfold Sim.record_rail_contact.
  destruct (Sim.hit_rail (h b)); cbn [andb];
    [|apply records_grow_same; reflexivity].
  destruct (Sim.mem b (Sim.rail_contacts t)) eqn:Hm; cbn [negb andb];
    [apply records_grow_same; reflexivity|].
  destruct (Sim.is_ref b (Sim.cue_ball t)) eqn:Hc; cbn [negb];
    [apply records_grow_same; reflexivity|].
  apply mem_not_In in Hm. apply is_ref_false in Hc.
  split; [reflexivity|].
  split; [exists []; symmetry; apply app_nil_r|]. split; [exists [b]; reflexivity|].
  intros (Hh & Hr & Hq). unfold records_distinct.
  cbn [Sim.hit Sim.rail_contacts Sim.cue_ball Sim.set_rail_contacts].
  split; [exact Hh|]. split; [apply NoDup_snoc; assumption|].
  intros x Hx. rewrite app_assoc in Hx. apply in_app_or in Hx.
  destruct Hx as [Hx|[<-|[]]]; [apply Hq, Hx | exact Hc].
Qed.

Lemma resolve_collisions_step_grows fuel ball h t h' t' :
  Sim.resolve_collisions_step fuel ball (h, t) = Py.Ok (h', t') ->
  records_grow t t'.
Proof.
  unfold Sim.resolve_collisions_step.
  destruct (_ && _).
  - destruct (Sim.get_collisions _ _ _ _ _ _ _) as [[h1 cw]| |];
      cbn [Py.bind]; try discriminate.
    intros H. injection H as <- <-.
    eapply records_grow_trans; [|apply record_rail_contact_grows].
    destruct (Sim.colliding (h1 ball)); [|apply records_grow_same; reflexivity].
    eapply records_grow_trans; [apply record_hit_grows | apply record_hits_grow].
  - intros H. injection H as <- <-. apply records_grow_same; reflexivity.
Qed.

Lemma resolve_collisions_grows fuel h t h' t' :
  Sim.resolve_collisions fuel (h, t) = Py.Ok (h', t') -> records_grow t t'.
Proof.
  unfold Sim.resolve_collisions. cbn [snd].
  generalize (Sim.balls t) as l. intros l. revert h t.
  induction l as [|a l IH]; intros h t Hrun; cbn [Sim.for_each] in Hrun.
  - injection Hrun as <- <-. apply records_grow_same; reflexivity.
  - destruct (Sim.resolve_collisions_step fuel a (h, t)) as [[h1 t1]| |] eqn:Hs;
      cbn [Py.bind] in Hrun; try discriminate.
    eapply records_grow_trans;
      [eapply resolve_collisions_step_grows; exact Hs | eapply IH; exact Hrun].
Qed.

Lemma update_motion_hit time (l : list Sim.ref) :
  forall h t h' t',
    Sim.for_each l (Sim.update_motion_step time) (h, t) = Py.Ok (h', t') ->
    Sim.hit t' = Sim.hit t.
Proof.
  induction l as [|a l IH]; intros h t h' t' Hrun; cbn [Sim.for_each] in Hrun.
  - injection Hrun as <- <-. reflexivity.
  - unfold Sim.update_motion_step at 1 in Hrun.
    destruct (_ || _).
    + destruct (Sim.update_physics (h a) time) as [b| |]; cbn [Py.bind] in Hrun;
        try discriminate.
      rewrite (IH _ _ _ _ Hrun). reflexivity.
    + destruct (Sim.attempted_force_application (h a)); cbn [Py.bind] in Hrun.
      * rewrite (IH _ _ _ _ Hrun). reflexivity.
      * exact (IH _ _ _ _ Hrun).
Qed.

(** X9.  A call of [Table.update] that returns only appends to the hit
    record and to the rail-contact record of the turn and leaves the cue
    ball of the table in place: what was recorded first stays first.  If
    the two records held distinct balls other than the cue ball before the
    call, they still do after it. *)
Theorem update_appends_to_records (fuel : nat) (time : R)
        (h h' : Sim.Heap) (t t' : Sim.Table) :
  Sim.update fuel time (h, t) = Py.Ok (h', t') ->
  records_grow t t'.
Proof.
  intros Hrun. unfold Sim.update in Hrun.
  destruct (Sim.update_motion time (h, t)) as [[h1 t1]| |] eqn:H1;
    cbn [Py.bind] in Hrun; try discriminate.
  destruct (Sim.resolve_collisions fuel (h1, t1)) as [[h2 t2]| |] eqn:H2;
    cbn [Py.bind] in Hrun; try discriminate.
  destruct (resolve_pockets_spec (Sim.commit_positions h2 t2) t2)
    as (h3 & t3 & new & Hp & _ & _ & Hfix & _).
  rewrite Hp in Hrun. injection Hrun as <- <-.
  destruct Hfix as (Hc & _ & _ & _ & _ & _ & Hh & Hr).
  rewrite update_motion_unfold in H1.
  destruct (@update_motion_rail_record time _ _ _ _ _ H1) as [Hr1 Hc1].
  pose proof (@update_motion_hit time _ _ _ _ _ H1) as Hh1.
  eapply records_grow_trans; [apply (@records_grow_same t t1); assumption|].
  eapply records_grow_trans; [eapply resolve_collisions_grows; exact H2|].
  apply records_grow_same; assumption.
Qed.

(** ** A table at rest *)

Lemma update_motion_idle time (l : list Sim.ref) h t :
  (forall r, In r l ->
             Sim.moving (h r) = false
             /\ Sim.applied_force (h r) = None
             /\ Sim.attempted_force_application (h r) = false) ->
  Sim.for_each l (Sim.update_motion_step time) (h, t) = Py.Ok (h, t).
Proof.
  induction l as [|a l IH]; intros Hidle; cbn [Sim.for_each]; [reflexivity|].
  unfold Sim.update_motion_step at 1.
  destruct (Hidle a (or_introl eq_refl)) as (Hm & Hf & Ha).
  rewrite Hm, Hf, Ha. cbn [Sim.is_some orb Py.bind].
  apply IH. intros r Hr. apply Hidle. right. exact Hr.
Qed.

Lemma commit_positions_motion (l : list Sim.ref) :
  forall (h : Sim.Heap) (r : Sim.ref),
    let h' := fold_left (fun h ball =>
                           Sim.upd h ball (Sim.update_position (h ball))) l h in
    Sim.vel (h' r) = Sim.vel (h r)
    /\ Sim.applied_force (h' r) = Sim.applied_force (h r)
    /\ Sim.attempted_force_application (h' r)
       = Sim.attempted_force_application (h r).
Proof.
  induction l as [|a l IH]; intros h r; cbn [fold_left]; [auto|].
  cbv zeta in IH.
  destruct (IH (Sim.upd h a (Sim.update_position (h a))) r) as (-> & -> & ->).
  unfold Sim.upd. destruct (Nat.eqb r a) eqn:He; [|auto].
  apply Nat.eqb_eq in He. subst a. auto.
Qed.

Lemma resolve_pockets_loop_idle (fuel : nat) :
  forall index cf h t,
    (forall b, In b (Sim.balls t) -> Sim.enters_pocket h t b = false) ->
    List.length (Sim.balls t) <= fuel + index ->
    Sim.resolve_pockets_loop fuel index cf h t = Py.Ok (h, t).
Proof.
  induction fuel as [|fuel IH]; intros index cf h t Hno Hlen.
  - apply resolve_pockets_loop_end. apply nth_error_None. lia.
  - destruct (nth_error (Sim.balls t) index) as [ball|] eqn:Hn.
    + rewrite (@resolve_pockets_loop_skip fuel index cf h t ball Hn).
      * apply IH; [exact Hno | lia].
      * apply Hno. eapply nth_error_In. exact Hn.
    + apply resolve_pockets_loop_end. exact Hn.
Qed.

Lemma commit_positions_idle h t :
  table_idle h t ->
  table_idle (Sim.commit_positions h t)
             (Sim.set_in_motion false
                (Sim.set_previously_in_motion (Sim.in_motion t) t)).
Proof.
  intros Hidle r Hr. unfold Sim.commit_positions.
  destruct (@commit_positions_motion (Sim.balls t) h r) as (Hv & Hf & Ha).
  destruct (Hidle r Hr) as (Hm & Hf0 & Ha0).
  unfold Sim.moving in *. rewrite Hv, Hf, Ha. auto.
Qed.

Lemma update_idle_run (fuel : nat) (time : R) (h : Sim.Heap) (t : Sim.Table) :
  table_idle h t ->
  Sim.update fuel time (h, t)
  = Py.Ok (Sim.commit_positions h t,
           Sim.set_in_motion false
             (Sim.set_previously_in_motion (Sim.in_motion t) t)).
Proof.
  intros Hidle.
  unfold Sim.update. rewrite update_motion_unfold.
  rewrite update_motion_idle by exact Hidle. cbn [Py.bind].
  unfold Sim.resolve_collisions. cbn [snd].
  rewrite resolve_collisions_at_rest
    by (intros r Hr; apply (Hidle r Hr)).
  cbn [Py.bind]. unfold Sim.resolve_pockets.
  apply resolve_pockets_loop_idle; [|apply Nat.le_add_r].
  intros b Hb. unfold Sim.enters_pocket.
  destruct (commit_positions_idle Hidle b Hb) as (Hm & _). rewrite Hm.
  reflexivity.
Qed.

(** X10.  On a table where no ball is moving, no impulse is in flight and
    no strike is pending, [Table.update] returns, whatever the time step:
    it only copies every ball's new position to its position, saves
    [in_motion] in [previously_in_motion] and reports no motion.  No record
    of the turn changes and no ball leaves the table, and the table is
    again at rest afterwards. *)
Theorem update_of_idle_table (fuel : nat) (time : R) (h : Sim.Heap)
        (t : Sim.Table) :
  table_idle h t ->
  let t' := Sim.set_in_motion false
              (Sim.set_previously_in_motion (Sim.in_motion t) t) in
  Sim.update fuel time (h, t) = Py.Ok (Sim.commit_positions h t, t')
  /\ table_idle (Sim.commit_positions h t) t'.
Proof.
  intros Hidle t'. split.
  - apply update_idle_run. exact Hidle.
  - apply commit_positions_idle. exact Hidle.
Qed.

Lemma racked_idle : table_idle Sample.racked_heap Sample.racked_table.
Proof.
  intros r _. split; [apply racked_not_moving|]. split; reflexivity.
Qed.

Lemma update_of_idle_table_witness :
  Sim.update 0 (1 / 240) (Sample.racked_heap, Sample.racked_table)
  = Py.Ok (Sim.commit_positions Sample.racked_heap Sample.racked_table,
           Sim.set_in_motion false
             (Sim.set_previously_in_motion
                (Sim.in_motion Sample.racked_table) Sample.racked_table)).
Proof.
  exact (proj1 (@update_of_idle_table 0 (1 / 240) Sample.racked_heap
                  Sample.racked_table racked_idle)).
Defined.

(** ** Queues *)

Lemma last_item_snoc {A} (l : list A) (a : A) :
  Data.last_item (l ++ [a]) = Some a.
Proof.
  unfold Data.last_item. destruct l as [|b l]; [reflexivity|].
  cbn [app]. f_equal. apply last_last.
Qed.

(** X11.  [Queue.dequeue] returns the oldest item and [Queue.remove] drops
    the oldest item, but [Queue.peek] returns the item enqueued last: on a
    queue of two or more items [peek] does not show the item that
    [dequeue] or [remove] takes next.  On an empty queue [dequeue] and
    [peek] return [None] and [remove] does nothing. *)
Theorem queue_peek_shows_newest {A : Type} (q : Data.Queue A) (oldest newest : A) :
  Data.dequeue (Data.enqueue newest (oldest :: q))
  = (Data.enqueue newest q, Some oldest)
  /\ Data.remove (Data.enqueue newest (oldest :: q)) = Data.enqueue newest q
  /\ Data.peek (Data.enqueue newest (oldest :: q)) = Some newest
  /\ Data.dequeue (@nil A) = ([], None)
  /\ Data.peek (@nil A) = None
  /\ Data.remove (@nil A) = [].
Proof.
  unfold Data.dequeue, Data.remove, Data.peek, Data.enqueue.
  cbn [app List.length Nat.eqb skipn].
  repeat split.
  change (oldest :: q ++ [newest]) with ((oldest :: q) ++ [newest]).
  apply last_item_snoc.
Qed.

(** ** The blocked queue *)

Lemma queue_step_counter (q : Channel.BlockedQueue) (op : QueueOp) :
  List.length (Channel.items q) <= Channel.length_sem q ->
  List.length (Channel.items (queue_step q op))
  <= Channel.length_sem (queue_step q op).
Proof.
  intros H. destruct op as [m| |]; unfold queue_step.
  - unfold Channel.enqueue. cbn [Channel.items Channel.length_sem].
    rewrite length_app. cbn [List.length]. lia.
  - unfold Channel.dequeue. destruct (Channel.length_sem q) as [|n] eqn:Hn;
      [rewrite Hn; exact H|].
    destruct (Channel.items q) as [|m rest];
      cbn [Channel.items Channel.length_sem List.length] in *; lia.
  - unfold Channel.clear. cbn [Channel.items Channel.length_sem List.length]. lia.
Qed.

Lemma queue_run_counter (ops : list QueueOp) :
  forall q,
    List.length (Channel.items q) <= Channel.length_sem q ->
    List.length (Channel.items (fold_left queue_step ops q))
    <= Channel.length_sem (fold_left queue_step ops q).
Proof.
  induction ops as [|op ops IH]; intros q H; cbn [fold_left]; [exact H|].
  apply IH, queue_step_counter, H.
Qed.

(** X12.  Whatever sequence of [enqueue], [dequeue] and [clear] a
    [BlockedQueue()] has gone through, the counter of its semaphore is at
    least its number of items.  So [dequeue] never blocks while the queue
    holds an item, and then returns the oldest one; and because [clear]
    leaves the counter alone, a [dequeue] on an emptied queue whose counter
    is not 0 returns [None] at once instead of waiting. *)
Theorem blocked_queue_counter (ops : list QueueOp) :
  let q := queue_run ops in
  List.length (Channel.items q) <= Channel.length_sem q
  /\ (forall m rest,
         Channel.items q = m :: rest ->
         Channel.dequeue q
         = Some (Channel.mkQueue rest (Channel.length_sem q - 1), Some m))
  /\ (Channel.items q = [] -> 0 < Channel.length_sem q ->
      Channel.dequeue q
      = Some (Channel.mkQueue [] (Channel.length_sem q - 1), None)).
Proof.
  intros q.
  assert (H : List.length (Channel.items q) <= Channel.length_sem q).
  { unfold q, queue_run. apply queue_run_counter. cbn. lia. }
  split; [exact H|]. split.
  - intros m rest Hi. unfold Channel.dequeue. rewrite Hi in *.
    cbn [List.length] in H.
    destruct (Channel.length_sem q) as [|n]; [lia|].
    cbn [Nat.sub]. rewrite Nat.sub_0_r. reflexivity.
  - intros Hi Hpos. unfold Channel.dequeue. rewrite Hi.
    destruct (Channel.length_sem q) as [|n]; [lia|].
    cbn [Nat.sub]. rewrite Nat.sub_0_r. reflexivity.
Qed.

(** ** Packets on the wire *)

Lemma substring_skip (i m : nat) (c : ascii) (s : string) :
  substring (S i) m (String c s) = substring i m s.
Proof. reflexivity. Qed.

Lemma substring_all (s : string) : forall m,
  String.length s <= m -> substring 0 m s = s.
Proof.
  induction s as [|c s IH]; intros m Hm.
  - destruct m; reflexivity.
  - destruct m as [|m]; [cbn in Hm; lia|].
    cbn [substring]. f_equal. apply IH. cbn in Hm. lia.
Qed.

Lemma substring_split (s : string) : forall a b,
  (substring 0 a s ++ substring a b s)%string = substring 0 (a + b) s.
Proof.
  induction s as [|c s IH]; intros a b.
  - destruct a, b; reflexivity.
  - destruct a as [|a].
    + cbn [substring Nat.add append]. destruct b; reflexivity.
    + cbn [substring Nat.add append]. f_equal. apply IH.
Qed.

Lemma substring_shift (s : string) : forall i a b,
  (substring i a s ++ substring (i + a) b s)%string = substring i (a + b) s.
Proof.
  induction s as [|c s IH]; intros i a b.
  - destruct i, a, b; reflexivity.
  - destruct i as [|i].
    + apply substring_split.
    + cbn [Nat.add]. rewrite !substring_skip. apply IH.
Qed.

Lemma substring_past (s : string) : forall i m,
  String.length s <= i -> substring i m s = EmptyString.
Proof.
  induction s as [|c s IH]; intros i m Hi.
  - destruct i, m; reflexivity.
  - destruct i as [|i]; [cbn in Hi; lia|].
    rewrite substring_skip. apply IH. cbn in Hi. lia.
Qed.

Lemma substring_clip (s : string) : forall i a,
  String.length s <= i + a -> substring i a s = substring i (String.length s - i) s.
Proof.
  induction s as [|c s IH]; intros i a Hl.
  - destruct i, a; reflexivity.
  - destruct i as [|i].
    + rewrite !substring_all; [reflexivity | lia | exact Hl].
    + rewrite !substring_skip. cbn [String.length Nat.sub]. apply IH.
      cbn in Hl. lia.
Qed.

Lemma substring_none (s : string) : forall i, substring i 0 s = EmptyString.
Proof.
  induction s as [|c s IH]; intros i; destruct i; try reflexivity.
  rewrite substring_skip. apply IH.
Qed.

Lemma append_empty_r (s : string) : (s ++ "")%string = s.
Proof. induction s as [|c s IH]; cbn; [reflexivity | f_equal; exact IH]. Qed.

Lemma concat_packets (x : string) (xs : list string) :
  String.concat "" (x :: xs) = (x ++ String.concat "" xs)%string.
Proof.
  destruct xs as [|y xs]; cbn [String.concat].
  - symmetry. apply append_empty_r.
  - reflexivity.
Qed.

(** The packets from position [i] on join up to the part of the frame
    between [i] and the end of the last packet. *)
Lemma chunks_from_concat (s : string) (fuel : nat) :
  forall i,
    String.length s - 1 <= i + 1024 * fuel ->
    String.concat "" (Channel.chunks_from fuel i s)
    = substring i (1024 * ((String.length s - 1 - i + 1023) / 1024)) s.
Proof.
  induction fuel as [|fuel IH]; intros i Hf.
  - cbn [Channel.chunks_from String.concat].
    replace ((String.length s - 1 - i + 1023) / 1024) with 0
      by (symmetry; apply Nat.div_small; lia).
    rewrite Nat.mul_0_r. symmetry. apply substring_none.
  - cbn [Channel.chunks_from].
    destruct (i <? String.length s - 1) eqn:Hi.
    + apply Nat.ltb_lt in Hi.
      assert (Hq : (String.length s - 1 - i + 1023) / 1024
                   = S ((String.length s - 1 - (i + 1024) + 1023) / 1024)).
      { destruct (le_lt_dec (String.length s - 1) (i + 1024)) as [Hle|Hgt].
        - replace ((String.length s - 1 - (i + 1024) + 1023) / 1024) with 0
            by (symmetry; apply Nat.div_small; lia).
          symmetry. apply Nat.div_unique with (r := String.length s - 1 - i - 1); lia.
        - replace (String.length s - 1 - i + 1023)
            with ((String.length s - 1 - (i + 1024) + 1023) + 1 * 1024) by lia.
          rewrite Nat.div_add by lia. lia. }
      rewrite Hq.
      replace (1024 * S ((String.length s - 1 - (i + 1024) + 1023) / 1024))
        with (1024 + 1024 * ((String.length s - 1 - (i + 1024) + 1023) / 1024))
        by lia.
      rewrite <- substring_shift. rewrite <- IH by lia.
      apply concat_packets.
    + apply Nat.ltb_ge in Hi. cbn [String.concat].
      replace ((String.length s - 1 - i + 1023) / 1024) with 0
        by (symmetry; apply Nat.div_small; lia).
      rewrite Nat.mul_0_r. symmetry. apply substring_none.
Qed.

(** X13.  The packets that the sender writes for a frame join up to the
    frame itself, unless the frame has [1024 * k + 1] characters: then the
    last character (for a message frame, the ["#"] that ends it) is in no
    packet.  A frame of one character produces no packet at all. *)
Theorem chunks_cover_frame (s : string) :
  let n := String.length s in
  String.concat "" (Channel.chunks s)
  = if (n =? 0) || negb ((n - 1) mod 1024 =? 0)
    then s else substring 0 (n - 1) s.
Proof.
  intros n. unfold Channel.chunks. fold n.
  rewrite chunks_from_concat by (fold n; lia). fold n.
  rewrite Nat.sub_0_r.
  destruct (n =? 0) eqn:H0; cbn [orb].
  - apply Nat.eqb_eq in H0.
    replace ((n - 1 + 1023) / 1024) with 0
      by (symmetry; apply Nat.div_small; lia).
    rewrite Nat.mul_0_r. destruct s; [reflexivity | discriminate].
  - apply Nat.eqb_neq in H0.
    pose proof (Nat.div_mod_eq (n - 1) 1024) as Hdm.
    pose proof (Nat.mod_upper_bound (n - 1) 1024) as Hub.
    destruct ((n - 1) mod 1024 =? 0) eqn:Hm; cbn [negb].
    + apply Nat.eqb_eq in Hm. f_equal.
      rewrite Hm, Nat.add_0_r in Hdm.
      assert (Hq : (n - 1 + 1023) / 1024 = (n - 1) / 1024).
      { symmetry. apply Nat.div_unique with (r := 1023); lia. }
      rewrite Hq. lia.
    + apply Nat.eqb_neq in Hm.
      assert (Hq : (n - 1 + 1023) / 1024 = S ((n - 1) / 1024)).
      { symmetry. apply Nat.div_unique with (r := (n - 1) mod 1024 - 1); lia. }
      rewrite Hq. apply substring_all. fold n. lia.
Qed.

(** ** Frames *)

Lemma split_hash_nonempty (s : string) : Receiver.split_hash s <> [].
Proof.
  induction s as [|c s IH]; cbn [Receiver.split_hash]; [discriminate|].
  destruct (Receiver.is_hash c); [discriminate|].
  destruct (Receiver.split_hash s); discriminate.
Qed.

Lemma split_hash_frame (s rest : string) :
  Receiver.no_hash s = true ->
  Receiver.split_hash (s ++ "#" ++ rest)
  = s :: Receiver.split_hash rest.
Proof.
  induction s as [|c s IH]; intros Hs.
  - reflexivity.
  - cbn [Receiver.no_hash] in Hs. apply andb_true_iff in Hs as [Hc Hs].
    apply negb_true_iff in Hc.
    cbn [append Receiver.split_hash]. rewrite Hc.
    change (s ++ String "#" rest)%string with (s ++ "#" ++ rest)%string.
    rewrite (IH Hs). reflexivity.
Qed.

Lemma received_items_frame (s rest : string) :
  Receiver.no_hash s = true ->
  Receiver.received_items (s ++ "#" ++ rest)
  = s :: Receiver.received_items rest.
Proof.
  intros Hs. unfold Receiver.received_items. rewrite (@split_hash_frame s rest Hs).
  cbn [removelast].
  destruct (Receiver.split_hash rest) eqn:E; [|reflexivity].
  exfalso. exact (@split_hash_nonempty rest E).
Qed.

Lemma split_hash_length (s : string) :
  List.length (Receiver.split_hash s) = S (Receiver.count_hash s).
Proof.
  induction s as [|c s IH]; cbn [Receiver.split_hash Receiver.count_hash];
    [reflexivity|].
  destruct (Receiver.is_hash c); cbn [List.length Nat.add].
  - rewrite IH. reflexivity.
  - destruct (Receiver.split_hash s) eqn:E; [discriminate|].
    cbn [List.length] in *. exact IH.
Qed.

Lemma count_hash_app (s t : string) :
  Receiver.count_hash (s ++ t) = Receiver.count_hash s + Receiver.count_hash t.
Proof.
  induction s as [|c s IH]; cbn [append Receiver.count_hash]; [reflexivity|].
  rewrite IH. lia.
Qed.

Lemma no_hash_count (s : string) :
  Receiver.no_hash s = true <-> Receiver.count_hash s = 0.
Proof.
  induction s as [|c s IH]; cbn [Receiver.no_hash Receiver.count_hash].
  - split; reflexivity.
  - rewrite andb_true_iff, negb_true_iff, IH.
    destruct (Receiver.is_hash c); cbn [Nat.add]; split; intros H;
      try discriminate; try tauto; destruct H; discriminate.
Qed.

Lemma received_items_length (s : string) :
  List.length (Receiver.received_items s) = Receiver.count_hash s.
Proof.
  unfold Receiver.received_items.
  pose proof (split_hash_length s) as H.
  destruct (Receiver.split_hash s) as [|p ps] eqn:E; [discriminate|].
  rewrite <- E.
  assert (Hl : List.length (removelast (Receiver.split_hash s))
               = List.length (Receiver.split_hash s) - 1).
  { rewrite E. clear. revert p. induction ps as [|q ps IH]; intros p.
    - reflexivity.
    - change (removelast (p :: q :: ps)) with (p :: removelast (q :: ps)).
      cbn [List.length]. rewrite IH. cbn [List.length]. lia. }
  rewrite Hl, E, H. lia.
Qed.

(** X14.  A frame [s + "#"] is received as the single item [s] exactly when
    [s] holds no ["#"]; in general it is received as one item more than [s]
    holds ["#"] characters, so a message whose JSON text holds a ["#"] (in
    a name or a password, say) reaches [json.loads] in pieces. *)
Theorem frame_cut_at_every_hash (s : string) :
  (Receiver.received_items (s ++ "#") = [s] <-> Receiver.no_hash s = true)
  /\ List.length (Receiver.received_items (s ++ "#"))
     = S (Receiver.count_hash s).
Proof.
  assert (Hlen : List.length (Receiver.received_items (s ++ "#"))
                 = S (Receiver.count_hash s)).
  { rewrite received_items_length, count_hash_app. cbn. lia. }
  split; [|exact Hlen]. split.
  - intros H. rewrite H in Hlen. cbn [List.length] in Hlen.
    apply no_hash_count. lia.
  - intros H. change (s ++ "#")%string with (s ++ "#" ++ "")%string.
    rewrite (@received_items_frame s "" H). reflexivity.
Qed.

(** X15.  When the frames of several messages arrive in one piece, the
    receiver of either side enqueues exactly these messages, in the order
    sent, and goes on receiving; it touches nothing else.  This holds for
    messages whose JSON text parses back to the message and holds no
    ["#"], acknowledgements apart. *)
Theorem frames_round_trip (dumps : Channel.Message -> string)
        (loads : string -> Py.Result Channel.Message)
        (ms : list Channel.Message)
        (cs : ServerChannel.Connection) (cc : ClientChannel.Connection) :
  Forall (transmissible dumps loads) ms ->
  Receiver.server_receive
    loads (Receiver.received_items (Receiver.frames_of dumps ms)) cs
  = (fold_left (fun c m => Receiver.server_enqueue_received m c) ms cs,
     Channel.Continue)
  /\ Receiver.client_receive
       loads (Receiver.received_items (Receiver.frames_of dumps ms)) cc
     = (fold_left (fun c m => Receiver.client_enqueue_received m c) ms cc,
        Channel.Continue).
Proof.
  intros Hms. revert cs cc.
  induction Hms as [|m ms (Hl & Hn & Hc) Hms IH]; intros cs cc.
  - split; reflexivity.
  - cbn [Receiver.frames_of fold_right fold_left].
    rewrite (@received_items_frame (dumps m) _ Hn).
    cbn [Receiver.server_receive Receiver.client_receive].
    rewrite Hl. apply String.eqb_neq in Hc. rewrite Hc.
    apply IH.
Qed.

Lemma frames_round_trip_witness :
  Receiver.server_receive
    (fun s => Py.Ok (Channel.mkMessage s None))
    (Receiver.received_items "keep#pass_turn#") Sample.server_connection
  = (Receiver.server_enqueue_received
       (Channel.mkMessage "pass_turn" None)
       (Receiver.server_enqueue_received
          (Channel.mkMessage "keep" None) Sample.server_connection),
     Channel.Continue).
Proof.
  refine (proj1 (@frames_round_trip
                   Sample.dumps (fun s => Py.Ok (Channel.mkMessage s None))
                   [Channel.mkMessage "keep" None;
                    Channel.mkMessage "pass_turn" None]
                   Sample.server_connection Sample.client_connection _)).
  repeat constructor; discriminate.
Defined.

(** ** The cipher *)

Lemma key_shift_range (key : Encryption.Str) (char : nat) :
  key <> [] ->
  exists shift, Encryption.key_shift key char = Py.Ok shift
                /\ (0 <= shift <= 255)%Z.
Proof.
  intros Hk. unfold Encryption.key_shift.
  destruct key as [|k key]; [contradiction|]. cbn [List.length Nat.eqb].
  eexists. split; [reflexivity|].
  pose proof (Z.mod_pos_bound
                (nth (char mod S (List.length key)) (k :: key) 0%Z) 256).
  lia.
Qed.

Lemma cipher_round_trip_from (key : Encryption.Str) :
  key <> [] ->
  forall (rest : Encryption.Str) (char : nat) (acc_c acc_p : Encryption.Str),
    shiftable rest ->
    exists ct,
      Encryption.encrypt_from key char rest acc_c = Py.Ok (acc_c ++ ct)
      /\ List.length ct = List.length rest
      /\ Encryption.decrypt_from key char ct acc_p = Py.Ok (acc_p ++ rest).
Proof.
  intros Hk rest. induction rest as [|p rest IH]; intros char acc_c acc_p Hs.
  - exists []. cbn. rewrite !app_nil_r. auto.
  - inversion Hs as [|p' rest' Hp Hrest]; subst.
    destruct (@key_shift_range key char Hk) as (shift & Hshift & Hr).
    destruct (IH (S char) (acc_c ++ [(p + shift)%Z]) (acc_p ++ [p]) Hrest)
      as (ct & He & Hl & Hd).
    exists ((p + shift)%Z :: ct).
    cbn [Encryption.encrypt_from Encryption.decrypt_from List.length].
    rewrite Hshift. cbn [Py.bind]. unfold Encryption.chr.
    replace ((0 <=? p + shift) && (p + shift <=? 1114111))%Z with true
      by (symmetry; apply andb_true_iff; split; apply Z.leb_le; lia).
    cbn [Py.bind]. rewrite He.
    replace (p + shift - shift)%Z with p by lia.
    replace ((0 <=? p) && (p <=? 1114111))%Z with true
      by (symmetry; apply andb_true_iff; split; apply Z.leb_le; lia).
    cbn [Py.bind]. rewrite Hd, <- !app_assoc. cbn [app].
    split; [reflexivity|]. split; [lia | reflexivity].
Qed.

(** X16.  With a key that is not empty, [encrypt] returns a ciphertext as
    long as the plaintext, and [decrypt] with the same key returns the
    plaintext again; this holds for a plaintext whose code points leave
    room for a shift of up to 255.  With an empty key, [encrypt] returns
    the empty string for the empty plaintext and raises
    [ZeroDivisionError] for any other. *)
Theorem cipher_round_trip (key plaintext : Encryption.Str) :
  (key <> [] -> shiftable plaintext ->
   exists ciphertext,
     Encryption.encrypt key plaintext = Py.Ok ciphertext
     /\ List.length ciphertext = List.length plaintext
     /\ Encryption.decrypt key ciphertext = Py.Ok plaintext)
  /\ Encryption.encrypt key [] = Py.Ok []
  /\ (key = [] -> plaintext <> [] ->
      exists msg,
        Encryption.encrypt key plaintext = Py.Raise (Py.ZeroDivisionError msg)).
Proof.
  split; [|split].
  - intros Hk Hs.
    destruct (@cipher_round_trip_from key Hk plaintext 0 [] [] Hs)
      as (ct & He & Hl & Hd).
    exists ct. auto.
  - reflexivity.
  - intros -> Hp. destruct plaintext as [|p rest]; [contradiction|].
    eexists. reflexivity.
Qed.

Lemma cipher_round_trip_witness :
  exists ciphertext,
    Encryption.encrypt [107; 101; 121]%Z [112; 111; 111; 108]%Z
    = Py.Ok ciphertext
    /\ Encryption.decrypt [107; 101; 121]%Z ciphertext
       = Py.Ok [112; 111; 111; 108]%Z.
Proof.
  destruct (@cipher_round_trip [107; 101; 121]%Z [112; 111; 111; 108]%Z)
    as (H & _).
  destruct H as (ct & He & _ & Hd).
  - discriminate.
  - repeat constructor; lia.
  - exists ct. split; assumption.
Defined.

(** ** Adding and removing balls *)

Lemma remove_first_absent (b : Sim.ref) (l : list Sim.ref) :
  ~ In b l -> Sim.remove_first b l = l.
Proof.
  induction l as [|a l IH]; intros Hn; cbn [Sim.remove_first]; [reflexivity|].
  destruct (Nat.eqb_spec b a) as [->|Hne].
  - exfalso. apply Hn. left. reflexivity.
  - f_equal. apply IH. intros H. apply Hn. right. exact H.
Qed.

Lemma remove_first_snoc (b : Sim.ref) (l : list Sim.ref) :
  ~ In b l -> Sim.remove_first b (l ++ [b]) = l.
Proof.
  induction l as [|a l IH]; intros Hn; cbn [app Sim.remove_first].
  - rewrite Nat.eqb_refl. reflexivity.
  - destruct (Nat.eqb_spec b a) as [->|Hne].
    + exfalso. apply Hn. left. reflexivity.
    + f_equal. apply IH. intros H. apply Hn. right. exact H.
Qed.

Lemma remove_first_length (b : Sim.ref) (l : list Sim.ref) :
  In b l -> S (List.length (Sim.remove_first b l)) = List.length l.
Proof.
  induction l as [|a l IH]; intros Hin; [destruct Hin|].
  cbn [Sim.remove_first]. destruct (Nat.eqb_spec b a) as [->|Hne];
    [reflexivity|].
  destruct Hin as [->|Hin]; [contradiction|].
  cbn [List.length]. rewrite (IH Hin). reflexivity.
Qed.

Lemma remove_first_In (b x : Sim.ref) (l : list Sim.ref) :
  In x (Sim.remove_first b l) -> In x l.
Proof.
  induction l as [|a l IH]; cbn [Sim.remove_first]; [auto|].
  destruct (Nat.eqb b a); intros H; [right; exact H|].
  destruct H as [->|H]; [left; reflexivity | right; apply IH, H].
Qed.

Lemma remove_first_other (b x : Sim.ref) (l : list Sim.ref) :
  x <> b -> In x l -> In x (Sim.remove_first b l).
Proof.
  intros Hne. induction l as [|a l IH]; cbn [Sim.remove_first]; [auto|].
  intros [->|Hin].
  - destruct (Nat.eqb_spec b x) as [->|_]; [contradiction | left; reflexivity].
  - destruct (Nat.eqb b a); [exact Hin | right; apply IH, Hin].
Qed.

Lemma remove_first_NoDup (b : Sim.ref) (l : list Sim.ref) :
  NoDup l -> NoDup (Sim.remove_first b l) /\ ~ In b (Sim.remove_first b l).
Proof.
  induction l as [|a l IH]; intros Hnd; cbn [Sim.remove_first].
  - split; [constructor | intros []].
  - inversion Hnd as [|a' l' Ha Hl]; subst.
    destruct (Nat.eqb_spec b a) as [->|Hne]; [split; assumption|].
    destruct (IH Hl) as [IH1 IH2]. split.
    + constructor; [|exact IH1]. intros H. apply Ha. eapply remove_first_In, H.
    + intros [H|H]; [congruence | contradiction].
Qed.

Lemma remove_first_split (b : Sim.ref) (l1 l2 : list Sim.ref) :
  ~ In b l1 -> Sim.remove_first b (l1 ++ b :: l2) = l1 ++ l2.
Proof.
  induction l1 as [|a l1 IH]; intros Hn; cbn [app Sim.remove_first].
  - rewrite Nat.eqb_refl. reflexivity.
  - destruct (Nat.eqb_spec b a) as [->|Hne].
    + exfalso. apply Hn. left. reflexivity.
    + f_equal. apply IH. intros H. apply Hn. right. exact H.
Qed.

(** X17.  [Table.add_ball] appends the ball to the live list and never
    replaces a cue ball that the table already has.  [Table.remove_ball]
    takes out the first occurrence of the ball and nothing else: the balls
    before it and the balls after it, later occurrences included, stay in
    their order, and no other attribute of the table changes.  It changes
    nothing when the ball is not on the table (the [ValueError] is
    swallowed), and leaves the table's references to its cue ball and its
    8-ball as they are, also when that very ball is removed.  Removing a
    ball just added gives back the live list. *)
Theorem add_and_remove_ball (h : Sim.Heap) (t : Sim.Table) (b : Sim.ref) :
  Sim.balls (Sim.add_ball h t b) = Sim.balls t ++ [b]
  /\ (Sim.cue_ball t <> None ->
      Sim.cue_ball (Sim.add_ball h t b) = Sim.cue_ball t)
  /\ (~ In b (Sim.balls t) ->
      Sim.remove_ball t b = t
      /\ Sim.balls (Sim.remove_ball (Sim.add_ball h t b) b) = Sim.balls t)
  /\ (forall before after,
        Sim.balls t = before ++ b :: after -> ~ In b before ->
        Sim.remove_ball t b = Sim.set_balls (before ++ after) t)
  /\ (In b (Sim.balls t) ->
      S (List.length (Sim.balls (Sim.remove_ball t b)))
      = List.length (Sim.balls t))
  /\ Sim.cue_ball (Sim.remove_ball t b) = Sim.cue_ball t
  /\ Sim.eight_ball (Sim.remove_ball t b) = Sim.eight_ball t.
Proof.
  assert (Hb : Sim.balls (Sim.add_ball h t b) = Sim.balls t ++ [b]).
  { unfold Sim.add_ball. destruct (Sim.number (h b)) as [[|p|p]|];
      try reflexivity.
    - destruct (Z.eq_dec (Z.pos p) 8) as [E|E].
      + injection E as ->. reflexivity.
      + repeat (destruct p as [p|p|]; try reflexivity).
    - destruct (Sim.is_none (Sim.cue_ball t)); reflexivity. }
  split; [exact Hb|]. split; [|split; [|split; [|split; [|split]]]].
  - intros Hc. unfold Sim.add_ball.
    destruct (Sim.number (h b)) as [[|p|p]|]; try reflexivity.
    + repeat (destruct p as [p|p|]; try reflexivity).
    + destruct (Sim.cue_ball t) eqn:E; [|contradiction].
      cbn [Sim.is_none Sim.cue_ball Sim.set_balls]. exact E.
  - intros Hn. split.
    + unfold Sim.remove_ball. rewrite (@remove_first_absent b _ Hn).
      destruct t; reflexivity.
    + unfold Sim.remove_ball at 1.
      cbn [Sim.balls Sim.set_balls]. rewrite Hb.
      apply remove_first_snoc. exact Hn.
  - intros before after Hl Hn. unfold Sim.remove_ball.
    rewrite Hl, (@remove_first_split b before after Hn). reflexivity.
  - intros Hin. apply (@remove_first_length b _ Hin).
  - reflexivity.
  - reflexivity.
Qed.

(** ** The bookkeeping of pocketed balls *)

Lemma NoDup_app_inv {A} (l1 l2 : list A) :
  NoDup (l1 ++ l2) ->
  NoDup l1 /\ NoDup l2 /\ (forall a, In a l1 -> ~ In a l2).
Proof.
  intros H. split; [eapply NoDup_app_remove_r; exact H|].
  split; [eapply NoDup_app_remove_l; exact H|].
  induction l1 as [|a l1 IH]; intros x Hx; [destruct Hx|].
  cbn [app] in H. inversion H as [|a' l' Ha Hl]; subst.
  destruct Hx as [->|Hx].
  - intros Hin. apply Ha. apply in_or_app. right. exact Hin.
  - apply IH; assumption.
Qed.

Lemma remove_first_keeps (b x : Sim.ref) (l : list Sim.ref) :
  NoDup l ->
  (In x (Sim.remove_first b l) <-> In x l /\ ~ In x [b]).
Proof.
  intros Hnd. destruct (@remove_first_NoDup b l Hnd) as [_ Hb]. split.
  - intros Hx. split; [eapply remove_first_In; exact Hx|].
    intros [<-|[]]. contradiction.
  - intros [Hx Hne]. apply remove_first_other; [|exact Hx].
    intros ->. apply Hne. left. reflexivity.
Qed.

Lemma absent_keeps (b x : Sim.ref) (l : list Sim.ref) :
  ~ In b l -> (In x l <-> In x l /\ ~ In x [b]).
Proof.
  intros Hb. split; [|tauto]. intros Hx. split; [exact Hx|].
  intros [<-|[]]. contradiction.
Qed.

Lemma NoDup_remove_first_l (b : Sim.ref) (l1 l2 : list Sim.ref) :
  NoDup (l1 ++ l2) -> NoDup (Sim.remove_first b l1 ++ l2).
Proof.
  intros H. destruct (NoDup_app_inv _ _ H) as (H1 & H2 & H12).
  apply NoDup_app; [apply remove_first_NoDup, H1 | exact H2 |].
  intros a Ha. apply H12. eapply remove_first_In. exact Ha.
Qed.

Lemma NoDup_remove_first_r (b : Sim.ref) (l1 l2 : list Sim.ref) :
  NoDup (l1 ++ l2) -> NoDup (l1 ++ Sim.remove_first b l2).
Proof.
  intros H. destruct (NoDup_app_inv _ _ H) as (H1 & H2 & H12).
  apply NoDup_app; [exact H1 | apply remove_first_NoDup, H2 |].
  intros a Ha Hin. apply (H12 a Ha). eapply remove_first_In. exact Hin.
Qed.

Lemma or_false_r_iff (P Q : Prop) : ~ Q -> (P <-> P \/ Q).
Proof. tauto. Qed.

Lemma pocket_tally_step (c : bool) (l : Server.Lobby) (b : Sim.ref) :
  groups_assigned l ->
  pocket_tally [b] c l (fst (Server.remove_pocketed_step (c, l) b))
               (snd (Server.remove_pocketed_step (c, l) b)).
Proof.
  intros (Hg & Ht & Hnd).
  destruct (NoDup_app_inv _ _ Hnd) as (Hst & Hsp & Hdisj).
  unfold pocket_tally, groups_assigned, opponent_balls, shooter_stats,
    waiting_stats, Server.player_balls, Server.remove_pocketed_step.
  destruct l as [h t st sp g1 g2 br op turn s chk sh ps cd sp0 v td s1 s2 q1 q2].
  cbn [Server.p1_balls Server.p2_balls Server.player_turn Server.striped_balls
       Server.spotted_balls Server.p1_stats Server.p2_stats Server.deref] in *.
  assert (Hcases : (In b st /\ ~ In b sp) \/ (~ In b st /\ In b sp)
                   \/ (~ In b st /\ ~ In b sp)).
  { destruct (in_dec Nat.eq_dec b st) as [H1|H1].
    - left. split; [exact H1 | apply Hdisj, H1].
    - destruct (in_dec Nat.eq_dec b sp); tauto. }
  assert (Hm1 : forall L, In b L -> Sim.mem b L = true)
    by (intros L; apply mem_In).
  assert (Hm0 : forall L, ~ In b L -> Sim.mem b L = false)
    by (intros L; apply mem_not_In).
  destruct Hg as [[-> ->]|[-> ->]]; destruct Ht as [-> | ->];
    cbn [Server.deref Server.striped_balls Server.spotted_balls Nat.eqb];
    destruct Hcases as [[Hin Hout]|[[Hout Hin]|[Ho1 Ho2]]];
    rewrite ?(Hm1 _ Hin), ?(Hm0 _ Hout), ?(Hm0 _ Ho1), ?(Hm0 _ Ho2);
    cbn [fst snd andb negb Nat.eqb Server.list_remove Server.with_lists
         Server.with_stats Server.p1_balls Server.p2_balls Server.player_turn
         Server.striped_balls Server.spotted_balls Server.p1_stats
         Server.p2_stats Server.deref BallPockets OpponentBallPockets
         ShotsMade Fouls Server.add_ball_pocket
         Server.add_opponent_ball_pocket].
  all: repeat match goal with |- _ /\ _ => split end.
  all: try reflexivity; try (left; split; reflexivity);
    try (right; split; reflexivity); try (left; reflexivity);
    try (right; reflexivity).
  all: try (apply NoDup_remove_first_l; exact Hnd);
    try (apply NoDup_remove_first_r; exact Hnd); try exact Hnd.
  all: try (intros x; apply remove_first_keeps; assumption).
  all: try (intros x; apply absent_keeps; assumption).
  all: try (rewrite <- (@remove_first_length b _ Hin); lia).
  all: destruct c; cbn [negb andb];
    (split;
     [ intros H;
       first [ left; reflexivity
             | right; exists b; split; [left; reflexivity | assumption]
             | discriminate ]
     | intros [H|(b0 & [<-|[]] & Hb0)];
       first [ reflexivity | discriminate | contradiction ] ]).
Qed.

Lemma player_balls_keeps pk c l c' l' :
  pocket_tally pk c l c' l' ->
  forall x, In x (Server.player_balls l')
            <-> In x (Server.player_balls l) /\ ~ In x pk.
Proof.
  intros ((Hg & _ & _) & H1 & H2 & Ht & Hst & Hsp & _) x.
  unfold Server.player_balls. rewrite Ht.
  destruct (Server.player_turn l =? 1).
  - rewrite <- H1. destruct Hg as [[-> _]|[-> _]]; cbn [Server.deref]; auto.
  - rewrite <- H2. destruct Hg as [[_ ->]|[_ ->]]; cbn [Server.deref]; auto.
Qed.

Lemma pocket_tally_nil c l : groups_assigned l -> pocket_tally [] c l c l.
Proof.
  intros H. unfold pocket_tally.
  repeat match goal with |- _ /\ _ => split end; try reflexivity; try exact H;
    try tauto.
  split; [intros Hc; left; exact Hc | intros [Hc|(b & [] & _)]; exact Hc].
Qed.

Lemma pocket_tally_trans pk1 pk2 c l c1 l1 c2 l2 :
  pocket_tally pk1 c l c1 l1 ->
  pocket_tally pk2 c1 l1 c2 l2 ->
  pocket_tally (pk1 ++ pk2) c l c2 l2.
Proof.
  intros T1 T2. pose proof (player_balls_keeps T1) as Hown.
  destruct T1 as (G1 & A1 & B1 & C1 & D1 & E1 & F1 & I1 & J1 & K1 & L1 & M1).
  destruct T2 as (G2 & A2 & B2 & C2 & D2 & E2 & F2 & I2 & J2 & K2 & L2 & M2).
  unfold pocket_tally.
  repeat match goal with |- _ /\ _ => split end; try congruence; try exact G2.
  - intros x. rewrite D2, D1, in_app_iff. tauto.
  - intros x. rewrite E2, E1, in_app_iff. tauto.
  - split.
    + intros H. apply M2 in H. destruct H as [H|(b & Hb & Hin)].
      * apply M1 in H. destruct H as [H|(b & Hb & Hin)]; [left; exact H|].
        right. exists b. split; [apply in_or_app; left; exact Hb | exact Hin].
      * right. exists b. split; [apply in_or_app; right; exact Hb|].
        apply Hown in Hin. tauto.
    + intros [H|(b & Hb & Hin)]; apply M2.
      * left. apply M1. left. exact H.
      * destruct (in_dec Nat.eq_dec b pk1) as [Hp|Hp].
        -- left. apply M1. right. exists b. split; assumption.
        -- apply in_app_or in Hb. destruct Hb as [Hb|Hb]; [contradiction|].
           right. exists b. split; [exact Hb|]. apply Hown. split; assumption.
Qed.

Lemma pocket_tally_fold pk : forall c l,
  groups_assigned l ->
  pocket_tally pk c l
    (fst (fold_left Server.remove_pocketed_step pk (c, l)))
    (snd (fold_left Server.remove_pocketed_step pk (c, l))).
Proof.
  induction pk as [|b pk IH]; intros c l Hg; cbn [fold_left].
  - apply pocket_tally_nil. exact Hg.
  - pose proof (@pocket_tally_step c l b Hg) as Hs.
    destruct (Server.remove_pocketed_step (c, l) b) as [c1 l1].
    cbn [fst snd] in Hs.
    change (b :: pk) with ([b] ++ pk).
    eapply pocket_tally_trans; [exact Hs|].
    apply IH. destruct Hs as (G & _). exact G.
Qed.

Lemma remove_pocketed_fold_open pk : forall c l,
  Server.p1_balls l = FreshList -> Server.p2_balls l = FreshList ->
  fold_left Server.remove_pocketed_step pk (c, l) = (c, l).
Proof.
  induction pk as [|b pk IH]; intros c l H1 H2; cbn [fold_left]; [reflexivity|].
  unfold Server.remove_pocketed_step at 2. rewrite H1, H2.
  cbn [Server.deref Sim.mem existsb]. apply IH; assumption.
Qed.

(** X18.  [__remove_pocketed_balls] on a closed table takes every pocketed
    ball out of the group list that holds it and leaves the other balls of
    the two lists in place.  Each ball removed from the shooter's list adds
    1 to the shooter's [BallPockets], each ball removed from the
    opponent's list adds 1 to the shooter's [OpponentBallPockets]; no
    other statistic changes.  The result is [True] exactly when a pocketed
    ball was in the shooter's list, unless the table still counts as open
    and the 8-ball was struck first.  While no group is assigned (both
    players' lists are the empty lists of [__reset_state]) nothing is
    removed or counted and the result is [False]. *)
Theorem remove_pocketed_balls_tally (l : Server.Lobby) :
  (groups_assigned l ->
   exists pocketed_own,
     pocket_tally (Sim.pocketed (Server.table l)) false l pocketed_own
                  (snd (Server.remove_pocketed_balls l))
     /\ fst (Server.remove_pocketed_balls l)
        = pocketed_own
          && negb (Server.is_open l
                   && Server.hit_first_is_eight (Server.table l)))
  /\ (Server.p1_balls l = FreshList -> Server.p2_balls l = FreshList ->
      Server.remove_pocketed_balls l = (false, l)).
Proof.
  split.
  - intros Hg.
    pose proof (@pocket_tally_fold (Sim.pocketed (Server.table l)) false l Hg)
      as Ht.
    pose proof (server_remove_pocketed_fold_view
                  (Sim.pocketed (Server.table l)) (false, l)) as Hv.
    unfold Server.remove_pocketed_balls.
    destruct (fold_left _ _ _) as [c0 l1]. cbn [fst snd] in *.
    unfold server_rules_view in Hv.
    assert (Ho : Server.is_open l1 = Server.is_open l) by congruence.
    assert (Htab : Server.table l1 = Server.table l) by congruence.
    rewrite Ho, Htab. exists c0.
    assert (Hhit : (0 <? List.length (Sim.hit (Server.table l)))
                   && Server.hit_first_is_eight (Server.table l)
                   = Server.hit_first_is_eight (Server.table l)).
    { unfold Server.hit_first_is_eight.
      destruct (Sim.hit (Server.table l)); reflexivity. }
    rewrite <- andb_assoc, Hhit.
    destruct (Server.is_open l && _); cbn [fst snd negb];
      split; try exact Ht; rewrite ?andb_false_r, ?andb_true_r; reflexivity.
  - intros H1 H2. unfold Server.remove_pocketed_balls.
    rewrite remove_pocketed_fold_open by assumption.
    destruct (_ && _); reflexivity.
Qed.

Lemma remove_pocketed_balls_tally_witness :
  exists pocketed_own l',
    snd (Server.remove_pocketed_balls
           (Sample.lobby (Sample.shot_table [1] [1; 9] []) false false 1
                         SpottedList StripedList
                         [9; 10; 11; 12; 13; 14; 15] [1; 2; 3; 4; 5; 6; 7]))
    = l'
    /\ (pocketed_own = true)
    /\ ~ In 1 (Server.spotted_balls l') /\ ~ In 9 (Server.striped_balls l')
    /\ In 2 (Server.spotted_balls l').
Proof.
  destruct (@remove_pocketed_balls_tally
              (Sample.lobby (Sample.shot_table [1] [1; 9] []) false false 1
                            SpottedList StripedList
                            [9; 10; 11; 12; 13; 14; 15] [1; 2; 3; 4; 5; 6; 7]))
    as (H & _).
  destruct H as (c0 & Ht & _).
  - split; [right; split; reflexivity|]. split; [left; reflexivity|].
    cbn [Sample.lobby Server.striped_balls Server.spotted_balls app].
    repeat (constructor; [cbn [In]; intuition lia|]).
    constructor.
  - exists c0. eexists. split; [reflexivity|].
    destruct Ht as (_ & _ & _ & _ & Hst & Hsp & _ & _ & _ & _ & _ & Hc).
    split; [|split; [|split]].
    + apply Hc. right. exists 1. split; [left; reflexivity|].
      cbn. auto.
    + intros H. apply Hsp in H. destruct H as [_ H]. apply H. cbn. auto.
    + intros H. apply Hst in H. destruct H as [_ H]. apply H. cbn. auto.
    + apply Hsp. split; [cbn; auto|].
      cbn. intuition lia.
Defined.

Lemma server_remove_pocketed_step_fouls acc ball :
  Fouls (Server.p1_stats (snd (Server.remove_pocketed_step acc ball)))
  = Fouls (Server.p1_stats (snd acc))
  /\ Fouls (Server.p2_stats (snd (Server.remove_pocketed_step acc ball)))
     = Fouls (Server.p2_stats (snd acc)).
Proof.
  destruct acc as [cc l]. unfold Server.remove_pocketed_step.
  destruct l as [h t st sp g1 g2 br op turn s chk sh ps cd sp0 v td s1 s2 q1 q2].
  cbn.
  destruct (Sim.mem ball _).
  - destruct (turn =? 1), g1; split; reflexivity.
  - destruct (Sim.mem ball _).
    + destruct (turn =? 2), g2; split; reflexivity.
    + split; reflexivity.
Qed.

Lemma server_remove_pocketed_fold_fouls pk : forall acc,
  Fouls (Server.p1_stats (snd (fold_left Server.remove_pocketed_step pk acc)))
  = Fouls (Server.p1_stats (snd acc))
  /\ Fouls (Server.p2_stats (snd (fold_left Server.remove_pocketed_step pk acc)))
     = Fouls (Server.p2_stats (snd acc)).
Proof.
  induction pk as [|b pk IH]; intros acc; cbn [fold_left]; [split; reflexivity|].
  destruct (IH (Server.remove_pocketed_step acc b)) as [H1 H2].
  destruct (server_remove_pocketed_step_fouls acc b) as [H3 H4].
  split; congruence.
Qed.

Lemma server_remove_pocketed_fouls (l : Server.Lobby) :
  Fouls (Server.p1_stats (snd (Server.remove_pocketed_balls l)))
  = Fouls (Server.p1_stats l)
  /\ Fouls (Server.p2_stats (snd (Server.remove_pocketed_balls l)))
     = Fouls (Server.p2_stats l).
Proof.
  unfold Server.remove_pocketed_balls.
  pose proof (server_remove_pocketed_fold_fouls
                (Sim.pocketed (Server.table l)) (false, l)) as H.
  destruct (fold_left _ _ _) as [cc l1]. cbn [snd] in H.
  destruct (_ && _); cbn [snd]; exact H.
Qed.

(** X19.  [__check_game_state] after an ordinary shot (not the break) on a
    closed table, with the 8-ball still on the table and a cue ball: the
    call returns; the shooter keeps the turn, and may pass it, exactly when
    [__foul_check] found no foul and [__remove_pocketed_balls] found a
    pocketed ball of the shooter's group; otherwise the turn goes to the
    other player.  After a foul the cue ball is in hand (held, not
    colliding, at rest) and the shooter's [Fouls] is one higher.  In every
    case the three per-turn records are emptied, shooting is allowed again,
    and both players are sent the foul (if any) followed by
    [start_next_turn]. *)
Theorem ordinary_shot_outcome (rack : Rack) (l : Server.Lobby) (c : Sim.ref) :
  Server.is_break l = false ->
  Server.is_open l = false ->
  ~ eight_pocketed (Server.table l) ->
  Sim.cue_ball (Server.table l) = Some c ->
  let foul_ := fst (Server.foul_check l) in
  let continues := negb foul_ && fst (Server.remove_pocketed_balls l) in
  let sent := shot_messages foul_ (snd (Server.foul_check l)) continues in
  exists l',
    Server.check_game_state rack l = Py.Ok l'
    /\ Server.player_turn l'
       = (if continues then Server.player_turn l else Server.other_turn l)
    /\ Server.can_pass_turn l' = continues
    /\ Server.can_shoot l' = true
    /\ Server.checked l' = true
    /\ Server.is_break l' = false /\ Server.is_open l' = false
    /\ Server.victor l' = Server.victor l
    /\ Sim.hit (Server.table l') = []
    /\ Sim.pocketed (Server.table l') = []
    /\ Sim.rail_contacts (Server.table l') = []
    /\ Sim.holding (Server.table l')
       = (if foul_ then Some c else Sim.holding (Server.table l))
    /\ (foul_ = true ->
        Sim.can_collide (Server.heap l' c) = false
        /\ Sim.vel (Server.heap l' c) = Vec.mkVec 0 0)
    /\ Fouls (Server.p1_stats l')
       = fouls_after foul_ (Server.player_turn l) 1 (Fouls (Server.p1_stats l))
    /\ Fouls (Server.p2_stats l')
       = fouls_after foul_ (Server.player_turn l) 2 (Fouls (Server.p2_stats l))
    /\ Server.queue1 l' = Server.queue1 l ++ sent
    /\ Server.queue2 l' = Server.queue2 l ++ sent.
Proof.
  intros Hb Ho He Hc foul_ continues sent.
  unfold Server.check_game_state. rewrite Ho, Hb.
  rewrite (server_victory_check_none l He).
  subst sent continues foul_.
  destruct (Server.foul_check l) as [f rs]. cbn [fst snd].
  pose proof (server_remove_pocketed_view l) as Hv.
  destruct (server_remove_pocketed_fouls l) as [Hf1 Hf2].
  destruct (Server.remove_pocketed_balls l) as [cc l1]. cbn [fst snd] in *.
  unfold server_rules_view in Hv.
  destruct l1 as [h t st sp g1 g2 br op turn s chk sh ps cd sp0 v td s1 s2 q1 q2].
  cbn in Hv, Hf1, Hf2.
  injection Hv as -> -> -> -> -> -> -> -> -> -> ->.
  unfold Server.apply_rules. cbn -[Nat.eqb]. rewrite Hb. cbn -[Nat.eqb].
  unfold shot_messages, fouls_after.
  destruct f; cbn -[Nat.eqb].
  - unfold Server.apply_foul_penalty. cbn -[Nat.eqb].
    destruct (Server.player_turn l =? 1) eqn:Ht; cbn -[Nat.eqb]; rewrite Hc;
      (eexists; split; [reflexivity|]);
      cbn -[Nat.eqb]; unfold Server.other_turn, Sim.upd; cbn -[Nat.eqb];
      rewrite ?Ht, ?Nat.eqb_refl, ?Hb, ?Ho, <- ?app_assoc; cbn -[Nat.eqb];
      repeat split; try congruence;
      change (2 =? 1) with false; cbn [negb]; congruence.
  - destruct cc; cbn -[Nat.eqb];
      (eexists; split; [reflexivity|]);
      cbn -[Nat.eqb]; unfold Server.other_turn; cbn -[Nat.eqb];
      rewrite ?Hb, ?Ho; repeat split; try congruence; try discriminate.
Qed.

Lemma ordinary_shot_outcome_witness :
  exists l',
    Server.check_game_state
      Sample.rack
      (Sample.lobby (Sample.shot_table [1] [1] []) false false 1
                    SpottedList StripedList
                    [9; 10; 11; 12; 13; 14; 15] [1; 2; 3; 4; 5; 6; 7])
    = Py.Ok l'
    /\ Server.player_turn l' = 1 /\ Server.can_pass_turn l' = true.
Proof.
  destruct (@ordinary_shot_outcome
              Sample.rack
              (Sample.lobby (Sample.shot_table [1] [1] []) false false 1
                            SpottedList StripedList
                            [9; 10; 11; 12; 13; 14; 15] [1; 2; 3; 4; 5; 6; 7])
              0)
    as (l' & H & Ht & Hp & _).
  - reflexivity.
  - reflexivity.
  - intros (b & Hin & H8). cbn in Hin, H8.
    destruct Hin as [<-|[]]. discriminate H8.
  - reflexivity.
  - exists l'. split; [exact H|]. split; [rewrite Ht|rewrite Hp]; reflexivity.
Defined.

Lemma item_head {A} (a : A) (l : list A) : VecArgs.item (a :: l) 0 = Py.Ok a.
Proof.
  unfold VecArgs.item. cbn [List.length].
  change (0 <? 0)%Z with false. cbv beta iota zeta.
  assert (H : (Z.of_nat (S (List.length l)) <=? 0)%Z = false)
    by (apply Z.leb_gt; lia).
  rewrite H. reflexivity.
Qed.

Lemma item_second {A} (a b : A) (l : list A) :
  VecArgs.item (a :: b :: l) 1 = Py.Ok b.
Proof.
  unfold VecArgs.item. cbn [List.length].
  change (1 <? 0)%Z with false. cbv beta iota zeta.
  assert (H : (Z.of_nat (S (S (List.length l))) <=? 1)%Z = false)
    by (apply Z.leb_gt; lia).
  rewrite H. reflexivity.
Qed.

(** X20.  [Vector2D(...)], [Vector2D.set] and [tuple(vector)].  For numbers
    [a], [b]: [Vector2D([a, b, ...])] and [Vector2D(a, b, ...)] both give
    [(a, b)] and ignore further items, while [set] accepts exactly two
    items and otherwise raises [ValueError] leaving the vector unchanged.
    A non-numeric second item makes [Vector2D([a, c])] raise [TypeError]
    but [Vector2D(a, c)] raise [ValueError]; [set([a, c])] raises
    [TypeError] after the x-component has already been overwritten.
    [Vector2D()] raises [IndexError]; [Vector2D(a)] and [Vector2D([a])]
    raise [ValueError].  [tuple(v)] is [(v.x, v.y)], obtained through
    [__getitem__], which accepts the keys -2..1 only; constructing from or
    setting to [tuple(v)] or [v] gives [v] again. *)
Theorem vector_from_values (self v : Vec.Vector2D) (a b : VecArgs.Value)
        (rest : list VecArgs.Value) (ra rb : R) (n : nat) :
  VecArgs.numeric a = Some ra ->
  VecArgs.numeric b = Some rb ->
  (VecArgs.init [VecArgs.VSeq (a :: b :: rest)] = Py.Ok (Vec.mkVec ra rb)
   /\ VecArgs.init (a :: b :: rest) = Py.Ok (Vec.mkVec ra rb)
   /\ VecArgs.init [VecArgs.VVector v] = Py.Ok v
   /\ VecArgs.init [] = Py.Raise out_of_range
   /\ VecArgs.init [a] = Py.Raise not_a_vector
   /\ VecArgs.init [VecArgs.VSeq [a]] = Py.Raise not_a_vector
   /\ (forall c, VecArgs.numeric c = None ->
         VecArgs.init [VecArgs.VSeq (a :: c :: rest)] = Py.Raise not_numeric
         /\ VecArgs.init (a :: c :: rest) = Py.Raise not_a_vector))
  /\ (VecArgs.set self (VecArgs.VSeq [a; b]) = (Vec.mkVec ra rb, None)
      /\ VecArgs.set self (VecArgs.VVector v) = (v, None)
      /\ (rest <> [] ->
          VecArgs.set self (VecArgs.VSeq (a :: b :: rest))
          = (self, Some not_a_pair))
      /\ (forall c, VecArgs.numeric c = None ->
            VecArgs.set self (VecArgs.VSeq [a; c])
            = (Vec.mkVec ra (Vec.y self), Some not_numeric)))
  /\ (VecArgs.to_tuple (3 + n) v
      = Py.Ok (VecArgs.VSeq [VecArgs.VFloat (Vec.x v); VecArgs.VFloat (Vec.y v)])
      /\ (forall t, VecArgs.to_tuple (3 + n) v = Py.Ok t ->
            VecArgs.init [t] = Py.Ok v /\ VecArgs.set self t = (v, None))
      /\ (forall k : Z,
            VecArgs.getitem v (VecArgs.VInt k)
            = if (k =? 0)%Z || (k =? -2)%Z then Py.Ok (Vec.x v)
              else if (k =? 1)%Z || (k =? -1)%Z then Py.Ok (Vec.y v)
              else Py.Raise out_of_range)).
Proof.
  intros Ha Hb.
  assert (Htup : VecArgs.to_tuple (3 + n) v
                 = Py.Ok (VecArgs.VSeq [VecArgs.VFloat (Vec.x v);
                                        VecArgs.VFloat (Vec.y v)])).
  { unfold VecArgs.to_tuple. cbn. reflexivity. }
  assert (Hxy : forall s c, VecArgs.set_x s a = Py.Ok (Vec.mkVec ra (Vec.y s))
                            /\ VecArgs.set_y (Vec.mkVec ra c) b
                               = Py.Ok (Vec.mkVec ra rb)).
  { intros s c. unfold VecArgs.set_x, VecArgs.set_y. rewrite Ha, Hb.
    split; reflexivity. }
  assert (Hbad : forall s c, VecArgs.numeric c = None ->
                             VecArgs.set_y s c = Py.Raise not_numeric).
  { intros s c Hc. unfold VecArgs.set_y. rewrite Hc. reflexivity. }
  split; [|split].
  - split; [|split; [|split; [|split; [|split; [|split]]]]].
    + unfold VecArgs.init. rewrite item_head. cbn [Py.bind List.length Nat.leb].
      rewrite item_head, item_second. cbn [Py.bind].
      rewrite (proj1 (Hxy Vec.zero 0%R)). cbn [Py.bind Vec.zero Vec.y].
      apply (Hxy Vec.zero 0%R).
    + unfold VecArgs.init. rewrite item_head. cbn [Py.bind].
      rewrite Ha, Hb.
      rewrite (proj1 (Hxy Vec.zero 0%R)). cbn [Py.bind Vec.zero Vec.y].
      rewrite (proj2 (Hxy Vec.zero 0%R)).
      destruct a; try discriminate Ha; reflexivity.
    + destruct v. reflexivity.
    + reflexivity.
    + unfold VecArgs.init. rewrite item_head. cbn [Py.bind].
      destruct a; try discriminate Ha; reflexivity.
    + reflexivity.
    + intros c Hc. split.
      * unfold VecArgs.init. rewrite item_head.
        cbn [Py.bind List.length Nat.leb].
        rewrite item_head, item_second. cbn [Py.bind].
        rewrite (proj1 (Hxy Vec.zero 0%R)). cbn [Py.bind].
        apply Hbad, Hc.
      * unfold VecArgs.init. rewrite item_head. cbn [Py.bind].
        rewrite Ha, Hc.
        destruct a; try discriminate Ha; reflexivity.
  - split; [|split; [|split]].
    + unfold VecArgs.set. cbn [List.length Nat.eqb negb].
      rewrite item_head, item_second. cbn [Py.bind].
      rewrite (proj1 (Hxy self 0%R)). cbn [Vec.y].
      rewrite (proj2 (Hxy self (Vec.y self))). reflexivity.
    + destruct v. reflexivity.
    + intros Hr. unfold VecArgs.set.
      destruct rest as [|c rest]; [contradiction|]. reflexivity.
    + intros c Hc. unfold VecArgs.set. cbn [List.length Nat.eqb negb].
      rewrite item_head, item_second. cbn [Py.bind].
      rewrite (proj1 (Hxy self 0%R)).
      rewrite (Hbad _ c Hc). reflexivity.
  - split; [exact Htup|]. split.
    + intros t Ht. rewrite Htup in Ht. injection Ht as <-.
      destruct v; split; reflexivity.
    + intros k. unfold VecArgs.getitem, VecArgs.item.
      cbn [List.length].
      destruct (Z.eqb_spec k 0) as [->|H0]; [reflexivity|].
      destruct (Z.eqb_spec k (-2)) as [->|H2]; [reflexivity|].
      destruct (Z.eqb_spec k 1) as [->|H1]; [reflexivity|].
      destruct (Z.eqb_spec k (-1)) as [->|H3]; [reflexivity|].
      cbn [orb].
      destruct (Z.ltb_spec k 0).
      * assert (Hlt : (k + Z.of_nat 2 <? 0)%Z = true) by (apply Z.ltb_lt; lia).
        rewrite Hlt. reflexivity.
      * assert (Hge : (Z.of_nat 2 <=? k)%Z = true) by (apply Z.leb_le; lia).
        assert (Hlt : (k <? 0)%Z = false) by (apply Z.ltb_ge; lia).
        rewrite Hlt, Hge. reflexivity.
Qed.

Lemma vector_from_values_witness :
  VecArgs.init [VecArgs.VSeq [VecArgs.VInt 3; VecArgs.VBool true; VecArgs.VNone]]
  = Py.Ok (Vec.mkVec (IZR 3) 1)
  /\ VecArgs.set (Vec.mkVec 7 8) (VecArgs.VSeq [VecArgs.VInt 3; VecArgs.VStr "4"])
     = (Vec.mkVec (IZR 3) 8, Some not_numeric).
Proof.
  destruct (@vector_from_values (Vec.mkVec 7 8) (Vec.mkVec 0 0)
              (VecArgs.VInt 3) (VecArgs.VBool true) [VecArgs.VNone]
              (IZR 3) 1%R 0 eq_refl eq_refl)
    as ((H1 & _) & (_ & _ & _ & H2) & _).
  split; [exact H1|]. exact (H2 (VecArgs.VStr "4") eq_refl).
Defined.



(** What [strike] does to the store: the first ball of [bs] with the
    number is struck, no other ball changes. *)
Lemma strike_first h num t force angle : forall bs pre b post,
  bs = pre ++ b :: post ->
  (forall x, In x pre -> ServerPlay.number_eqb (Sim.number (h x)) num = false) ->
  ServerPlay.number_eqb (Sim.number (h b)) num = true ->
  forall r,
    ServerPlay.strike h bs num t force angle r
    = if Nat.eqb r b
      then Sim.apply_force (h b) t force (angle - PI)%R
      else h r.
Proof.
  induction bs as [|x bs IH]; intros pre b post Hbs Hpre Hb r.
  - destruct pre; discriminate Hbs.
  - destruct pre as [|y pre]; cbn [app] in Hbs; injection Hbs as Hx Hbs;
      subst x.
    + cbn [ServerPlay.strike]. rewrite Hb. reflexivity.
    + cbn [ServerPlay.strike]. rewrite (Hpre y (or_introl eq_refl)).
      apply (IH pre b post Hbs); [|exact Hb].
      intros z Hz. apply Hpre. right. exact Hz.
Qed.

Lemma strike_none h num t force angle : forall bs,
  (forall x, In x bs -> ServerPlay.number_eqb (Sim.number (h x)) num = false) ->
  ServerPlay.strike h bs num t force angle = h.
Proof.
  induction bs as [|x bs IH]; intros Hn; [reflexivity|].
  cbn [ServerPlay.strike]. rewrite (Hn x (or_introl eq_refl)).
  apply IH. intros z Hz. apply Hn. right. exact Hz.
Qed.

(** X22.  [Lobby.__hit_ball] never refuses a shot: whatever the turn and
    the [can_shoot] flag are, it adds 1 to [ShotsMade] of player 1 when the
    command came from player 1 and of player 2 in every other case (also
    for [None]), applies the force, turned by pi, to the first ball of the
    table whose number is the given one and to no other ball (to none if
    no ball has the number), forwards [hit_ball] to the players other than
    the sender, and leaves the lobby unchecked, to be checked, with both
    players pending.  [__finished_drawing] then takes one player off the
    pending list and raises [ValueError] for a player who is not on it. *)
Theorem hit_ball_unchecked (p : ServerPlay.Play) (player : option nat)
        (num : option Z) (force angle : R) :
  let l := ServerPlay.lobby p in
  let p' := ServerPlay.hit_ball player num force angle p in
  let l' := ServerPlay.lobby p' in
  let from_p1 := match player with Some 1 => true | _ => false end in
  let from_p2 := match player with Some 2 => true | _ => false end in
  let sent := ServerPlay.cmd_hit_ball num force angle in
  Server.p1_stats l'
  = (if from_p1 then ServerPlay.add_shot (Server.p1_stats l)
     else Server.p1_stats l)
  /\ Server.p2_stats l'
     = (if from_p1 then Server.p2_stats l
        else ServerPlay.add_shot (Server.p2_stats l))
  /\ (forall pre b post,
        Sim.balls (Server.table l) = pre ++ b :: post ->
        (forall x, In x pre -> Sim.number (Server.heap l x) <> num) ->
        Sim.number (Server.heap l b) = num ->
        Server.heap l' b
        = Sim.apply_force (Server.heap l b)
            (Sim.time_of_cue_impact (Sim.t_settings (Server.table l)))
            force (angle - PI)%R
        /\ Sim.attempted_force_application (Server.heap l' b) = true
        /\ forall r, r <> b -> Server.heap l' r = Server.heap l r)
  /\ ((forall x, In x (Sim.balls (Server.table l)) ->
                 Sim.number (Server.heap l x) <> num) ->
      Server.heap l' = Server.heap l)
  /\ server_rules_view l'
     = server_rules_view (Server.with_table (Server.heap l') (Server.table l) l)
  /\ Server.can_shoot l' = Server.can_shoot l
  /\ Server.checked l' = false
  /\ ServerPlay.do_check p' = true
  /\ ServerPlay.pending p' = [1; 2]
  /\ ServerPlay.sent1 p'
     = (if from_p1 then ServerPlay.sent1 p else ServerPlay.sent1 p ++ [sent])
  /\ ServerPlay.sent2 p'
     = (if from_p2 then ServerPlay.sent2 p else ServerPlay.sent2 p ++ [sent])
  /\ (exists q1 q2,
        ServerPlay.finished_drawing 1 p' = Py.Ok q1
        /\ ServerPlay.finished_drawing 2 q1 = Py.Ok q2
        /\ ServerPlay.pending q2 = []
        /\ ServerPlay.lobby q2 = l'
        /\ Py.raises (ServerPlay.finished_drawing 1 q1)
        /\ Py.raises (ServerPlay.finished_drawing 2 q2)).
Proof.
  intros l p' l' from_p1 from_p2 sent.
  assert (Hneq : forall a b : option Z,
             a <> b -> ServerPlay.number_eqb a b = false).
  { intros [m|] [n|] Hab; cbn; try reflexivity.
    - apply Z.eqb_neq. congruence.
    - congruence. }
  assert (Heq : forall a : option Z, ServerPlay.number_eqb a a = true).
  { intros [m|]; cbn; [apply Z.eqb_refl|reflexivity]. }
  assert (Hheap : Server.heap l'
                  = ServerPlay.strike (Server.heap l)
                      (Sim.balls (Server.table l)) num
                      (Sim.time_of_cue_impact
                         (Sim.t_settings (Server.table l)))
                      force angle).
  { subst l' p' l. unfold ServerPlay.hit_ball.
    destruct p as [l d pd s1 s2]. cbn [ServerPlay.lobby].
    destruct l. destruct player as [[|[|[|k]]]|]; reflexivity. }
  split; [|split; [|split; [|split; [|split; [|split; [|split;
    [|split; [|split; [|split; [|split]]]]]]]]]].
  - subst l' p' l from_p1. destruct p as [l d pd s1 s2]. destruct l.
    destruct player as [[|[|[|k]]]|]; reflexivity.
  - subst l' p' l from_p1. destruct p as [l d pd s1 s2]. destruct l.
    destruct player as [[|[|[|k]]]|]; reflexivity.
  - intros pre b post Hbs Hpre Hb.
    assert (Hr : forall r,
               Server.heap l' r
               = if Nat.eqb r b
                 then Sim.apply_force (Server.heap l b)
                        (Sim.time_of_cue_impact
                           (Sim.t_settings (Server.table l)))
                        force (angle - PI)%R
                 else Server.heap l r).
    { intros r. rewrite Hheap.
      apply (@strike_first (Server.heap l) num _ force angle _ pre b post Hbs).
      - intros x Hx. apply Hneq, Hpre, Hx.
      - rewrite Hb. apply Heq. }
    split; [|split].
    + rewrite Hr, Nat.eqb_refl. reflexivity.
    + rewrite Hr, Nat.eqb_refl. unfold Sim.apply_force.
      destruct (_ && _); destruct (Server.heap l b); reflexivity.
    + intros r Hne. rewrite Hr.
      destruct (Nat.eqb_spec r b); [contradiction|reflexivity].
  - intros Hn. rewrite Hheap. apply strike_none.
    intros x Hx. apply Hneq, Hn, Hx.
  - subst l' p' l. destruct p as [l d pd s1 s2]. destruct l.
    destruct player as [[|[|[|k]]]|]; reflexivity.
  - subst l' p' l. destruct p as [l d pd s1 s2]. destruct l.
    destruct player as [[|[|[|k]]]|]; reflexivity.
  - subst l' p' l. destruct p as [l d pd s1 s2]. destruct l.
    destruct player as [[|[|[|k]]]|]; reflexivity.
  - reflexivity.
  - reflexivity.
  - subst l' p' l from_p1 sent. destruct p as [l d pd s1 s2].
    destruct player as [[|[|[|k]]]|]; reflexivity.
  - subst l' p' l from_p2 sent. destruct p as [l d pd s1 s2].
    destruct player as [[|[|[|k]]]|]; reflexivity.
  - eexists. eexists.
    split; [reflexivity|]. split; [reflexivity|].
    split; [reflexivity|]. split; [reflexivity|].
    split; eexists; reflexivity.
Qed.

Lemma hit_ball_unchecked_witness :
  let p :=
    ServerPlay.mkPlay
      (Sample.lobby Sample.racked_table true true 2 FreshList FreshList
                    [9; 10; 11; 12; 13; 14; 15] [1; 2; 3; 4; 5; 6; 7])
      false [] [] [] in
  let p' := ServerPlay.hit_ball (Some 1) None 600 0 p in
  Sim.attempted_force_application (Server.heap (ServerPlay.lobby p') 0) = true
  /\ ShotsMade (Server.p1_stats (ServerPlay.lobby p')) = 1
  /\ ServerPlay.sent1 p' = [].
Proof.
  intros p p'.
  destruct (@hit_ball_unchecked p (Some 1) None 600 0)
    as (H1 & _ & H3 & _ & _ & _ & _ & _ & _ & H10 & _).
  destruct (H3 [1; 2; 3; 4; 5; 6; 7; 8; 9; 10; 11; 12; 13; 14; 15] 0 [])
    as (_ & Ha & _).
  - reflexivity.
  - intros x Hx. cbn [In] in Hx.
    repeat (destruct Hx as [<-|Hx]; [discriminate|]). destruct Hx.
  - reflexivity.
  - split; [exact Ha|]. split; [|exact H10].
    fold p' in H1. cbv zeta in H1. rewrite H1. reflexivity.
Defined.

Ltac position_eq H :=
  unfold same_position, client_position, server_position in H;
  cbn [Client.heap Client.table Client.striped_balls Client.spotted_balls
       Client.p1_balls Client.p2_balls Client.is_break Client.is_open
       Client.player_turn Server.heap Server.table Server.striped_balls
       Server.spotted_balls Server.p1_balls Server.p2_balls Server.is_break
       Server.is_open Server.player_turn] in H;
  injection H as -> -> -> -> -> -> -> -> ->.

Lemma same_open_table_scan (g : Client.Game) (l : Server.Lobby) pk :
  same_position g l ->
  fst (Client.open_table_scan g pk) = fst (Server.open_table_scan l pk)
  /\ same_position (snd (Client.open_table_scan g pk))
                   (snd (Server.open_table_scan l pk))
  /\ Client.can_pass_turn (snd (Client.open_table_scan g pk))
     = Client.can_pass_turn g
  /\ Server.victor (snd (Server.open_table_scan l pk)) = Server.victor l.
Proof.
  intros H.
  destruct g as [h t st sp g1 g2 br op turn s chk sh ps q].
  destruct l as [h' t' st' sp' g1' g2' br' op' turn' s' chk' sh' ps' cd sp0 v
                 td s1 s2 q1 q2].
  position_eq H.
  induction pk as [|b pk IH].
  - repeat split.
  - cbn [Client.open_table_scan Server.open_table_scan Client.table
         Server.table Client.heap Server.heap Client.player_turn
         Server.player_turn].
    rewrite negb_orb.
    destruct (negb (Sim.is_ref b (Sim.eight_ball t'))
              && negb (Sim.is_ref b (Sim.cue_ball t'))).
    + cbn [fst snd]. unfold Client.close_table, Server.close_table.
      destruct (_ || _); repeat split.
    + exact IH.
Qed.

Lemma same_open_table_check (g : Client.Game) (l : Server.Lobby) :
  same_position g l ->
  fst (Client.open_table_check g) = fst (Server.open_table_check l)
  /\ same_position (snd (Client.open_table_check g))
                   (snd (Server.open_table_check l))
  /\ Client.can_pass_turn (snd (Client.open_table_check g))
     = Client.can_pass_turn g
  /\ Server.victor (snd (Server.open_table_check l)) = Server.victor l.
Proof.
  intros H. unfold Client.open_table_check, Server.open_table_check.
  assert (Ht : Client.table g = Server.table l).
  { unfold same_position, client_position, server_position in H. congruence. }
  rewrite Ht. unfold Client.hit_first_is_eight, Server.hit_first_is_eight.
  destruct (match Sim.hit (Server.table l) with [] => false | _ => _ end).
  - repeat split. exact H.
  - apply same_open_table_scan. exact H.
Qed.

Lemma same_victory_scan (g : Client.Game) (l : Server.Lobby) pk :
  same_position g l ->
  forall index,
    Client.victory_scan g index pk = Server.victory_scan l index pk.
Proof.
  intros H.
  destruct g as [h t st sp g1 g2 br op turn s chk sh ps q].
  destruct l as [h' t' st' sp' g1' g2' br' op' turn' s' chk' sh' ps' cd sp0 v
                 td s1 s2 q1 q2].
  position_eq H.
  induction pk as [|b pk IH]; intros index; [reflexivity|].
  cbn [Client.victory_scan Server.victory_scan Client.table Server.table].
  destruct (Sim.is_ref b (Sim.eight_ball t')); [reflexivity|apply IH].
Qed.

Lemma same_player_balls (g : Client.Game) (l : Server.Lobby) :
  same_position g l -> Client.player_balls g = Server.player_balls l.
Proof.
  intros H.
  destruct g as [h t st sp g1 g2 br op turn s chk sh ps q].
  destruct l as [h' t' st' sp' g1' g2' br' op' turn' s' chk' sh' ps' cd sp0 v
                 td s1 s2 q1 q2].
  position_eq H. reflexivity.
Qed.

Lemma player_balls_in_groups (l : Server.Lobby) (x : Sim.ref) :
  In x (Server.player_balls l) ->
  In x (Server.striped_balls l) \/ In x (Server.spotted_balls l).
Proof.
  unfold Server.player_balls, Server.deref.
  destruct (Server.player_turn l =? 1);
    [destruct (Server.p1_balls l)|destruct (Server.p2_balls l)];
    cbn [In]; tauto.
Qed.

Lemma mem_false_iff (x : Sim.ref) (l : list Sim.ref) :
  Sim.mem x l = false <-> ~ In x l.
Proof.
  unfold Sim.mem. split.
  - intros H Hin.
    assert (Ht : existsb (Nat.eqb x) l = true).
    { apply existsb_exists. exists x. split; [exact Hin|apply Nat.eqb_refl]. }
    congruence.
  - intros H. destruct (existsb (Nat.eqb x) l) eqn:He; [|reflexivity].
    apply existsb_exists in He. destruct He as (y & Hy & Hxy).
    apply Nat.eqb_eq in Hxy. subst y. contradiction.
Qed.

Lemma same_foul_check (g : Client.Game) (l : Server.Lobby) (c : Sim.ref) :
  same_position g l ->
  Sim.cue_ball (Server.table l) = Some c ->
  ~ In c (Server.striped_balls l) ->
  ~ In c (Server.spotted_balls l) ->
  Client.foul_check g = fst (Server.foul_check l).
Proof.
  intros H Hc Hs1 Hs2.
  rewrite client_foul_check_bool, server_foul_check_bool. cbv zeta.
  rewrite (same_player_balls H).
  assert (Ht : Client.table g = Server.table l).
  { unfold same_position, client_position, server_position in H. congruence. }
  assert (Ho : Client.is_open g = Server.is_open l).
  { unfold same_position, client_position, server_position in H. congruence. }
  rewrite Ht, Ho.
  assert (Hown : Sim.mem c (Server.player_balls l) = false).
  { apply mem_false_iff. intros Hin.
    destruct (player_balls_in_groups l c Hin); contradiction. }
  assert (Hex : forall pk,
             existsb (fun b => negb (Sim.mem b (Server.player_balls l))
                               && Sim.is_ref b (Sim.cue_ball (Server.table l)))
                     pk
             = existsb (fun b => Sim.is_ref b (Sim.cue_ball (Server.table l)))
                       pk).
  { induction pk as [|b pk IH]; [reflexivity|]. cbn [existsb]. rewrite IH.
    f_equal. rewrite Hc. cbn [Sim.is_ref].
    destruct (Nat.eqb_spec b c) as [->|Hne].
    - rewrite Hown. reflexivity.
    - apply andb_false_r. }
  rewrite Hex.
  destruct (Sim.pocketed (Server.table l)) as [|b [|b' pk]].
  - rewrite orb_false_r. reflexivity.
  - cbn [existsb]. rewrite orb_false_r.
    destruct (Sim.is_ref b (Sim.cue_ball (Server.table l)));
      rewrite ?orb_true_r, ?orb_false_r; reflexivity.
  - rewrite orb_false_r. reflexivity.
Qed.

Lemma same_remove_pocketed_step (cg : bool * Client.Game)
      (cl : bool * Server.Lobby) (b : Sim.ref) :
  fst cg = fst cl -> same_position (snd cg) (snd cl) ->
  fst (Client.remove_pocketed_step cg b) = fst (Server.remove_pocketed_step cl b)
  /\ same_position (snd (Client.remove_pocketed_step cg b))
                   (snd (Server.remove_pocketed_step cl b))
  /\ Client.can_pass_turn (snd (Client.remove_pocketed_step cg b))
     = Client.can_pass_turn (snd cg)
  /\ Server.victor (snd (Server.remove_pocketed_step cl b))
     = Server.victor (snd cl).
Proof.
  destruct cg as [c g], cl as [c' l]. cbn [fst snd]. intros -> H.
  destruct g as [h t st sp g1 g2 br op turn s chk sh ps q].
  destruct l as [h' t' st' sp' g1' g2' br' op' turn' s' chk' sh' ps' cd sp0 v
                 td s1 s2 q1 q2].
  position_eq H.
  unfold Client.remove_pocketed_step, Server.remove_pocketed_step.
  destruct g1', g2'; cbn -[Nat.eqb Sim.mem];
    repeat match goal with
           | |- context [if Sim.mem ?a ?b then _ else _] =>
               destruct (Sim.mem a b)
           end;
    destruct (turn' =? 1); destruct (turn' =? 2); repeat split.
Qed.

Lemma same_remove_pocketed_fold pk : forall cg cl,
  fst cg = fst cl -> same_position (snd cg) (snd cl) ->
  fst (fold_left Client.remove_pocketed_step pk cg)
  = fst (fold_left Server.remove_pocketed_step pk cl)
  /\ same_position (snd (fold_left Client.remove_pocketed_step pk cg))
                   (snd (fold_left Server.remove_pocketed_step pk cl))
  /\ Client.can_pass_turn (snd (fold_left Client.remove_pocketed_step pk cg))
     = Client.can_pass_turn (snd cg)
  /\ Server.victor (snd (fold_left Server.remove_pocketed_step pk cl))
     = Server.victor (snd cl).
Proof.
  induction pk as [|b pk IH]; intros cg cl Hc H; cbn [fold_left].
  - repeat split; assumption.
  - destruct (same_remove_pocketed_step cg cl b Hc H) as (H1 & H2 & H3 & H4).
    destruct (IH _ _ H1 H2) as (H5 & H6 & H7 & H8).
    repeat split; congruence.
Qed.

Lemma same_remove_pocketed (g : Client.Game) (l : Server.Lobby) :
  same_position g l ->
  fst (Client.remove_pocketed_balls g) = fst (Server.remove_pocketed_balls l)
  /\ same_position (snd (Client.remove_pocketed_balls g))
                   (snd (Server.remove_pocketed_balls l))
  /\ Client.can_pass_turn (snd (Client.remove_pocketed_balls g))
     = Client.can_pass_turn g
  /\ Server.victor (snd (Server.remove_pocketed_balls l)) = Server.victor l.
Proof.
  intros H. unfold Client.remove_pocketed_balls, Server.remove_pocketed_balls.
  destruct (@same_remove_pocketed_fold (Sim.pocketed (Server.table l))
              (false, g) (false, l) eq_refl H) as (H1 & H2 & H3 & H4).
  assert (Ht : Client.table g = Server.table l).
  { unfold same_position, client_position, server_position in H. congruence. }
  rewrite Ht.
  destruct (fold_left Client.remove_pocketed_step _ _) as [c g1].
  destruct (fold_left Server.remove_pocketed_step _ _) as [c' l1].
  cbn [fst snd] in *. subst c'.
  assert (Ht1 : Client.table g1 = Server.table l1).
  { unfold same_position, client_position, server_position in H2. congruence. }
  assert (Ho1 : Client.is_open g1 = Server.is_open l1).
  { unfold same_position, client_position, server_position in H2. congruence. }
  rewrite Ht1, Ho1. unfold Client.hit_first_is_eight, Server.hit_first_is_eight.
  destruct (Server.is_open l1 && _ && _); cbn [fst snd]; repeat split;
    assumption.
Qed.

(** Both [_apply_rules] and [__apply_rules] on the same position after a
    shot that was not the break. *)
Lemma same_apply_rules (rack : Rack) (g : Client.Game) (l : Server.Lobby)
      (c : Sim.ref) (stop_open foul_ can_continue : bool)
      (reasons : option (list string)) (victor_ : option nat) :
  same_position g l ->
  Server.is_break l = false ->
  Client.can_pass_turn g = false ->
  Sim.cue_ball (Server.table l) = Some c ->
  exists l' g' ended,
    Server.apply_rules rack stop_open foul_ reasons false victor_ can_continue
                       (Server.with_checked true l) = Py.Ok l'
    /\ Client.apply_rules rack stop_open foul_ false victor_ can_continue g
       = Py.Ok (g', ended)
    /\ (forall w, victor_ = Some w ->
          ended = true /\ Server.victor l' = Some w
          /\ Server.to_delete l' = true
          /\ Client.event_queue g' = [Client.ev_victory w])
    /\ (victor_ = None ->
        ended = false
        /\ same_position g' l'
        /\ Client.can_pass_turn g' = Server.can_pass_turn l'
        /\ Client.can_shoot g' = true /\ Server.can_shoot l' = true
        /\ Server.victor l' = Server.victor l).
Proof.
  intros H Hb Hp Hc.
  destruct g as [h t st sp g1 g2 br op turn s chk sh ps q].
  destruct l as [h' t' st' sp' g1' g2' br' op' turn' s' chk' sh' ps' cd sp0 v
                 td s1 s2 q1 q2].
  position_eq H. cbn in Hb, Hp, Hc. subst br' ps.
  destruct t' as [ts tp tl tw pr up bs rl pks im pim hold eight cue hit_
                  pocketed_ rail_].
  cbn in Hc. subst cue.
  destruct victor_ as [w|].
  - do 3 eexists.
    split; [vm_compute; reflexivity|]. split; [vm_compute; reflexivity|].
    split; [|discriminate].
    intros w' Hw. injection Hw as <-. repeat split.
  - destruct foul_; [|destruct can_continue]; destruct stop_open;
      destruct turn' as [|[|[|n]]];
      (do 3 eexists;
       split; [vm_compute; reflexivity|]; split; [vm_compute; reflexivity|];
       split; [discriminate|]; intros _; repeat split).
Qed.

Lemma server_victory_scan_some (l : Server.Lobby) pk : forall index w,
  Server.victory_scan l index pk = Some w ->
  exists b, In b pk /\ Sim.eight_ball (Server.table l) = Some b.
Proof.
  induction pk as [|b pk IH]; intros index w H; [discriminate|].
  cbn [Server.victory_scan] in H.
  destruct (Sim.is_ref b (Sim.eight_ball (Server.table l))) eqn:He.
  - exists b. split; [left; reflexivity|].
    unfold Sim.is_ref in He.
    destruct (Sim.eight_ball (Server.table l)) as [e|]; [|discriminate].
    apply Nat.eqb_eq in He. congruence.
  - destruct (IH _ _ H) as (x & Hx & H8). exists x. split; [right|]; assumption.
Qed.

(** X23.  After a shot that was not the break, the offline game's
    [_check_game_state] and the lobby's [__check_game_state] decide alike.
    Started from the same position (balls, table, group lists, open flag
    and turn), with the cue ball on the table and in neither group list,
    and the offline game's pass flag cleared as [_use_cue] leaves it, both
    return.  Either the 8-ball was pocketed: then the offline game reports
    the game as ended with a victory event for the player that the lobby
    records as victor; or it was not: then the game goes on, both are again
    in the same position, with the same pass flag and shooting allowed. *)
Theorem offline_and_server_agree (rack : Rack) (g : Client.Game)
        (l : Server.Lobby) (c : Sim.ref) :
  same_position g l ->
  Server.is_break l = false ->
  Client.can_pass_turn g = false ->
  Sim.cue_ball (Server.table l) = Some c ->
  ~ In c (Server.striped_balls l) ->
  ~ In c (Server.spotted_balls l) ->
  exists l' g' ended,
    Server.check_game_state rack l = Py.Ok l'
    /\ Client.check_game_state rack g = Py.Ok (g', ended)
    /\ (ended = true <-> eight_pocketed (Server.table l))
    /\ (ended = true ->
        exists w, Server.victor l' = Some w
                  /\ Server.to_delete l' = true
                  /\ Client.event_queue g' = [Client.ev_victory w])
    /\ (ended = false ->
        same_position g' l'
        /\ Client.can_pass_turn g' = Server.can_pass_turn l'
        /\ Client.can_shoot g' = true /\ Server.can_shoot l' = true
        /\ Server.victor l' = Server.victor l).
Proof.
  intros H Hb Hp Hc Hs1 Hs2.
  unfold Server.check_game_state, Client.check_game_state.
  assert (Ho : Client.is_open g = Server.is_open l).
  { unfold same_position, client_position, server_position in H. congruence. }
  rewrite Ho.
  (* the open-table check *)
  assert (Hopen : exists so l1 g1,
             (if Server.is_open l then Server.open_table_check l
              else (false, l)) = (so, l1)
             /\ (if Server.is_open l then Client.open_table_check g
                 else (false, g)) = (so, g1)
             /\ same_position g1 l1
             /\ Client.can_pass_turn g1 = false
             /\ Server.victor l1 = Server.victor l
             /\ Server.table l1 = Server.table l
             /\ Server.is_break l1 = false
             /\ Server.striped_balls l1 = Server.striped_balls l
             /\ Server.spotted_balls l1 = Server.spotted_balls l).
  { destruct (Server.is_open l).
    - destruct (same_open_table_check H) as (H1 & H2 & H3 & H4).
      destruct (server_open_table_check_view l)
        as (V1 & _ & _ & V4 & _ & _ & _ & V8 & V9).
      destruct (Server.open_table_check l) as [so l1].
      destruct (Client.open_table_check g) as [so' g1].
      cbn [fst snd] in *. subst so'.
      exists so, l1, g1. repeat split; congruence.
    - exists false, l, g. repeat split; assumption. }
  destruct Hopen as (so & l1 & g1 & -> & -> & H1 & Hp1 & Hv1 & Ht1 & Hb1
                     & Hst1 & Hsp1).
  assert (Hb1' : Client.is_break g1 = false).
  { unfold same_position, client_position, server_position in H1. congruence. }
  rewrite Hb1, Hb1'.
  (* the victory and foul checks *)
  unfold Client.victory_check, Server.victory_check.
  assert (Hgt1 : Client.table g1 = Server.table l1).
  { unfold same_position, client_position, server_position in H1. congruence. }
  rewrite Hgt1, (same_victory_scan _ H1).
  assert (Hc1 : Sim.cue_ball (Server.table l1) = Some c) by congruence.
  rewrite (@same_foul_check g1 l1 c H1 Hc1) by congruence.
  destruct (Server.foul_check l1) as [f rs]. cbn [fst].
  (* the pocketed balls *)
  destruct (same_remove_pocketed H1) as (R1 & R2 & R3 & R4).
  pose proof (server_remove_pocketed_view l1) as Rv.
  destruct (Server.remove_pocketed_balls l1) as [cc l2].
  destruct (Client.remove_pocketed_balls g1) as [cc' g2].
  cbn [fst snd] in *. subst cc'.
  unfold server_rules_view in Rv.
  assert (Hb2 : Server.is_break l2 = false) by congruence.
  assert (Hc2 : Sim.cue_ball (Server.table l2) = Some c) by congruence.
  assert (Hp2 : Client.can_pass_turn g2 = false) by congruence.
  destruct (@same_apply_rules rack g2 l2 c so f cc (Some rs)
              (Server.victory_scan l1 0 (Sim.pocketed (Server.table l1)))
              R2 Hb2 Hp2 Hc2)
    as (l' & g' & ended & A1 & A2 & A3 & A4).
  exists l', g', ended. split; [exact A1|]. split; [exact A2|].
  destruct (Server.victory_scan l1 0 (Sim.pocketed (Server.table l1)))
    as [w|] eqn:Hw.
  - destruct (A3 w eq_refl) as (-> & Hvic & Hdel & Hev).
    split; [|split].
    + split; [intros _|reflexivity].
      destruct (server_victory_scan_some _ _ _ Hw) as (b & Hin & H8).
      exists b. rewrite <- Ht1. split; assumption.
    + intros _. exists w. repeat split; assumption.
    + discriminate.
  - destruct (A4 eq_refl) as (-> & S1 & S2 & S3 & S4 & S5).
    split; [|split].
    + split; [discriminate|].
      intros (b & Hin & H8). exfalso.
      assert (Hn : Server.victory_check l1 <> None).
      { rewrite (@server_victory_check_value l1 b) by congruence.
        discriminate. }
      apply Hn. exact Hw.
    + discriminate.
    + intros _. repeat split; try assumption. congruence.
Qed.

Lemma offline_and_server_agree_witness :
  exists l' g',
    Server.check_game_state
      Sample.rack
      (Sample.lobby (Sample.shot_table [1] [1] []) false false 1
                    SpottedList StripedList
                    [9; 10; 11; 12; 13; 14; 15] [1; 2; 3; 4; 5; 6; 7])
    = Py.Ok l'
    /\ Client.check_game_state
         Sample.rack
         (Sample.game (Sample.shot_table [1] [1] []) false false 1
                      SpottedList StripedList
                      [9; 10; 11; 12; 13; 14; 15] [1; 2; 3; 4; 5; 6; 7])
       = Py.Ok (g', false)
    /\ same_position g' l'.
Proof.
  destruct (@offline_and_server_agree
              Sample.rack
              (Sample.game (Sample.shot_table [1] [1] []) false false 1
                           SpottedList StripedList
                           [9; 10; 11; 12; 13; 14; 15] [1; 2; 3; 4; 5; 6; 7])
              (Sample.lobby (Sample.shot_table [1] [1] []) false false 1
                            SpottedList StripedList
                            [9; 10; 11; 12; 13; 14; 15] [1; 2; 3; 4; 5; 6; 7])
              0)
    as (l' & g' & ended & H1 & H2 & H3 & _ & H5).
  - reflexivity.
  - reflexivity.
  - reflexivity.
  - reflexivity.
  - cbn [Sample.lobby Server.striped_balls In]. intuition lia.
  - cbn [Sample.lobby Server.spotted_balls In]. intuition lia.
  - destruct ended.
    + exfalso. destruct (proj1 H3 eq_refl) as (b & Hin & H8).
      cbn in Hin, H8. destruct Hin as [<-|[]]. discriminate H8.
    + exists l', g'. split; [exact H1|]. split; [exact H2|].
      apply H5. reflexivity.
Defined.

Lemma at_origin_fields (x y : Sim.Ball) :
  at_origin x = at_origin y ->
  Sim.can_collide x = Sim.can_collide y
  /\ Sim.vel x = Sim.vel y
  /\ Sim.applied_force x = Sim.applied_force y
  /\ Sim.new_pos x = Sim.new_pos y.
Proof.
  intros H.
  assert (H1 : Sim.can_collide (at_origin x) = Sim.can_collide (at_origin y))
    by (rewrite H; reflexivity).
  assert (H2 : Sim.vel (at_origin x) = Sim.vel (at_origin y))
    by (rewrite H; reflexivity).
  assert (H3 : Sim.applied_force (at_origin x) = Sim.applied_force (at_origin y))
    by (rewrite H; reflexivity).
  assert (H4 : Sim.new_pos (at_origin x) = Sim.new_pos (at_origin y))
    by (rewrite H; reflexivity).
  destruct x, y. cbn in H1, H2, H3, H4. cbn. auto.
Qed.

Lemma at_origin_out_of_play (x y : Sim.Ball) :
  at_origin x = at_origin y -> out_of_play y -> out_of_play x.
Proof.
  intros H (Hc & Hm & Hf).
  destruct (@at_origin_fields _ _ H) as (H1 & H2 & H3 & _).
  unfold out_of_play, Sim.moving in *. rewrite H1, H2, H3. auto.
Qed.

Lemma at_origin_attempted (x : Sim.Ball) :
  at_origin (Sim.set_attempted false x) = at_origin x.
Proof. destruct x; reflexivity. Qed.

Lemma at_origin_update_position (x : Sim.Ball) :
  at_origin (Sim.update_position x) = at_origin x.
Proof. destruct x; reflexivity. Qed.

Lemma upd_same (h : Sim.Heap) (r : Sim.ref) (x : Sim.Ball) :
  Sim.upd h r x r = x.
Proof. unfold Sim.upd. rewrite Nat.eqb_refl. reflexivity. Qed.

Lemma upd_other (h : Sim.Heap) (r b : Sim.ref) (x : Sim.Ball) :
  b <> r -> Sim.upd h r x b = h b.
Proof.
  intros H. unfold Sim.upd. destruct (Nat.eqb_spec b r); [contradiction|].
  reflexivity.
Qed.

(** The first loop of [Table.update]. *)
Lemma motion_step_keeps time ball h t h' t' b :
  Sim.update_motion_step time ball (h, t) = Py.Ok (h', t') ->
  out_of_play (h b) ->
  at_origin (h' b) = at_origin (h b)
  /\ Sim.pos (h' b) = Sim.pos (h b)
  /\ Sim.balls t' = Sim.balls t
  /\ Sim.hit t' = Sim.hit t
  /\ Sim.rail_contacts t' = Sim.rail_contacts t
  /\ Sim.pocketed t' = Sim.pocketed t.
Proof.
  intros Hrun (Hc & Hm & Hf). unfold Sim.update_motion_step in Hrun.
  destruct (Nat.eq_dec ball b) as [->|Hne].
  - rewrite Hm, Hf in Hrun. cbn [Sim.is_some orb] in Hrun.
    destruct (Sim.attempted_force_application (h b));
      injection Hrun as <- <-.
    + rewrite upd_same. split; [apply at_origin_attempted|].
      split; [destruct (h b); reflexivity|].
      destruct t; repeat split.
    + repeat split.
  - destruct (Sim.moving (h ball) || Sim.is_some (Sim.applied_force (h ball))).
    + destruct (Sim.update_physics (h ball) time) as [x| |];
        cbn [Py.bind] in Hrun; try discriminate.
      injection Hrun as <- <-. rewrite upd_other by congruence.
      destruct t; repeat split.
    + destruct (Sim.attempted_force_application (h ball));
        injection Hrun as <- <-.
      * rewrite upd_other by congruence. destruct t; repeat split.
      * repeat split.
Qed.

Lemma motion_loop_keeps time b : forall l h t h' t',
  Sim.for_each l (Sim.update_motion_step time) (h, t) = Py.Ok (h', t') ->
  out_of_play (h b) ->
  at_origin (h' b) = at_origin (h b)
  /\ Sim.pos (h' b) = Sim.pos (h b)
  /\ Sim.balls t' = Sim.balls t
  /\ Sim.hit t' = Sim.hit t
  /\ Sim.rail_contacts t' = Sim.rail_contacts t
  /\ Sim.pocketed t' = Sim.pocketed t.
Proof.
  induction l as [|a l IH]; intros h t h' t' Hrun Hout;
    cbn [Sim.for_each] in Hrun.
  - injection Hrun as <- <-. repeat split.
  - destruct (Sim.update_motion_step time a (h, t)) as [[h1 t1]| |] eqn:Hs;
      cbn [Py.bind] in Hrun; try discriminate.
    destruct (@motion_step_keeps _ _ _ _ _ _ b Hs Hout)
      as (A1 & A0 & A2 & A3 & A4 & A5).
    destruct (IH _ _ _ _ Hrun (@at_origin_out_of_play _ _ A1 Hout))
      as (B1 & B0 & B2 & B3 & B4 & B5).
    repeat split; congruence.
Qed.

(** [Ball.get_collisions] of another ball. *)
Lemma get_collisions_step_keeps fuel self ball h hit h' hit' b :
  Sim.get_collisions_step fuel self ball (h, hit) = Py.Ok (h', hit') ->
  self <> b ->
  Sim.can_collide (h b) = false ->
  h' b = h b /\ (In b hit' -> In b hit).
Proof.
  intros Hrun Hs Hc. unfold Sim.get_collisions_step in Hrun.
  destruct (negb (ball =? self) && Sim.can_collide (h ball)
            && Sim.check_collision_ball (h self) (h ball)) eqn:Hcond.
  - assert (Hb : ball <> b).
    { intros ->. rewrite Hc in Hcond.
      rewrite andb_false_r in Hcond. discriminate. }
    destruct (Sim.collide_with_ball fuel (h self) (h ball)) as [[s x]| |];
      cbn [Py.bind] in Hrun; try discriminate.
    injection Hrun as <- <-.
    rewrite !upd_other by congruence. split; [reflexivity|].
    intros Hin. apply in_app_or in Hin. destruct Hin as [Hin|[Hin|[]]];
      [exact Hin|congruence].
  - injection Hrun as <- <-. auto.
Qed.

Lemma get_collisions_loop_keeps fuel self b : forall l h hit h' hit',
  Sim.for_each l (Sim.get_collisions_step fuel self) (h, hit)
  = Py.Ok (h', hit') ->
  self <> b ->
  Sim.can_collide (h b) = false ->
  h' b = h b /\ (In b hit' -> In b hit).
Proof.
  induction l as [|a l IH]; intros h hit h' hit' Hrun Hs Hc;
    cbn [Sim.for_each] in Hrun.
  - injection Hrun as <- <-. auto.
  - destruct (Sim.get_collisions_step fuel self a (h, hit)) as [[h1 hit1]| |]
      eqn:Hstep; cbn [Py.bind] in Hrun; try discriminate.
    destruct (@get_collisions_step_keeps _ _ _ _ _ _ _ b Hstep Hs Hc) as (A1 & A2).
    assert (Hc1 : Sim.can_collide (h1 b) = false) by congruence.
    destruct (IH _ _ _ _ Hrun Hs Hc1) as (B1 & B2).
    split; [congruence|auto].
Qed.

Lemma rails_keep self b : forall rails h,
  self <> b ->
  fold_left (Sim.get_collisions_rail self) rails h b = h b.
Proof.
  induction rails as [|r rails IH]; intros h Hs; cbn [fold_left];
    [reflexivity|].
  rewrite IH by exact Hs. unfold Sim.get_collisions_rail.
  destruct (Sim.check_collision_line (h self) r); [|reflexivity].
  apply upd_other. congruence.
Qed.

Lemma get_collisions_keeps fuel self l rails lo up h h' cw b :
  Sim.get_collisions fuel self l rails lo up h = Py.Ok (h', cw) ->
  self <> b ->
  Sim.can_collide (h b) = false ->
  h' b = h b /\ ~ In b cw.
Proof.
  intros Hrun Hs Hc. unfold Sim.get_collisions in Hrun.
  destruct (Sim.for_each l (Sim.get_collisions_step fuel self) (h, []))
    as [[h1 hit1]| |] eqn:Hloop; cbn [Py.bind] in Hrun; try discriminate.
  destruct (@get_collisions_loop_keeps _ _ b _ _ _ _ _ Hloop Hs Hc) as (A1 & A2).
  injection Hrun as <- <-. split; [|exact A2].
  destruct (negb _).
  - destruct (Sim.resolve_bounding_box_collision _ _ _) as [s outside].
    rewrite upd_other by congruence. rewrite rails_keep by exact Hs. exact A1.
  - rewrite rails_keep by exact Hs. exact A1.
Qed.

Lemma record_hit_enters t x b :
  In b (Sim.hit (Sim.record_hit t x)) -> In b (Sim.hit t) \/ b = x.
Proof.
  unfold Sim.record_hit. destruct (_ && _); [|auto].
  destruct t; cbn. intros H. apply in_app_or in H.
  destruct H as [H|[H|[]]]; auto.
Qed.

Lemma record_hit_lists t x :
  Sim.balls (Sim.record_hit t x) = Sim.balls t
  /\ Sim.rail_contacts (Sim.record_hit t x) = Sim.rail_contacts t
  /\ Sim.pocketed (Sim.record_hit t x) = Sim.pocketed t.
Proof.
  unfold Sim.record_hit. destruct (_ && _); [|auto]. destruct t; cbn; auto.
Qed.

Lemma record_hits_enter b : forall l t,
  In b (Sim.hit (fold_left Sim.record_hit l t)) -> In b (Sim.hit t) \/ In b l.
Proof.
  induction l as [|x l IH]; intros t H; cbn [fold_left] in H; [auto|].
  destruct (IH _ H) as [H1|H1]; [|right; right; exact H1].
  destruct (@record_hit_enters _ _ _ H1) as [H2|H2]; [auto|].
  right. left. congruence.
Qed.

Lemma record_hits_lists : forall l t,
  Sim.balls (fold_left Sim.record_hit l t) = Sim.balls t
  /\ Sim.rail_contacts (fold_left Sim.record_hit l t) = Sim.rail_contacts t
  /\ Sim.pocketed (fold_left Sim.record_hit l t) = Sim.pocketed t.
Proof.
  induction l as [|x l IH]; intros t; cbn [fold_left]; [auto|].
  destruct (IH (Sim.record_hit t x)) as (A1 & A2 & A3).
  destruct (record_hit_lists t x) as (B1 & B2 & B3).
  repeat split; congruence.
Qed.

Lemma record_rail_contact_enters h t x b :
  In b (Sim.rail_contacts (Sim.record_rail_contact h t x)) ->
  In b (Sim.rail_contacts t) \/ b = x.
Proof.
  unfold Sim.record_rail_contact. destruct (_ && _); [|auto].
  destruct t; cbn. intros H. apply in_app_or in H.
  destruct H as [H|[H|[]]]; auto.
Qed.

Lemma record_rail_contact_lists h t x :
  Sim.balls (Sim.record_rail_contact h t x) = Sim.balls t
  /\ Sim.hit (Sim.record_rail_contact h t x) = Sim.hit t
  /\ Sim.pocketed (Sim.record_rail_contact h t x) = Sim.pocketed t.
Proof.
  unfold Sim.record_rail_contact. destruct (_ && _); [|auto].
  destruct t; cbn; auto.
Qed.

(** [Table.resolve_collisions]. *)
Lemma resolve_collisions_step_keeps fuel ball h t h' t' b :
  Sim.resolve_collisions_step fuel ball (h, t) = Py.Ok (h', t') ->
  Sim.can_collide (h b) = false ->
  h' b = h b
  /\ Sim.balls t' = Sim.balls t
  /\ not_entered b t t'.
Proof.
  intros Hrun Hc. unfold Sim.resolve_collisions_step in Hrun.
  destruct (negb (Sim.colliding (h ball)) && Sim.can_collide (h ball)
            && Sim.moving (h ball)) eqn:Hcond.
  - assert (Hb : ball <> b).
    { intros ->. rewrite Hc in Hcond.
      rewrite andb_false_r in Hcond. discriminate. }
    destruct (Sim.get_collisions fuel ball (Sim.balls t) (Sim.rails t)
                (Sim.t_pos t) (Sim.upper_pos t) h) as [[h1 cw]| |] eqn:Hg;
      cbn [Py.bind] in Hrun; try discriminate.
    destruct (@get_collisions_keeps _ _ _ _ _ _ _ _ _ b Hg Hb Hc) as (A1 & A2).
    injection Hrun as <- <-. split; [exact A1|].
    destruct (record_rail_contact_lists
                h1 (if Sim.colliding (h1 ball)
                    then fold_left Sim.record_hit cw (Sim.record_hit t ball)
                    else t) ball) as (R1 & R2 & R3).
    assert (Hin : (if Sim.colliding (h1 ball)
                   then fold_left Sim.record_hit cw (Sim.record_hit t ball)
                   else t)
                  = (if Sim.colliding (h1 ball)
                     then fold_left Sim.record_hit cw (Sim.record_hit t ball)
                     else t)) by reflexivity.
    destruct (Sim.colliding (h1 ball)).
    + destruct (record_hits_lists cw (Sim.record_hit t ball)) as (F1 & F2 & F3).
      destruct (record_hit_lists t ball) as (G1 & G2 & G3).
      split; [congruence|]. split; [|split].
      * rewrite R2. intros H. apply record_hits_enter in H.
        destruct H as [H|H]; [|contradiction].
        apply record_hit_enters in H. destruct H as [H|H]; [exact H|congruence].
      * intros H. apply record_rail_contact_enters in H.
        destruct H as [H|H]; [|congruence]. congruence.
      * rewrite R3, F3, G3. auto.
    + split; [congruence|]. split; [|split].
      * rewrite R2. auto.
      * intros H. apply record_rail_contact_enters in H.
        destruct H as [H|H]; [exact H|congruence].
      * rewrite R3. auto.
  - injection Hrun as <- <-. unfold not_entered. auto.
Qed.

Lemma resolve_collisions_loop_keeps fuel b : forall l h t h' t',
  Sim.for_each l (Sim.resolve_collisions_step fuel) (h, t) = Py.Ok (h', t') ->
  Sim.can_collide (h b) = false ->
  h' b = h b
  /\ Sim.balls t' = Sim.balls t
  /\ not_entered b t t'.
Proof.
  induction l as [|a l IH]; intros h t h' t' Hrun Hc;
    cbn [Sim.for_each] in Hrun.
  - injection Hrun as <- <-. unfold not_entered. auto.
  - destruct (Sim.resolve_collisions_step fuel a (h, t)) as [[h1 t1]| |]
      eqn:Hstep; cbn [Py.bind] in Hrun; try discriminate.
    destruct (@resolve_collisions_step_keeps _ _ _ _ _ _ b Hstep Hc)
      as (A1 & A2 & A3 & A4 & A5).
    assert (Hc1 : Sim.can_collide (h1 b) = false) by congruence.
    destruct (IH _ _ _ _ Hrun Hc1) as (B1 & B2 & B3 & B4 & B5).
    split; [congruence|]. split; [congruence|].
    unfold not_entered. auto.
Qed.

(** [for ball in self.balls: ball.update_position()]. *)
Lemma commit_loop_keeps b : forall l h,
  let h' := fold_left (fun h ball => Sim.upd h ball (Sim.update_position (h ball)))
                      l h in
  at_origin (h' b) = at_origin (h b)
  /\ (In b l -> Sim.pos (h' b) = Sim.new_pos (h b))
  /\ (~ In b l -> h' b = h b).
Proof.
  induction l as [|a l IH]; intros h; cbn [fold_left].
  - cbv zeta. split; [reflexivity|]. split; [intros []|reflexivity].
  - cbv zeta in *.
    destruct (IH (Sim.upd h a (Sim.update_position (h a)))) as (A1 & A2 & A3).
    destruct (Nat.eq_dec a b) as [->|Hne].
    + rewrite upd_same in A1, A2, A3.
      assert (Hn : Sim.new_pos (Sim.update_position (h b)) = Sim.new_pos (h b))
        by (destruct (h b); reflexivity).
      assert (Hp : Sim.pos (Sim.update_position (h b)) = Sim.new_pos (h b)).
      { destruct (h b) as [p ? ? ? np ? ? ? ? ? ? ? ? ? ? ?]. cbn.
        destruct np; reflexivity. }
      split; [rewrite A1; apply at_origin_update_position|].
      split; [|intros H; exfalso; apply H; left; reflexivity].
      intros _. destruct (in_dec Nat.eq_dec b l) as [Hin|Hin].
      * rewrite (A2 Hin). exact Hn.
      * rewrite (A3 Hin). exact Hp.
    + rewrite upd_other in A1, A2, A3 by congruence.
      split; [exact A1|]. split.
      * intros [H|H]; [congruence|]. exact (A2 H).
      * intros H. apply A3. intros Hin. apply H. right. exact Hin.
Qed.

(** ** The strike-attempt flag of a ball in hand *)

Lemma motion_step_flag time ball h t h' t' b :
  Sim.update_motion_step time ball (h, t) = Py.Ok (h', t') ->
  out_of_play (h b) ->
  (ball <> b -> h' b = h b)
  /\ (ball = b -> Sim.attempted_force_application (h' b) = false)
  /\ (Sim.attempted_force_application (h b) = false ->
      Sim.attempted_force_application (h' b) = false).
Proof.
  intros Hrun (Hc & Hm & Hf). unfold Sim.update_motion_step in Hrun.
  destruct (Nat.eq_dec ball b) as [->|Hne].
  - rewrite Hm, Hf in Hrun. cbn [Sim.is_some orb] in Hrun.
    destruct (Sim.attempted_force_application (h b)) eqn:Ha;
      injection Hrun as <- <-.
    + rewrite upd_same. split; [congruence|]. split; reflexivity.
    + split; [congruence|]. split; intros; exact Ha.
  - destruct (Sim.moving (h ball) || Sim.is_some (Sim.applied_force (h ball))).
    + destruct (Sim.update_physics (h ball) time) as [x| |];
        cbn [Py.bind] in Hrun; try discriminate.
      injection Hrun as <- <-. rewrite upd_other by congruence.
      split; [reflexivity|]. split; [congruence|auto].
    + destruct (Sim.attempted_force_application (h ball));
        injection Hrun as <- <-.
      * rewrite upd_other by congruence.
        split; [reflexivity|]. split; [congruence|auto].
      * split; [reflexivity|]. split; [congruence|auto].
Qed.

Lemma motion_loop_flag time b : forall l h t h' t',
  Sim.for_each l (Sim.update_motion_step time) (h, t) = Py.Ok (h', t') ->
  out_of_play (h b) ->
  (~ In b l -> h' b = h b)
  /\ (In b l -> Sim.attempted_force_application (h' b) = false)
  /\ (Sim.attempted_force_application (h b) = false ->
      Sim.attempted_force_application (h' b) = false).
Proof.
  induction l as [|a l IH]; intros h t h' t' Hrun Hout;
    cbn [Sim.for_each] in Hrun.
  - injection Hrun as <- <-. split; [reflexivity|]. split; [intros []|auto].
  - destruct (Sim.update_motion_step time a (h, t)) as [[h1 t1]| |] eqn:Hs;
      cbn [Py.bind] in Hrun; try discriminate.
    destruct (@motion_step_keeps _ _ _ _ _ _ b Hs Hout) as (A1 & _).
    destruct (@motion_step_flag _ _ _ _ _ _ b Hs Hout) as (F1 & F2 & F3).
    destruct (IH _ _ _ _ Hrun (@at_origin_out_of_play _ _ A1 Hout))
      as (G1 & G2 & G3).
    split; [|split].
    + intros Hn. rewrite G1 by (intros H; apply Hn; right; exact H).
      apply F1. intros ->. apply Hn. left. reflexivity.
    + intros [->|Hin].
      * apply G3, F2. reflexivity.
      * apply G2, Hin.
    + intros Ha. apply G3, F3, Ha.
Qed.

Lemma commit_loop_flag b : forall l h,
  Sim.attempted_force_application
    (fold_left (fun h ball => Sim.upd h ball (Sim.update_position (h ball)))
               l h b)
  = Sim.attempted_force_application (h b).
Proof.
  induction l as [|a l IH]; intros h; cbn [fold_left]; [reflexivity|].
  rewrite IH. destruct (Nat.eq_dec a b) as [->|Hne].
  - rewrite upd_same. reflexivity.
  - rewrite upd_other by congruence. reflexivity.
Qed.

(** X24.  A ball that does not collide, does not move and has no impulse
    in flight (the cue ball in hand after a foul) takes no part in a
    [Table.update] that returns: it is not entered in the [hit],
    [rail_contacts] or [pocketed] lists and it is still out of play
    afterwards.  If it is not in the table's list of balls it is left
    exactly as it was.  If it is, its strike-attempt flag is [False]
    afterwards, [update_position] moves its position to its new position,
    and apart from its position, its previous position and that flag none
    of its attributes changes. *)
Theorem ball_in_hand_out_of_play (fuel : nat) (time : R) (h h' : Sim.Heap)
        (t t' : Sim.Table) (b : Sim.ref) :
  Sim.update fuel time (h, t) = Py.Ok (h', t') ->
  out_of_play (h b) ->
  out_of_play (h' b)
  /\ not_entered b t t'
  /\ (~ In b (Sim.balls t) -> h' b = h b)
  /\ (In b (Sim.balls t) ->
      Sim.attempted_force_application (h' b) = false
      /\ Sim.pos (h' b) = Sim.new_pos (h b))
  /\ Sim.set_attempted false
       (Sim.set_old_pos Vec.zero (Sim.set_pos Vec.zero (h' b)))
     = Sim.set_attempted false
         (Sim.set_old_pos Vec.zero (Sim.set_pos Vec.zero (h b))).
Proof.
  intros Hrun Hout. unfold Sim.update in Hrun.
  destruct (Sim.update_motion time (h, t)) as [[h1 t1]| |] eqn:H1;
    cbn [Py.bind] in Hrun; try discriminate.
  destruct (Sim.resolve_collisions fuel (h1, t1)) as [[h2 t2]| |] eqn:H2;
    cbn [Py.bind] in Hrun; try discriminate.
  rewrite update_motion_unfold in H1.
  destruct (@motion_loop_keeps _ b _ _ _ _ _ H1 Hout)
    as (A1 & A0 & A2 & A3 & A4 & A5).
  destruct (@motion_loop_flag _ b _ _ _ _ _ H1 Hout) as (F1 & F2 & _).
  cbn [Sim.balls Sim.set_in_motion Sim.set_previously_in_motion] in F1, F2.
  pose proof (@at_origin_out_of_play _ _ A1 Hout) as Hout1.
  unfold Sim.resolve_collisions in H2. cbn [snd] in H2.
  destruct (@resolve_collisions_loop_keeps _ b _ _ _ _ _ H2 (proj1 Hout1))
    as (B1 & B2 & B3 & B4 & B5).
  destruct (@commit_loop_keeps b (Sim.balls t2) h2) as (C1 & C2 & C3).
  pose proof (@commit_loop_flag b (Sim.balls t2) h2) as C4.
  cbv zeta in C1, C2, C3. fold (Sim.commit_positions h2 t2) in C1, C2, C3, C4.
  assert (D1 : at_origin (Sim.commit_positions h2 t2 b) = at_origin (h b))
    by congruence.
  pose proof (@at_origin_out_of_play _ _ D1 Hout) as Hout3.
  destruct (resolve_pockets_spec (Sim.commit_positions h2 t2) t2)
    as (h3 & t3 & new & Hp & Hpk & _ & Hfix & Hnew & Hheap & _).
  rewrite Hp in Hrun. injection Hrun as <- <-.
  assert (Hnot : ~ In b new).
  { intros Hin. apply Hnew in Hin. unfold Sim.enters_pocket in Hin.
    destruct Hout3 as (_ & Hm & _). rewrite Hm in Hin. discriminate. }
  assert (E : h3 b = Sim.commit_positions h2 t2 b).
  { destruct (Hheap b) as [E|(_ & Hin & _)]; [exact E|contradiction]. }
  destruct Hfix as (_ & _ & _ & _ & _ & _ & Fh & Fr).
  assert (Hballs : Sim.balls t2 = Sim.balls t).
  { rewrite B2, A2. destruct t; reflexivity. }
  assert (Hhit1 : Sim.hit t1 = Sim.hit t) by (rewrite A3; destruct t; reflexivity).
  assert (Hrail1 : Sim.rail_contacts t1 = Sim.rail_contacts t)
    by (rewrite A4; destruct t; reflexivity).
  assert (Hpk1 : Sim.pocketed t1 = Sim.pocketed t)
    by (rewrite A5; destruct t; reflexivity).
  rewrite E. split; [exact Hout3|].
  destruct (@at_origin_fields _ _ A1) as (_ & _ & _ & N1).
  split; [|split; [|split]].
  - split; [|split].
    + rewrite Fh, <- Hhit1. exact B3.
    + rewrite Fr, <- Hrail1. exact B4.
    + rewrite Hpk. intros Hin. apply in_app_or in Hin.
      destruct Hin as [Hin|Hin]; [|contradiction].
      rewrite <- Hpk1. exact (B5 Hin).
  - intros Hin. rewrite C3 by (rewrite Hballs; exact Hin). rewrite B1.
    apply F1, Hin.
  - intros Hin. split.
    + rewrite C4, B1. apply F2, Hin.
    + rewrite C2 by (rewrite Hballs; exact Hin). congruence.
  - exact D1.
Qed.

(** ** The rack, slot by slot *)

Lemma refs_where_app f : forall l start p,
  refs_where f start (l ++ [p])
  = refs_where f start l
    ++ (if f (fst (fst p)) then [start + List.length l] else []).
Proof.
  induction l as [|q l IH]; intros start p; cbn [refs_where app List.length].
  - rewrite Nat.add_0_r, app_nil_r. reflexivity.
  - rewrite IH, <- app_assoc.
    replace (S start + List.length l) with (start + S (List.length l)) by lia.
    reflexivity.
Qed.

Lemma info_eqb_eq (a b : Racking.Info) :
  Racking.info_eqb a b = true <-> a = b.
Proof.
  destruct a as [n [[r g] bl]], b as [n' [[r' g'] bl']].
  unfold Racking.info_eqb. rewrite !andb_true_iff, !Z.eqb_eq.
  split; [intros (((-> & ->) & ->) & ->); reflexivity|].
  intros H. injection H as -> -> -> ->. auto.
Qed.

Lemma remove_in (x : Racking.Info) : forall l,
  In x l ->
  exists l', Racking.remove x l = Py.Ok l' /\ Permutation l (x :: l').
Proof.
  induction l as [|y l IH]; intros Hin; [destruct Hin|].
  cbn [Racking.remove]. destruct (Racking.info_eqb x y) eqn:He.
  - apply info_eqb_eq in He. subst y. exists l. split; reflexivity.
  - destruct Hin as [->|Hin].
    + assert (Ht : Racking.info_eqb x x = true) by (apply info_eqb_eq; reflexivity).
      congruence.
    + destruct (IH Hin) as (l' & Hr & Hp). rewrite Hr. cbn [Py.bind].
      exists (y :: l'). split; [reflexivity|].
      rewrite Hp. apply perm_swap.
Qed.

Lemma choice_in {A} (pick : nat) (l : list A) :
  l <> [] -> exists a, Racking.choice pick l = Py.Ok a /\ In a l.
Proof.
  intros Hne. unfold Racking.choice.
  assert (Hlt : pick mod List.length l < List.length l).
  { apply Nat.mod_upper_bound. destruct l; [congruence|discriminate]. }
  destruct (nth_error l (pick mod List.length l)) as [a|] eqn:Hn.
  - exists a. split; [reflexivity|]. eapply nth_error_In. exact Hn.
  - apply nth_error_None in Hn. lia.
Qed.

Lemma to_tuple_pair (v : Vec.Vector2D) :
  VecArgs.to_tuple 3 v
  = Py.Ok (VecArgs.VSeq [VecArgs.VFloat (Vec.x v); VecArgs.VFloat (Vec.y v)]).
Proof. reflexivity. Qed.

Lemma balls_info_not_eight (x : Racking.Info) :
  In x Racking.balls_info -> (fst x =? 8)%Z = false.
Proof.
  unfold Racking.balls_info, Racking.base_info. cbn [map app fst snd In].
  intros H.
  repeat (destruct H as [<-|H]; [reflexivity|]). destruct H.
Qed.

Lemma nth_error_snoc {A} (l : list A) (p : A) (r : nat) :
  nth_error (l ++ [p]) r
  = if r =? List.length l then Some p else nth_error l r.
Proof.
  destruct (Nat.eqb_spec r (List.length l)) as [->|Hne].
  - rewrite nth_error_app2 by lia. rewrite Nat.sub_diag. reflexivity.
  - destruct (Nat.lt_ge_cases r (List.length l)) as [Hlt|Hge].
    + apply nth_error_app1. exact Hlt.
    + rewrite nth_error_app2 by lia.
      assert (Hn : nth_error l r = None) by (apply nth_error_None; lia).
      rewrite Hn. destruct (r - List.length l) as [|k] eqn:Hk; [lia|].
      destruct k; reflexivity.
Qed.

(** One pass of the inner loop. *)
Lemma place_spec (s : Sim.Settings) (picks : nat -> nat) (h0 : Sim.Heap)
      (rp : Vec.Vector2D) (i j : nat) (st : Racking.State)
      placed drawn eight (xo yo : R) :
  rack_inv s h0 st placed drawn eight ->
  Racking.x_offset st = xo ->
  Racking.y_offset st = yo ->
  let pos := Vec.add rp (Vec.mkVec xo (yo + Sim.ball_radius s * (22 / 10) * INR j))%R in
  (((i =? 3) && (j =? 1)) = true ->
   exists st',
     Racking.place s picks rp i j st = Py.Ok st'
     /\ rack_inv s h0 st' (placed ++ [(Racking.eight_info, pos)]) drawn
                 (Some (List.length placed))
     /\ Racking.x_offset st' = xo /\ Racking.y_offset st' = yo)
  /\ (((i =? 3) && (j =? 1)) = false ->
      List.length drawn < 14 ->
      exists st' x,
        Racking.place s picks rp i j st = Py.Ok st'
        /\ rack_inv s h0 st' (placed ++ [(x, pos)]) (drawn ++ [x]) eight
        /\ Racking.x_offset st' = xo /\ Racking.y_offset st' = yo).
Proof.
  intros (Hn & Hh & Ht & Hst & Hsp & Hts & Hperm) Hx Hy pos.
  assert (Hheap : forall (x : Racking.Info) r,
             Sim.upd (Racking.heap st) (Racking.next st)
               (Sim.Ball_init pos s (8 <? fst x)%Z (Some (fst x))) r
             = match nth_error (placed ++ [(x, pos)]) r with
               | Some p => ball_of s p
               | None => h0 r
               end).
  { intros x r. rewrite nth_error_snoc, Hn. unfold Sim.upd.
    destruct (r =? List.length placed); [reflexivity|apply Hh]. }
  assert (Hlen : forall x : Racking.Info,
             List.length (placed ++ [(x, pos)]) = S (List.length placed)).
  { intros x. rewrite length_app. cbn [List.length]. lia. }
  split.
  - intros Hs. unfold Racking.place. rewrite Hs. cbn [Py.bind].
    rewrite Hx, Hy. fold pos. rewrite to_tuple_pair. cbn [Py.bind].
    eexists. split; [reflexivity|].
    split; [|split; reflexivity].
    unfold rack_inv.
    cbn [Racking.next Racking.heap Racking.table Racking.striped_balls
         Racking.spotted_balls Racking.to_send Racking.infos
         Racking.eight_info fst snd].
    split; [rewrite Hlen; congruence|].
    split; [exact (Hheap Racking.eight_info)|].
    split.
    { unfold Sim.add_ball. rewrite upd_same.
      cbn [Sim.number Sim.Ball_init]. rewrite Ht, Hlen, Hn.
      rewrite seq_S. reflexivity. }
    rewrite !refs_where_app. cbn [fst snd Racking.eight_info].
    change (is_striped_number 8) with false.
    change (is_spotted_number 8) with false.
    change (8 <? 8)%Z with false. change (8 =? 8)%Z with true.
    cbn [negb]. rewrite !app_nil_r.
    split; [exact Hst|]. split; [exact Hsp|].
    split; [|exact Hperm].
    rewrite map_app, Hts. reflexivity.
  - intros Hs Hd. unfold Racking.place. rewrite Hs.
    assert (Hne : Racking.infos st <> []).
    { intros He. apply Permutation_length in Hperm.
      rewrite He in Hperm. cbn in Hperm. lia. }
    destruct (@choice_in _ (picks (Racking.next st)) _ Hne) as (x & Hc & Hin).
    destruct (@remove_in x _ Hin) as (l' & Hr & Hp).
    rewrite Hc. cbn [Py.bind]. rewrite Hr. cbn [Py.bind].
    rewrite Hx, Hy. fold pos. rewrite to_tuple_pair. cbn [Py.bind].
    assert (H8 : (fst x =? 8)%Z = false).
    { apply balls_info_not_eight.
      eapply Permutation_in; [exact Hperm|]. apply in_or_app. left. exact Hin. }
    exists (Racking.mkState
              (Sim.upd (Racking.heap st) (Racking.next st)
                 (Sim.Ball_init pos s (8 <? fst x)%Z (Some (fst x))))
              (Sim.add_ball
                 (Sim.upd (Racking.heap st) (Racking.next st)
                    (Sim.Ball_init pos s (8 <? fst x)%Z (Some (fst x))))
                 (Racking.table st) (Racking.next st))
              (if (8 <? fst x)%Z
               then Racking.striped_balls st ++ [Racking.next st]
               else Racking.striped_balls st)
              (if (8 <? fst x)%Z then Racking.spotted_balls st
               else if negb (fst x =? 8)%Z
                    then Racking.spotted_balls st ++ [Racking.next st]
                    else Racking.spotted_balls st)
              (Racking.to_send st
               ++ [(fst x, snd x,
                    VecArgs.VSeq [VecArgs.VFloat (Vec.x pos);
                                  VecArgs.VFloat (Vec.y pos)])])
              l' xo yo (S (Racking.next st))), x.
    split; [reflexivity|].
    split; [|split; reflexivity].
    unfold rack_inv.
    cbn [Racking.next Racking.heap Racking.table Racking.striped_balls
         Racking.spotted_balls Racking.to_send Racking.infos fst snd].
    split; [rewrite Hlen; congruence|].
    split; [exact (Hheap x)|].
    split.
    { unfold Sim.add_ball. rewrite upd_same.
      cbn [Sim.number Sim.Ball_init]. rewrite Ht, Hlen, Hn, seq_S.
      apply Z.eqb_neq in H8.
      destruct (fst x) as [|q|q]; try reflexivity.
      destruct q as [[[[|q|]|[|q|]|]|[[|q|]|[|q|]|]|]|[[[|q|]|[|q|]|]|[[|q|]|[|q|]|]|]|];
        try reflexivity; congruence. }
    rewrite !refs_where_app. cbn [fst snd].
    unfold is_striped_number, is_spotted_number. rewrite H8, Hn. cbn [negb].
    split.
    { rewrite Hst. destruct (8 <? fst x)%Z; rewrite ?app_nil_r; reflexivity. }
    split.
    { rewrite Hsp. destruct (8 <? fst x)%Z; cbn [negb andb];
        rewrite ?app_nil_r; reflexivity. }
    split; [rewrite map_app, Hts; reflexivity|].
    rewrite <- Hperm.
    rewrite (Permutation_app_comm drawn [x]). cbn [app].
    rewrite Hp. symmetry. apply Permutation_middle.
Qed.

Lemma next_row_at_slot s h0 st placed drawn eight xo yo :
  at_slot s h0 st placed drawn eight xo yo ->
  at_slot s h0 (Racking.next_row s st) placed drawn eight
          (xo + Sim.ball_radius s * 2)%R (yo - Sim.ball_radius s * (11 / 10))%R.
Proof.
  intros (Hinv & Hx & Hy). unfold at_slot, Racking.next_row.
  cbn [Racking.x_offset Racking.y_offset]. rewrite Hx, Hy.
  split; [|split; reflexivity]. exact Hinv.
Qed.

Lemma place_eight s picks h0 rp st placed drawn eight xo yo :
  at_slot s h0 st placed drawn eight xo yo ->
  exists st',
    Racking.place s picks rp 3 1 st = Py.Ok st'
    /\ at_slot s h0 st'
         (placed
          ++ [(Racking.eight_info,
               Vec.add rp (Vec.mkVec xo (yo + Sim.ball_radius s * (22 / 10)
                                              * INR 1)%R))])
         drawn (Some (List.length placed)) xo yo.
Proof.
  intros (Hinv & Hx & Hy).
  destruct (@place_spec s picks h0 rp 3 1 st placed drawn eight xo yo
              Hinv Hx Hy) as (H8 & _).
  destruct (H8 eq_refl) as (st' & Hp & Hi & Hx' & Hy').
  exists st'. split; [exact Hp|]. split; [exact Hi|]. split; assumption.
Qed.

Lemma place_drawn s picks h0 rp i j st placed drawn eight xo yo :
  at_slot s h0 st placed drawn eight xo yo ->
  ((i =? 3) && (j =? 1)) = false ->
  List.length drawn < 14 ->
  exists st' x,
    Racking.place s picks rp i j st = Py.Ok st'
    /\ at_slot s h0 st'
         (placed
          ++ [(x, Vec.add rp (Vec.mkVec xo (yo + Sim.ball_radius s * (22 / 10)
                                                 * INR j)%R))])
         (drawn ++ [x]) eight xo yo.
Proof.
  intros (Hinv & Hx & Hy) Hs Hd.
  destruct (@place_spec s picks h0 rp i j st placed drawn eight xo yo
              Hinv Hx Hy) as (_ & Hdr).
  destruct (Hdr Hs Hd) as (st' & x & Hp & Hi & Hx' & Hy').
  exists st', x. split; [exact Hp|]. split; [exact Hi|]. split; assumption.
Qed.

Ltac draw_ball :=
  match goal with
  | H : at_slot ?s ?h0 ?st ?placed ?drawn ?eight ?xo ?yo
    |- context [Racking.place ?s ?picks ?rp ?i ?j ?st] =>
      let st' := fresh "st" in
      let x := fresh "x" in
      let Hp := fresh "Hp" in
      let H' := fresh "Hat" in
      destruct (@place_drawn s picks h0 rp i j st placed drawn eight xo yo
                  H eq_refl ltac:(cbn [List.length app]; lia))
        as (st' & x & Hp & H');
      rewrite Hp; cbn [Py.bind]; clear Hp H;
      cbn [app List.length] in H'
  end.

Ltac eight_ball :=
  match goal with
  | H : at_slot ?s ?h0 ?st ?placed ?drawn ?eight ?xo ?yo
    |- context [Racking.place ?s ?picks ?rp 3 1 ?st] =>
      let st' := fresh "st" in
      let Hp := fresh "Hp" in
      let H' := fresh "Hat" in
      destruct (@place_eight s picks h0 rp st placed drawn eight xo yo H)
        as (st' & Hp & H');
      rewrite Hp; cbn [Py.bind]; clear Hp H;
      cbn [app List.length] in H'
  end.

Ltac end_row :=
  match goal with
  | H : at_slot ?s ?h0 ?st ?placed ?drawn ?eight ?xo ?yo
    |- context [Racking.next_row ?s ?st] =>
      let H' := fresh "Hat" in
      pose proof (@next_row_at_slot s h0 st placed drawn eight xo yo H) as H';
      clear H;
      generalize dependent (Racking.next_row s st); intros
  end.

(** The two loops of [__construct_objects] run to their end, whatever
    [random.choice] returns. *)
Lemma rows_run (s : Sim.Settings) (picks : nat -> nat) (h0 : Sim.Heap)
      (rp : Vec.Vector2D) :
  exists st x0 x1 x2 x3 x5 x6 x7 x8 x9 x10 x11 x12 x13 x14 xo yo,
    Sim.for_each [1; 2; 3; 4; 5]
      (fun i st =>
         st <- Sim.for_each (seq 0 i) (Racking.place s picks rp i) st ;;
         Py.Ok (Racking.next_row s st))
      (Racking.mkState h0 (Sim.Table_init (Vec.mkVec 0 0) s) [] [] []
                       Racking.balls_info 0 0 0)
    = Py.Ok st
    /\ at_slot s h0 st
         [ (x0, slot s rp 0 0);
           (x1, slot s rp 1 0); (x2, slot s rp 1 1);
           (x3, slot s rp 2 0); (Racking.eight_info, slot s rp 2 1);
           (x5, slot s rp 2 2);
           (x6, slot s rp 3 0); (x7, slot s rp 3 1); (x8, slot s rp 3 2);
           (x9, slot s rp 3 3);
           (x10, slot s rp 4 0); (x11, slot s rp 4 1); (x12, slot s rp 4 2);
           (x13, slot s rp 4 3); (x14, slot s rp 4 4) ]
         [x0; x1; x2; x3; x5; x6; x7; x8; x9; x10; x11; x12; x13; x14]
         (Some 4) xo yo.
Proof.
  assert (H0 : at_slot s h0
                 (Racking.mkState h0 (Sim.Table_init (Vec.mkVec 0 0) s) [] [] []
                                  Racking.balls_info 0 0 0)
                 [] [] None 0%R 0%R).
  { unfold at_slot, rack_inv. cbn [Racking.next Racking.heap Racking.table
      Racking.striped_balls Racking.spotted_balls Racking.to_send
      Racking.infos Racking.x_offset Racking.y_offset List.length seq
      refs_where map app].
    repeat split.
    - intros r. destruct r; reflexivity.
    - rewrite app_nil_r. apply Permutation_refl. }
  generalize dependent (Racking.mkState h0 (Sim.Table_init (Vec.mkVec 0 0) s)
                          [] [] [] Racking.balls_info 0 0 0).
  intros st0 H0.
  cbn [Sim.for_each seq Py.bind].
  draw_ball. end_row.
  draw_ball. draw_ball. end_row.
  draw_ball. eight_ball. draw_ball. end_row.
  draw_ball. draw_ball. draw_ball. draw_ball. end_row.
  draw_ball. draw_ball. draw_ball. draw_ball. draw_ball. end_row.
  do 17 eexists. split; [reflexivity|]. eassumption.
Qed.

Lemma refs_where_in f : forall l start r,
  In r (refs_where f start l)
  <-> start <= r
      /\ exists p, nth_error l (r - start) = Some p /\ f (fst (fst p)) = true.
Proof.
  induction l as [|q l IH]; intros start r; cbn [refs_where].
  - split; [intros []|]. intros (_ & p & Hp & _).
    destruct (r - start); discriminate.
  - rewrite in_app_iff, IH. split.
    + intros [H|(Hle & p & Hp & Hf)].
      * destruct (f (fst (fst q))) eqn:Hq; [|destruct H].
        destruct H as [<-|[]]. split; [lia|].
        exists q. rewrite Nat.sub_diag. split; [reflexivity|exact Hq].
      * split; [lia|]. exists p. split; [|exact Hf].
        replace (r - start) with (S (r - S start)) by lia. exact Hp.
    + intros (Hle & p & Hp & Hf).
      destruct (Nat.eq_dec r start) as [->|Hne].
      * left. rewrite Nat.sub_diag in Hp. injection Hp as ->.
        rewrite Hf. left. reflexivity.
      * right. split; [lia|]. exists p. split; [|exact Hf].
        replace (r - start) with (S (r - S start)) in Hp by lia. exact Hp.
Qed.

Lemma refs_where_nodup f : forall l start, NoDup (refs_where f start l).
Proof.
  induction l as [|q l IH]; intros start; cbn [refs_where]; [constructor|].
  destruct (f (fst (fst q))); cbn [app]; [|apply IH].
  constructor; [|apply IH].
  intros Hin. apply refs_where_in in Hin. lia.
Qed.

Lemma refs_where_length f : forall l start,
  List.length (refs_where f start l)
  = List.length
      (filter f (map (fun p : Racking.Info * Vec.Vector2D => fst (fst p)) l)).
Proof.
  induction l as [|q l IH]; intros start; cbn [refs_where map filter];
    [reflexivity|].
  destruct (f (fst (fst q))); cbn [app List.length]; rewrite IH; reflexivity.
Qed.

Lemma filter_length_perm {A} (f : A -> bool) (l l' : list A) :
  Permutation l l' ->
  List.length (filter f l) = List.length (filter f l').
Proof.
  induction 1 as [|a l l' _ IH|a b l|l l' l'' _ IH1 _ IH2];
    cbn [filter]; try reflexivity.
  - destruct (f a); cbn [List.length]; congruence.
  - destruct (f a), (f b); reflexivity.
  - congruence.
Qed.

(** Two balls of the settings' radius whose centres are more than two
    radii apart do not collide. *)
Lemma apart (s : Sim.Settings) (P Q : Vec.Vector2D) f1 n1 f2 n2 :
  ((Sim.ball_radius s + Sim.ball_radius s) ^ 2
   < (Vec.x Q - Vec.x P) ^ 2 + (Vec.y Q - Vec.y P) ^ 2)%R ->
  Sim.check_collision_ball (Sim.Ball_init P s f1 n1) (Sim.Ball_init Q s f2 n2)
  = false.
Proof.
  intros H. unfold Sim.check_collision_ball, Sim.circle_circle_collision_check.
  cbn [Sim.representation Sim.Ball_init Sim.pos Sim.radius Sim.centre
       Sim.c_radius].
  unfold Vec.magnitude_squared, Vec.sub. cbn [Vec.x Vec.y].
  assert (Ht : Rltb ((Sim.ball_radius s + Sim.ball_radius s) ^ 2)
                    ((Vec.x Q - Vec.x P) ^ 2 + (Vec.y Q - Vec.y P) ^ 2) = true)
    by (apply Rltb_true; exact H).
  rewrite Ht. reflexivity.
Qed.

Lemma slots_apart (s : Sim.Settings) (rp : Vec.Vector2D) (a b : nat) :
  (0 < Sim.ball_radius s)%R ->
  a < 15 -> b < 15 -> a <> b ->
  let P := nth a (rack_slots s rp) Vec.zero in
  let Q := nth b (rack_slots s rp) Vec.zero in
  ((Sim.ball_radius s + Sim.ball_radius s) ^ 2
   < (Vec.x Q - Vec.x P) ^ 2 + (Vec.y Q - Vec.y P) ^ 2)%R.
Proof.
  intros Hr Ha Hb Hab. destruct rp as [X Y].
  do 15 (destruct a as [|a];
         [do 15 (destruct b as [|b];
                 [first [congruence
                        |cbn [nth rack_slots slot row_x row_y INR Vec.add
                                  Vec.x Vec.y]; nra]|]);
          exfalso; lia|]).
  exfalso; lia.
Qed.

Lemma slots_fit (s : Sim.Settings) (a : nat) :
  (0 < Sim.ball_radius s)%R ->
  a < 15 ->
  let rp := Racking.calculate_racking_position
              s (Sim.Table_init (Vec.mkVec 0 0) s) in
  (Vec.x (nth a (rack_slots s rp) Vec.zero) + Sim.ball_radius s
   <= Sim.table_length s / 20 * 19)%R.
Proof.
  intros Hr Ha rp. subst rp. unfold Racking.calculate_racking_position.
  cbn [Sim.Table_init Sim.t_length Sim.t_width].
  destruct (Rltb (Sim.table_length s / 20 * 19)
                 (94 / 10 * Sim.ball_radius s + Sim.table_length s / 4 * 3))
    eqn:Hc.
  - do 15 (destruct a as [|a];
           [cbn [nth rack_slots slot row_x row_y INR Vec.add Vec.x Vec.y]; lra|]).
    exfalso; lia.
  - apply Rltb_false in Hc.
    do 15 (destruct a as [|a];
           [cbn [nth rack_slots slot row_x row_y INR Vec.add Vec.x Vec.y]; lra|]).
    exfalso; lia.
Qed.

(** What [__construct_objects] returns, in terms of the fourteen entries
    that [random.choice] drew. *)
Lemma construct_objects_view (s : Sim.Settings) (picks : nat -> nat)
      (h0 : Sim.Heap) :
  exists x0 x1 x2 x3 x5 x6 x7 x8 x9 x10 x11 x12 x13 x14 H T,
    let rp := Racking.calculate_racking_position
                s (Sim.Table_init (Vec.mkVec 0 0) s) in
    let placed :=
      combine [x0; x1; x2; x3; Racking.eight_info; x5; x6; x7; x8; x9; x10;
               x11; x12; x13; x14] (rack_slots s rp) in
    Permutation [x0; x1; x2; x3; x5; x6; x7; x8; x9; x10; x11; x12; x13; x14]
                Racking.balls_info
    /\ Racking.construct_objects s picks h0
       = Py.Ok (mkRack H T (refs_where is_striped_number 0 placed)
                       (refs_where is_spotted_number 0 placed),
                map sent_of placed)
    /\ (forall r, r < 15 ->
          H r = match nth_error placed r with
                | Some p => ball_of s p
                | None => h0 r
                end)
    /\ H 15 = Sim.Ball_init
                (Vec.mkVec (Sim.table_length s / 3) (Sim.table_width s / 2))
                s false None
    /\ Sim.balls T = seq 0 16
    /\ Sim.cue_ball T = Some 15
    /\ Sim.eight_ball T = Some 4.
Proof.
  unfold Racking.construct_objects. cbv zeta.
  destruct (rows_run s picks h0
              (Racking.calculate_racking_position
                 s (Sim.Table_init (Vec.mkVec 0 0) s)))
    as (st & x0 & x1 & x2 & x3 & x5 & x6 & x7 & x8 & x9 & x10 & x11 & x12
        & x13 & x14 & xo & yo & Hrun & Hinv & _ & _).
  rewrite Hrun. cbn [Py.bind].
  destruct Hinv as (Hn & Hh & Ht & Hst & Hsp & Hts & Hperm).
  cbn [List.length] in Hn, Ht.
  assert (Hi : Racking.infos st = []).
  { apply Permutation_length in Hperm. rewrite length_app in Hperm.
    cbn in Hperm. destruct (Racking.infos st); [reflexivity|].
    cbn [List.length] in Hperm. lia. }
  rewrite Hi in Hperm. cbn [app] in Hperm.
  exists x0, x1, x2, x3, x5, x6, x7, x8, x9, x10, x11, x12, x13, x14.
  do 2 eexists. cbv zeta.
  split; [exact Hperm|].
  split; [rewrite Hst, Hsp, Hts; reflexivity|].
  rewrite Hn.
  split.
  { intros r Hr. rewrite (@upd_other (Racking.heap st) 15 r _) by lia.
    apply Hh. }
  split.
  { rewrite upd_same. rewrite Ht. reflexivity. }
  unfold Sim.add_ball. rewrite upd_same.
  cbn [Sim.number Sim.Ball_init]. rewrite Ht.
  repeat split.
Qed.

Lemma combine_nth_error {A B} (d : B) : forall (l1 : list A) (l2 : list B) r p,
  nth_error (combine l1 l2) r = Some p -> snd p = nth r l2 d.
Proof.
  induction l1 as [|a l1 IH]; intros l2 r p H.
  - destruct r; discriminate.
  - destruct l2 as [|b l2]; [destruct r; discriminate|].
    destruct r as [|r]; cbn [combine nth_error nth] in *.
    + injection H as <-. reflexivity.
    + apply IH with (1 := H).
Qed.

Lemma striped_number_spec (n : Z) :
  is_striped_number n = true <-> (8 < n)%Z.
Proof. unfold is_striped_number. apply Z.ltb_lt. Qed.

Lemma spotted_number_spec (n : Z) :
  is_spotted_number n = true <-> (n < 8)%Z.
Proof.
  unfold is_spotted_number.
  destruct (Z.ltb_spec 8 n), (Z.eqb_spec n 8); cbn [negb andb];
    split; intros; try discriminate; try reflexivity; lia.
Qed.

(** X25.  [Lobby.__construct_objects] never fails, whatever [random.choice]
    returns, and builds a legal rack: sixteen balls, the 8-ball created fifth and the
    cue ball last, every number 1..15 used once, the balls 9..15 in the
    striped list and 1..7 in the spotted list (seven each, nothing twice),
    no two racked balls touching, every racked ball before the cut-off
    length of [__calculate_racking_position], and the list that is sent
    naming the balls in the order of their creation. *)
Theorem construct_objects_rack (s : Sim.Settings) (picks : nat -> nat)
        (h0 : Sim.Heap) :
  (0 < Sim.ball_radius s)%R ->
  exists rack sent,
    Racking.construct_objects s picks h0 = Py.Ok (rack, sent)
    /\ Sim.balls (rack_table rack) = seq 0 16
    /\ Sim.cue_ball (rack_table rack) = Some 15
    /\ Sim.eight_ball (rack_table rack) = Some 4
    /\ Sim.number (rack_heap rack 4) = Some 8%Z
    /\ Permutation (map (fun r => Sim.number (rack_heap rack r)) (seq 0 16))
                   (map Some [1; 2; 3; 4; 5; 6; 7; 8; 9; 10; 11; 12; 13; 14; 15]%Z
                    ++ [None])
    /\ map (fun e : Racking.Sent => Some (fst (fst e))) sent
       = map (fun r => Sim.number (rack_heap rack r)) (seq 0 15)
    /\ (forall r, In r (rack_striped rack)
                  <-> r < 15 /\ exists n, Sim.number (rack_heap rack r) = Some n
                                          /\ (8 < n)%Z)
    /\ (forall r, In r (rack_spotted rack)
                  <-> r < 15 /\ exists n, Sim.number (rack_heap rack r) = Some n
                                          /\ (n < 8)%Z)
    /\ (forall r, r < 16 ->
          (Sim.striped (rack_heap rack r) = true <-> In r (rack_striped rack)))
    /\ List.length (rack_striped rack) = 7
    /\ List.length (rack_spotted rack) = 7
    /\ NoDup (rack_striped rack ++ rack_spotted rack)
    /\ (forall a b, a < 15 -> b < 15 -> a <> b ->
          Sim.check_collision_ball (rack_heap rack a) (rack_heap rack b) = false)
    /\ (forall a, a < 15 ->
          (Vec.x (Sim.pos (rack_heap rack a)) + Sim.radius (rack_heap rack a)
           <= Sim.table_length s / 20 * 19)%R)
    /\ Sim.pos (rack_heap rack 15)
       = Vec.mkVec (Sim.table_length s / 3) (Sim.table_width s / 2).
Proof.
  intros Hrad.
  destruct (construct_objects_view s picks h0)
    as (x0 & x1 & x2 & x3 & x5 & x6 & x7 & x8 & x9 & x10 & x11 & x12 & x13
        & x14 & H & T & Hperm & Hrun & HH & H15 & Hb & Hc & He).
  set (rp := Racking.calculate_racking_position
               s (Sim.Table_init (Vec.mkVec 0 0) s)) in *.
  set (placed := combine [x0; x1; x2; x3; Racking.eight_info; x5; x6; x7; x8;
                          x9; x10; x11; x12; x13; x14] (rack_slots s rp)) in *.
  assert (Hlen : List.length placed = 15) by reflexivity.
  assert (Lk : forall r, r < 15 ->
             exists p, nth_error placed r = Some p /\ H r = ball_of s p
                       /\ snd p = nth r (rack_slots s rp) Vec.zero).
  { intros r Hr. destruct (nth_error placed r) as [p|] eqn:Hp.
    - exists p. split; [reflexivity|]. split.
      + rewrite (HH r Hr), Hp. reflexivity.
      + eapply combine_nth_error. exact Hp.
    - apply nth_error_None in Hp. lia. }
  assert (Kl : forall r p, nth_error placed r = Some p ->
             r < 15 /\ H r = ball_of s p).
  { intros r p Hp.
    assert (Hr : r < 15) by (rewrite <- Hlen; apply nth_error_Some; congruence).
    split; [exact Hr|]. rewrite (HH r Hr), Hp. reflexivity. }
  assert (Hst : forall r, In r (refs_where is_striped_number 0 placed)
                  <-> r < 15 /\ exists n, Sim.number (H r) = Some n /\ (8 < n)%Z).
  { intros r. rewrite refs_where_in, Nat.sub_0_r. split.
    - intros (_ & p & Hp & Hf). destruct (Kl r p Hp) as (Hr & E).
      split; [exact Hr|]. exists (fst (fst p)). rewrite E.
      split; [reflexivity|]. apply striped_number_spec. exact Hf.
    - intros (Hr & n & Hn & Hlt). destruct (Lk r Hr) as (p & Hp & E & _).
      split; [lia|]. exists p. split; [exact Hp|].
      rewrite E in Hn. cbn [ball_of Sim.number Sim.Ball_init] in Hn.
      injection Hn as ->. apply striped_number_spec. exact Hlt. }
  assert (Hsp : forall r, In r (refs_where is_spotted_number 0 placed)
                  <-> r < 15 /\ exists n, Sim.number (H r) = Some n /\ (n < 8)%Z).
  { intros r. rewrite refs_where_in, Nat.sub_0_r. split.
    - intros (_ & p & Hp & Hf). destruct (Kl r p Hp) as (Hr & E).
      split; [exact Hr|]. exists (fst (fst p)). rewrite E.
      split; [reflexivity|]. apply spotted_number_spec. exact Hf.
    - intros (Hr & n & Hn & Hlt). destruct (Lk r Hr) as (p & Hp & E & _).
      split; [lia|]. exists p. split; [exact Hp|].
      rewrite E in Hn. cbn [ball_of Sim.number Sim.Ball_init] in Hn.
      injection Hn as ->. apply spotted_number_spec. exact Hlt. }
  assert (Hall : Permutation
                   [x0; x1; x2; x3; Racking.eight_info; x5; x6; x7; x8; x9; x10;
                    x11; x12; x13; x14]
                   (Racking.eight_info :: Racking.balls_info)).
  { apply Permutation_sym.
    apply (@Permutation_cons_app _ _ [x0; x1; x2; x3]
             [x5; x6; x7; x8; x9; x10; x11; x12; x13; x14] Racking.eight_info).
    apply Permutation_sym. exact Hperm. }
  assert (Hnum : map (fun p : Racking.Info * Vec.Vector2D => fst (fst p)) placed
                 = map fst [x0; x1; x2; x3; Racking.eight_info; x5; x6; x7; x8;
                            x9; x10; x11; x12; x13; x14]) by reflexivity.
  exists (mkRack H T (refs_where is_striped_number 0 placed)
                 (refs_where is_spotted_number 0 placed)),
         (map sent_of placed).
  cbn [rack_heap rack_table rack_striped rack_spotted].
  split; [exact Hrun|].
  split; [exact Hb|]. split; [exact Hc|]. split; [exact He|].
  split.
  { rewrite (HH 4) by lia. reflexivity. }
  split.
  { change (seq 0 16) with (seq 0 15 ++ [15]). rewrite map_app.
    change (map (fun r => Sim.number (H r)) [15]) with [Sim.number (H 15)].
    rewrite H15. cbn [Sim.number Sim.Ball_init].
    apply Permutation_app_tail.
    match goal with
    | |- Permutation ?l _ =>
        replace l
          with (map (fun x : Racking.Info => Some (fst x))
                  [x0; x1; x2; x3; Racking.eight_info; x5; x6; x7; x8; x9;
                   x10; x11; x12; x13; x14])
          by (cbn [seq map]; rewrite !HH by lia; reflexivity)
    end.
    eapply Permutation_trans;
      [apply Permutation_map; exact Hall|].
    cbn [map Racking.eight_info Racking.balls_info Racking.base_info app fst
         snd].
    apply (@Permutation_cons_app _ _
             (map Some [1; 2; 3; 4; 5; 6; 7]%Z)
             (map Some [9; 10; 11; 12; 13; 14; 15]%Z) (Some 8%Z)).
    apply Permutation_refl. }
  split.
  { rewrite map_map. cbn [seq map]. rewrite !HH by lia. reflexivity. }
  split; [exact Hst|]. split; [exact Hsp|].
  split.
  { intros r Hr. rewrite Hst.
    destruct (Nat.eq_dec r 15) as [->|Hne].
    - rewrite H15. cbn [Sim.striped Sim.number Sim.Ball_init]. split.
      + discriminate.
      + intros (Hlt & _). lia.
    - assert (Hr' : r < 15) by lia.
      destruct (Lk r Hr') as (p & Hp & E & _). rewrite E.
      cbn [ball_of Sim.striped Sim.number Sim.Ball_init]. split.
      + intros Hs. split; [exact Hr'|]. exists (fst (fst p)).
        split; [reflexivity|]. apply Z.ltb_lt. exact Hs.
      + intros (_ & n & Hn & Hlt). injection Hn as ->.
        apply Z.ltb_lt. exact Hlt. }
  split.
  { rewrite refs_where_length, Hnum.
    rewrite (@filter_length_perm _ is_striped_number _ _
               (Permutation_map fst Hall)).
    reflexivity. }
  split.
  { rewrite refs_where_length, Hnum.
    rewrite (@filter_length_perm _ is_spotted_number _ _
               (Permutation_map fst Hall)).
    reflexivity. }
  split.
  { apply NoDup_app; [apply refs_where_nodup|apply refs_where_nodup|].
    intros r H1 H2. apply Hst in H1. apply Hsp in H2.
    destruct H1 as (_ & n & Hn & Hlt). destruct H2 as (_ & m & Hm & Hlt').
    rewrite Hn in Hm. injection Hm as <-. lia. }
  split.
  { intros a b Ha Hb' Hab.
    destruct (Lk a Ha) as (p & _ & Ep & Sp).
    destruct (Lk b Hb') as (q & _ & Eq & Sq).
    rewrite Ep, Eq. unfold ball_of. apply apart. rewrite Sp, Sq.
    apply slots_apart; assumption. }
  split.
  { intros a Ha. destruct (Lk a Ha) as (p & _ & Ep & Sp).
    rewrite Ep. cbn [ball_of Sim.pos Sim.radius Sim.Ball_init]. rewrite Sp.
    apply slots_fit; assumption. }
  rewrite H15. reflexivity.
Qed.

Lemma construct_objects_rack_witness :
  exists rack sent,
    Racking.construct_objects Sample.settings (fun _ => 0) Sample.racked_heap
    = Py.Ok (rack, sent)
    /\ Sim.balls (rack_table rack) = seq 0 16
    /\ List.length (rack_striped rack) = 7
    /\ List.length (rack_spotted rack) = 7.
Proof.
  destruct (@construct_objects_rack Sample.settings (fun _ => 0)
              Sample.racked_heap)
    as (rack & sent & H1 & H2 & _ & _ & _ & _ & _ & _ & _ & _ & H3 & H4 & _).
  - cbn [Sim.ball_radius Sample.settings]. lra.
  - exists rack, sent. repeat split; assumption.
Defined.

(** ** The loop that ends [collide_with_ball] *)

Lemma integrate_along_x (b : Sim.Ball) (t v : R) :
  Sim.vel b = Vec.mkVec v 0 ->
  Sim.applied_force b = None ->
  (0 < v)%R ->
  Sim.mass b <> 0%R ->
  (0 <= rolled_speed b v t)%R ->
  exists b',
    Sim.integrate b t = Py.Ok b'
    /\ Sim.vel b'
       = Vec.mkVec (clamped (Sim.limiting_vel (Sim.settings b))
                            (rolled_speed b v t)) 0
    /\ Sim.new_pos b'
       = Vec.add (Sim.new_pos b) (Vec.mkVec (rolled_speed b v t * t) 0)
    /\ Sim.pos b' = Sim.new_pos b'
    /\ Sim.radius b' = Sim.radius b
    /\ Sim.settings b' = Sim.settings b
    /\ Sim.mass b' = Sim.mass b
    /\ Sim.normal_contact b' = Sim.normal_contact b
    /\ Sim.air_res_coeff b' = Sim.air_res_coeff b
    /\ Sim.applied_force b' = None
    /\ Sim.colliding b' = Sim.colliding b
    /\ Sim.hit_rail b' = Sim.hit_rail b
    /\ Sim.can_collide b' = Sim.can_collide b
    /\ Sim.number b' = Sim.number b
    /\ Sim.old_pos b' = Sim.old_pos b.
Proof.
  intros Hv Hf Hpos Hm Hroll.
  assert (Hmag : Vec.magnitude (Vec.mkVec v 0) = v).
  { apply magnitude_eq; [lra|]. cbn [Vec.x Vec.y]. ring. }
  unfold Sim.integrate. rewrite Hf, Hv, Hmag.
  rewrite (@normalise_result_eq (Vec.mkVec v 0) v Hpos Hmag).
  unfold Vec.truediv. apply Reqb_false in Hm. rewrite Hm.
  cbn [negb Py.bind]. unfold Vec.copy, Vec.rmul, Vec.mul, Vec.add.
  cbn [Vec.x Vec.y].
  set (vx := (v + _ * t)%R).
  set (vy := (0 + _ * t)%R).
  assert (Hvx : vx = rolled_speed b v t).
  { unfold vx, rolled_speed. apply Reqb_false in Hm. field. split; lra. }
  assert (Hvy : vy = 0%R).
  { unfold vy. apply Reqb_false in Hm. field. split; lra. }
  clearbody vx vy. subst vx vy.
  ball_fields.
  set (w := rolled_speed b v t) in *.
  assert (Hrev : (Vec.neb (Vec.mkVec w 0) (Vec.mkVec 0 0)
                  && Vec.neb (Vec.mkVec v 0) (Vec.mkVec 0 0)
                  && Rltb (Vec.dot_product (Vec.mkVec v 0) (Vec.mkVec w 0)) 0)
                 = false).
  { assert (E : Rltb (Vec.dot_product (Vec.mkVec v 0) (Vec.mkVec w 0)) 0 = false).
    { apply Rltb_false. unfold Vec.dot_product. cbn [Vec.x Vec.y]. nra. }
    rewrite E. apply andb_false_r. }
  rewrite Hrev. ball_fields. unfold clamped.
  eexists. split; [reflexivity|].
  split_ifs; ball_fields; repeat split; try reflexivity; try assumption.
  all: f_equal; ring.
Qed.

Lemma update_physics_along_x (b : Sim.Ball) (t v : R) :
  Sim.vel b = Vec.mkVec v 0 ->
  Sim.applied_force b = None ->
  (0 < v)%R ->
  Sim.mass b <> 0%R ->
  (0 <= rolled_speed b v t)%R ->
  exists b',
    Sim.update_physics b t = Py.Ok b'
    /\ Sim.vel b'
       = Vec.mkVec (clamped (Sim.limiting_vel (Sim.settings b))
                            (rolled_speed b v t)) 0
    /\ Sim.new_pos b'
       = Vec.add (Sim.new_pos b) (Vec.mkVec (rolled_speed b v t * t) 0)
    /\ Sim.pos b' = Sim.new_pos b'
    /\ Sim.radius b' = Sim.radius b
    /\ Sim.settings b' = Sim.settings b
    /\ Sim.mass b' = Sim.mass b
    /\ Sim.normal_contact b' = Sim.normal_contact b
    /\ Sim.air_res_coeff b' = Sim.air_res_coeff b
    /\ Sim.applied_force b' = None
    /\ Sim.colliding b' = false
    /\ Sim.hit_rail b' = false
    /\ Sim.can_collide b' = Sim.can_collide b
    /\ Sim.number b' = Sim.number b
    /\ Sim.old_pos b' = Sim.old_pos b.
Proof.
  intros Hv Hf Hpos Hm Hroll.
  unfold Sim.update_physics. cbn [Sim.update_physics_rec].
  cbn [Sim.applied_force Sim.set_hit_rail Sim.set_colliding]. rewrite Hf.
  apply (@integrate_along_x
           (Sim.set_hit_rail false (Sim.set_colliding false b)) t v);
    assumption.
Qed.






Lemma check_true_iff (c1 c2 : Sim.Circle) :
  Sim.circle_circle_collision_check c1 c2 = true
  <-> ((Sim.c_radius c1 - Sim.c_radius c2) ^ 2
       <= Vec.magnitude_squared (Vec.sub (Sim.centre c2) (Sim.centre c1))
       <= (Sim.c_radius c1 + Sim.c_radius c2) ^ 2)%R.
Proof.
  unfold Sim.circle_circle_collision_check.
  destruct (Rltb ((Sim.c_radius c1 + Sim.c_radius c2) ^ 2) _) eqn:H1.
  - apply Rltb_true in H1. split; [discriminate|]. intros [_ H]. lra.
  - apply Rltb_false in H1.
    destruct (Rltb _ ((Sim.c_radius c1 - Sim.c_radius c2) ^ 2)) eqn:H2.
    + apply Rltb_true in H2. split; [discriminate|]. intros [H _]. lra.
    + apply Rltb_false in H2. split; [intros _; split; assumption|reflexivity].
Qed.


(** ** A shot into the right-hand rail *)

(** A circle further from the line of a horizontal segment than its
    radius does not touch the segment. *)
Lemma line_check_far_horizontal (a b c r px py : R) :
  a <> b ->
  (r ^ 2 < (py - c) ^ 2)%R ->
  Sim.circle_line_collision_check
    (Sim.mkCircle (Vec.mkVec px py) r)
    (Sim.LineSegment_init (Vec.mkVec a c) (Vec.mkVec b c)) = false.
Proof.
  intros Hab Hfar.
  pose proof (@foot_on_horizontal a b c px py Hab) as Hh. cbv zeta in Hh.
  unfold Sim.circle_line_collision_check. cbn [Sim.centre Sim.c_radius].
  rewrite Hh.
  destruct (Sim.coord_within_bounds _ _ 0); apply Rleb_false.
  - unfold Vec.magnitude_squared, Vec.sub. cbn [Vec.x Vec.y]. nra.
  - unfold Vec.magnitude_squared, Vec.sub, Sim.LineSegment_init.
    cbn [Sim.coord1 Sim.coord2 Vec.x Vec.y].
    pose proof (pow2_ge_0 (a - px)). pose proof (pow2_ge_0 (b - px)).
    replace ((c - py) ^ 2)%R with ((py - c) ^ 2)%R by ring.
    unfold Rmin. destruct (Rle_dec _ _); lra.
Qed.

Lemma line_check_far_vertical (a b c r px py : R) :
  a <> b ->
  (r ^ 2 < (px - c) ^ 2)%R ->
  Sim.circle_line_collision_check
    (Sim.mkCircle (Vec.mkVec px py) r)
    (Sim.LineSegment_init (Vec.mkVec c a) (Vec.mkVec c b)) = false.
Proof.
  intros Hab Hfar.
  pose proof (@foot_on_vertical a b c px py Hab) as Hv. cbv zeta in Hv.
  unfold Sim.circle_line_collision_check. cbn [Sim.centre Sim.c_radius].
  rewrite Hv.
  destruct (Sim.coord_within_bounds _ _ 0); apply Rleb_false.
  - unfold Vec.magnitude_squared, Vec.sub. cbn [Vec.x Vec.y]. nra.
  - unfold Vec.magnitude_squared, Vec.sub, Sim.LineSegment_init.
    cbn [Sim.coord1 Sim.coord2 Vec.x Vec.y].
    pose proof (pow2_ge_0 (a - py)). pose proof (pow2_ge_0 (b - py)).
    replace ((c - px) ^ 2)%R with ((px - c) ^ 2)%R by ring.
    unfold Rmin. destruct (Rle_dec _ _); lra.
Qed.

(** A circle level with a vertical segment and within its radius of it
    touches the segment. *)
Lemma line_check_near_vertical (a b c r px py : R) :
  (a < py < b)%R ->
  ((px - c) ^ 2 <= r ^ 2)%R ->
  Sim.circle_line_collision_check
    (Sim.mkCircle (Vec.mkVec px py) r)
    (Sim.LineSegment_init (Vec.mkVec c a) (Vec.mkVec c b)) = true.
Proof.
  intros Hin Hnear.
  assert (Hab : a <> b) by lra.
  pose proof (@foot_on_vertical a b c px py Hab) as Hv. cbv zeta in Hv.
  unfold Sim.circle_line_collision_check. cbn [Sim.centre Sim.c_radius].
  rewrite Hv.
  assert (Hw : Sim.coord_within_bounds
                 (Sim.LineSegment_init (Vec.mkVec c a) (Vec.mkVec c b))
                 (Vec.mkVec c py) 0 = true).
  { apply within_bounds_vertical. unfold Rmin, Rmax.
    destruct (Rle_dec a b); lra. }
  rewrite Hw. apply Rleb_true.
  unfold Vec.magnitude_squared, Vec.sub. cbn [Vec.x Vec.y]. nra.
Qed.

(** The rebound from a vertical segment: the horizontal velocity is
    reversed and scaled, the vertical position is kept. *)
Lemma collide_with_vertical_rail (self : Sim.Ball) (a b c : R) :
  (a < b)%R ->
  let self' :=
    Sim.collide_with_line
      self (Sim.LineSegment_init (Vec.mkVec c a) (Vec.mkVec c b)) in
  Sim.vel self'
  = Vec.mkVec (- Sim.table_coeff_of_rest (Sim.settings self)
               * Vec.x (Sim.vel self))
              (Vec.y (Sim.vel self))
  /\ Vec.y (Sim.new_pos self') = Vec.y (Sim.new_pos self)
  /\ Sim.pos self' = Sim.new_pos self'
  /\ Sim.hit_rail self' = Sim.hit_rail self
  /\ Sim.colliding self' = Sim.colliding self
  /\ Sim.can_collide self' = Sim.can_collide self
  /\ Sim.number self' = Sim.number self
  /\ Sim.applied_force self' = Sim.applied_force self.
Proof.
  intros Hab self'.
  assert (Hm : Vec.magnitude
                 (Sim.vector (Sim.LineSegment_init (Vec.mkVec c a)
                                                   (Vec.mkVec c b)))
               = (b - a)%R).
  { apply magnitude_eq; [lra|].
    unfold Sim.LineSegment_init, Vec.sub. cbn [Sim.vector Vec.x Vec.y]. ring. }
  assert (Hn : Vec.normalise_result
                 (Sim.vector (Sim.LineSegment_init (Vec.mkVec c a)
                                                   (Vec.mkVec c b)))
               = Vec.mkVec 0 1).
  { rewrite (@normalise_result_eq _ (b - a)) by (lra || exact Hm).
    unfold Sim.LineSegment_init, Vec.sub. cbn [Sim.vector Vec.x Vec.y].
    f_equal; field; lra. }
  split.
  { unfold self'. rewrite collide_with_line_vel. cbv zeta. rewrite Hn.
    unfold Vec.sub, Vec.mul, Vec.dot_product, Vec.perpendicular.
    cbn [Vec.x Vec.y]. f_equal; ring. }
  split.
  { unfold self', Sim.collide_with_line. rewrite Hn.
    cbn [Sim.new_pos Sim.set_new_pos Sim.set_pos Sim.set_vel].
    unfold Vec.add, Vec.sub, Vec.mul, Vec.rmul, Vec.dot_product,
      Vec.perpendicular, Sim.LineSegment_init.
    cbn [Sim.coord1 Vec.x Vec.y].
    destruct (Rleb 0 _); unfold Vec.mul; cbn [Vec.x Vec.y]; ring. }
  repeat split.
Qed.

Lemma rail_table_rails :
  Sim.rails rail_table
  = [ Sim.LineSegment_init (Vec.mkVec (54912 / 1000000) 0)
                           (Vec.mkVec (1250088 / 1000000) 0);
      Sim.LineSegment_init (Vec.mkVec (1359912 / 1000000) 0)
                           (Vec.mkVec (2555088 / 1000000) 0);
      Sim.LineSegment_init (Vec.mkVec (54912 / 1000000) (131 / 100))
                           (Vec.mkVec (1250088 / 1000000) (131 / 100));
      Sim.LineSegment_init (Vec.mkVec (1359912 / 1000000) (131 / 100))
                           (Vec.mkVec (2555088 / 1000000) (131 / 100));
      Sim.LineSegment_init (Vec.mkVec 0 (54912 / 1000000))
                           (Vec.mkVec 0 (1255088 / 1000000));
      Sim.LineSegment_init (Vec.mkVec (261 / 100) (54912 / 1000000))
                           (Vec.mkVec (261 / 100) (1255088 / 1000000)) ].
Proof.
  change (Sim.rails rail_table)
    with (Sim.rails (Sim.Table_init (Vec.mkVec 0 0) Sample.settings)).
  unfold Sim.Table_init.
  cbn [Sim.rails map fst snd Sim.ball_radius Sim.hole_factor Sim.table_length
       Sim.table_width Sample.settings].
  unfold Vec.add. cbn [Vec.x Vec.y].
  repeat (apply (f_equal2 (@cons Sim.LineSegment));
          [apply (f_equal2 Sim.LineSegment_init);
           apply (f_equal2 Vec.mkVec); lra|]).
  reflexivity.
Qed.

Lemma rail_table_pockets :
  Forall (fun p => Vec.y (Sim.centre p) = 0%R
                   \/ Vec.y (Sim.centre p) = (131 / 100)%R)
         (Sim.pockets rail_table)
  /\ Forall (fun p => Sim.c_radius p = (54912 / 1000000)%R)
            (Sim.pockets rail_table).
Proof.
  change (Sim.pockets rail_table)
    with (Sim.pockets (Sim.Table_init (Vec.mkVec 0 0) Sample.settings)).
  unfold Sim.Table_init.
  cbn [Sim.pockets map Sim.ball_radius Sim.hole_factor Sim.table_length
       Sim.table_width Sample.settings].
  unfold Vec.add. cbn [Vec.x Vec.y].
  split; repeat constructor; cbn [Sim.centre Sim.c_radius Vec.y]; lra.
Qed.

Lemma sample_air_res (coords : Vec.Vector2D) (st : bool) (n : option Z) :
  let c := Sim.air_res_coeff (Sim.Ball_init coords Sample.settings st n) in
  (- (2 / 1000) <= c <= 0)%R.
Proof.
  cbv zeta. cbn [Sim.air_res_coeff Sim.Ball_init Sim.air_density
                 Sim.ball_coeff_of_drag Sim.ball_radius Sample.settings].
  pose proof PI_RGT_0. pose proof PI_4. cbn [pow]. lra.
Qed.

Lemma held_cue_out_of_play : out_of_play held_cue.
Proof.
  unfold out_of_play, held_cue, Sim.moving.
  cbn [Sim.can_collide Sim.vel Sim.applied_force Sim.set_can_collide
       Sim.Ball_init Vec.x Vec.y].
  rewrite Reqb_refl. repeat split.
Qed.

Lemma rail_speed_bounds : (99 / 100 <= rail_speed <= 1)%R.
Proof.
  unfold rail_speed, rolled_speed, rail_ball.
  cbn [Sim.settings Sim.normal_contact Sim.mass Sim.set_vel].
  pose proof (@sample_air_res rail_spot false (Some 1%Z)) as Hc.
  cbv zeta in Hc.
  cbn [Sim.air_res_coeff Sim.set_vel].
  set (c := Sim.air_res_coeff _) in *.
  cbn [Sim.settings Sim.normal_contact Sim.mass Sim.Ball_init
       Sim.coeff_of_rolling_friction Sim.ball_mass Sim.gravity Sample.settings].
  replace ((4 / 100 * (- (17 / 100) * (980665 / 100000)) + c * 1 * 1)
           / (17 / 100) * (1 / 240))%R
    with (- (4 / 100 * (980665 / 100000) / 240) + c / (17 / 100) / 240)%R
    by field.
  lra.
Qed.

(** The first loop of [Table.update]: the cue ball in hand is passed over,
    ball 1 rolls on. *)
Lemma rail_shot_motion :
  exists B1,
    Sim.update_motion (1 / 240) (rail_heap, rail_table)
    = Py.Ok (Sim.upd rail_heap 1 B1,
             Sim.set_in_motion true
               (Sim.set_in_motion false
                  (Sim.set_previously_in_motion true rail_table)))
    /\ Sim.vel B1 = Vec.mkVec rail_speed 0
    /\ Sim.new_pos B1
       = Vec.mkVec (258 / 100 + rail_speed * (1 / 240)) (655 / 1000 + 0)
    /\ Sim.pos B1 = Sim.new_pos B1
    /\ Sim.radius B1 = (286 / 10000)%R
    /\ Sim.settings B1 = Sample.settings
    /\ Sim.applied_force B1 = None
    /\ Sim.colliding B1 = false
    /\ Sim.hit_rail B1 = false
    /\ Sim.can_collide B1 = true
    /\ Sim.number B1 = Some 1%Z.
Proof.
  pose proof rail_speed_bounds as Hw.
  destruct (@update_physics_along_x rail_ball (1 / 240) 1)
    as (B1 & Hu & Hv & Hn & Hp & Hr & Hs & _ & _ & _ & Hf & Hc & Hh & Hcc
        & Hnum & _).
  { reflexivity. }
  { reflexivity. }
  { lra. }
  { cbn. lra. }
  { fold rail_speed. lra. }
  fold rail_speed in Hv, Hn.
  exists B1. split.
  { rewrite update_motion_unfold.
    change (Sim.balls rail_table) with [0; 1].
    change (Sim.in_motion rail_table) with true.
    cbn [Sim.for_each].
    unfold Sim.update_motion_step at 1.
    change (rail_heap 0) with held_cue.
    destruct held_cue_out_of_play as (_ & Hm0 & Hf0).
    rewrite Hm0, Hf0. cbn [Sim.is_some orb].
    change (Sim.attempted_force_application held_cue) with false.
    cbn [Py.bind].
    unfold Sim.update_motion_step.
    change (rail_heap 1) with rail_ball.
    assert (Hm1 : Sim.moving rail_ball = true).
    { unfold Sim.moving, rail_ball. cbn [Sim.vel Sim.set_vel Vec.x Vec.y].
      assert (E : Reqb 1 0 = false) by (apply Reqb_false; lra).
      rewrite E. reflexivity. }
    rewrite Hm1. cbn [orb]. rewrite Hu. cbn [Py.bind]. reflexivity. }
  split.
  { rewrite Hv. f_equal. unfold clamped.
    change (Sim.limiting_vel (Sim.settings rail_ball)) with (5 / 1000)%R.
    assert (E : Rltb (Rabs rail_speed) (5 / 1000) = false).
    { apply Rltb_false. rewrite Rabs_pos_eq; lra. }
    rewrite E. reflexivity. }
  split; [rewrite Hn; reflexivity|].
  split; [exact Hp|]. split; [rewrite Hr; reflexivity|].
  split; [rewrite Hs; reflexivity|]. split; [exact Hf|].
  split; [exact Hc|]. split; [exact Hh|].
  split; [rewrite Hcc; reflexivity|]. rewrite Hnum. reflexivity.
Qed.

Lemma rail_shot_moving (B1 : Sim.Ball) :
  rail_ball_rolled B1 -> Sim.moving B1 = true.
Proof.
  intros (B1_vel & _).
  pose proof rail_speed_bounds as Hw.
  unfold Sim.moving. rewrite B1_vel. cbn [Vec.x Vec.y].
  assert (E : Reqb rail_speed 0 = false) by (apply Reqb_false; lra).
  rewrite E. reflexivity.
Qed.

(** Ball 1 touches none of the first five rails and touches the sixth. *)
Lemma rail_shot_checks (B1 : Sim.Ball) :
  rail_ball_rolled B1 ->
  fold_left (Sim.get_collisions_rail 1) (Sim.rails rail_table_moving)
            (Sim.upd rail_heap 1 B1)
  = Sim.upd (Sim.upd rail_heap 1 B1) 1
      (Sim.collide_with_line (Sim.set_hit_rail true B1) right_rail).
Proof.
  intros (_ & B1_new_pos & B1_pos & B1_radius & _).
  pose proof rail_speed_bounds as Hw.
  change (Sim.rails rail_table_moving) with (Sim.rails rail_table).
  rewrite rail_table_rails.
  assert (Hrep : Sim.representation (Sim.upd rail_heap 1 B1 1)
                 = Sim.mkCircle
                     (Vec.mkVec (258 / 100 + rail_speed * (1 / 240))
                                (655 / 1000 + 0))
                     (286 / 10000)).
  { rewrite upd_same. unfold Sim.representation.
    rewrite B1_pos, B1_new_pos, B1_radius. reflexivity. }
  cbn [fold_left].
  unfold Sim.get_collisions_rail at 6. unfold Sim.check_collision_line.
  rewrite Hrep, line_check_far_horizontal by (lra || nra).
  unfold Sim.get_collisions_rail at 5. unfold Sim.check_collision_line.
  rewrite Hrep, line_check_far_horizontal by (lra || nra).
  unfold Sim.get_collisions_rail at 4. unfold Sim.check_collision_line.
  rewrite Hrep, line_check_far_horizontal by (lra || nra).
  unfold Sim.get_collisions_rail at 3. unfold Sim.check_collision_line.
  rewrite Hrep, line_check_far_horizontal by (lra || nra).
  unfold Sim.get_collisions_rail at 2. unfold Sim.check_collision_line.
  rewrite Hrep, line_check_far_vertical by (lra || nra).
  unfold Sim.get_collisions_rail. unfold Sim.check_collision_line.
  rewrite Hrep, line_check_near_vertical by (lra || nra).
  rewrite upd_same. reflexivity.
Qed.

(** The second loop of [Table.update]: the cue ball in hand is passed
    over although ball 1 lies on it; ball 1 rebounds from the rail and is
    entered in the rail-contact record. *)
Lemma rail_shot_collisions (fuel : nat) (B1 : Sim.Ball) :
  rail_ball_rolled B1 ->
  Sim.resolve_collisions fuel (Sim.upd rail_heap 1 B1, rail_table_moving)
  = Py.Ok (Sim.upd (Sim.upd rail_heap 1 B1) 1
             (Sim.collide_with_line (Sim.set_hit_rail true B1) right_rail),
           Sim.set_rail_contacts [1] rail_table_moving).
Proof.
  intros HB.
  pose proof (@rail_shot_moving B1 HB) as Hmov.
  pose proof (@rail_shot_checks B1 HB) as Hchk.
  destruct HB as (_ & _ & _ & _ & _ & _ & B1_colliding & B1_hit_rail
                  & B1_can_collide & _).
  unfold Sim.resolve_collisions. cbn [snd].
  change (Sim.balls rail_table_moving) with [0; 1].
  cbn [Sim.for_each].
  unfold Sim.resolve_collisions_step at 1.
  rewrite (@upd_other rail_heap 1 0 B1) by lia.
  change (rail_heap 0) with held_cue.
  change (Sim.can_collide held_cue) with false.
  rewrite andb_false_r. cbn [andb Py.bind].
  unfold Sim.resolve_collisions_step.
  rewrite upd_same, B1_colliding, B1_can_collide, Hmov. cbn [negb andb].
  unfold Sim.get_collisions.
  change (Sim.balls rail_table_moving) with [0; 1].
  cbn [Sim.for_each].
  unfold Sim.get_collisions_step at 1.
  rewrite (@upd_other rail_heap 1 0 B1) by lia.
  change (rail_heap 0) with held_cue.
  change (Sim.can_collide held_cue) with false.
  cbn [Nat.eqb negb andb Py.bind].
  unfold Sim.get_collisions_step.
  cbn [Nat.eqb negb andb Py.bind].
  rewrite Hchk. rewrite upd_same.
  change (Sim.hit_rail (Sim.collide_with_line (Sim.set_hit_rail true B1)
                                              right_rail)) with true.
  cbn [negb Py.bind]. rewrite upd_same.
  change (Sim.colliding (Sim.collide_with_line (Sim.set_hit_rail true B1)
                                               right_rail))
    with (Sim.colliding B1).
  rewrite B1_colliding.
  unfold Sim.record_rail_contact. rewrite upd_same.
  change (Sim.hit_rail (Sim.collide_with_line (Sim.set_hit_rail true B1)
                                              right_rail)) with true.
  reflexivity.
Qed.

(** A point half-way up the table is in none of the six pockets. *)
Lemma no_pocket_half_way (pockets : list Sim.Circle) (p : Vec.Vector2D) :
  Forall (fun c => Vec.y (Sim.centre c) = 0%R
                   \/ Vec.y (Sim.centre c) = (131 / 100)%R) pockets ->
  Forall (fun c => Sim.c_radius c = (54912 / 1000000)%R) pockets ->
  Vec.y p = (655 / 1000 + 0)%R ->
  existsb (fun pocket => Sim.contains pocket p 0) pockets = false.
Proof.
  intros Hy Hr Hp. induction pockets as [|c l IH]; [reflexivity|].
  inversion Hy as [|? ? Hc Hl]; subst. inversion Hr as [|? ? Hc' Hl']; subst.
  cbn [existsb]. rewrite (IH Hl Hl'), orb_false_r.
  unfold Sim.contains. apply Rleb_false. rewrite Hc'.
  unfold Vec.magnitude_squared, Vec.sub. cbn [Vec.x Vec.y]. rewrite Hp.
  pose proof (pow2_ge_0 (Vec.x p - Vec.x (Sim.centre c))).
  destruct Hc as [-> | ->]; nra.
Qed.

(** One call of [Table.update] with a step of 1/240 s: the cue ball in
    hand is left where it is, ball 1 rolls through it, rebounds from the
    right-hand rail and is entered in the rail-contact record. *)
Lemma rail_shot_run (fuel : nat) :
  exists h' t',
    Sim.update fuel (1 / 240) (rail_heap, rail_table) = Py.Ok (h', t')
    /\ Sim.rail_contacts t' = [1]
    /\ Sim.hit t' = []
    /\ Sim.pocketed t' = []
    /\ Sim.balls t' = [0; 1]
    /\ Sim.in_motion t' = true
    /\ (Vec.x (Sim.vel (h' 1%nat)) < 0)%R.
Proof.
  destruct rail_shot_motion as (B1 & Hmotion & HB).
  fold rail_table_moving in Hmotion.
  assert (HB' : rail_ball_rolled B1) by exact HB.
  destruct HB as (B1_vel & B1_new_pos & B1_pos & B1_radius & B1_settings & _).
  pose proof rail_speed_bounds as Hw.
  set (B2 := Sim.collide_with_line (Sim.set_hit_rail true B1) right_rail).
  destruct (@collide_with_vertical_rail
              (Sim.set_hit_rail true B1) (54912 / 1000000)
              (1255088 / 1000000) (261 / 100))
    as (V1 & V2 & _); [lra|].
  fold right_rail in V1, V2. fold B2 in V1, V2.
  cbn [Sim.vel Sim.new_pos Sim.settings Sim.set_hit_rail] in V1, V2.
  rewrite B1_vel, B1_settings in V1. rewrite B1_new_pos in V2.
  cbn [Vec.x Vec.y Sim.table_coeff_of_rest Sample.settings] in V1, V2.
  set (h2 := Sim.upd (Sim.upd rail_heap 1 B1) 1 B2).
  set (T2 := Sim.set_rail_contacts [1] rail_table_moving).
  set (h3 := Sim.commit_positions h2 T2).
  assert (H30 : h3 0 = Sim.update_position held_cue) by reflexivity.
  assert (H31 : h3 1 = Sim.update_position B2) by reflexivity.
  exists h3, T2. split.
  { unfold Sim.update. rewrite Hmotion. cbn [Py.bind].
    rewrite (@rail_shot_collisions fuel B1 HB'). cbn [Py.bind].
    fold B2. fold h2. fold T2. fold h3.
    unfold Sim.resolve_pockets.
    change (Sim.balls T2) with [0; 1]. cbn [List.length].
    rewrite (@resolve_pockets_loop_skip 1 0 0 h3 T2 0); [|reflexivity|].
    - rewrite (@resolve_pockets_loop_skip 0 1 0 h3 T2 1); [|reflexivity|].
      + apply resolve_pockets_loop_end. reflexivity.
      + unfold Sim.enters_pocket. rewrite H31.
        destruct rail_table_pockets as [P1 P2].
        change (Sim.pockets T2) with (Sim.pockets rail_table).
        rewrite (@no_pocket_half_way _ _ P1 P2); [apply andb_false_r|].
        unfold Sim.update_position, Vec.copy.
        cbn [Sim.pos Sim.set_pos Sim.set_old_pos Sim.new_pos Vec.x Vec.y].
        exact V2.
    - unfold Sim.enters_pocket. rewrite H30.
      destruct held_cue_out_of_play as (_ & Hm0 & _).
      change (Sim.moving (Sim.update_position held_cue))
        with (Sim.moving held_cue).
      rewrite Hm0. reflexivity. }
  split; [reflexivity|]. split; [reflexivity|]. split; [reflexivity|].
  split; [reflexivity|]. split; [reflexivity|].
  rewrite H31.
  change (Sim.vel (Sim.update_position B2)) with (Sim.vel B2).
  rewrite V1. cbn [Vec.x]. lra.
Qed.

Lemma update_appends_to_records_witness :
  exists h' t',
    Sim.update 0 (1 / 240) (rail_heap, rail_table) = Py.Ok (h', t')
    /\ Sim.rail_contacts rail_table = []
    /\ Sim.rail_contacts t' = [1]
    /\ records_grow rail_table t'.
Proof.
  destruct (rail_shot_run 0) as (h' & t' & Hrun & Hr & _).
  exists h', t'. split; [exact Hrun|]. split; [reflexivity|].
  split; [exact Hr|].
  exact (@update_appends_to_records 0 (1 / 240) rail_heap h' rail_table t'
           Hrun).
Defined.

Lemma ball_in_hand_out_of_play_witness :
  exists h' t',
    Sim.update 0 (1 / 240) (rail_heap, rail_table) = Py.Ok (h', t')
    /\ Sim.check_collision_ball (rail_heap 1) (rail_heap 0) = true
    /\ Sim.rail_contacts t' = [1]
    /\ Sim.hit t' = []
    /\ out_of_play (h' 0)
    /\ not_entered 0 rail_table t'
    /\ Sim.pos (h' 0) = Sim.new_pos (rail_heap 0).
Proof.
  destruct (rail_shot_run 0) as (h' & t' & Hrun & Hr & Hh & _).
  exists h', t'. split; [exact Hrun|].
  split.
  { unfold Sim.check_collision_ball. apply check_true_iff.
    unfold Sim.representation. cbn [Sim.centre Sim.c_radius].
    unfold rail_heap, rail_ball, held_cue, rail_spot, Vec.magnitude_squared,
      Vec.sub.
    cbn [Sim.pos Sim.radius Sim.set_vel Sim.set_can_collide Sim.Ball_init
         Sim.ball_radius Sample.settings Vec.x Vec.y pow].
    lra. }
  split; [exact Hr|]. split; [exact Hh|].
  destruct (@ball_in_hand_out_of_play 0 (1 / 240) rail_heap h' rail_table t'
              0 Hrun held_cue_out_of_play)
    as (H1 & H2 & _ & H4 & _).
  split; [exact H1|]. split; [exact H2|].
  apply H4. left. reflexivity.
Defined.
